(* ===== verification/_CoqProject ===== *)
-Q . S2P
Prelude.v
Proto.v
Resource.v
Allocation.v
Capability.v
CapabilityFacts.v
MemoryBudget.v
Node.v
Placement.v
PlacementFacts.v
NetworkPolicy.v
NetworkPolicyFacts.v
Execution.v
Store.v
Reconcile.v
RunStore.v
StoreFacts.v
Admission.v
AdmissionFacts.v
Retention.v
RetentionFacts.v
Tunnel.v
TunnelFacts.v
Claims.v
Safety.v
Reconciler.v
ReconcilerFacts.v
NodeDB.v
NodeAllocation.v
NodeAllocationFacts.v
NodeSafety.v
AccessGrant.v
AccessGrantFacts.v
AccessGrantSafety.v
Queue.v
TruncIndex.v
Cgroup.v
CgroupFacts.v
CgroupStart.v
CgroupSafety.v
Consistency.v
ConsistencyFacts.v
