(* ===== verification/Prelude.v ===== *)
(** * Axern: verified model of the control-plane core

    Axern runs sandboxed workloads on a fleet of nodes.  The control plane
    ([src/control/controld]) admits a _Run_, places it on a node as an
    _Allocation_, drives the Allocation through its lifecycle with a durable
    reconcile queue, and retires both.  This development models the decision
    logic of that control plane and of the contracts it shares with the nodes
    ([src/lib/go]), as executable definitions that follow the Go code function
    by function, and proves what the code relies on.

    ** Parts and files

    - [Prelude]: errors and results as the code builds them ([error], [result]),
      wrapped 64-bit arithmetic, time, strings ([TrimSpace], [Split]), sorting
      ([sort_slice]), shared lemmas and tactics.
    - [Proto]: the protobuf messages and open enumerations the code reads.
    - [Resource] (kernel/resource): claims, node fit with CPU overcommit in
      IEEE binary64, namespace quota, diagnostics.
    - [Allocation] (kernel/allocation, kernel/run): observation acceptance, Run
      status, reconcile intents, retry planning, operator requests.
    - [Capability], [CapabilityFacts] (lib/go/nodecapability): the capability
      registry, identities, snapshots, requirements, evaluation.
    - [MemoryBudget] (lib/go/memorybudget).
    - [Node] (kernel/node): the in-memory node registry and slot accounting.
    - [Placement], [PlacementFacts] (kernel/placement, placement): eligibility,
      ranking, planning, candidate selection.
    - [NetworkPolicy], [NetworkPolicyFacts] (lib/go/networkpolicy).
    - [Execution] (kernel/execution, placement/selector_request.go):
      normalization of a Run configuration and its placement request.
    - [Store]: the tables of postgres/migrations with their constraints and the
      trigger that freezes output expiry, and transactions ([Tx], a state and
      error monad whose state is the database).
    - [Reconcile] (postgres/allocation, postgres/tunnel/revoke.go): claims on
      the reconcile queue, scheduling, grants, tunnels, capability conditions.
    - [RunStore] (postgres/run, postgres/admin): every transaction that changes
      a Run or an Allocation after admission.
    - [StoreFacts]: the abstract lifecycle of one Allocation ([life],
      [life_step]), the store invariant [inv], and the refinement lemma
      [*_moves] of each transaction.
    - [Admission], [AdmissionFacts] (postgres/resourceadmission, namespace,
      [AdmitRun]): the transaction that charges a node and binds a Run.
    - [Retention], [RetentionFacts] (kernel/retention, postgres/retention): the
      periodic cleanup with the cascades of the schema.
    - [Tunnel], [TunnelFacts] (kernel/tunnel, postgres/tunnel): tunnel sessions,
      relay and port selection, peers, the revision a node watches.
    - [Claims]: what a claim round takes and how a lost claim is fenced off.
    - [Safety]: all transactions as one step relation ([store_step], [step]) and
      what holds after any sequence of them.
    - [Reconciler], [ReconcilerFacts] (application/run/reconciler.go): the work
      on one claimed item, and the pool of workers among everything else.
    - [Consistency], [ConsistencyFacts] (kernel/consistency,
      postgres/consistency): the report on access left open, and where along
      the transactions it can come from.
    - [AccessGrant], [AccessGrantFacts], [AccessGrantSafety]
      (application/gateway, postgres/run/access_grant_watch.go, api/nodev1,
      axnoded/internal/controlplane): an access grant on its way from the store
      to the cache of a node, over a stream that breaks and resumes.
    - [NodeDB] (axnoded/internal/nodestate): the node's record store, and the
      interface [StateStore] with its laws.
    - [NodeAllocation], [NodeAllocationFacts], [NodeSafety]
      (axnoded/internal/service/allocation): the node's record of an Allocation,
      proved against that interface, through failed writes, crashes and restarts.
    - [Queue], [TruncIndex] (axnoded/pkg/queue, pkg/truncindex): the FIFO of a
      pool on a growing ring buffer; identifiers in use and the interface
      [UniqueIdGenerator] of fresh ones.
    - [Cgroup], [CgroupFacts], [CgroupStart], [CgroupSafety]
      (axnoded/internal/resources): the node's ledger of cgroups, what owns its
      memory, over the interfaces [SnapshotStore] and [UniqueIdGenerator]; its
      invariant ([inv]), its start, and the manager with its worker as a step
      relation ([cgroup_step]).

    ** How state and operations correspond

    A PostgreSQL table is a finite map from its primary key to a record of its
    other columns ([DB]).  A statement is a function on [DB] that reports the
    rows it affects; CHECK, key and foreign-key rules and the trigger apply to
    the rows a statement writes, and an error rolls the transaction back unless
    it asks to commit ([withTx], [ShouldCommitError]).  A transaction holds the
    row locks it takes, so the model runs transactions one after another; rows
    another worker holds are the [locked] argument where the code says SKIP
    LOCKED.  Times are nanoseconds; what the database keeps of a timestamp is
    the class [SqlTime], instantiated with microseconds.  Clocks, random
    identifiers, [idna], [mime] and the UUID hash are arguments.

    A proto message is a record, a message field an [option], a repeated field
    a list; a Go map that is only looked up is a [gmap], and where it is ranged
    over the theorems show that the order cannot be seen.  [int64] results wrap
    ([int64_add] and the like) and floats are [SpecFloat].

    ** What the theorems show

    Each property carries its claim number in its doc comment.  The groups:

    - the store as a whole: refinement of the Allocation lifecycle, the store
      invariant, an Allocation lives once, a tunnel session is closed once and
      its closing reaches the watching node, unless retention deletes the session
      before the node reads ([Safety]);
    - access ends with its Allocation, save where a start fails late, which the
      consistency checker reports ([ConsistencyFacts]); its report is exact
      ([Consistency]);
    - workers: claim rounds are exclusive, bounded and fair, a stale worker
      changes nothing ([Claims]), the reconciler keeps the store sound
      ([ReconcilerFacts]); retention removes only what is finished
      ([RetentionFacts]);
    - admission: what is charged stays within node capacity and namespace
      quota, the decision is sound under the locks, a refusal leaves exactly
      its quota event, an expired observation on the preferred node refuses the
      Run ([AdmissionFacts]); fit checks are exact on 64-bit integers
      ([Resource]);
    - placement: eligibility is the conjunction of the node predicates, plans
      are deterministic, selection returns only usable candidates
      ([PlacementFacts], [Node]);
    - contracts: capability identity, availability and freshness
      ([CapabilityFacts]), memory budget bounds ([MemoryBudget]), canonical
      network policies ([NetworkPolicyFacts]), normalized configurations
      ([Execution]);
    - access: under every transaction, retention included, a node admits only
      what the store has granted; once it has caught up it decides as the store
      does, except for revoked grants that retention deleted before they expired;
      and it can always catch up ([AccessGrantSafety]);
    - the node: what it wrote it can recover, identity and first termination
      cause are final, leases are extended exactly as granted, image roots are
      released once ([NodeAllocationFacts], [NodeSafety]); its queues are lists
      ([Queue]) and its indexes sets ([TruncIndex]);
    - memory of a node: what owns memory is on disk, in one pool, survives every
      crash once a capacity is recorded, and is never reused; admission stays
      within the capacity sample; one way in which a node can no longer start ([CgroupSafety]);
    - lifecycle: observation acceptance, retry bounds ([Allocation]); peers,
      ports and relays of a tunnel ([TunnelFacts]).

    ** Fuel

    [availableObservationSet_fuel] recurses over capability dependencies; the
    shipped registry has depth two and [AvailableObservation_iff] is proved for
    the executable fuel.  Other recursion is structural, or runs on the length
    of its input.

    ** Not modelled

    Handlers, wiring, metrics, logging and the node bridge around the modelled
    operations; secrets, principals and image credentials; read-only queries
    that only list rows; the runtime daemons, whose work is mounts, containers,
    sockets and eBPF; the Rust file system; generated code. Of the cgroup start,
    failures of the kernel calls that create or list the root ([EnsureRoot],
    [ExistingGroups]) are left out, and the begin, verify and charge of the
    garbage collector are one step. *)

From stdpp Require Export base tactics option list gmap strings sorting.
From Stdlib Require Export ZArith Lia String Ascii.
From Stdlib Require Import OrdersEx.

(** [length] is the length of a list. *)
Abbreviation length := Datatypes.length.

#[global] Open Scope string_scope.
#[global] Open Scope list_scope.
#[global] Open Scope Z_scope.

(** ** Errors and results

    A Go [error] value.  [Errorf]/[Wrapf] are [fmt.Errorf] without and with a
    [%w] cause, [Status] is a [grpcstatus.Errorf] value, [StatusOf] one whose
    text ends in another error ([%v]), [StatusInfo] a status
    that carries an [errdetails.ErrorInfo], [Sentinel] an [errors.New] value
    [Committed] the [committedAdmissionError] wrapper and [Joined] the result
    of [errors.Join].  The format string
    is kept verbatim and the arguments beside it, so two errors are equal only
    when the source would print the same text. *)
Inductive farg := AStr (s : string) | AInt (z : Z).

Inductive codes :=
  OK | Unknown | InvalidArgument | NotFound | FailedPrecondition | Aborted
| ResourceExhausted | Unimplemented | Internal | PermissionDenied | AlreadyExists | Unauthenticated
| Unavailable | OtherCode (n : Z).

Inductive error :=
| Errorf (format : string) (args : list farg)
| Wrapf (format : string) (args : list farg) (cause : error)
| Status (code : codes) (format : string) (args : list farg)
| StatusOf (code : codes) (format : string) (cause : error)
| StatusInfo (code : codes) (message reason domain : string)
    (metadata : list (string * string))
| Sentinel (name : string)
| Committed (cause : error)
| Joined (e e' : error).

(** [grpcstatus.Code]: [errors.As] looks through the wrappers, and into the
    errors that [errors.Join] put together, first to last. *)
Fixpoint status_of (e : error) : option codes :=
  match e with
  | Status c _ _ | StatusOf c _ _ | StatusInfo c _ _ _ _ => Some c
  | Wrapf _ _ cause | Committed cause => status_of cause
  | Errorf _ _ | Sentinel _ => None
  | Joined e e' => match status_of e with Some c => Some c | None => status_of e' end
  end.
Definition status_code (e : error) : codes := default Unknown (status_of e).

(** [errors.Is(e, Sentinel name)]. *)
Fixpoint errors_Is (e : error) (name : string) : bool :=
  match e with
  | Sentinel n => String.eqb n name
  | Wrapf _ _ cause | Committed cause => errors_Is cause name
  | Joined e e' => errors_Is e name || errors_Is e' name
  | _ => false
  end.

Inductive result (A : Type) := Ok (a : A) | Err (e : error).
Arguments Ok {A} a.
Arguments Err {A} e.

#[export] Instance result_ret : MRet result := fun _ => Ok.
#[export] Instance result_bind : MBind result := fun _ _ f m =>
  match m with Ok a => f a | Err e => Err e end.

(** [errors.Join] of two errors that may be nil. *)
Definition Join (r r' : result ()) : result () :=
  match r, r' with
  | Err e, Err e' => Err (Joined e e')
  | Err e, Ok _ | Ok _, Err e => Err e
  | Ok _, Ok _ => Ok ()
  end.

Definition is_Ok {A} (r : result A) : bool :=
  match r with Ok _ => true | Err _ => false end.

Definition wrap_err {A} (format : string) (args : list farg) (r : result A) : result A :=
  match r with Ok a => Ok a | Err e => Err (Wrapf format args e) end.

#[export] Instance codes_eq_dec : EqDecision codes.
Proof. solve_decision. Defined.

(** A [for index, x := range l] loop whose body may return an error. *)
Fixpoint for_each_from {A} (index : nat) (body : nat -> A -> result ()) (l : list A) : result () :=
  match l with
  | [] => Ok ()
  | x :: rest => _ ← body index x; for_each_from (S index) body rest
  end.
Definition for_each {A} := @for_each_from A 0%nat.

(** A [for _, x := range l] loop that threads an accumulator. *)
Fixpoint foldM {A S} (body : S -> A -> result S) (s : S) (l : list A) : result S :=
  match l with
  | [] => Ok s
  | x :: rest => s' ← body s x; foldM body s' rest
  end.

(** ** Protobuf messages

    A message pointer is an [option]; the generated getters return the zero
    value of the field on a nil receiver, so a getter chain is a chain of
    [deref]s. *)
Class Zero (A : Type) := zero : A.
Definition deref {A} `{Zero A} (m : option A) : A := default zero m.
Arguments deref {A _} !m /.
#[export] Instance zero_option {A} : Zero (option A) := None.
#[export] Instance zero_Z : Zero Z := 0.
#[export] Instance zero_bool : Zero bool := false.
#[export] Instance zero_string : Zero string := "".
#[export] Instance zero_list {A} : Zero (list A) := [].

Definition is_nil {A} (m : option A) : bool := match m with None => true | _ => false end.
Definition non_nil {A} (m : option A) : bool := negb (is_nil m).

(** ** Machine integers *)
Definition MaxInt64 : Z := 2 ^ 63 - 1.
Definition MinInt64 : Z := - 2 ^ 63.
Definition int64 (z : Z) : Prop := MinInt64 <= z <= MaxInt64.
Definition wrap64 (z : Z) : Z := (z + 2 ^ 63) mod 2 ^ 64 - 2 ^ 63.
Definition wrap32 (z : Z) : Z := (z + 2 ^ 31) mod 2 ^ 32 - 2 ^ 31.

Lemma wrap64_id z : int64 z -> wrap64 z = z.
Proof.
  unfold int64, wrap64, MinInt64, MaxInt64. intros [Hl Hu].
  rewrite Z.mod_small; lia.
Qed.

Lemma wrap64_range z : int64 (wrap64 z).
Proof.
  unfold int64, wrap64, MinInt64, MaxInt64.
  pose proof (Z.mod_pos_bound (z + 2 ^ 63) (2 ^ 64) ltac:(lia)). lia.
Qed.

(** ** Time

    A [time.Time] is an exact count of nanoseconds relative to the Unix epoch,
    a [time.Duration] an int64 count.  [Time.Sub] saturates. *)
Definition time := Z.
Definition Nanosecond : Z := 1.
Definition Second : Z := 1000000000.
Definition Minute : Z := 60 * Second.
Definition Hour : Z := 60 * Minute.

(** [time.Time{}] is January 1 of year 1. *)
Definition zero_time : time := -62135596800 * Second.
Definition IsZero (t : time) : bool := t =? zero_time.
Definition After (t u : time) : bool := u <? t.
Definition Before (t u : time) : bool := t <? u.
Definition Add (t : time) (d : Z) : time := t + d.
Definition Sub (t u : time) : Z := Z.max MinInt64 (Z.min MaxInt64 (t - u)).

(** [timestamppb.Timestamp] with [AsTime] and the range check of [CheckValid]. *)
Record Timestamp := mkTimestamp { ts_seconds : Z; ts_nanos : Z }.
#[export] Instance zero_Timestamp : Zero Timestamp := mkTimestamp 0 0.
Definition AsTime (t : option Timestamp) : time :=
  (deref t).(ts_seconds) * Second + (deref t).(ts_nanos).
Definition CheckValid (t : option Timestamp) : result () :=
  match t with
  | None => Err (Errorf "invalid nil Timestamp" [])
  | Some t =>
      if t.(ts_seconds) <? -62135596800 then Err (Errorf "timestamp before 0001-01-01" [])
      else if 253402300799 <? t.(ts_seconds) then Err (Errorf "timestamp after 9999-12-31" [])
      else if (t.(ts_nanos) <? 0) || (1000000000 <=? t.(ts_nanos))
           then Err (Errorf "timestamp has out-of-range nanos" [])
      else Ok ()
  end.
Definition timestamppb_New (t : time) : Timestamp := mkTimestamp (t / Second) (t mod Second).

Lemma AsTime_New t : AsTime (Some (timestamppb_New t)) = t.
Proof.
  unfold AsTime, timestamppb_New, deref; simpl. unfold Second.
  pose proof (Z.div_mod t 1000000000 ltac:(lia)). lia.
Qed.

(** ** Go strings: byte sequences with the [strings] package *)
Definition string_lt (a b : string) : bool := String.ltb a b.

Fixpoint strip_prefix (p s : string) : option string :=
  match p, s with
  | EmptyString, _ => Some s
  | String a p', String b s' => if Ascii.eqb a b then strip_prefix p' s' else None
  | String _ _, EmptyString => None
  end.

Definition HasPrefix (s p : string) : bool := non_nil (strip_prefix p s).
Definition TrimPrefix (s p : string) : string := default s (strip_prefix p s).

Fixpoint string_rev_acc (s acc : string) : string :=
  match s with EmptyString => acc | String c s' => string_rev_acc s' (String c acc) end.
Definition string_rev (s : string) : string := string_rev_acc s "".

Definition HasSuffix (s p : string) : bool := HasPrefix (string_rev s) (string_rev p).
Definition TrimSuffix (s p : string) : string :=
  string_rev (TrimPrefix (string_rev s) (string_rev p)).

Definition byte_str (l : list nat) : string :=
  fold_right (fun n s => String (ascii_of_nat n) s) "" l.

(** The UTF-8 encodings of the code points [unicode.IsSpace] accepts. *)
Definition space_runes : list string := Eval compute in
  map byte_str
    ([[9]; [10]; [11]; [12]; [13]; [32]; [194; 133]; [194; 160]; [225; 154; 128]]
     ++ map (fun n => [226; 128; n])
          [128; 129; 130; 131; 132; 133; 134; 135; 136; 137; 138; 168; 169; 175]
     ++ [[226; 129; 159]; [227; 128; 128]])%nat.

(** Drop one leading element of [pats], if there is one. *)
Fixpoint strip_one (pats : list string) (s : string) : option string :=
  match pats with
  | [] => None
  | p :: rest => match strip_prefix p s with Some s' => Some s' | None => strip_one rest s end
  end.
Fixpoint strip_all (fuel : nat) (pats : list string) (s : string) : string :=
  match fuel with
  | O => s
  | S fuel' => match strip_one pats s with Some s' => strip_all fuel' pats s' | None => s end
  end.
Definition trim_left (s : string) : string := strip_all (String.length s) space_runes s.
Definition trim_right (s : string) : string :=
  string_rev (strip_all (String.length s) (map string_rev space_runes) (string_rev s)).
Definition TrimSpace (s : string) : string := trim_right (trim_left s).

Fixpoint Contains_byte (c : ascii) (s : string) : bool :=
  match s with EmptyString => false | String a s' => Ascii.eqb a c || Contains_byte c s' end.

(** [strings.Split] on a one-byte separator. *)
Fixpoint Split (sep : ascii) (s : string) : list string :=
  match s with
  | EmptyString => [""]
  | String c s' =>
      if Ascii.eqb c sep then "" :: Split sep s'
      else match Split sep s' with
           | [] => [String c ""]
           | w :: ws => String c w :: ws
           end
  end.

(** [strings.Cut] on a one-byte separator: before, after, found. *)
Fixpoint Cut (sep : ascii) (s : string) : string * string * bool :=
  match s with
  | EmptyString => ("", "", false)
  | String c s' =>
      if Ascii.eqb c sep then ("", s', true)
      else let '(b, a, found) := Cut sep s' in (String c b, a, found)
  end.

Fixpoint all_bytes (p : ascii -> bool) (s : string) : bool :=
  match s with EmptyString => true | String c s' => p c && all_bytes p s' end.

Definition in_range (lo hi : nat) (c : ascii) : bool :=
  (lo <=? nat_of_ascii c)%nat && (nat_of_ascii c <=? hi)%nat.
Definition ascii_lower (c : ascii) : ascii :=
  if in_range 65 90 c then ascii_of_nat (nat_of_ascii c + 32) else c.
Fixpoint map_bytes (f : ascii -> ascii) (s : string) : string :=
  match s with EmptyString => "" | String c s' => String (f c) (map_bytes f s') end.
Definition is_ascii (s : string) : bool := all_bytes (in_range 0 127) s.

Fixpoint take_bytes (n : nat) (s : string) : string :=
  match n, s with
  | S n', String c s' => String c (take_bytes n' s')
  | _, _ => ""
  end.
Definition str_len (s : string) : Z := Z.of_nat (String.length s).
Definition sconcat (sep : string) (l : list string) : string := String.concat sep l.

(** Decimal rendering of [%d]. *)
Fixpoint digits_fuel (fuel : nat) (n : N) (acc : string) : string :=
  match fuel with
  | O => acc
  | S fuel' =>
      let acc' := String (ascii_of_N (48 + n mod 10)%N) acc in
      if (n <? 10)%N then acc' else digits_fuel fuel' (n / 10)%N acc'
  end.
Definition format_N (n : N) : string := digits_fuel (S (N.to_nat (N.log2 n))) n "".
Definition format_Z (z : Z) : string :=
  if z <? 0 then "-" +:+ format_N (Z.to_N (- z)) else format_N (Z.to_N z).

(** ** UTF-8 ([unicode/utf8]): the acceptance ranges of RFC 3629 *)
Definition is_cont : ascii -> bool := in_range 128 191.

(** Length of the valid encoding at the front of [s], if there is one. *)
Definition rune_len (s : string) : option nat :=
  match s with
  | EmptyString => None
  | String a s1 =>
      if in_range 0 127 a then Some 1%nat
      else match s1 with
      | EmptyString => None
      | String b s2 =>
          if in_range 194 223 a then (if is_cont b then Some 2%nat else None)
          else match s2 with
          | EmptyString => None
          | String c s3 =>
              let b3 := if Ascii.eqb a (ascii_of_nat 224) then in_range 160 191 b
                        else if Ascii.eqb a (ascii_of_nat 237) then in_range 128 159 b
                        else is_cont b in
              if in_range 224 239 a then (if b3 && is_cont c then Some 3%nat else None)
              else match s3 with
              | EmptyString => None
              | String d _ =>
                  let b4 := if Ascii.eqb a (ascii_of_nat 240) then in_range 144 191 b
                            else if Ascii.eqb a (ascii_of_nat 244) then in_range 128 143 b
                            else is_cont b in
                  if in_range 240 244 a && b4 && is_cont c && is_cont d then Some 4%nat else None
              end
          end
      end
  end.

Fixpoint drop_bytes (n : nat) (s : string) : string :=
  match n, s with
  | O, _ => s
  | S n', String _ s' => drop_bytes n' s'
  | S _, EmptyString => ""
  end.

Fixpoint valid_utf8_fuel (fuel : nat) (s : string) : bool :=
  match s, fuel with
  | EmptyString, _ => true
  | _, O => false
  | _, S fuel' =>
      match rune_len s with
      | Some n => valid_utf8_fuel fuel' (drop_bytes n s)
      | None => false
      end
  end.
Definition ValidString (s : string) : bool := valid_utf8_fuel (String.length s) s.

(** [strings.ToValidUTF8]: each run of invalid bytes becomes one [replacement]. *)
Fixpoint to_valid_utf8_fuel (fuel : nat) (in_invalid : bool) (replacement s : string) : string :=
  match fuel with
  | O => ""
  | S fuel' =>
      match s with
      | EmptyString => ""
      | String c rest =>
          match rune_len s with
          | Some n => take_bytes n s +:+ to_valid_utf8_fuel fuel' false replacement (drop_bytes n s)
          | None =>
              if in_invalid then to_valid_utf8_fuel fuel' true replacement rest
              else replacement +:+ to_valid_utf8_fuel fuel' true replacement rest
          end
      end
  end.
Definition ToValidUTF8 (s replacement : string) : string :=
  to_valid_utf8_fuel (S (String.length s)) false replacement s.
(** U+FFFD. *)
Definition replacement_rune : string := Eval compute in byte_str [239; 191; 189]%nat.

(** ** Sorting

    [sort.Slice] with [less] yields a permutation on which no element is
    [less] than an earlier one; the model picks the stable such permutation,
    and [sort_slice_unique] says when there is only one. *)
Section sort_slice.
Context {A : Type} (less : A -> A -> bool).
Definition not_after (a b : A) : Prop := less b a = false.
#[local] Instance not_after_dec : forall a b, Decision (not_after a b).
Proof. intros a b. unfold not_after. apply _. Defined.
Definition sort_slice (l : list A) : list A := merge_sort not_after l.
End sort_slice.

(** ** Shared lemmas *)
Create HintDb axern.

(** Turn boolean conditions in hypotheses into propositions. *)
Ltac b2p :=
  repeat match goal with
  | H : _ && _ = true |- _ => apply andb_true_iff in H as [? ?]
  | H : _ || _ = false |- _ => apply orb_false_iff in H as [? ?]
  | H : _ && _ = false |- _ => apply andb_false_iff in H
  | H : _ || _ = true |- _ => apply orb_true_iff in H
  | H : negb _ = true |- _ => apply negb_true_iff in H
  | H : negb _ = false |- _ => apply negb_false_iff in H
  | H : bool_decide _ = true |- _ => apply bool_decide_eq_true in H
  | H : bool_decide _ = false |- _ => apply bool_decide_eq_false in H
  | H : String.eqb _ _ = true |- _ => apply String.eqb_eq in H
  | H : String.eqb _ _ = false |- _ => apply String.eqb_neq in H
  end.

(** Case on the first condition of the goal. *)
Ltac branch H := match goal with |- context [if ?b then _ else _] => destruct b eqn:H end.

(** Case on every [if]/[match] of a successful computation. *)
Ltac ok_cases H :=
  repeat (first
    [ discriminate H
    | match type of H with
      | context [if ?b then _ else _] => let E := fresh "E" in destruct b eqn:E
      | context [match ?x with _ => _ end] => let E := fresh "E" in destruct x eqn:E
      end ]).

Lemma bind_Ok {A B} (m : result A) (f : A -> result B) b :
  m ≫= f = Ok b <-> exists a, m = Ok a /\ f a = Ok b.
Proof.
  destruct m as [a|e]; simpl; split.
  - intros H. by exists a.
  - by intros (a' & [= ->] & H).
  - intros H. discriminate H.
  - intros (a' & [=] & _).
Qed.

Lemma bind_unit_Ok {B} (m : result ()) (k : result B) b :
  (m ≫= fun _ => k) = Ok b <-> m = Ok () /\ k = Ok b.
Proof. rewrite bind_Ok. split; [by intros ([] & ? & ?)|intros [? ?]; by exists ()]. Qed.

Lemma for_each_from_ok {A} i body (l : list A) :
  for_each_from i body l = Ok () <->
  (forall j x, l !! j = Some x -> body (i + j)%nat x = Ok ()).
Proof.
  revert i. induction l as [|x l IH]; intros i; simpl; [split; [by intros _ j x|done]|].
  rewrite bind_Ok. split.
  - intros ([] & Hx & Hl) [|j] y Hy; simpl in Hy; simplify_eq.
    + by rewrite Nat.add_0_r.
    + rewrite <- Nat.add_succ_comm. by apply (proj1 (IH (S i)) Hl).
  - intros H. exists (). split.
    + specialize (H O x eq_refl). by rewrite Nat.add_0_r in H.
    + apply IH. intros j y Hy. rewrite Nat.add_succ_comm. by apply H.
Qed.

Lemma for_each_ok {A} body (l : list A) :
  for_each body l = Ok () <-> (forall j x, l !! j = Some x -> body j x = Ok ()).
Proof. apply (for_each_from_ok 0). Qed.

(** *** The byte order on strings *)
Lemma string_lt_spec a b : string_lt a b = true <-> String_as_OT.lt a b.
Proof.
  unfold string_lt, String.ltb, String_as_OT.lt.
  change (String_as_OT.compare a b) with (String.compare a b).
  destruct (String.compare a b); split; congruence.
Qed.

Lemma string_lt_irrefl a : string_lt a a = false.
Proof.
  apply not_true_iff_false. rewrite string_lt_spec.
  apply (StrictOrder_Irreflexive (R := String_as_OT.lt)).
Qed.

Lemma string_lt_trans a b c : string_lt a b = true -> string_lt b c = true -> string_lt a c = true.
Proof. rewrite !string_lt_spec. apply (StrictOrder_Transitive (R := String_as_OT.lt)). Qed.

Lemma string_lt_connex a b : string_lt a b = false -> string_lt b a = false -> a = b.
Proof.
  unfold string_lt, String.ltb. rewrite (String.compare_antisym b a).
  destruct (String.compare a b) eqn:E; simpl; try discriminate.
  intros _ _. by apply String.compare_eq_iff.
Qed.

Lemma string_lt_asym a b : string_lt a b = true -> string_lt b a = false.
Proof.
  intros H. apply not_true_iff_false. intros H'.
  pose proof (string_lt_trans _ _ _ H H'). by rewrite string_lt_irrefl in H0.
Qed.

(** *** [sort.Slice] *)
Record strict_weak {A} (less : A -> A -> bool) : Prop := {
  sw_asym a b : less a b = true -> less b a = false;
  sw_trans a b c : less a b = false -> less b c = false -> less a c = false }.

Section sort_facts.
Context {A : Type} (less : A -> A -> bool).

Lemma sort_slice_perm l : sort_slice less l ≡ₚ l.
Proof. apply merge_sort_Permutation. Qed.

Lemma elem_of_sort_slice x l : x ∈ sort_slice less l <-> x ∈ l.
Proof. by rewrite sort_slice_perm. Qed.

Context (SW : strict_weak less).

#[local] Instance not_after_total : Total (not_after less).
Proof.
  intros a b. unfold not_after. destruct (less b a) eqn:E; [right|by left].
  by apply (sw_asym less SW).
Qed.

#[local] Instance not_after_trans : Transitive (not_after less).
Proof. intros a b c H1 H2. unfold not_after in *. by apply (sw_trans less SW _ b). Qed.

Lemma sort_slice_sorted l : StronglySorted (not_after less) (sort_slice less l).
Proof. apply StronglySorted_merge_sort; apply _. Qed.

(** Any list the runtime may return (a permutation in order) is the model's,
    when distinct elements are ordered. *)
Lemma sort_slice_unique l l' :
  (forall a b, a ∈ l -> b ∈ l -> less a b = false -> less b a = false -> a = b) ->
  l' ≡ₚ l -> StronglySorted (not_after less) l' -> l' = sort_slice less l.
Proof.
  intros Hanti Hp Hs. pose proof (sort_slice_sorted l) as Hs'.
  assert (Hp' : l' ≡ₚ sort_slice less l) by (by rewrite sort_slice_perm).
  assert (Hin : forall a, a ∈ l' -> a ∈ l) by (intros a; by rewrite Hp).
  clear Hp. revert Hp' Hs'. generalize (sort_slice less l). revert Hin.
  induction Hs as [|a k Hk IH Hfa]; intros Hin k' Hp Hs'.
  { by apply Permutation_nil_l in Hp. }
  destruct k' as [|b k']; [by apply Permutation_nil_r in Hp|].
  inversion Hs' as [|b' k'' Hk' Hfb]; subst.
  assert (a = b) as ->.
  { rewrite Forall_forall in Hfa, Hfb. apply Hanti.
    - apply Hin, elem_of_cons; by left.
    - apply Hin. rewrite Hp. apply elem_of_cons; by left.
    - assert (Ha : a ∈ b :: k') by (rewrite <- Hp; apply elem_of_cons; by left).
      apply elem_of_cons in Ha as [->|Ha]; [|by apply Hfb].
      destruct (less b b) eqn:E; [|done]. by rewrite (sw_asym less SW _ _ E) in E.
    - assert (Hb : b ∈ a :: k) by (rewrite Hp; apply elem_of_cons; by left).
      apply elem_of_cons in Hb as [->|Hb]; [|by apply Hfa].
      destruct (less a a) eqn:E; [|done]. by rewrite (sw_asym less SW _ _ E) in E. }
  f_equal. apply IH; [|by apply (Permutation_cons_inv Hp)|done].
  intros c Hc. apply Hin, elem_of_cons; by right.
Qed.
End sort_facts.

Lemma string_lt_strict_weak : strict_weak string_lt.
Proof.
  split; [apply string_lt_asym|]. intros a b c H1 H2.
  destruct (string_lt a c) eqn:E; [|done]. exfalso.
  destruct (string_lt b a) eqn:E1; [by rewrite (string_lt_trans _ _ _ E1 E) in H2|].
  by rewrite (string_lt_connex _ _ H1 E1), H2 in E.
Qed.

(** *** Trimming *)
Lemma append_assoc (a b c : string) : (a +:+ b) +:+ c = a +:+ (b +:+ c).
Proof. induction a as [|x a IH]; [done|]. change (String x ((a +:+ b) +:+ c) = String x (a +:+ (b +:+ c))). by rewrite IH. Qed.
Lemma append_nil_r (a : string) : a +:+ "" = a.
Proof. induction a as [|x a IH]; [done|]. change (String x (a +:+ "") = String x a). by rewrite IH. Qed.
Lemma append_length (a b : string) :
  String.length (a +:+ b) = (String.length a + String.length b)%nat.
Proof. induction a as [|x a IH]; [done|]. change (S (String.length (a +:+ b)) = S (String.length a + String.length b)). by rewrite IH. Qed.
Lemma string_rev_acc_app s acc : string_rev_acc s acc = string_rev s +:+ acc.
Proof.
  unfold string_rev. revert acc. induction s as [|c s IH]; intros acc; simpl; [done|].
  rewrite IH, (IH (String c "")). by rewrite append_assoc.
Qed.
Lemma string_rev_cons c s : string_rev (String c s) = string_rev s +:+ String c "".
Proof. unfold string_rev at 1. simpl. by rewrite string_rev_acc_app. Qed.
Lemma string_rev_app a b : string_rev (a +:+ b) = string_rev b +:+ string_rev a.
Proof.
  induction a as [|c a IH].
  - change (string_rev ("" +:+ b)) with (string_rev b). change (string_rev "") with "".
    by rewrite append_nil_r.
  - change (String c a +:+ b) with (String c (a +:+ b)).
    by rewrite !string_rev_cons, IH, <- append_assoc.
Qed.
Lemma string_rev_involutive s : string_rev (string_rev s) = s.
Proof. induction s as [|c s IH]; [done|]. by rewrite string_rev_cons, string_rev_app, IH. Qed.
Lemma string_rev_length s : String.length (string_rev s) = String.length s.
Proof.
  induction s as [|c s IH]; [done|]. rewrite string_rev_cons, append_length, IH. simpl. lia.
Qed.

Lemma strip_prefix_Some p s t : strip_prefix p s = Some t <-> s = p +:+ t.
Proof.
  revert s. induction p as [|a p IH]; intros s; [split; [by intros [= ->]|by intros ->]|].
  change (String a p +:+ t) with (String a (p +:+ t)).
  destruct s as [|b s]; [done|]. simpl. destruct (Ascii.eqb_spec a b) as [->|Hne].
  - rewrite IH. split; [by intros ->|by intros [= ->]].
  - split; [done|]. by intros [= ->].
Qed.
Lemma strip_one_Some pats s t : strip_one pats s = Some t -> exists p, p ∈ pats /\ s = p +:+ t.
Proof.
  induction pats as [|p pats IH]; simpl; [done|]. destruct (strip_prefix p s) as [s'|] eqn:E.
  - intros [= <-]. exists p. split; [by left|by apply strip_prefix_Some].
  - intros (q & Hq & ->)%IH. exists q. split; [by right|done].
Qed.
Lemma strip_one_None pats s : strip_one pats s = None <-> forall p t, p ∈ pats -> s <> p +:+ t.
Proof.
  induction pats as [|p pats IH]; simpl; [split; [intros _ p t Hp; by apply not_elem_of_nil in Hp|done]|].
  destruct (strip_prefix p s) as [s'|] eqn:E.
  - split; [done|]. intros Hn. apply strip_prefix_Some in E. by destruct (Hn p s'); [left|].
  - rewrite IH. split.
    + intros Hn q t [->|Hq]%elem_of_cons; [|by apply Hn]. intros Hs.
      apply strip_prefix_Some in Hs. congruence.
    + intros Hn q t Hq. apply Hn. by right.
Qed.

Lemma strip_all_suffix fuel pats s : exists x, s = x +:+ strip_all fuel pats s.
Proof.
  revert s. induction fuel as [|fuel IH]; intros s; simpl; [by exists ""|].
  destruct (strip_one pats s) as [t|] eqn:E; [|by exists ""].
  apply strip_one_Some in E as (p & _ & ->). destruct (IH t) as [x Hx]. exists (p +:+ x).
  by rewrite append_assoc, <- Hx.
Qed.
Lemma strip_all_done fuel pats s :
  "" ∉ pats -> (String.length s <= fuel)%nat -> strip_one pats (strip_all fuel pats s) = None.
Proof.
  intros Hne. revert s. induction fuel as [|fuel IH]; intros s Hf; simpl.
  - apply strip_one_None. intros p t Hp ->. rewrite append_length in Hf.
    destruct p; [done|simpl in Hf; lia].
  - destruct (strip_one pats s) as [t|] eqn:E; [|done]. apply IH.
    apply strip_one_Some in E as (p & Hp & ->). rewrite append_length in Hf.
    destruct p; [done|simpl in Hf; lia].
Qed.
Lemma strip_all_fix fuel pats s : strip_one pats s = None -> strip_all fuel pats s = s.
Proof. destruct fuel; simpl; [done|]. by intros ->. Qed.

Lemma spaces_nonempty : "" ∉ space_runes /\ "" ∉ map string_rev space_runes.
Proof. split; apply (bool_decide_unpack _); vm_compute; exact I. Qed.

(** A trimmed string has no surrounding white space. *)
Lemma TrimSpace_idempotent s : TrimSpace (TrimSpace s) = TrimSpace s.
Proof.
  unfold TrimSpace. set (l := trim_left s).
  assert (Hl : strip_one space_runes l = None) by (apply strip_all_done; [apply spaces_nonempty|done]).
  assert (Hr : strip_one (map string_rev space_runes) (string_rev (trim_right l)) = None).
  { unfold trim_right. rewrite string_rev_involutive. apply strip_all_done; [apply spaces_nonempty|].
    by rewrite string_rev_length. }
  assert (Hl' : strip_one space_runes (trim_right l) = None).
  { destruct (strip_all_suffix (String.length l) (map string_rev space_runes) (string_rev l)) as [x Hx].
    apply strip_one_None. intros p t Hp Ht. rewrite strip_one_None in Hl.
    apply (Hl p (t +:+ string_rev x) Hp). rewrite <- append_assoc, <- Ht. unfold trim_right.
    rewrite <- string_rev_app, <- Hx. by rewrite string_rev_involutive. }
  assert (trim_left (trim_right l) = trim_right l) as -> by (by apply strip_all_fix).
  unfold trim_right at 1. rewrite (strip_all_fix _ _ _ Hr). apply string_rev_involutive.
Qed.

(** Printable ASCII text is trimmed. *)
Definition graph (c : ascii) : bool := in_range 33 126 c.
Definition starts_graph (s : string) : bool := match s with EmptyString => true | String c _ => graph c end.
Lemma strip_graph pats s :
  forallb (fun p => match p with EmptyString => false | String c _ => negb (graph c) end) pats = true ->
  starts_graph s = true -> strip_one pats s = None.
Proof.
  intros Hp Hs. apply strip_one_None. intros p t Hin ->. rewrite forallb_forall in Hp.
  specialize (Hp p (proj1 (list_elem_of_In _ _) Hin)). destruct p as [|c p]; [done|]. simpl in Hs.
  by rewrite Hs in Hp.
Qed.
Lemma all_bytes_app p a b : all_bytes p (a +:+ b) = all_bytes p a && all_bytes p b.
Proof.
  induction a as [|c a IH]; [done|]. change (String c a +:+ b) with (String c (a +:+ b)). simpl.
  by rewrite IH, andb_assoc.
Qed.
Lemma all_bytes_rev p s : all_bytes p (string_rev s) = all_bytes p s.
Proof.
  induction s as [|c s IH]; [done|]. rewrite string_rev_cons, all_bytes_app, IH. simpl.
  rewrite andb_true_r. apply andb_comm.
Qed.
Lemma TrimSpace_graph s : all_bytes graph s = true -> TrimSpace s = s.
Proof.
  intros Hs.
  assert (Hstart : forall t, all_bytes graph t = true -> starts_graph t = true).
  { intros [|c t]; [done|]. simpl. by intros [-> _]%andb_true_iff. }
  assert (Hl : trim_left s = s).
  { apply strip_all_fix, strip_graph; [vm_compute; reflexivity|by apply Hstart]. }
  unfold TrimSpace. rewrite Hl. unfold trim_right. rewrite strip_all_fix; [apply string_rev_involutive|].
  apply strip_graph; [vm_compute; reflexivity|]. apply Hstart. by rewrite all_bytes_rev.
Qed.

(** The text form of a UUID: 36 hexadecimal digits and dashes. *)
Definition is_uuid (s : string) : bool :=
  (String.length s =? 36)%nat
  && all_bytes (fun c => in_range 48 57 c || in_range 97 102 c || Ascii.eqb c "-") s.
Lemma all_bytes_impl (p q : ascii -> bool) s :
  (forall c, p c = true -> q c = true) -> all_bytes p s = true -> all_bytes q s = true.
Proof.
  intros Hpq. induction s as [|c s IH]; [done|]. simpl. rewrite !andb_true_iff. intros [Hc Hs]. auto.
Qed.
Lemma uuid_graph s : is_uuid s = true -> all_bytes graph s = true.
Proof.
  intros [_ Hs]%andb_true_iff. revert Hs. apply all_bytes_impl. intros c. unfold graph, in_range.
  destruct (Ascii.eqb_spec c "-") as [->|_]; [by vm_compute|].
  rewrite orb_false_r, orb_true_iff, !andb_true_iff, !Nat.leb_le. lia.
Qed.
