(* ===== verification/Proto.v ===== *)
(** * Wire messages

    The protobuf messages and enumerations of [axern.control.common.v1],
    [axern.control.capability.v1], [axern.control.run.v1] and
    [axern.private.control.node.v1] that the modelled code reads.  Enumerations
    are open, as in proto3: a value the schema does not name is [.._UNRECOGNIZED].
    A repeated field is a list, a message field an [option], a map field a
    [gmap]. *)
From S2P Require Import Prelude.

(** ** common.v1 *)
Record ResourceQuantity := mkResourceQuantity {
  rq_CpuMilli : Z; rq_MemoryBytes : Z; rq_EphemeralStorageBytes : Z }.
#[export] Instance zero_ResourceQuantity : Zero ResourceQuantity := mkResourceQuantity 0 0 0.

Record ResourceSpec := mkResourceSpec {
  rs_Requests : option ResourceQuantity; rs_Limits : option ResourceQuantity }.
#[export] Instance zero_ResourceSpec : Zero ResourceSpec := mkResourceSpec None None.

Inductive AllocationLifecycleState :=
  ALS_UNSPECIFIED | ALS_BOUND | ALS_STARTING | ALS_ACTIVE | ALS_STOPPED
| ALS_RELEASING | ALS_RELEASED | ALS_UNRECOGNIZED (n : Z).
#[export] Instance als_eq_dec : EqDecision AllocationLifecycleState.
Proof. solve_decision. Defined.

Inductive WorkloadDiagnosticCode :=
  WDC_UNSPECIFIED | WDC_SECRET_PROJECTION_ERROR | WDC_REGISTRY_AUTH_ERROR
| WDC_IMAGE_RESOLUTION_ERROR | WDC_NODE_SELECTION_ERROR | WDC_RUNTIME_START_ERROR
| WDC_PROCESS_EXITED | WDC_ADMISSION_BLOCKED | WDC_CAPABILITY_ENFORCEMENT_LOST
| WDC_MEMORY_LIMIT_EXCEEDED | WDC_EXECUTION_LEASE_EXPIRED
| WDC_OPERATOR_FORCE_TERMINATED | WDC_OPERATOR_FORCE_CLEANUP | WDC_UNRECOGNIZED (n : Z).
#[export] Instance wdc_eq_dec : EqDecision WorkloadDiagnosticCode.
Proof. solve_decision. Defined.

(** ** run.v1 *)
Inductive RunStatus :=
  RUN_UNSPECIFIED | RUN_PLACED | RUN_STARTING | RUN_RUNNING | RUN_SUCCEEDED
| RUN_FAILED | RUN_CANCELLED.
#[export] Instance run_status_eq_dec : EqDecision RunStatus.
Proof. solve_decision. Defined.

Inductive RootfsSnapshotStatus := RSS_UNSPECIFIED | RSS_PENDING | RSS_READY | RSS_FAILED.
#[export] Instance rss_eq_dec : EqDecision RootfsSnapshotStatus.
Proof. solve_decision. Defined.

(** ** capability.v1 *)
Inductive PlatformCapability :=
  PC_UNSPECIFIED | PC_NETWORK_BRIDGE | PC_NETWORK_BPFNET | PC_CGROUP_V2_MEMORY_CONTROLLER
| PC_RUNSC_MEMORY_HARD_LIMIT | PC_FILESTORE_OVERLAYFS_UPPER
| PC_RUNSC_EPHEMERAL_STORAGE_HARD_LIMIT | PC_ROOTFS_LOWER_EROFS
| PC_RUNSC_MEMORY_ENFORCEMENT_SELF_TEST | PC_RUNSC_EPHEMERAL_ENFORCEMENT_SELF_TEST
| PC_EGRESSD_DNS_POLICY_SELF_TEST | PC_EGRESSD_STRICT_EGRESS_SELF_TEST
| PC_DNS_POLICY_ENFORCEMENT | PC_STRICT_EGRESS_ENFORCEMENT | PC_ROOTFS_SNAPSHOT
| PC_UNRECOGNIZED (n : Z).
#[export] Instance pc_eq_dec : EqDecision PlatformCapability.
Proof. solve_decision. Defined.
#[export] Instance zero_PlatformCapability : Zero PlatformCapability := PC_UNSPECIFIED.

Record ExtensionCapability := mkExtension { ext_Name : string; ext_Value : string }.
#[export] Instance ext_eq_dec : EqDecision ExtensionCapability.
Proof. solve_decision. Defined.
#[export] Instance zero_ExtensionCapability : Zero ExtensionCapability := mkExtension "" "".

(** The [kind] oneof of a key; an unset oneof is [KindUnset]. *)
Inductive CapabilityKey :=
| KindUnset
| KindPlatform (p : PlatformCapability)
| KindExtension (e : option ExtensionCapability).
#[export] Instance key_eq_dec : EqDecision CapabilityKey.
Proof. solve_decision. Defined.
#[export] Instance zero_CapabilityKey : Zero CapabilityKey := KindUnset.

Definition GetPlatform (k : option CapabilityKey) : PlatformCapability :=
  match k with Some (KindPlatform p) => p | _ => PC_UNSPECIFIED end.
Definition GetExtension (k : option CapabilityKey) : option ExtensionCapability :=
  match k with Some (KindExtension e) => e | _ => None end.

Inductive CapabilityState :=
  CS_UNSPECIFIED | CS_AVAILABLE | CS_DEGRADED | CS_UNAVAILABLE | CS_UNKNOWN
| CS_UNRECOGNIZED (n : Z).
#[export] Instance cs_eq_dec : EqDecision CapabilityState.
Proof. solve_decision. Defined.

Inductive CapabilityProvider :=
  CP_UNSPECIFIED | CP_CONFIG | CP_HOST_CGROUP | CP_FILESTORE | CP_RUNSC_SELF_TEST
| CP_NETWORK_HEALTH | CP_DERIVED | CP_UNRECOGNIZED (n : Z).
#[export] Instance cp_eq_dec : EqDecision CapabilityProvider.
Proof. solve_decision. Defined.

Inductive CapabilityReasonCode :=
  CRC_UNSPECIFIED | CRC_AVAILABLE | CRC_DISABLED | CRC_PROBE_FAILED | CRC_PROBE_ERROR
| CRC_EXPIRED | CRC_IDENTITY_CHANGED | CRC_DEPENDENCY_UNAVAILABLE | CRC_RECOVERY_PENDING
| CRC_ENFORCEMENT_LOST | CRC_UNRECOGNIZED (n : Z).
#[export] Instance crc_eq_dec : EqDecision CapabilityReasonCode.
Proof. solve_decision. Defined.

Inductive CapabilityLossPolicy :=
  CLP_UNSPECIFIED | CLP_ADMISSION_ONLY | CLP_DEGRADE | CLP_FAIL_STOP | CLP_UNRECOGNIZED (n : Z).
#[export] Instance clp_eq_dec : EqDecision CapabilityLossPolicy.
Proof. solve_decision. Defined.

Inductive CapabilityConditionState :=
  CCS_UNSPECIFIED | CCS_HEALTHY | CCS_DEGRADED | CCS_FAILED | CCS_UNKNOWN
| CCS_UNRECOGNIZED (n : Z).
#[export] Instance ccs_eq_dec : EqDecision CapabilityConditionState.
Proof. solve_decision. Defined.

(** The [identity] oneof of an evidence message. *)
Inductive EvidenceIdentity :=
| EvBoot (boot_id : string)
| EvMount (boot_id mount_identity : string)
| EvRuntime (boot_id runtime_binary_digest runtime_config_digest : string).
#[export] Instance evidence_eq_dec : EqDecision EvidenceIdentity.
Proof. solve_decision. Defined.
(** [Some None] is a non-nil evidence message whose oneof is unset. *)
Definition CapabilityEvidence := option EvidenceIdentity.
#[export] Instance zero_CapabilityEvidence : Zero CapabilityEvidence := None.

Record CapabilityObservation := mkObservation {
  obs_Key : option CapabilityKey;
  obs_State : CapabilityState;
  obs_Provider : CapabilityProvider;
  obs_ObservedAt : option Timestamp;
  obs_ValidUntil : option Timestamp;
  obs_Evidence : option CapabilityEvidence;
  obs_ReasonCode : CapabilityReasonCode;
  obs_Reason : string }.
#[export] Instance zero_CapabilityObservation : Zero CapabilityObservation :=
  mkObservation None CS_UNSPECIFIED CP_UNSPECIFIED None None None CRC_UNSPECIFIED "".

Record CapabilitySnapshot := mkSnapshot {
  snap_CollectedAt : option Timestamp;
  snap_Observations : list (option CapabilityObservation) }.
#[export] Instance zero_CapabilitySnapshot : Zero CapabilitySnapshot := mkSnapshot None [].

(** [ExtensionCapabilityRequirement] has the single field [capability]. *)
Record ExtensionCapabilityRequirement := mkExtensionRequirement {
  er_Capability : option ExtensionCapability }.
#[export] Instance zero_ExtReq : Zero ExtensionCapabilityRequirement := mkExtensionRequirement None.

Record CapabilityRequirement := mkRequirement {
  cr_Key : option CapabilityKey; cr_LossPolicy : CapabilityLossPolicy }.

Record CapabilityCondition := mkCondition {
  cc_Key : option CapabilityKey; cc_State : CapabilityConditionState;
  cc_ReasonCode : CapabilityReasonCode; cc_Message : string }.
Record CapabilityConditionSet := mkConditionSet {
  ccs_ObservedAt : option Timestamp; ccs_Conditions : list (option CapabilityCondition) }.
#[export] Instance zero_ConditionSet : Zero CapabilityConditionSet := mkConditionSet None [].

(** ** private.control.node.v1 *)
Inductive RootfsType := RT_UNSPECIFIED | RT_LOCAL | RT_IMAGE | RT_UNRECOGNIZED (n : Z).
Inductive MountType :=
  MT_UNSPECIFIED | MT_LOCAL | MT_OCI | MT_NYDUS | MT_EROFS | MT_UNRECOGNIZED (n : Z).
#[export] Instance mt_eq_dec : EqDecision MountType.
Proof. solve_decision. Defined.
Inductive ComponentState :=
  COMP_UNSPECIFIED | COMP_READY | COMP_WARMING | COMP_DEGRADED | COMP_ERROR | COMP_DISABLED
| COMP_UNRECOGNIZED (n : Z).
#[export] Instance comp_eq_dec : EqDecision ComponentState.
Proof. solve_decision. Defined.
Inductive NodeState :=
  NS_UNSPECIFIED | NS_READY | NS_DRAINING | NS_DISABLED | NS_UNREACHABLE
| NS_UNRECOGNIZED (n : Z).
#[export] Instance ns_eq_dec : EqDecision NodeState.
Proof. solve_decision. Defined.

Record PoolState := mkPoolState {
  pool_Using : Z; pool_Idle : Z; pool_Capacity : Z; pool_Unavailable : Z }.
#[export] Instance zero_PoolState : Zero PoolState := mkPoolState 0 0 0 0.
Record PoolsSummary := mkPools { pools_RuntimeSlots : option PoolState }.
#[export] Instance zero_PoolsSummary : Zero PoolsSummary := mkPools None.

Inductive NodeMemoryBudgetMode :=
  MBM_UNSPECIFIED | MBM_CGROUP_V2 | MBM_DISABLED_DEV | MBM_UNRECOGNIZED (n : Z).
#[export] Instance mbm_eq_dec : EqDecision NodeMemoryBudgetMode.
Proof. solve_decision. Defined.

Record NodeMemoryBudget := mkBudget {
  mb_SourceAllocatableBytes : Z;
  mb_DelegatedRootLimitBytes : Z;
  mb_DelegatedRootLimitFinite : bool;
  mb_SystemReserveBytes : Z;
  mb_CapacityIdentity : string;
  mb_SampledAt : option Timestamp;
  mb_SystemReserveExhausted : bool;
  mb_Mode : NodeMemoryBudgetMode }.
#[export] Instance zero_NodeMemoryBudget : Zero NodeMemoryBudget :=
  mkBudget 0 0 false 0 "" None false MBM_UNSPECIFIED.

Record AxnodedSummary := mkAxnoded { ax_Ready : bool; ax_ActiveAllocationIds : list string }.
#[export] Instance zero_Axnoded : Zero AxnodedSummary := mkAxnoded false [].
(** [ImagemgrSummary] and [ImagefsdSummary]: the two fields placement reads. *)
Record ComponentReach := mkReach { comp_State : ComponentState; comp_Reachable : bool }.
#[export] Instance zero_Reach : Zero ComponentReach := mkReach COMP_UNSPECIFIED false.
Record ComponentsSummary := mkComponents {
  comps_Axnoded : option AxnodedSummary;
  comps_Imagemgr : option ComponentReach;
  comps_Imagefsd : option ComponentReach }.
#[export] Instance zero_Components : Zero ComponentsSummary := mkComponents None None None.

Record LocalitySummary := mkLocality {
  loc_Key : string;
  loc_MountType : MountType;
  loc_Mounted : bool;
  loc_RetainedEnvironmentCount : Z;
  loc_RetainedRootfsCount : Z;
  loc_NydusDaemonAlive : bool;
  loc_ChunkdbRecentAccessAgeSecs : Z;
  loc_PeerHealthyCount : Z;
  loc_PeerHintedCount : Z }.
#[export] Instance zero_Locality : Zero LocalitySummary :=
  mkLocality "" MT_UNSPECIFIED false 0 0 false 0 0 0.

Record NodeSummary := mkNodeSummary {
  ns_NodeInstanceID : string;
  ns_Sequence : Z;
  ns_CollectedAt : option Timestamp;
  ns_Pools : option PoolsSummary;
  ns_Components : option ComponentsSummary;
  ns_Locality : list (option LocalitySummary);
  ns_NodeState : NodeState;
  ns_Labels : gmap string string;
  ns_CapabilitySnapshot : option CapabilitySnapshot;
  ns_Capacity : option ResourceQuantity;
  ns_Allocatable : option ResourceQuantity;
  ns_MemoryBudget : option NodeMemoryBudget }.
#[export] Instance zero_NodeSummary : Zero NodeSummary :=
  mkNodeSummary "" 0 None None None [] NS_UNSPECIFIED ∅ None None None None.

Record AllocationLifecycleObservation := mkLifecycleObservation {
  lo_AllocationID : string;
  lo_State : AllocationLifecycleState;
  lo_ExitCode : option Z;
  lo_Message : string;
  lo_ObservedAt : option Timestamp;
  lo_DiagnosticCode : WorkloadDiagnosticCode }.
#[export] Instance zero_LifecycleObservation : Zero AllocationLifecycleObservation :=
  mkLifecycleObservation "" ALS_UNSPECIFIED None "" None WDC_UNSPECIFIED.
