(* ===== verification/Resource.v ===== *)
(** * Resource admission policy

    [control/controld/internal/kernel/resource]: claims, the node-capacity and
    namespace-quota fit evaluations, CPU overcommit and the diagnostics derived
    from them.  [float64] arithmetic is IEEE 754 binary64 ([SpecFloat] with 53
    bits of precision); the conversion of an out-of-range float to [int64] is
    implementation-defined in Go and is a field of [GoRuntime]. *)
From S2P Require Import Prelude Proto.
From Stdlib Require Import SpecFloat.

(** Platform facts the Go specification leaves open: the value of an
    out-of-range float conversion, and the lower-casing of a string that is
    not pure ASCII (the Unicode tables). *)
Class GoRuntime := {
  f64_to_int64_oob : spec_float -> Z;
  unicode_lower : string -> string }.

(** amd64's CVTTSD2SQ returns the integer indefinite value. *)
Definition amd64_oob (f : spec_float) : Z := MinInt64.

(** ** float64 *)
Definition float64 := spec_float.
Definition f64_of_Z (z : Z) : float64 := binary_normalize 53 1024 z 0 false.
Definition f64_mul : float64 -> float64 -> float64 := SFmul 53 1024.
Definition f64_gt (a b : float64) : bool := SFltb b a.
Definition f64_zero : float64 := S754_zero false.
Definition signed (s : bool) (m : positive) : Z := if s then Zneg m else Zpos m.

(** [math.Floor]. *)
Definition Floor (f : float64) : float64 :=
  match f with
  | S754_finite s m e =>
      if 0 <=? e then f
      else let q := signed s m / 2 ^ (- e) in
           if q =? 0 then S754_zero s else f64_of_Z q
  | _ => f
  end.

(** The value of an integral float, truncated toward zero. *)
Definition f64_trunc (f : float64) : option Z :=
  match f with
  | S754_zero _ => Some 0
  | S754_finite s m e =>
      Some (if 0 <=? e then signed s m * 2 ^ e else Z.quot (signed s m) (2 ^ (- e)))
  | _ => None
  end.

Definition int64_of_f64 `{GoRuntime} (f : float64) : Z :=
  match f64_trunc f with
  | Some z => if (MinInt64 <=? z) && (z <=? MaxInt64) then z else f64_to_int64_oob f
  | None => f64_to_int64_oob f
  end.

(** ** Policy and claims *)
Definition DefaultCPUOvercommitRatio : float64 := f64_of_Z 1.
Record AdmissionPolicy := mkPolicy { CPUOvercommitRatio : float64 }.
Record Claim := mkClaim { CPUMilli : Z; MemoryBytes : Z; EphemeralStorageBytes : Z }.
Definition empty_claim : Claim := mkClaim 0 0 0.

Record ResourceEvaluation := mkResourceEvaluation {
  re_Requested : Z; re_Used : Z; re_EffectiveAllocatable : Z; re_Available : Z; re_Fits : bool }.
Record FitEvaluation := mkFitEvaluation {
  fit_CPU : ResourceEvaluation; fit_Memory : ResourceEvaluation;
  fit_EphemeralStorage : ResourceEvaluation }.

Record NamespaceQuotaPolicy := mkQuota {
  CPUMilliLimit : option Z; MemoryBytesLimit : option Z;
  EphemeralStorageBytesLimit : option Z }.
Record QuotaResourceEvaluation := mkQuotaResourceEvaluation {
  qre_Requested : Z; qre_Used : Z; qre_Limit : option Z; qre_Available : option Z; qre_Fits : bool }.
Record QuotaEvaluation := mkQuotaEvaluation {
  qe_CPU : QuotaResourceEvaluation; qe_Memory : QuotaResourceEvaluation;
  qe_EphemeralStorage : QuotaResourceEvaluation }.

Definition NormalizeAdmissionPolicy (policy : AdmissionPolicy) : AdmissionPolicy :=
  if SFeqb policy.(CPUOvercommitRatio) f64_zero then mkPolicy DefaultCPUOvercommitRatio
  else policy.

Definition SaturatingAdd (left right : Z) : Z :=
  if (0 <? right) && (wrap64 (MaxInt64 - right) <? left) then MaxInt64
  else if (right <? 0) && (left <? wrap64 (MinInt64 - right)) then MinInt64
  else wrap64 (left + right).

Definition is_nan (f : float64) : bool := match f with S754_nan => true | _ => false end.
Definition is_inf (f : float64) : bool := match f with S754_infinity _ => true | _ => false end.

Definition ValidateAdmissionPolicy (policy : AdmissionPolicy) : result () :=
  let r := policy.(CPUOvercommitRatio) in
  if SFleb r f64_zero || is_nan r || is_inf r
  then Err (Errorf "resource cpu overcommit ratio must be > 0" [])
  else Ok ().

Definition scaleCPUMilli `{GoRuntime} (cpuMilli : Z) (ratio : float64) : Z :=
  if cpuMilli <=? 0 then cpuMilli
  else
    let scaled := Floor (f64_mul (f64_of_Z cpuMilli) ratio) in
    if f64_gt scaled (f64_of_Z MaxInt64) then MaxInt64
    else int64_of_f64 scaled.

Definition EffectiveAllocatable `{GoRuntime} (p : AdmissionPolicy)
    (allocatable : option ResourceQuantity) : Claim :=
  let p := NormalizeAdmissionPolicy p in
  mkClaim (scaleCPUMilli (deref allocatable).(rq_CpuMilli) p.(CPUOvercommitRatio))
    (deref allocatable).(rq_MemoryBytes)
    (deref allocatable).(rq_EphemeralStorageBytes).

Definition QuantityToClaim (quantity : option ResourceQuantity) : Claim :=
  mkClaim (deref quantity).(rq_CpuMilli) (deref quantity).(rq_MemoryBytes)
    (deref quantity).(rq_EphemeralStorageBytes).

Definition availableResource (used limit : Z) : Z :=
  if (limit <=? 0) || (limit <=? used) then 0 else wrap64 (limit - used).

Definition exceeds (used requested limit : Z) : bool :=
  if requested <=? 0 then false
  else if limit <=? 0 then true
  else if limit <=? used then true
  else wrap64 (limit - used) <? requested.

Definition evaluateResource (used requested limit : Z) : ResourceEvaluation :=
  mkResourceEvaluation requested used limit (availableResource used limit)
    (negb (exceeds used requested limit)).

Definition evaluateQuotaResource (used requested : Z) (limit : option Z) : QuotaResourceEvaluation :=
  match limit with
  | None => mkQuotaResourceEvaluation requested used None None true
  | Some l =>
      mkQuotaResourceEvaluation requested used (Some l) (Some (availableResource used l))
        (negb (exceeds used requested l))
  end.

Definition EvaluateFit `{GoRuntime} (p : AdmissionPolicy)
    (allocatable : option ResourceQuantity) (used requested : Claim) : FitEvaluation :=
  let effective := EffectiveAllocatable p allocatable in
  mkFitEvaluation
    (evaluateResource used.(CPUMilli) requested.(CPUMilli) effective.(CPUMilli))
    (evaluateResource used.(MemoryBytes) requested.(MemoryBytes) effective.(MemoryBytes))
    (evaluateResource used.(EphemeralStorageBytes) requested.(EphemeralStorageBytes)
       effective.(EphemeralStorageBytes)).

Definition FitEvaluation_Fits (e : FitEvaluation) : bool :=
  e.(fit_CPU).(re_Fits) && e.(fit_Memory).(re_Fits) && e.(fit_EphemeralStorage).(re_Fits).

Definition AdmissionPolicy_Fits `{GoRuntime} (p : AdmissionPolicy)
    (allocatable : option ResourceQuantity) (used requested : Claim) : bool :=
  FitEvaluation_Fits (EvaluateFit p allocatable used requested).

Definition Quota_EvaluateFit (p : NamespaceQuotaPolicy) (used requested : Claim) : QuotaEvaluation :=
  mkQuotaEvaluation
    (evaluateQuotaResource used.(CPUMilli) requested.(CPUMilli) p.(CPUMilliLimit))
    (evaluateQuotaResource used.(MemoryBytes) requested.(MemoryBytes) p.(MemoryBytesLimit))
    (evaluateQuotaResource used.(EphemeralStorageBytes) requested.(EphemeralStorageBytes)
       p.(EphemeralStorageBytesLimit)).

Definition QuotaEvaluation_Fits (e : QuotaEvaluation) : bool :=
  e.(qe_CPU).(qre_Fits) && e.(qe_Memory).(qre_Fits) && e.(qe_EphemeralStorage).(qre_Fits).

Definition Quota_Fits (p : NamespaceQuotaPolicy) (used requested : Claim) : bool :=
  QuotaEvaluation_Fits (Quota_EvaluateFit p used requested).

(** ** Diagnostics *)
Inductive AdmissionRejectionReason :=
  AdmissionRejectionNamespaceQuotaExceeded | AdmissionRejectionNodeCapacity
| AdmissionRejectionPlacementCapacity | AdmissionRejectionNodeSelection
| AdmissionRejectionOther (s : string).

Inductive AdmissionDiagnosticCode :=
  AdmissionDiagnosticUnspecified | AdmissionDiagnosticNamespaceQuotaExceeded
| AdmissionDiagnosticNodeCapacity | AdmissionDiagnosticPlacementCapacity
| AdmissionDiagnosticNodeSelection.

Inductive QuotaEventReason :=
  QuotaEventReasonInsufficientCPU | QuotaEventReasonInsufficientMemory
| QuotaEventReasonInsufficientCPUMemory | QuotaEventReasonInsufficientEphemeralStorage
| QuotaEventReasonExceeded.

Definition AdmissionDiagnosticForReason (reason : AdmissionRejectionReason) : AdmissionDiagnosticCode :=
  match reason with
  | AdmissionRejectionNamespaceQuotaExceeded => AdmissionDiagnosticNamespaceQuotaExceeded
  | AdmissionRejectionNodeCapacity => AdmissionDiagnosticNodeCapacity
  | AdmissionRejectionPlacementCapacity => AdmissionDiagnosticPlacementCapacity
  | AdmissionRejectionNodeSelection => AdmissionDiagnosticNodeSelection
  | _ => AdmissionDiagnosticUnspecified
  end.

Definition AdmissionReasonBlocksCapacity (reason : AdmissionRejectionReason) : bool :=
  match reason with
  | AdmissionRejectionNamespaceQuotaExceeded | AdmissionRejectionNodeCapacity
  | AdmissionRejectionPlacementCapacity => true
  | _ => false
  end.

Definition QuotaEventReasonForEvaluation (evaluation : QuotaEvaluation) : QuotaEventReason :=
  let cpu := (0 <? evaluation.(qe_CPU).(qre_Requested)) && negb evaluation.(qe_CPU).(qre_Fits) in
  let memory := (0 <? evaluation.(qe_Memory).(qre_Requested))
                && negb evaluation.(qe_Memory).(qre_Fits) in
  let ephemeralStorage := (0 <? evaluation.(qe_EphemeralStorage).(qre_Requested))
                          && negb evaluation.(qe_EphemeralStorage).(qre_Fits) in
  if ephemeralStorage && negb cpu && negb memory then QuotaEventReasonInsufficientEphemeralStorage
  else if cpu && memory then QuotaEventReasonInsufficientCPUMemory
  else if cpu then QuotaEventReasonInsufficientCPU
  else if memory then QuotaEventReasonInsufficientMemory
  else QuotaEventReasonExceeded.

(** ** Correctness *)
Definition claim_wf (c : Claim) : Prop :=
  int64 c.(CPUMilli) /\ int64 c.(MemoryBytes) /\ int64 c.(EphemeralStorageBytes).
Definition claim_nonneg (c : Claim) : Prop :=
  0 <= c.(CPUMilli) /\ 0 <= c.(MemoryBytes) /\ 0 <= c.(EphemeralStorageBytes).
Definition quantity_wf (q : option ResourceQuantity) : Prop := claim_wf (QuantityToClaim q).

(** The admission rule on ideal integers: nothing asked, or it fits beside
    what is already charged. *)
Definition fits_exactly (used requested limit : Z) : Prop :=
  requested <= 0 \/ used + requested <= limit.
Definition claim_fits (used requested limit : Claim) : Prop :=
  fits_exactly used.(CPUMilli) requested.(CPUMilli) limit.(CPUMilli) /\
  fits_exactly used.(MemoryBytes) requested.(MemoryBytes) limit.(MemoryBytes) /\
  fits_exactly used.(EphemeralStorageBytes) requested.(EphemeralStorageBytes)
    limit.(EphemeralStorageBytes).

Lemma exceeds_spec used requested limit :
  0 <= used -> int64 used -> int64 requested -> int64 limit ->
  exceeds used requested limit = false <-> fits_exactly used requested limit.
Proof.
  unfold exceeds, fits_exactly, int64, MinInt64, MaxInt64. intros Hu Hu' Hr Hl.
  destruct (requested <=? 0) eqn:E1; [split; [left; lia|done]|].
  destruct (limit <=? 0) eqn:E2; [split; [done|lia]|].
  destruct (limit <=? used) eqn:E3; [split; [done|lia]|].
  rewrite wrap64_id by (unfold int64, MinInt64, MaxInt64; lia). lia.
Qed.

Lemma negb_exceeds_spec used requested limit :
  0 <= used -> int64 used -> int64 requested -> int64 limit ->
  negb (exceeds used requested limit) = true <-> fits_exactly used requested limit.
Proof. intros. rewrite negb_true_iff. by apply exceeds_spec. Qed.

Lemma int64_of_f64_range `{GoRuntime} f :
  (forall g, int64 (f64_to_int64_oob g)) -> int64 (int64_of_f64 f).
Proof.
  intros Hoob. unfold int64_of_f64. destruct (f64_trunc f) as [z|]; [|done].
  destruct ((MinInt64 <=? z) && (z <=? MaxInt64)) eqn:E; [|done].
  b2p. unfold int64. lia.
Qed.

Lemma scaleCPUMilli_range `{GoRuntime} c r :
  (forall g, int64 (f64_to_int64_oob g)) -> int64 c -> int64 (scaleCPUMilli c r).
Proof.
  intros Hoob Hc. unfold scaleCPUMilli. destruct (c <=? 0); [done|].
  destruct (f64_gt _ _); [unfold int64, MinInt64, MaxInt64; lia|].
  by apply int64_of_f64_range.
Qed.

Lemma EffectiveAllocatable_wf `{GoRuntime} p q :
  (forall g, int64 (f64_to_int64_oob g)) -> quantity_wf q -> claim_wf (EffectiveAllocatable p q).
Proof.
  intros Hoob (Hc & Hm & He). split; [|split]; simpl; [|done|done].
  by apply scaleCPUMilli_range.
Qed.

#[export] Hint Resolve EffectiveAllocatable_wf scaleCPUMilli_range wrap64_range : axern.

(** Node admission admits a request exactly when, on ideal integers, every
    positively requested resource fits in the effective allocatable beside what
    is already charged; 64-bit wrap-around never changes the answer. *)
Theorem AdmissionPolicy_Fits_iff `{GoRuntime} p q used requested :
  (forall g, int64 (f64_to_int64_oob g)) -> quantity_wf q ->
  claim_nonneg used -> claim_wf used -> claim_wf requested ->
  AdmissionPolicy_Fits p q used requested = true <->
  claim_fits used requested (EffectiveAllocatable p q).
Proof.
  intros Hoob Hq (Hu1 & Hu2 & Hu3) (Hw1 & Hw2 & Hw3) (Hr1 & Hr2 & Hr3).
  destruct (EffectiveAllocatable_wf p q Hoob Hq) as (He1 & He2 & He3).
  unfold AdmissionPolicy_Fits, FitEvaluation_Fits, EvaluateFit, evaluateResource, claim_fits.
  cbn [fit_CPU fit_Memory fit_EphemeralStorage re_Fits].
  rewrite !andb_true_iff, !negb_exceeds_spec by done. tauto.
Qed.

Definition amd64 : GoRuntime :=
  {| f64_to_int64_oob := amd64_oob; unicode_lower := fun s => s |}.

Lemma AdmissionPolicy_Fits_iff_witness :
  @AdmissionPolicy_Fits amd64 (mkPolicy (f64_of_Z 2)) (Some (mkResourceQuantity 4000 1024 0))
    (mkClaim 7000 512 0) (mkClaim 1000 512 0) = true /\
  claim_fits (mkClaim 7000 512 0) (mkClaim 1000 512 0)
    (@EffectiveAllocatable amd64 (mkPolicy (f64_of_Z 2)) (Some (mkResourceQuantity 4000 1024 0))).
Proof.
  split; [vm_compute; reflexivity|].
  apply (@AdmissionPolicy_Fits_iff amd64);
    unfold quantity_wf, claim_wf, claim_nonneg, int64, MinInt64, MaxInt64; simpl;
    [unfold amd64_oob, MinInt64; lia|lia..|vm_compute; reflexivity].
Defined.

(** Namespace quota admits a request exactly when every limited resource
    fits beside the usage already charged to the namespace; a missing limit
    never rejects. *)
Theorem Quota_Fits_iff p used requested :
  claim_nonneg used -> claim_wf used -> claim_wf requested ->
  from_option int64 True p.(CPUMilliLimit) -> from_option int64 True p.(MemoryBytesLimit) ->
  from_option int64 True p.(EphemeralStorageBytesLimit) ->
  Quota_Fits p used requested = true <->
  from_option (fits_exactly used.(CPUMilli) requested.(CPUMilli)) True p.(CPUMilliLimit) /\
  from_option (fits_exactly used.(MemoryBytes) requested.(MemoryBytes)) True p.(MemoryBytesLimit) /\
  from_option (fits_exactly used.(EphemeralStorageBytes) requested.(EphemeralStorageBytes)) True
    p.(EphemeralStorageBytesLimit).
Proof.
  intros (Hu1 & Hu2 & Hu3) (Hw1 & Hw2 & Hw3) (Hr1 & Hr2 & Hr3) H1 H2 H3.
  unfold Quota_Fits, QuotaEvaluation_Fits, Quota_EvaluateFit, evaluateQuotaResource.
  destruct p as [[l1|] [l2|] [l3|]]; simpl in *; rewrite ?andb_true_iff, ?negb_exceeds_spec by done;
    tauto.
Qed.

Lemma Quota_Fits_iff_witness :
  Quota_Fits (mkQuota (Some 2000) None (Some 10)) (mkClaim 1500 9 0) (mkClaim 500 100 10) = true.
Proof.
  apply Quota_Fits_iff;
    unfold claim_nonneg, claim_wf, fits_exactly, int64, MinInt64, MaxInt64; simpl; lia.
Defined.

(** [SaturatingAdd] is addition clamped to the int64 range. *)
Theorem SaturatingAdd_clamps l r :
  int64 l -> int64 r ->
  SaturatingAdd l r = Z.max MinInt64 (Z.min MaxInt64 (l + r)).
Proof.
  intros Hl Hr. assert (H64 : forall z, int64 z -> wrap64 z = z) by (intros; by apply wrap64_id).
  unfold SaturatingAdd, int64, MinInt64, MaxInt64 in *.
  destruct (0 <? r) eqn:E1; simpl.
  - rewrite (H64 (2 ^ 63 - 1 - r)) by lia. destruct (_ <? l) eqn:E2; [lia|].
    destruct (r <? 0) eqn:E3; simpl; [lia|]. rewrite H64; lia.
  - destruct (r <? 0) eqn:E3; simpl; [|rewrite H64; lia].
    rewrite (H64 (- 2 ^ 63 - r)) by lia. destruct (l <? _) eqn:E2; [lia|]. rewrite H64; lia.
Qed.

Lemma SaturatingAdd_clamps_witness : SaturatingAdd MaxInt64 5 = MaxInt64.
Proof.
  transitivity (Z.max MinInt64 (Z.min MaxInt64 (MaxInt64 + 5))).
  - apply SaturatingAdd_clamps; unfold int64, MinInt64, MaxInt64; lia.
  - vm_compute. reflexivity.
Defined.

Lemma evaluateQuota_not_fits u r l :
  qre_Fits (evaluateQuotaResource u r l) = false ->
  (0 <? qre_Requested (evaluateQuotaResource u r l)) = true.
Proof.
  destruct l as [l|]; simpl; [|done]. rewrite negb_false_iff. unfold exceeds.
  destruct (r <=? 0) eqn:E; [done|lia].
Qed.

(** A rejected quota evaluation always has a concrete exhausted resource:
    the event reason is never the catch-all ["exceeded"], which the
    [namespace_quota_events] table does not accept. *)
Lemma quota_rejection_reason_concrete p used requested :
  Quota_Fits p used requested = false ->
  QuotaEventReasonForEvaluation (Quota_EvaluateFit p used requested) <> QuotaEventReasonExceeded.
Proof.
  unfold Quota_Fits, QuotaEvaluation_Fits, QuotaEventReasonForEvaluation, Quota_EvaluateFit.
  cbn [qe_CPU qe_Memory qe_EphemeralStorage]. intros H.
  set (c := evaluateQuotaResource (CPUMilli used) _ _) in *.
  set (m := evaluateQuotaResource (MemoryBytes used) _ _) in *.
  set (e := evaluateQuotaResource (EphemeralStorageBytes used) _ _) in *.
  assert (Hc : qre_Fits c = false -> (0 <? qre_Requested c) = true) by apply evaluateQuota_not_fits.
  assert (Hm : qre_Fits m = false -> (0 <? qre_Requested m) = true) by apply evaluateQuota_not_fits.
  assert (He : qre_Fits e = false -> (0 <? qre_Requested e) = true) by apply evaluateQuota_not_fits.
  destruct (qre_Fits c), (qre_Fits m), (qre_Fits e); simpl in *; try done;
    rewrite ?Hc, ?Hm, ?He by done; simpl; try done;
    destruct (0 <? qre_Requested c), (0 <? qre_Requested m), (0 <? qre_Requested e); simpl; done.
Qed.

(** The overflow guard of [scaleCPUMilli] compares with
    [float64(math.MaxInt64)], which rounds up to 2^63, so a product of exactly
    2^63 passes it; on amd64 the conversion then yields the smallest int64 and
    the node rejects every positive CPU request. *)
Theorem scaleCPUMilli_2p63_wraps :
  @scaleCPUMilli amd64 (2 ^ 62) (f64_of_Z 2) = MinInt64 /\
  @AdmissionPolicy_Fits amd64 (mkPolicy (f64_of_Z 2)) (Some (mkResourceQuantity (2 ^ 62) 0 0))
    empty_claim (mkClaim 1 0 0) = false.
Proof. split; vm_compute; reflexivity. Qed.
