(* ===== verification/Allocation.v ===== *)
(** * Allocation and Run kernel rules

    [control/controld/internal/kernel/allocation] and
    [control/controld/internal/kernel/run]: which node observations an
    Allocation accepts, what Run status they mean, which reconcile intent a
    lifecycle state has, retry planning, node-inventory reconciliation and the
    operator requests on the retry queue. *)
From S2P Require Import Prelude Proto.

(** ** Text form of the enumerations (generated [String] methods) *)
Definition AllocationLifecycleState_String (s : AllocationLifecycleState) : string :=
  match s with
  | ALS_UNSPECIFIED => "ALLOCATION_LIFECYCLE_STATE_UNSPECIFIED"
  | ALS_BOUND => "ALLOCATION_LIFECYCLE_STATE_BOUND"
  | ALS_STARTING => "ALLOCATION_LIFECYCLE_STATE_STARTING"
  | ALS_ACTIVE => "ALLOCATION_LIFECYCLE_STATE_ACTIVE"
  | ALS_STOPPED => "ALLOCATION_LIFECYCLE_STATE_STOPPED"
  | ALS_RELEASING => "ALLOCATION_LIFECYCLE_STATE_RELEASING"
  | ALS_RELEASED => "ALLOCATION_LIFECYCLE_STATE_RELEASED"
  | ALS_UNRECOGNIZED n => format_Z n
  end.
Definition RunStatus_String (s : RunStatus) : string :=
  match s with
  | RUN_UNSPECIFIED => "RUN_STATUS_UNSPECIFIED" | RUN_PLACED => "RUN_STATUS_PLACED"
  | RUN_STARTING => "RUN_STATUS_STARTING" | RUN_RUNNING => "RUN_STATUS_RUNNING"
  | RUN_SUCCEEDED => "RUN_STATUS_SUCCEEDED" | RUN_FAILED => "RUN_STATUS_FAILED"
  | RUN_CANCELLED => "RUN_STATUS_CANCELLED"
  end.

Definition named_lifecycle_states : list AllocationLifecycleState :=
  [ALS_UNSPECIFIED; ALS_BOUND; ALS_STARTING; ALS_ACTIVE; ALS_STOPPED; ALS_RELEASING; ALS_RELEASED].

Definition ParseLifecycleState (value : string) : AllocationLifecycleState :=
  default ALS_UNSPECIFIED
    (find (fun s => String.eqb (AllocationLifecycleState_String s) value) named_lifecycle_states).

(** ** Run status *)
Definition IsTerminal (status : RunStatus) : bool :=
  match status with RUN_SUCCEEDED | RUN_FAILED | RUN_CANCELLED => true | _ => false end.

(** [snapshot]: the Run's rootfs snapshot status, when one was requested. *)
Definition IsWatchComplete (status : RunStatus) (snapshot : option RootfsSnapshotStatus) : bool :=
  if negb (IsTerminal status) then false
  else match snapshot with None => true | Some s => negb (bool_decide (s = RSS_PENDING)) end.

Definition IsCleanupState (state : AllocationLifecycleState) : bool :=
  match state with ALS_RELEASING | ALS_RELEASED => true | _ => false end.

Definition RunStatusFromObservation (state : AllocationLifecycleState) (exitCode : option Z)
    (diagnosticCode : WorkloadDiagnosticCode) : RunStatus :=
  match state with
  | ALS_BOUND => RUN_PLACED
  | ALS_STARTING => RUN_STARTING
  | ALS_ACTIVE => RUN_RUNNING
  | ALS_STOPPED =>
      if bool_decide (diagnosticCode = WDC_UNSPECIFIED) && bool_decide (exitCode = Some 0)
      then RUN_SUCCEEDED else RUN_FAILED
  | _ => RUN_UNSPECIFIED
  end.

(** ** Observations *)
Definition ValidateObservationBinding (currentNodeID reportingNodeID : string) : result () :=
  let currentNodeID := TrimSpace currentNodeID in
  let reportingNodeID := TrimSpace reportingNodeID in
  if String.eqb currentNodeID "" || String.eqb reportingNodeID ""
     || negb (String.eqb currentNodeID reportingNodeID)
  then Err (Errorf "allocation is bound to node %q, not reporting node %q"
              [AStr currentNodeID; AStr reportingNodeID])
  else Ok ().

Definition AcceptsObservation (currentState : AllocationLifecycleState)
    (currentNodeID reportingNodeID : string)
    (obs : option AllocationLifecycleObservation) : bool :=
  match obs with
  | None => false
  | Some obs =>
      if negb (is_Ok (ValidateObservationBinding currentNodeID reportingNodeID)) then false
      else
        match obs.(lo_State) with
        | ALS_STARTING | ALS_ACTIVE | ALS_STOPPED =>
            match currentState with
            | ALS_BOUND | ALS_STARTING => true
            | ALS_ACTIVE => negb (bool_decide (obs.(lo_State) = ALS_STARTING))
            | _ => false
            end
        | _ => false
        end
  end.

Definition NodeActiveObservationTime (obs : option AllocationLifecycleObservation)
    (fallback : time) : time :=
  match obs with
  | None => fallback
  | Some o =>
      match o.(lo_ObservedAt) with
      | None => fallback
      | Some ts =>
          let observedAt := AsTime (Some ts) in
          if IsZero observedAt then fallback else observedAt
      end
  end.

(** ** Node inventory *)
Definition MissingFromNodeInventoryMessage : string := "allocation missing from node inventory".
Definition NodeUnavailableMessage : string := "node heartbeat stale".

Record NodeInventorySnapshot := mkInventory {
  inv_NodeID : string; inv_ActiveAllocationIDs : list string; inv_CollectedAt : time }.
Record NodeInventoryExpectation := mkExpectation {
  exp_AllocationID : string; exp_NodeActiveAt : time }.

Definition ExpectedInNodeInventoryAt (nodeActiveAt snapshotAt : time) : bool :=
  if IsZero nodeActiveAt || IsZero snapshotAt then false
  else negb (After nodeActiveAt snapshotAt).

Definition trimmed_ids (ids : list string) : list string :=
  filter (fun id => id <> "") (map TrimSpace ids).

Definition MissingFromNodeInventory (snapshot : NodeInventorySnapshot)
    (expected : list NodeInventoryExpectation) : list NodeInventoryExpectation :=
  let active := trimmed_ids snapshot.(inv_ActiveAllocationIDs) in
  filter (fun a => (a.(exp_AllocationID) ∉ active) /\
                   ExpectedInNodeInventoryAt a.(exp_NodeActiveAt) snapshot.(inv_CollectedAt) = true)
    expected.

(** ** Reconcile planning *)
Definition ErrReconcileClaimLost : error := Sentinel "allocation reconcile claim lost".
Definition DefaultReconcileLimit : Z := 20.
Definition DeleteRetryDelay : Z := 5 * Second.
Definition CreateRetryInitialDelay : Z := 2 * Second.
Definition CreateRetryMaxDelay : Z := 30 * Second.
Definition CreateRetryMaxAttempts : Z := 5.
Definition RootfsSnapshotMaxAttempts : Z := 5.
Definition ReconcileClaimTTL : Z := 30 * Second.

Inductive ReconcileIntent := IntentUnspecified | EnsurePresent | EnsureAbsent.
#[export] Instance intent_eq_dec : EqDecision ReconcileIntent.
Proof. solve_decision. Defined.

Record ScheduleReconcileRequest := mkSchedule {
  sr_AllocationID : string; sr_Intent : ReconcileIntent; sr_NextRunAt : time;
  sr_LastReconcileError : string; sr_IncrementAttempts : bool }.

Definition ReconcileIntentForLifecycle (state : AllocationLifecycleState) : ReconcileIntent :=
  match state with
  | ALS_BOUND | ALS_STARTING | ALS_ACTIVE => EnsurePresent
  | ALS_RELEASING | ALS_RELEASED => EnsureAbsent
  | _ => IntentUnspecified
  end.

(** The loop of [CreateRetryDelay], [n] being the iterations left. *)
Fixpoint create_retry_loop (n : nat) (delay : Z) : Z :=
  match n with
  | O => delay
  | S n' =>
      let delay := wrap64 (delay * 2) in
      if CreateRetryMaxDelay <=? delay then CreateRetryMaxDelay else create_retry_loop n' delay
  end.
Definition CreateRetryDelay (failureNumber : Z) : Z :=
  let failureNumber := if failureNumber <=? 0 then 1 else failureNumber in
  create_retry_loop (Z.to_nat (failureNumber - 1)) CreateRetryInitialDelay.

Record CreateRetryPlan := mkRetryPlan {
  plan_FailureNumber : Z; plan_Retry : bool; plan_NextRunAt : time }.

Definition PlanCreateRetry (currentAttempts : Z) (now : time) : CreateRetryPlan :=
  let failureNumber := wrap64 (currentAttempts + 1) in
  if CreateRetryMaxAttempts <=? failureNumber then mkRetryPlan failureNumber false zero_time
  else mkRetryPlan failureNumber true (Add now (CreateRetryDelay failureNumber)).

Definition ScheduleCreateRetryRequest (allocationID : string) (currentAttempts : Z)
    (lastError : string) (now : time) : option ScheduleReconcileRequest :=
  let plan := PlanCreateRetry currentAttempts now in
  if negb plan.(plan_Retry) then None
  else Some (mkSchedule allocationID EnsurePresent plan.(plan_NextRunAt) lastError true).

Definition ScheduleDeleteRetryRequest (allocationID lastError : string) (now : time) :=
  mkSchedule allocationID EnsureAbsent (Add now DeleteRetryDelay) lastError true.
Definition RootfsSnapshotRetryExhausted (currentAttempts : Z) : bool :=
  RootfsSnapshotMaxAttempts <=? wrap64 (currentAttempts + 1).
Definition ScheduleDeleteRequest (allocationID : string) (now : time) :=
  mkSchedule allocationID EnsureAbsent now "" false.

(** ** Operator requests on the retry queue *)
Record LifecycleRetryFilter := mkRetryFilter { rf_DueOnly : bool; rf_Limit : Z }.
Definition MaxLifecycleRetryListLimit : Z := 100.
Definition DefaultLifecycleRetryListLimit : Z := 50.
Definition NormalizeLifecycleRetryFilter (f : LifecycleRetryFilter) : LifecycleRetryFilter :=
  let limit := if f.(rf_Limit) <=? 0 then DefaultLifecycleRetryListLimit else f.(rf_Limit) in
  let limit := if MaxLifecycleRetryListLimit <? limit then MaxLifecycleRetryListLimit else limit in
  mkRetryFilter f.(rf_DueOnly) limit.

Record ForceLifecycleRetryRequest := mkForce {
  fr_AllocationID : string; fr_OperatorReason : string; fr_RequestedRunAt : time }.
Record FailLifecycleRetryRequest := mkFail { fl_AllocationID : string; fl_OperatorReason : string }.
Record ClearLifecycleRetryRequest := mkClear { cl_AllocationID : string; cl_OperatorReason : string }.

Definition NormalizeForceLifecycleRetryRequest (r : ForceLifecycleRetryRequest) :=
  mkForce (TrimSpace r.(fr_AllocationID)) (TrimSpace r.(fr_OperatorReason)) r.(fr_RequestedRunAt).
Definition NormalizeFailLifecycleRetryRequest (r : FailLifecycleRetryRequest) :=
  mkFail (TrimSpace r.(fl_AllocationID)) (TrimSpace r.(fl_OperatorReason)).
Definition NormalizeClearLifecycleRetryRequest (r : ClearLifecycleRetryRequest) :=
  mkClear (TrimSpace r.(cl_AllocationID)) (TrimSpace r.(cl_OperatorReason)).

Definition require_operator_fields (allocationID operatorReason : string) : result () :=
  if String.eqb allocationID "" then Err (Status InvalidArgument "allocation_id is required" [])
  else if String.eqb operatorReason "" then Err (Status InvalidArgument "operator_reason is required" [])
  else Ok ().
Definition ValidateForceLifecycleRetryRequest (r : ForceLifecycleRetryRequest) : result () :=
  require_operator_fields r.(fr_AllocationID) r.(fr_OperatorReason).
Definition ValidateFailLifecycleRetryRequest (r : FailLifecycleRetryRequest) : result () :=
  require_operator_fields r.(fl_AllocationID) r.(fl_OperatorReason).
Definition ValidateClearLifecycleRetryRequest (r : ClearLifecycleRetryRequest) : result () :=
  require_operator_fields r.(cl_AllocationID) r.(cl_OperatorReason).

Record LifecycleRetryClearanceInput := mkClearanceInput {
  ci_AllocationState : string; ci_RunStatus : string;
  ci_HasActiveAccessGrant : bool; ci_HasActiveTunnelSession : bool }.
Record LifecycleRetryClearance := mkClearance { lc_Clearable : bool; lc_BlockedReason : string }.

Definition statusOrUnknown (value : string) : string :=
  let value := TrimSpace value in if String.eqb value "" then "unknown" else value.
Definition isTerminalRunStatus (value : string) : bool :=
  String.eqb value (RunStatus_String RUN_SUCCEEDED)
  || String.eqb value (RunStatus_String RUN_FAILED)
  || String.eqb value (RunStatus_String RUN_CANCELLED).
Definition blockedLifecycleRetryClearance (reason : string) := mkClearance false reason.

Definition evaluateRunLifecycleRetryClearance (i : LifecycleRetryClearanceInput) :=
  let status := TrimSpace i.(ci_RunStatus) in
  if String.eqb status "" then mkClearance true ""
  else if isTerminalRunStatus status then mkClearance true ""
  else blockedLifecycleRetryClearance ("run status is " +:+ statusOrUnknown status).

Definition EvaluateLifecycleRetryClearance (i : LifecycleRetryClearanceInput) :=
  let allocationState := TrimSpace i.(ci_AllocationState) in
  if negb (bool_decide (ParseLifecycleState allocationState = ALS_RELEASED))
  then blockedLifecycleRetryClearance
         ("allocation lifecycle state is " +:+ statusOrUnknown allocationState)
  else if i.(ci_HasActiveAccessGrant)
  then blockedLifecycleRetryClearance "active allocation access grants"
  else if i.(ci_HasActiveTunnelSession)
  then blockedLifecycleRetryClearance "active tunnel sessions"
  else evaluateRunLifecycleRetryClearance i.

(** ** Correctness *)
Lemma create_retry_loop_spec n d :
  0 < d < CreateRetryMaxDelay ->
  create_retry_loop n d = Z.min (d * 2 ^ Z.of_nat n) CreateRetryMaxDelay.
Proof.
  unfold CreateRetryMaxDelay, Second. revert d. induction n as [|n IH]; intros d Hd.
  { simpl. lia. }
  rewrite Nat2Z.inj_succ, Z.pow_succ_r by lia. cbn [create_retry_loop].
  rewrite wrap64_id by (unfold int64, MinInt64, MaxInt64; lia).
  pose proof (Z.pow_pos_nonneg 2 (Z.of_nat n) ltac:(lia) ltac:(lia)).
  unfold CreateRetryMaxDelay, Second. destruct (_ <=? _) eqn:E.
  - nia.
  - rewrite IH by lia. f_equal. lia.
Qed.

(** The create-retry backoff doubles from two seconds and is capped at
    thirty, for every failure number, without overflow. *)
Theorem CreateRetryDelay_spec n :
  CreateRetryDelay n =
  Z.min (CreateRetryInitialDelay * 2 ^ Z.max 0 (n - 1)) CreateRetryMaxDelay.
Proof.
  unfold CreateRetryDelay. cbv zeta.
  rewrite create_retry_loop_spec
    by (unfold CreateRetryInitialDelay, CreateRetryMaxDelay, Second; lia).
  do 3 f_equal. destruct (n <=? 0) eqn:E; rewrite Z2Nat.id; lia.
Qed.

(** A create is retried exactly while fewer than five failures happened;
    the retry is scheduled at least two and at most thirty seconds ahead. *)
Theorem ScheduleCreateRetryRequest_bounded id attempts err now :
  0 <= attempts < MaxInt64 ->
  match ScheduleCreateRetryRequest id attempts err now with
  | Some r => attempts + 1 < CreateRetryMaxAttempts /\ sr_Intent r = EnsurePresent /\
              now + CreateRetryInitialDelay <= sr_NextRunAt r <= now + CreateRetryMaxDelay
  | None => CreateRetryMaxAttempts <= attempts + 1
  end.
Proof.
  intros Ha. unfold ScheduleCreateRetryRequest, PlanCreateRetry.
  rewrite wrap64_id by (unfold int64, MinInt64, MaxInt64 in *; lia).
  destruct (_ <=? _) eqn:E; simpl; [lia|]. split; [lia|split; [done|]].
  unfold Add, CreateRetryDelay. cbv zeta.
  rewrite create_retry_loop_spec
    by (unfold CreateRetryInitialDelay, CreateRetryMaxDelay, Second; lia).
  match goal with |- context [2 ^ ?e] => pose proof (Z.pow_pos_nonneg 2 e ltac:(lia) ltac:(lia)) end.
  unfold CreateRetryInitialDelay, CreateRetryMaxDelay, Second in *. lia.
Qed.

Lemma ScheduleCreateRetryRequest_bounded_witness :
  match ScheduleCreateRetryRequest "a" 3 "e" 7 with
  | Some r => 3 + 1 < CreateRetryMaxAttempts /\ sr_Intent r = EnsurePresent /\
              7 + CreateRetryInitialDelay <= sr_NextRunAt r <= 7 + CreateRetryMaxDelay
  | None => CreateRetryMaxAttempts <= 3 + 1
  end.
Proof. apply (ScheduleCreateRetryRequest_bounded "a" 3 "e" 7). unfold MaxInt64; lia. Defined.

Lemma ParseLifecycleState_String s :
  (forall n, s <> ALS_UNRECOGNIZED n) -> ParseLifecycleState (AllocationLifecycleState_String s) = s.
Proof. destruct s; intros H; try (vm_compute; reflexivity). by destruct (H n). Qed.

(** The order in which an Allocation moves; an observed [STOPPED] is persisted
    as [RELEASING]. *)
Definition als_rank (s : AllocationLifecycleState) : Z :=
  match s with
  | ALS_BOUND => 1 | ALS_STARTING => 2 | ALS_ACTIVE => 3
  | ALS_STOPPED | ALS_RELEASING => 4 | ALS_RELEASED => 5 | _ => 0
  end.
Definition persisted_state (s : AllocationLifecycleState) : AllocationLifecycleState :=
  match s with ALS_STOPPED => ALS_RELEASING | _ => s end.

Lemma binding_ok a b : ValidateObservationBinding a b = Ok () ->
  TrimSpace a = TrimSpace b /\ TrimSpace a <> "".
Proof.
  unfold ValidateObservationBinding. intros H.
  destruct (_ || _) eqn:E in H; [discriminate|]. b2p. by subst.
Qed.

Lemma AcceptsObservation_forward cur n1 n2 obs :
  AcceptsObservation cur n1 n2 (Some obs) = true ->
  ValidateObservationBinding n1 n2 = Ok () /\
  ReconcileIntentForLifecycle cur = EnsurePresent /\
  (lo_State obs = ALS_STARTING \/ lo_State obs = ALS_ACTIVE \/ lo_State obs = ALS_STOPPED) /\
  als_rank cur <= als_rank (persisted_state (lo_State obs)).
Proof.
  unfold AcceptsObservation. destruct (ValidateObservationBinding n1 n2) as [[]|] eqn:E; [|done].
  simpl. intros H. split; [done|].
  destruct (lo_State obs) eqn:Es; try discriminate H;
    destruct cur; try discriminate H; simpl; repeat split; auto; lia.
Qed.

(** An Allocation accepts a lifecycle observation exactly when the
    reporting node is the bound node, the Allocation is still meant to be
    present, and the observed state is [STARTING], [ACTIVE] or [STOPPED]
    without going back from [ACTIVE] to [STARTING]. *)
Theorem AcceptsObservation_iff cur n1 n2 obs :
  AcceptsObservation cur n1 n2 (Some obs) = true <->
  TrimSpace n1 = TrimSpace n2 /\ TrimSpace n1 <> "" /\
  ReconcileIntentForLifecycle cur = EnsurePresent /\
  (lo_State obs = ALS_STARTING \/ lo_State obs = ALS_ACTIVE \/ lo_State obs = ALS_STOPPED) /\
  als_rank cur <= als_rank (persisted_state (lo_State obs)).
Proof.
  split.
  - intros (Hb & H)%AcceptsObservation_forward. destruct (binding_ok _ _ Hb). tauto.
  - intros (H1 & H2 & H3 & H4 & H5). unfold AcceptsObservation, ValidateObservationBinding.
    rewrite <- H1, String.eqb_refl. apply String.eqb_neq in H2. rewrite H2. simpl.
    destruct H4 as [E|[E|E]]; rewrite E in *; destruct cur; simpl in *; try discriminate H3; try done; lia.
Qed.

(** Node-inventory reconciliation reports as missing exactly the expected
    Allocations that the snapshot does not list and that were already active
    when the snapshot was collected. *)
Theorem MissingFromNodeInventory_iff snapshot expected a :
  a ∈ MissingFromNodeInventory snapshot expected <->
  a ∈ expected /\
  (forall raw, raw ∈ inv_ActiveAllocationIDs snapshot -> TrimSpace raw <> "" ->
     TrimSpace raw <> exp_AllocationID a) /\
  exp_NodeActiveAt a <> zero_time /\ inv_CollectedAt snapshot <> zero_time /\
  exp_NodeActiveAt a <= inv_CollectedAt snapshot.
Proof.
  unfold MissingFromNodeInventory. rewrite list_elem_of_filter.
  assert (Hin : exp_AllocationID a ∉ trimmed_ids (inv_ActiveAllocationIDs snapshot) <->
    (forall raw, raw ∈ inv_ActiveAllocationIDs snapshot -> TrimSpace raw <> "" ->
       TrimSpace raw <> exp_AllocationID a)).
  { unfold trimmed_ids. rewrite list_elem_of_filter, list_elem_of_fmap. split.
    - intros H raw Hr Hne Heq. apply H. rewrite <- Heq. split; [done|]. by exists raw.
    - intros H (Hne & raw & Heq & Hr). apply (H raw Hr); [by rewrite <- Heq|done]. }
  rewrite Hin. unfold ExpectedInNodeInventoryAt, IsZero, After.
  destruct (exp_NodeActiveAt a =? zero_time) eqn:E1,
           (inv_CollectedAt snapshot =? zero_time) eqn:E2; simpl;
    rewrite ?negb_true_iff; intuition (try done; try lia).
Qed.
