(* ===== verification/Capability.v ===== *)
(** * Node capabilities

    [lib/go/nodecapability]: the registry of platform capability definitions,
    extension capability names, the identity and freshness of observations,
    snapshot validation, availability through definition dependencies, and the
    derivation and resolution of workload requirements. *)
From S2P Require Import Prelude Proto Resource.

(** ** Definition registry (definitions.go) *)
Inductive IdentityKind :=
  IdentityUnspecified | IdentityConfig | IdentityBoot | IdentityMount | IdentityRuntime
| IdentityDerived.
Inductive Audience := AudienceUnspecified | AudienceInternalFact | AudienceWorkloadRequirement.
Inductive AllocationVerifier :=
  VerifierNone | VerifierNetwork | VerifierMemoryHardLimit | VerifierRunscEphemeralStorage
| VerifierEgressPolicy.
#[export] Instance identity_eq_dec : EqDecision IdentityKind.
Proof. solve_decision. Defined.
#[export] Instance audience_eq_dec : EqDecision Audience.
Proof. solve_decision. Defined.
#[export] Instance verifier_eq_dec : EqDecision AllocationVerifier.
Proof. solve_decision. Defined.

(** [MaxValidity] is the only field of [FreshnessPolicy]. *)
Record CapDefinition := platformDefinition {
  def_Key : PlatformCapability;
  def_Provider : CapabilityProvider;
  def_Identity : IdentityKind;
  def_MaxValidity : Z;
  def_LossPolicy : CapabilityLossPolicy;
  def_Audience : Audience;
  def_Verifier : AllocationVerifier;
  def_Dependencies : list PlatformCapability }.

Definition IdentityKind_number (k : IdentityKind) : Z :=
  match k with
  | IdentityUnspecified => 0 | IdentityConfig => 1 | IdentityBoot => 2 | IdentityMount => 3
  | IdentityRuntime => 4 | IdentityDerived => 5
  end.

Definition HealthObservationValidity : Z := 15 * Second.

Definition definitions : list CapDefinition := [
  platformDefinition PC_NETWORK_BRIDGE CP_NETWORK_HEALTH IdentityConfig HealthObservationValidity
    CLP_DEGRADE AudienceWorkloadRequirement VerifierNetwork [];
  platformDefinition PC_NETWORK_BPFNET CP_NETWORK_HEALTH IdentityConfig HealthObservationValidity
    CLP_DEGRADE AudienceWorkloadRequirement VerifierNetwork [];
  platformDefinition PC_CGROUP_V2_MEMORY_CONTROLLER CP_HOST_CGROUP IdentityBoot 0
    CLP_ADMISSION_ONLY AudienceInternalFact VerifierNone [];
  platformDefinition PC_RUNSC_MEMORY_HARD_LIMIT CP_DERIVED IdentityDerived 0
    CLP_FAIL_STOP AudienceWorkloadRequirement VerifierMemoryHardLimit
    [PC_CGROUP_V2_MEMORY_CONTROLLER; PC_RUNSC_MEMORY_ENFORCEMENT_SELF_TEST];
  platformDefinition PC_FILESTORE_OVERLAYFS_UPPER CP_FILESTORE IdentityMount HealthObservationValidity
    CLP_ADMISSION_ONLY AudienceInternalFact VerifierNone [];
  platformDefinition PC_RUNSC_EPHEMERAL_STORAGE_HARD_LIMIT CP_DERIVED IdentityDerived 0
    CLP_FAIL_STOP AudienceWorkloadRequirement VerifierRunscEphemeralStorage
    [PC_FILESTORE_OVERLAYFS_UPPER; PC_RUNSC_EPHEMERAL_ENFORCEMENT_SELF_TEST];
  platformDefinition PC_ROOTFS_LOWER_EROFS CP_FILESTORE IdentityMount HealthObservationValidity
    CLP_ADMISSION_ONLY AudienceWorkloadRequirement VerifierNone [];
  platformDefinition PC_RUNSC_MEMORY_ENFORCEMENT_SELF_TEST CP_RUNSC_SELF_TEST IdentityRuntime 0
    CLP_ADMISSION_ONLY AudienceInternalFact VerifierNone [];
  platformDefinition PC_RUNSC_EPHEMERAL_ENFORCEMENT_SELF_TEST CP_RUNSC_SELF_TEST IdentityRuntime 0
    CLP_ADMISSION_ONLY AudienceInternalFact VerifierNone [];
  platformDefinition PC_EGRESSD_DNS_POLICY_SELF_TEST CP_NETWORK_HEALTH IdentityConfig
    HealthObservationValidity CLP_ADMISSION_ONLY AudienceInternalFact VerifierNone [];
  platformDefinition PC_EGRESSD_STRICT_EGRESS_SELF_TEST CP_NETWORK_HEALTH IdentityConfig
    HealthObservationValidity CLP_ADMISSION_ONLY AudienceInternalFact VerifierNone [];
  platformDefinition PC_DNS_POLICY_ENFORCEMENT CP_DERIVED IdentityDerived 0
    CLP_FAIL_STOP AudienceWorkloadRequirement VerifierEgressPolicy
    [PC_EGRESSD_DNS_POLICY_SELF_TEST];
  platformDefinition PC_STRICT_EGRESS_ENFORCEMENT CP_DERIVED IdentityDerived 0
    CLP_FAIL_STOP AudienceWorkloadRequirement VerifierEgressPolicy
    [PC_EGRESSD_DNS_POLICY_SELF_TEST; PC_EGRESSD_STRICT_EGRESS_SELF_TEST];
  platformDefinition PC_ROOTFS_SNAPSHOT CP_CONFIG IdentityConfig 0
    CLP_ADMISSION_ONLY AudienceWorkloadRequirement VerifierNone [] ].

(** A registry is a Go map keyed by capability. *)
Definition Registry := PlatformCapability -> option CapDefinition.
Definition registry_of (l : list CapDefinition) : Registry :=
  fun key => find (fun d => bool_decide (d.(def_Key) = key)) l.

(** The keys of the generated [PlatformCapability_name] but the zero value. *)
Definition platform_names : list PlatformCapability := [
  PC_NETWORK_BRIDGE; PC_NETWORK_BPFNET; PC_CGROUP_V2_MEMORY_CONTROLLER;
  PC_RUNSC_MEMORY_HARD_LIMIT; PC_FILESTORE_OVERLAYFS_UPPER;
  PC_RUNSC_EPHEMERAL_STORAGE_HARD_LIMIT; PC_ROOTFS_LOWER_EROFS;
  PC_RUNSC_MEMORY_ENFORCEMENT_SELF_TEST; PC_RUNSC_EPHEMERAL_ENFORCEMENT_SELF_TEST;
  PC_EGRESSD_DNS_POLICY_SELF_TEST; PC_EGRESSD_STRICT_EGRESS_SELF_TEST;
  PC_DNS_POLICY_ENFORCEMENT; PC_STRICT_EGRESS_ENFORCEMENT; PC_ROOTFS_SNAPSHOT ].

Definition PlatformCapability_number (p : PlatformCapability) : Z :=
  match p with
  | PC_UNSPECIFIED => 0 | PC_NETWORK_BRIDGE => 1 | PC_NETWORK_BPFNET => 2
  | PC_CGROUP_V2_MEMORY_CONTROLLER => 3 | PC_RUNSC_MEMORY_HARD_LIMIT => 4
  | PC_FILESTORE_OVERLAYFS_UPPER => 5 | PC_RUNSC_EPHEMERAL_STORAGE_HARD_LIMIT => 6
  | PC_ROOTFS_LOWER_EROFS => 7 | PC_RUNSC_MEMORY_ENFORCEMENT_SELF_TEST => 8
  | PC_RUNSC_EPHEMERAL_ENFORCEMENT_SELF_TEST => 9 | PC_EGRESSD_DNS_POLICY_SELF_TEST => 10
  | PC_EGRESSD_STRICT_EGRESS_SELF_TEST => 11 | PC_DNS_POLICY_ENFORCEMENT => 12
  | PC_STRICT_EGRESS_ENFORCEMENT => 13 | PC_ROOTFS_SNAPSHOT => 14 | PC_UNRECOGNIZED n => n
  end.

Definition provider_String (p : CapabilityProvider) : string :=
  match p with
  | CP_UNSPECIFIED => "CAPABILITY_PROVIDER_UNSPECIFIED" | CP_CONFIG => "CAPABILITY_PROVIDER_CONFIG"
  | CP_HOST_CGROUP => "CAPABILITY_PROVIDER_HOST_CGROUP"
  | CP_FILESTORE => "CAPABILITY_PROVIDER_FILESTORE"
  | CP_RUNSC_SELF_TEST => "CAPABILITY_PROVIDER_RUNSC_SELF_TEST"
  | CP_NETWORK_HEALTH => "CAPABILITY_PROVIDER_NETWORK_HEALTH"
  | CP_DERIVED => "CAPABILITY_PROVIDER_DERIVED"
  | CP_UNRECOGNIZED n => format_Z n
  end.

Definition known_provider (p : CapabilityProvider) : bool :=
  match p with CP_UNRECOGNIZED _ => false | _ => true end.

(** One iteration of the first loop of [validateDefinitions]. *)
Definition validateDefinition (reg : Registry) (key : PlatformCapability) : result () :=
  let name := [AInt (PlatformCapability_number key)] in
  match reg key with
  | None => Err (Errorf "enum %s is not defined" name)
  | Some d =>
      if negb (bool_decide (d.(def_Key) = key)) || bool_decide (d.(def_Provider) = CP_UNSPECIFIED)
         || bool_decide (d.(def_Identity) = IdentityUnspecified)
         || bool_decide (d.(def_Audience) = AudienceUnspecified)
         || bool_decide (d.(def_LossPolicy) = CLP_UNSPECIFIED)
      then Err (Errorf "definition %s is incomplete" name)
      else if negb (known_provider d.(def_Provider))
      then Err (Errorf "definition %s has unknown provider %d"
                  (name ++ match d.(def_Provider) with CP_UNRECOGNIZED n => [AInt n] | _ => [] end))
      else if bool_decide (d.(def_Audience) = AudienceInternalFact)
              && (negb (bool_decide (d.(def_LossPolicy) = CLP_ADMISSION_ONLY))
                  || negb (bool_decide (d.(def_Verifier) = VerifierNone)))
      then Err (Errorf "internal fact %s must be admission-only and cannot own an allocation verifier" name)
      else
        _ ← match d.(def_LossPolicy) with
            | CLP_ADMISSION_ONLY =>
                if negb (bool_decide (d.(def_Verifier) = VerifierNone))
                then Err (Errorf "admission-only definition %s cannot own an allocation verifier" name)
                else Ok ()
            | CLP_DEGRADE | CLP_FAIL_STOP =>
                if bool_decide (d.(def_Verifier) = VerifierNone)
                then Err (Errorf "runtime loss definition %s requires an allocation verifier" name)
                else Ok ()
            | CLP_UNRECOGNIZED n =>
                Err (Errorf "definition %s has unknown loss policy %d" (name ++ [AInt n]))
            | CLP_UNSPECIFIED =>
                Err (Errorf "definition %s has unknown loss policy %d" (name ++ [AInt 0]))
            end;
        _ ← (if bool_decide (d.(def_Provider) = CP_DERIVED)
             then if negb (bool_decide (d.(def_Identity) = IdentityDerived))
                     || negb (bool_decide (d.(def_Audience) = AudienceWorkloadRequirement))
                     || (length d.(def_Dependencies) =? 0)%nat
                  then Err (Errorf "derived definition %s requires derived identity, workload audience, and dependencies" name)
                  else Ok ()
             else if negb (length d.(def_Dependencies) =? 0)%nat
                     || bool_decide (d.(def_Identity) = IdentityDerived)
                  then Err (Errorf "base definition %s cannot declare derived metadata" name)
                  else Ok ());
        for_each (fun _ dependency =>
          match reg dependency with
          | None => Err (Errorf "definition %s has unknown dependency %d"
                           (name ++ [AInt (PlatformCapability_number dependency)]))
          | Some dep =>
              if negb (bool_decide (dep.(def_Audience) = AudienceInternalFact))
              then Err (Errorf "derived definition %s may depend only on internal facts" name)
              else if bool_decide (dep.(def_Provider) = CP_DERIVED)
              then Err (Errorf "derived definition %s may consume only base observations" name)
              else Ok ()
          end) d.(def_Dependencies)
  end.

(** The depth-first [visit]; [fuel] bounds the recursion depth.  The state is
    the [visited] set, [visiting] is the current path. *)
Fixpoint visit (fuel : nat) (reg : Registry) (visiting visited : list PlatformCapability)
    (key : PlatformCapability) : result (list PlatformCapability) :=
  if bool_decide (key ∈ visiting)
  then Err (Errorf "dependency cycle at %s" [AInt (PlatformCapability_number key)])
  else if bool_decide (key ∈ visited) then Ok visited
  else
    match fuel with
    | O => Err (Errorf "out of fuel" [])
    | S fuel' =>
        visited' ← foldM (fun visited dependency => visit fuel' reg (key :: visiting) visited dependency)
                     visited (from_option def_Dependencies [] (reg key));
        Ok (key :: visited')
    end.

(** [keys] enumerates the registry. *)
Definition validateDefinitions (reg : Registry) (keys : list PlatformCapability) : result () :=
  _ ← for_each (fun _ key => validateDefinition reg key) platform_names;
  _ ← foldM (fun visited key => visit (S (length keys)) reg [] visited key) [] keys;
  Ok ().

Definition PlatformDefinition (key : PlatformCapability) : option CapDefinition :=
  registry_of definitions key.

Definition PlatformKey (key : PlatformCapability) : CapabilityKey := KindPlatform key.

Definition PlatformDependencyKeys (key : PlatformCapability) : result (list CapabilityKey) :=
  match PlatformDefinition key with
  | None => Err (Errorf "unknown platform capability %d" [AInt (PlatformCapability_number key)])
  | Some d => Ok (map PlatformKey d.(def_Dependencies))
  end.

(** ** Validation (validation.go) *)
Definition MaxExtensionCapabilities : Z := 64.
Definition MaxExtensionValueBytes : Z := 256.
Definition MaxReasonBytes : Z := 1024.
Definition MaxSnapshotObservations : Z := 128.
Definition MaxIdentityBytes : Z := 512.
Definition reservedExtensionDomains : list string := ["axern.io"; "axern.dev"].

Definition lower_digit (c : ascii) : bool := in_range 97 122 c || in_range 48 57 c.
Definition alnum (c : ascii) : bool := lower_digit c || in_range 65 90 c.
Definition one_of (set : string) (c : ascii) : bool := Contains_byte c set.

(** [^E(?:I*E)?$] where every [E] byte is also an [I] byte. *)
Fixpoint last_byte (c : ascii) (s : string) : ascii :=
  match s with EmptyString => c | String d s' => last_byte d s' end.
Definition edge_pattern (edge inner : ascii -> bool) (s : string) : bool :=
  match s with
  | EmptyString => false
  | String c rest => edge c && edge (last_byte c rest) && all_bytes inner rest
  end.
Definition dnsLabelPattern : string -> bool :=
  edge_pattern lower_digit (fun c => lower_digit c || one_of "-" c).
Definition namePattern : string -> bool :=
  edge_pattern alnum (fun c => alnum c || one_of "-_." c).

Section runtime.
Context `{GoRuntime}.

(** [strings.ToLower]. *)
Definition ToLower (s : string) : string :=
  if is_ascii s then map_bytes ascii_lower s else unicode_lower s.

Definition NormalizeExtension (extension : ExtensionCapability) : ExtensionCapability :=
  let name := extension.(ext_Name) in
  let name := let '(domain, suffix, ok) := Cut "/" name in
              if ok : bool then ToLower domain +:+ "/" +:+ suffix else name in
  mkExtension name extension.(ext_Value).

Definition ValidateExtension (extension : option ExtensionCapability) : result () :=
  match extension with
  | None => Err (Errorf "extension capability is required" [])
  | Some extension =>
      if negb (String.eqb extension.(ext_Name) (TrimSpace extension.(ext_Name)))
      then Err (Errorf "extension capability name %q must not contain surrounding whitespace"
                  [AStr extension.(ext_Name)])
      else
        let normalized := NormalizeExtension extension in
        let name := normalized.(ext_Name) in
        match Split "/" name with
        | [part0; part1] =>
            if String.eqb part0 "" || String.eqb part1 ""
            then Err (Errorf "extension capability name %q must be <dns-domain>/<name>" [AStr name])
            else
              let domain := ToLower part0 in
              if existsb (fun reserved => String.eqb domain reserved
                                          || HasSuffix domain ("." +:+ reserved))
                   reservedExtensionDomains
              then Err (Errorf "extension capability domain %q is reserved" [AStr domain])
              else if 253 <? str_len domain
              then Err (Errorf "extension capability domain is too long" [])
              else if negb (forallb (fun label => negb (str_len label =? 0) && (str_len label <=? 63)
                                                  && dnsLabelPattern label) (Split "." domain))
              then Err (Errorf "extension capability domain %q is invalid" [AStr domain])
              else if (63 <? str_len part1) || negb (namePattern part1)
              then Err (Errorf "extension capability name segment %q is invalid" [AStr part1])
              else if negb (ValidString normalized.(ext_Value))
              then Err (Errorf "extension capability value is not valid UTF-8" [])
              else if Contains_byte "000" normalized.(ext_Value)
              then Err (Errorf "extension capability value contains NUL" [])
              else if MaxExtensionValueBytes <? str_len normalized.(ext_Value)
              then Err (Errorf "extension capability value exceeds %d bytes" [AInt MaxExtensionValueBytes])
              else Ok ()
        | _ => Err (Errorf "extension capability name %q must be <dns-domain>/<name>" [AStr name])
        end
  end.

Definition ValidateExtensionRequirement (requirement : option ExtensionCapabilityRequirement)
    : result () :=
  match requirement with
  | None => Err (Errorf "extension capability requirement is required" [])
  | Some requirement => ValidateExtension requirement.(er_Capability)
  end.

(** The loop threads the [seen] names and the index. *)
Definition ValidateExtensionRequirements (requirements : list (option ExtensionCapabilityRequirement))
    : result () :=
  if MaxExtensionCapabilities <? Z.of_nat (length requirements)
  then Err (Errorf "extension capability count exceeds %d" [AInt MaxExtensionCapabilities])
  else
    _ ← foldM (fun '(index, seen) requirement =>
          _ ← wrap_err "extension capability %d: %w" [AInt index]
                (ValidateExtensionRequirement requirement);
          let capability := deref (deref requirement).(er_Capability) in
          let name := (NormalizeExtension capability).(ext_Name) in
          if bool_decide (name ∈ (seen : gset string))
          then Err (Errorf "duplicate extension capability %q" [AStr capability.(ext_Name)])
          else Ok (index + 1, {[name]} ∪ seen)) (0, ∅) requirements;
    Ok ().

Definition RuneStart (c : ascii) : bool := negb (is_cont c).

(** The backward scan of [BoundedReason]; [string_get] of an in-range index. *)
Fixpoint rune_boundary (s : string) (end_ : nat) : nat :=
  match end_ with
  | O => O
  | S e => match String.get end_ s with
           | Some c => if RuneStart c then end_ else rune_boundary s e
           | None => end_
           end
  end.
Definition BoundedReason (reason : string) : string :=
  let reason := ToValidUTF8 reason replacement_rune in
  if str_len reason <=? MaxReasonBytes then reason
  else take_bytes (rune_boundary reason (Z.to_nat MaxReasonBytes)) reason.

Definition validCapabilityState (v : CapabilityState) : bool :=
  match v with CS_UNSPECIFIED | CS_UNRECOGNIZED _ => false | _ => true end.
Definition validCapabilityReasonCode (v : CapabilityReasonCode) : bool :=
  match v with CRC_UNSPECIFIED | CRC_UNRECOGNIZED _ => false | _ => true end.
Definition validCapabilityConditionState (v : CapabilityConditionState) : bool :=
  match v with CCS_UNSPECIFIED | CCS_UNRECOGNIZED _ => false | _ => true end.

(** ** Keys (definitions.go) *)
Definition b64_char (n : N) : ascii :=
  (if n <? 26 then ascii_of_N (65 + n)
   else if n <? 52 then ascii_of_N (71 + n)
   else if n <? 62 then ascii_of_N (n - 4)
   else if n =? 62 then ascii_of_N 45 else ascii_of_N 95)%N.

(** [base64.RawURLEncoding.EncodeToString]. *)
Fixpoint base64url (s : string) : string :=
  match s with
  | EmptyString => ""
  | String a EmptyString =>
      let v := (N_of_ascii a * 16)%N in
      String (b64_char (v / 64)) (String (b64_char (v mod 64)) "")
  | String a (String b EmptyString) =>
      let v := (N_of_ascii a * 1024 + N_of_ascii b * 4)%N in
      String (b64_char (v / 4096)) (String (b64_char (v / 64 mod 64))
        (String (b64_char (v mod 64)) ""))
  | String a (String b (String c rest)) =>
      let v := (N_of_ascii a * 65536 + N_of_ascii b * 256 + N_of_ascii c)%N in
      String (b64_char (v / 262144)) (String (b64_char (v / 4096 mod 64))
        (String (b64_char (v / 64 mod 64)) (String (b64_char (v mod 64)) (base64url rest))))
  end.

Definition ExtensionKey (name value : string) : CapabilityKey :=
  KindExtension (Some (NormalizeExtension (mkExtension name value))).

Definition CloneKey (key : option CapabilityKey) : option CapabilityKey :=
  match key with
  | None => None
  | Some _ =>
      match GetExtension key with
      | Some e => Some (ExtensionKey e.(ext_Name) e.(ext_Value))
      | None => Some (PlatformKey (GetPlatform key))
      end
  end.

Definition KeyID (key : option CapabilityKey) : result string :=
  match key with
  | None => Err (Errorf "capability key is required" [])
  | Some _ =>
      let platform := GetPlatform key in
      if negb (bool_decide (platform = PC_UNSPECIFIED)) then
        match PlatformDefinition platform with
        | None => Err (Errorf "unknown platform capability %d" [AInt (PlatformCapability_number platform)])
        | Some _ => Ok ("platform/" +:+ format_Z (PlatformCapability_number platform))
        end
      else
        match GetExtension key with
        | None => Err (Errorf "capability key kind is required" [])
        | Some extension =>
            _ ← ValidateExtension (Some extension);
            let normalized := NormalizeExtension extension in
            Ok ("extension/" +:+ normalized.(ext_Name) +:+ "/" +:+ base64url normalized.(ext_Value))
        end
  end.

(** [left, _ := KeyID(..)]: the empty string on error. *)
Definition KeyID_or_empty (key : option CapabilityKey) : string :=
  match KeyID key with Ok id => id | Err _ => "" end.

Definition ObservationOwner (key : option CapabilityKey) : result (CapabilityProvider * IdentityKind) :=
  match key with
  | None => Err (Errorf "capability key is required" [])
  | Some _ =>
      match GetExtension key with
      | Some extension =>
          _ ← ValidateExtension (Some extension); Ok (CP_CONFIG, IdentityConfig)
      | None =>
          match PlatformDefinition (GetPlatform key) with
          | None => Err (Errorf "unknown platform capability %d"
                           [AInt (PlatformCapability_number (GetPlatform key))])
          | Some d => Ok (d.(def_Provider), d.(def_Identity))
          end
      end
  end.

Definition LossPolicy (key : option CapabilityKey) : result CapabilityLossPolicy :=
  match key with
  | None => Err (Errorf "capability key is required" [])
  | Some _ =>
      match GetExtension key with
      | Some extension => _ ← ValidateExtension (Some extension); Ok CLP_ADMISSION_ONLY
      | None =>
          match PlatformDefinition (GetPlatform key) with
          | None => Err (Errorf "unknown platform capability %d"
                           [AInt (PlatformCapability_number (GetPlatform key))])
          | Some d => Ok d.(def_LossPolicy)
          end
      end
  end.

Definition IsWorkloadRequirement (key : option CapabilityKey) : bool :=
  match key with
  | None => false
  | Some _ =>
      match GetExtension key with
      | Some extension => is_Ok (ValidateExtension (Some extension))
      | None =>
          match PlatformDefinition (GetPlatform key) with
          | None => false
          | Some d => bool_decide (d.(def_Audience) = AudienceWorkloadRequirement)
          end
      end
  end.

(** ** Evidence and freshness (evidence.go) *)
Definition hex_lower (c : ascii) : bool := in_range 97 102 c || in_range 48 57 c.
Definition boundedIdentityPattern (s : string) : bool :=
  match s with
  | EmptyString => false
  | String c rest =>
      alnum c && (str_len rest <=? 511) && all_bytes (fun c => alnum c || one_of "._:/+=,@-" c) rest
  end.
Definition digestPattern (s : string) : bool :=
  match strip_prefix "sha256:" s with
  | Some h => (str_len h =? 64) && all_bytes hex_lower h
  | None => false
  end.
Definition bootIDPattern (s : string) : bool :=
  match Split "-" s with
  | [a; b; c; d; e] =>
      (str_len a =? 8) && (str_len b =? 4) && (str_len c =? 4) && (str_len d =? 4) && (str_len e =? 12)
      && all_bytes hex_lower a && all_bytes hex_lower b && all_bytes hex_lower c
      && all_bytes hex_lower d && all_bytes hex_lower e
  | _ => false
  end.

Definition validateBoundedIdentity (name value : string) : result () :=
  if negb (ValidString value) || (str_len value =? 0) || (MaxIdentityBytes <? str_len value)
     || negb (boundedIdentityPattern value)
  then Err (Errorf "%s has invalid format or size" [AStr name])
  else Ok ().

Definition validateBootID (value : string) : result () :=
  if negb (bootIDPattern value)
  then Err (Errorf "boot_id must be a canonical lowercase UUID" []) else Ok ().

Definition EvidenceIdentityKind (evidence : option CapabilityEvidence) : IdentityKind :=
  match evidence with
  | Some (Some (EvBoot _)) => IdentityBoot
  | Some (Some (EvMount _ _)) => IdentityMount
  | Some (Some (EvRuntime _ _ _)) => IdentityRuntime
  | _ => IdentityUnspecified
  end.

Definition ValidateEvidence (evidence : option CapabilityEvidence) (expected : IdentityKind)
    : result () :=
  if bool_decide (expected = IdentityConfig) || bool_decide (expected = IdentityDerived) then
    match evidence with
    | Some _ => Err (Errorf "configuration and derived capabilities must not carry synthetic evidence" [])
    | None => Ok ()
    end
  else
    match evidence with
    | None | Some None => Err (Errorf "typed host evidence is required" [])
    | Some (Some ident) =>
        if negb (bool_decide (EvidenceIdentityKind evidence = expected))
        then Err (Errorf "evidence kind %d does not match definition kind %d"
                    [AInt (IdentityKind_number (EvidenceIdentityKind evidence));
                     AInt (IdentityKind_number expected)])
        else
          match ident with
          | EvBoot boot => validateBootID boot
          | EvMount boot mount =>
              _ ← validateBootID boot; validateBoundedIdentity "mount_identity" mount
          | EvRuntime boot binary config =>
              _ ← validateBootID boot;
              if negb (digestPattern binary)
              then Err (Errorf "runtime_binary_digest must be a sha256 digest" [])
              else if negb (digestPattern config)
              then Err (Errorf "runtime_config_digest must be a sha256 digest" [])
              else Ok ()
          end
    end.

Definition max_validity (key : option CapabilityKey) : result Z :=
  match GetExtension key with
  | Some _ => Ok 0
  | None =>
      match PlatformDefinition (GetPlatform key) with
      | None => Err (Errorf "unknown platform capability %d"
                       [AInt (PlatformCapability_number (GetPlatform key))])
      | Some d => Ok d.(def_MaxValidity)
      end
  end.

Definition validateFreshness (key : option CapabilityKey) (observedAt validUntil : option Timestamp)
    (now : time) (requireCurrent : bool) : result () :=
  match observedAt with
  | None => Err (Errorf "observed_at is required" [])
  | Some _ =>
      maxValidity ← max_validity key;
      if maxValidity =? 0 then
        match validUntil with
        | Some _ => Err (Errorf "non-expiring observation cannot set valid_until" [])
        | None => Ok ()
        end
      else
        match validUntil with
        | None => Err (Errorf "expiring observation is missing valid_until" [])
        | Some _ =>
            let observed := AsTime observedAt in
            let expires := AsTime validUntil in
            if negb (After expires observed) || After expires (Add observed maxValidity)
            then Err (Errorf "valid_until is outside the definition freshness bound" [])
            else if requireCurrent && negb (After expires now)
            then Err (Errorf "capability observation is expired" [])
            else Ok ()
        end
  end.

(** ** Snapshots (snapshot.go) *)
Definition observationValid (observation : option CapabilityObservation) (now : time) : bool :=
  match observation with
  | None => false
  | Some o =>
      if negb (bool_decide (o.(obs_State) = CS_AVAILABLE)) || is_nil o.(obs_ObservedAt)
         || negb (bool_decide (o.(obs_ReasonCode) = CRC_AVAILABLE))
      then false
      else
        match ObservationOwner o.(obs_Key) with
        | Err _ => false
        | Ok (provider, ident) =>
            if negb (bool_decide (o.(obs_Provider) = provider))
               || After (AsTime o.(obs_ObservedAt)) (Add now Minute)
            then false
            else if negb (is_Ok (ValidateEvidence o.(obs_Evidence) ident)) then false
            else if negb (is_Ok (validateFreshness o.(obs_Key) o.(obs_ObservedAt) o.(obs_ValidUntil) now true))
            then false
            else ValidString o.(obs_Reason) && (str_len o.(obs_Reason) <=? MaxReasonBytes)
        end
  end.

(** One iteration of the loop of [observationsByKey]: the map and the
    extension names seen so far. *)
Definition observationsByKey_step (state : gmap string CapabilityObservation * gset string)
    (observation : option CapabilityObservation)
    : result (gmap string CapabilityObservation * gset string) :=
  match observation with
  | None => Err (Errorf "nil capability observation" [])
  | Some o =>
      id ← KeyID o.(obs_Key);
      if non_nil (state.1 !! id)
      then Err (Errorf "duplicate capability observation %q" [AStr id])
      else
        match GetExtension o.(obs_Key) with
        | None => Ok (<[id := o]> state.1, state.2)
        | Some extension =>
            let name := (NormalizeExtension extension).(ext_Name) in
            if bool_decide (name ∈ state.2)
            then Err (Errorf "duplicate extension capability observation name %q" [AStr name])
            else Ok (<[id := o]> state.1, {[name]} ∪ state.2)
        end
  end.
Definition observationsByKey (observations : list (option CapabilityObservation))
    : result (gmap string CapabilityObservation) :=
  out ← foldM observationsByKey_step (∅, ∅) observations;
  Ok out.1.

(** The recursion follows definition dependencies; the registry has depth two
    ([availableObservationSet_fuel]), so [available_fuel] is enough. *)
Fixpoint availableObservationSet_fuel (fuel : nat) (byKey : gmap string CapabilityObservation)
    (id : string) (now : time) (visiting : list string) : bool :=
  match fuel with
  | O => false
  | S fuel' =>
      if bool_decide (id ∈ visiting) then false
      else
        let observation := byKey !! id in
        if negb (observationValid observation now) then false
        else
          let key := (deref observation).(obs_Key) in
          match GetExtension key with
          | Some _ => true
          | None =>
              match PlatformDependencyKeys (GetPlatform key) with
              | Err _ => false
              | Ok dependencies =>
                  forallb (fun dependency =>
                    match KeyID (Some dependency) with
                    | Err _ => false
                    | Ok dependencyID =>
                        availableObservationSet_fuel fuel' byKey dependencyID now (id :: visiting)
                    end) dependencies
              end
          end
  end.
Definition available_fuel : nat := 4.
Definition availableObservationSet (byKey : gmap string CapabilityObservation) (id : string)
    (now : time) : bool :=
  availableObservationSet_fuel available_fuel byKey id now [].

Definition AvailableObservation (snapshot : option CapabilitySnapshot) (key : option CapabilityKey)
    (now : time) : option CapabilityObservation :=
  if is_nil snapshot || is_nil key || is_nil (deref snapshot).(snap_CollectedAt)
     || After (AsTime (deref snapshot).(snap_CollectedAt)) (Add now Minute)
  then None
  else
    match KeyID key with
    | Err _ => None
    | Ok want =>
        match observationsByKey (deref snapshot).(snap_Observations) with
        | Err _ => None
        | Ok byKey => if availableObservationSet byKey want now then byKey !! want else None
        end
    end.

(** The loop state of [ValidateRequirementKeys]. *)
Record keys_seen := mkKeysSeen {
  ks_seen : gset string; ks_extensionNames : gset string; ks_extensions : Z }.

Definition ValidateRequirementKeys_step (st : keys_seen) (key : option CapabilityKey)
    : result keys_seen :=
  id ← KeyID key;
  if negb (IsWorkloadRequirement key)
  then Err (Errorf "internal capability %q cannot be a workload requirement" [AStr id])
  else if bool_decide (id ∈ st.(ks_seen))
  then Err (Errorf "duplicate capability requirement %q" [AStr id])
  else
    let seen := {[id]} ∪ st.(ks_seen) in
    match GetExtension key with
    | None => Ok (mkKeysSeen seen st.(ks_extensionNames) st.(ks_extensions))
    | Some extension =>
        let name := (NormalizeExtension extension).(ext_Name) in
        if bool_decide (name ∈ st.(ks_extensionNames))
        then Err (Errorf "duplicate extension capability name %q" [AStr name])
        else Ok (mkKeysSeen seen ({[name]} ∪ st.(ks_extensionNames)) (st.(ks_extensions) + 1))
    end.

Definition ValidateRequirementKeys (keys : list (option CapabilityKey)) : result () :=
  if MaxExtensionCapabilities + 16 <? Z.of_nat (length keys)
  then Err (Errorf "capability requirement count is too large" [])
  else
    out ← foldM ValidateRequirementKeys_step (mkKeysSeen ∅ ∅ 0) keys;
    if MaxExtensionCapabilities <? out.(ks_extensions)
    then Err (Errorf "extension capability count exceeds %d" [AInt MaxExtensionCapabilities])
    else Ok ().

Definition ValidateRequirements (requirements : list (option CapabilityRequirement)) : result () :=
  keys ← foldM (fun keys requirement =>
      match requirement with
      | None => Err (Errorf "nil capability requirement" [])
      | Some r => Ok (keys ++ [r.(cr_Key)])
      end) [] requirements;
  _ ← ValidateRequirementKeys keys;
  for_each (fun _ requirement =>
    match requirement with
    | None => Ok ()
    | Some r =>
        match LossPolicy r.(cr_Key) with
        | Ok policy =>
            if bool_decide (r.(cr_LossPolicy) = policy) then Ok ()
            else Err (Errorf "capability requirement %q has invalid loss policy"
                        [AStr (KeyID_or_empty r.(cr_Key))])
        | Err _ => Err (Errorf "capability requirement %q has invalid loss policy"
                          [AStr (KeyID_or_empty r.(cr_Key))])
        end
    end) requirements.

Definition validateObservation (id : string) (o : CapabilityObservation)
    (collectedAt now : time) : result () :=
  if bool_decide (o.(obs_Provider) = CP_UNSPECIFIED) || is_nil o.(obs_ObservedAt)
     || negb (validCapabilityState o.(obs_State)) || negb (validCapabilityReasonCode o.(obs_ReasonCode))
  then Err (Errorf "capability observation %q has an invalid provider, state, reason code, or observed_at" [AStr id])
  else
    _ ← wrap_err "capability observation %q observed_at: %w" [AStr id] (CheckValid o.(obs_ObservedAt));
    _ ← match o.(obs_ValidUntil) with
        | None => Ok ()
        | Some _ => wrap_err "capability observation %q valid_until: %w" [AStr id] (CheckValid o.(obs_ValidUntil))
        end;
    owner ← ObservationOwner o.(obs_Key);
    let '(provider, ident) := owner in
    if negb (bool_decide (o.(obs_Provider) = provider))
    then Err (Errorf "capability observation %q must be owned by %s" [AStr id; AStr (provider_String provider)])
    else
      let available := bool_decide (o.(obs_State) = CS_AVAILABLE) in
      if negb (Bool.eqb available (bool_decide (o.(obs_ReasonCode) = CRC_AVAILABLE)))
      then Err (Errorf "capability observation %q has inconsistent state and reason code" [AStr id])
      else if negb (ValidString o.(obs_Reason)) || (MaxReasonBytes <? str_len o.(obs_Reason))
      then Err (Errorf "capability observation %q reason exceeds %d bytes" [AStr id; AInt MaxReasonBytes])
      else if After (AsTime o.(obs_ObservedAt)) collectedAt
              || After (AsTime o.(obs_ObservedAt)) (Add now Minute)
      then Err (Errorf "capability observation %q was observed after publication" [AStr id])
      else
        _ ← wrap_err "capability observation %q: %w" [AStr id] (ValidateEvidence o.(obs_Evidence) ident);
        if available
        then wrap_err "capability observation %q: %w" [AStr id]
               (validateFreshness o.(obs_Key) o.(obs_ObservedAt) o.(obs_ValidUntil) now false)
        else if non_nil o.(obs_ValidUntil) && Before (AsTime o.(obs_ValidUntil)) (AsTime o.(obs_ObservedAt))
        then Err (Errorf "capability observation %q expires before it was observed" [AStr id])
        else Ok ().

(** The two [range byKey] loops run in an unspecified order; the model takes
    the order of [map_to_list]. *)
Definition ValidateSnapshot (snapshot : option CapabilitySnapshot) (now : time) : result () :=
  match snapshot with
  | None => Err (Errorf "capability snapshot is required" [])
  | Some s =>
      match s.(snap_CollectedAt) with
      | None => Err (Errorf "capability snapshot collected_at is required" [])
      | Some _ =>
          _ ← wrap_err "capability snapshot collected_at: %w" [] (CheckValid s.(snap_CollectedAt));
          if MaxSnapshotObservations <? Z.of_nat (length s.(snap_Observations))
          then Err (Errorf "capability snapshot exceeds %d observations" [AInt MaxSnapshotObservations])
          else if After (AsTime s.(snap_CollectedAt)) (Add now Minute)
          then Err (Errorf "capability snapshot collected_at is in the future" [])
          else
            byKey ← observationsByKey s.(snap_Observations);
            _ ← for_each (fun _ '(id, o) => validateObservation id o (AsTime s.(snap_CollectedAt)) now)
                  (map_to_list byKey);
            for_each (fun _ '(id, o) =>
              if bool_decide (o.(obs_State) = CS_AVAILABLE)
                 && negb (availableObservationSet byKey id now)
              then Err (Errorf "available capability observation %q has an unavailable definition dependency" [AStr id])
              else Ok ()) (map_to_list byKey)
      end
  end.

Definition requirement_less (a b : CapabilityRequirement) : bool :=
  string_lt (KeyID_or_empty a.(cr_Key)) (KeyID_or_empty b.(cr_Key)).

Definition ResolveRequirements (snapshot : option CapabilitySnapshot)
    (keys : list (option CapabilityKey)) (now : time) : result (list CapabilityRequirement) :=
  _ ← ValidateRequirementKeys keys;
  _ ← wrap_err "invalid capability snapshot: %w" [] (ValidateSnapshot snapshot now);
  resolved ← foldM (fun resolved key =>
      match AvailableObservation snapshot key now with
      | None => Err (Errorf "required capability %q is not available" [AStr (KeyID_or_empty key)])
      | Some _ =>
          policy ← LossPolicy key;
          Ok (resolved ++ [mkRequirement (CloneKey key) policy])
      end) [] keys;
  Ok (sort_slice requirement_less resolved).

Definition NormalizeObservation (o : CapabilityObservation) : CapabilityObservation :=
  mkObservation
    match GetExtension o.(obs_Key) with
    | Some extension => Some (KindExtension (Some (NormalizeExtension extension)))
    | None => o.(obs_Key)
    end
    o.(obs_State) o.(obs_Provider) o.(obs_ObservedAt) o.(obs_ValidUntil) o.(obs_Evidence)
    o.(obs_ReasonCode) (BoundedReason o.(obs_Reason)).

(** ** Requirement derivation (requirements.go) *)
Record RequirementInput := mkRequirementInput {
  ri_NetworkMode : string;
  ri_NetworkBackend : string;
  ri_RequiresDNSPolicyEnforcement : bool;
  ri_RequiresStrictEgressEnforcement : bool;
  ri_MemoryLimitBytes : Z;
  ri_RootfsWritable : bool;
  ri_EphemeralStorageLimitBytes : Z;
  ri_EROFSBacking : bool;
  ri_RootfsSnapshot : bool;
  ri_ExtensionCapabilityRequests : list (option ExtensionCapabilityRequirement) }.

Definition key_less (a b : CapabilityKey) : bool :=
  string_lt (KeyID_or_empty (Some a)) (KeyID_or_empty (Some b)).

Definition when {A} (b : bool) (x : A) : list A := if b then [x] else [].

Definition network_keys (input : RequirementInput) (deferNetworkBackend : bool)
    : result (list CapabilityKey) :=
  let mode := ToLower (TrimSpace input.(ri_NetworkMode)) in
  if String.eqb mode "host" then Ok []
  else
    let backend := ToLower (TrimSpace input.(ri_NetworkBackend)) in
    if String.eqb backend "" && negb deferNetworkBackend
    then Err (Errorf "non-host network requires an observed network backend" [])
    else if String.eqb backend "" then Ok []
    else if String.eqb backend "bridge" || String.eqb backend "iptables"
    then Ok [PlatformKey PC_NETWORK_BRIDGE]
    else if String.eqb backend "bpfnet" || String.eqb backend "ebpf"
    then Ok [PlatformKey PC_NETWORK_BPFNET]
    else Err (Errorf "unsupported network backend %q" [AStr input.(ri_NetworkBackend)]).

Definition deriveRequirements (input : RequirementInput) (deferNetworkBackend : bool)
    : result (list CapabilityKey) :=
  if (input.(ri_MemoryLimitBytes) <? 0) || (input.(ri_EphemeralStorageLimitBytes) <? 0)
  then Err (Errorf "resource limits cannot be negative" [])
  else
    _ ← ValidateExtensionRequirements input.(ri_ExtensionCapabilityRequests);
    if input.(ri_RequiresDNSPolicyEnforcement) && input.(ri_RequiresStrictEgressEnforcement)
    then Err (Errorf "network policy cannot require both DNS-only and strict enforcement" [])
    else
      network ← network_keys input deferNetworkBackend;
      let keys :=
        when input.(ri_RequiresDNSPolicyEnforcement) (PlatformKey PC_DNS_POLICY_ENFORCEMENT)
        ++ when input.(ri_RequiresStrictEgressEnforcement) (PlatformKey PC_STRICT_EGRESS_ENFORCEMENT)
        ++ network
        ++ when (0 <? input.(ri_MemoryLimitBytes)) (PlatformKey PC_RUNSC_MEMORY_HARD_LIMIT)
        ++ when (input.(ri_RootfsWritable) || (0 <? input.(ri_EphemeralStorageLimitBytes)))
             (PlatformKey PC_RUNSC_EPHEMERAL_STORAGE_HARD_LIMIT)
        ++ when input.(ri_EROFSBacking) (PlatformKey PC_ROOTFS_LOWER_EROFS)
        ++ when input.(ri_RootfsSnapshot) (PlatformKey PC_ROOTFS_SNAPSHOT)
        ++ map (fun requirement =>
             let capability := deref (deref requirement).(er_Capability) in
             ExtensionKey capability.(ext_Name) capability.(ext_Value))
             input.(ri_ExtensionCapabilityRequests) in
      let keys := sort_slice key_less keys in
      _ ← ValidateRequirementKeys (map Some keys);
      Ok keys.

Definition DeriveRequirements (input : RequirementInput) := deriveRequirements input false.
Definition DeriveRequestStaticRequirements (input : RequirementInput) := deriveRequirements input true.

Definition AvailableNetworkBackend (snapshot : option CapabilitySnapshot) (now : time) : string :=
  if non_nil (AvailableObservation snapshot (Some (PlatformKey PC_NETWORK_BPFNET)) now) then "bpfnet"
  else if non_nil (AvailableObservation snapshot (Some (PlatformKey PC_NETWORK_BRIDGE)) now) then "bridge"
  else "".

Fixpoint key_ids (keys : list (option CapabilityKey)) : result (list string) :=
  match keys with
  | [] => Ok []
  | k :: rest => id ← KeyID k; ids ← key_ids rest; Ok (id :: ids)
  end.
Definition RequirementKeysEqual (left right : list (option CapabilityKey)) : bool :=
  if negb (length left =? length right)%nat then false
  else
    match key_ids left, key_ids right with
    | Ok l, Ok r => bool_decide (sort_slice string_lt l = sort_slice string_lt r)
    | _, _ => false
    end.

(** ** Allocation condition sets (validation.go) *)
Definition validateCondition (id : string) (condition : CapabilityCondition) : result () :=
  if negb (validCapabilityConditionState condition.(cc_State))
     || negb (validCapabilityReasonCode condition.(cc_ReasonCode))
  then Err (Errorf "capability condition %q has an invalid state or reason code" [AStr id])
  else
    let healthy := bool_decide (condition.(cc_State) = CCS_HEALTHY) in
    let available := bool_decide (condition.(cc_ReasonCode) = CRC_AVAILABLE) in
    if healthy && negb available
    then Err (Errorf "healthy capability condition %q must use available reason code" [AStr id])
    else if negb healthy && available
    then Err (Errorf "non-healthy capability condition %q cannot use available reason code" [AStr id])
    else if negb (ValidString condition.(cc_Message)) || (MaxReasonBytes <? str_len condition.(cc_Message))
    then Err (Errorf "capability condition %q message exceeds %d bytes" [AStr id; AInt MaxReasonBytes])
    else Ok ().

Definition ValidateConditionSet (set : option CapabilityConditionSet) (now : time) : result () :=
  if is_nil set || is_nil (deref set).(ccs_ObservedAt)
  then Err (Errorf "capability condition set and observed_at are required" [])
  else
    let set := deref set in
    _ ← wrap_err "capability condition set observed_at: %w" [] (CheckValid set.(ccs_ObservedAt));
    if After (AsTime set.(ccs_ObservedAt)) (Add now Minute)
    then Err (Errorf "capability condition set observed_at is in the future" [])
    else if MaxExtensionCapabilities + 16 <? Z.of_nat (length set.(ccs_Conditions))
    then Err (Errorf "capability condition count is too large" [])
    else
      _ ← foldM (fun seen condition =>
          match condition with
          | None => Err (Errorf "capability condition is required" [])
          | Some c =>
              id ← KeyID c.(cc_Key);
              if negb (IsWorkloadRequirement c.(cc_Key))
              then Err (Errorf "internal capability %q cannot be an allocation condition" [AStr id])
              else if bool_decide (id ∈ (seen : gset string))
              then Err (Errorf "duplicate capability condition %q" [AStr id])
              else
                _ ← validateCondition id c;
                Ok ({[id]} ∪ seen)
          end) (∅ : gset string) set.(ccs_Conditions);
      Ok ().

(** ** Observation transitions (transition.go) *)
Record EvaluatedObservation := mkEvaluated {
  ev_State : CapabilityState; ev_ReasonCode : CapabilityReasonCode; ev_Reason : string }.
Definition missingObservationReason : string :=
  "capability observation is absent from the current snapshot".

Definition EvaluateObservation (snapshot : option CapabilitySnapshot)
    (observation : option CapabilityObservation) (now : time) : EvaluatedObservation :=
  match observation with
  | None => mkEvaluated CS_UNKNOWN CRC_DEPENDENCY_UNAVAILABLE missingObservationReason
  | Some o =>
      if non_nil (AvailableObservation snapshot o.(obs_Key) now)
      then mkEvaluated CS_AVAILABLE CRC_AVAILABLE o.(obs_Reason)
      else if bool_decide (o.(obs_State) = CS_AVAILABLE)
      then mkEvaluated CS_UNKNOWN CRC_EXPIRED
             "capability observation or one of its definition dependencies is no longer current"
      else mkEvaluated o.(obs_State) o.(obs_ReasonCode) o.(obs_Reason)
  end.

Definition observationEvidence (observation : option CapabilityObservation)
    : option CapabilityEvidence :=
  match observation with None => None | Some o => o.(obs_Evidence) end.

Record ObservationTransitionEvaluation := mkTransition {
  tr_Previous : EvaluatedObservation; tr_Current : EvaluatedObservation }.

Definition EvaluateObservationTransition (previousSnapshot : option CapabilitySnapshot)
    (previous : option CapabilityObservation) (previousAt : time)
    (currentSnapshot : option CapabilitySnapshot) (current : option CapabilityObservation)
    (currentAt : time) : ObservationTransitionEvaluation * bool :=
  let evaluation := mkTransition (EvaluateObservation previousSnapshot previous previousAt)
                                 (EvaluateObservation currentSnapshot current currentAt) in
  let p := evaluation.(tr_Previous) in
  let c := evaluation.(tr_Current) in
  (evaluation,
   negb (bool_decide (p.(ev_State) = c.(ev_State)))
   || negb (bool_decide (p.(ev_ReasonCode) = c.(ev_ReasonCode)))
   || negb (bool_decide (observationEvidence previous = observationEvidence current))).
End runtime.
