(* ===== verification/CapabilityFacts.v ===== *)
(** * Facts about node capabilities

    The identity of capability keys, availability through definition
    dependencies, snapshot resolution, and the derivation of requirements, for
    the definitions of [Capability]. *)
From S2P Require Import Prelude Proto Resource Capability.

(** ** Registry *)
Lemma PlatformDefinition_inv p d :
  PlatformDefinition p = Some d -> d ∈ definitions /\ d.(def_Key) = p.
Proof.
  unfold PlatformDefinition, registry_of. intros Hd.
  apply find_some in Hd as [Hin Hb]. apply bool_decide_eq_true in Hb.
  split; [by apply list_elem_of_In|done].
Qed.

(** A decidable fact about every definition, checked by evaluation. *)
Lemma definitions_forall (P : CapDefinition -> Prop) `{forall d, Decision (P d)} :
  bool_decide (Forall P definitions) = true ->
  forall p d, PlatformDefinition p = Some d -> P d.
Proof.
  intros Hall p d Hd. apply bool_decide_eq_true in Hall.
  rewrite Forall_forall in Hall. apply Hall. by apply (PlatformDefinition_inv p).
Qed.

(** Dependencies are defined and have no dependencies of their own. *)
Definition leaf (p : PlatformCapability) : bool :=
  match PlatformDefinition p with
  | Some d => bool_decide (d.(def_Dependencies) = [])
  | None => false
  end.

Lemma dependency_leaf p d dep :
  PlatformDefinition p = Some d -> dep ∈ d.(def_Dependencies) ->
  dep <> p /\ exists d', PlatformDefinition dep = Some d' /\ d'.(def_Dependencies) = [].
Proof.
  intros Hd Hin.
  assert (Hl : Forall (fun q => q <> d.(def_Key) /\ leaf q = true) d.(def_Dependencies)).
  { revert p d Hd Hin. intros p d Hd _. revert p d Hd.
    apply (definitions_forall
             (fun d => Forall (fun q => q <> d.(def_Key) /\ leaf q = true) d.(def_Dependencies))).
    vm_compute. reflexivity. }
  rewrite Forall_forall in Hl. destruct (Hl dep Hin) as [Hne Hleaf].
  destruct (PlatformDefinition_inv _ _ Hd) as [_ Hk]. rewrite Hk in Hne. split; [done|].
  unfold leaf in Hleaf. destruct (PlatformDefinition dep) as [d'|]; [|done].
  exists d'. split; [done|]. by apply bool_decide_eq_true in Hleaf.
Qed.

Definition platform_id (p : PlatformCapability) : string :=
  "platform/" +:+ format_Z (PlatformCapability_number p).

Lemma platform_id_inj p q d d' :
  PlatformDefinition p = Some d -> PlatformDefinition q = Some d' ->
  platform_id p = platform_id q -> p = q.
Proof.
  intros Hp Hq.
  destruct (PlatformDefinition_inv _ _ Hp) as [Hin Hk], (PlatformDefinition_inv _ _ Hq) as [Hin' Hk'].
  subst p q. clear Hp Hq.
  assert (Hall : Forall (fun d => Forall (fun d' =>
     platform_id d.(def_Key) = platform_id d'.(def_Key) -> d.(def_Key) = d'.(def_Key)) definitions)
     definitions).
  { refine (bool_decide_unpack _ _). vm_compute. constructor. }
  rewrite Forall_forall in Hall. specialize (Hall d Hin).
  rewrite Forall_forall in Hall. by apply Hall.
Qed.

(** The package's [init] validates the registry and cannot panic. *)
Lemma registry_valid :
  validateDefinitions (registry_of definitions) (map def_Key definitions) = Ok ().
Proof. vm_compute. reflexivity. Qed.

(** ** Key identity *)
Definition b64_value (c : ascii) : N :=
  let x := N_of_ascii c in
  (if x =? 45 then 62 else if x =? 95 then 63 else if x <? 58 then x + 4
   else if x <? 91 then x - 65 else x - 71)%N.

Lemma b64_value_char n : (n < 64)%N -> b64_value (b64_char n) = n.
Proof.
  intros Hn. assert (Hin : n ∈ map N.of_nat (seq 0 64)).
  { apply list_elem_of_In, in_map_iff. exists (N.to_nat n). split; [lia|]. apply in_seq. lia. }
  clear Hn. revert n Hin. apply Forall_forall. refine (bool_decide_unpack _ _).
  vm_compute. constructor.
Qed.

Lemma b64_char_inj n m : (n < 64)%N -> (m < 64)%N -> b64_char n = b64_char m -> n = m.
Proof. intros Hn Hm E. by rewrite <- (b64_value_char n Hn), E, b64_value_char. Qed.

Lemma b64_char_no_slash n : (n < 64)%N -> b64_char n <> "/"%char.
Proof.
  intros Hn E. assert (Hv : b64_value (b64_char n) = b64_value "/"%char) by (by rewrite E).
  rewrite b64_value_char in Hv by done. subst n. discriminate E.
Qed.

Lemma byte_bound c : (N_of_ascii c < 256)%N.
Proof. apply N_ascii_bounded. Qed.

Ltac n_arith := zify; Z.to_euclidean_division_equations; lia.

Lemma N_of_ascii_inj a b : N_of_ascii a = N_of_ascii b -> a = b.
Proof. intros E. by rewrite <- (ascii_N_embedding a), E, ascii_N_embedding. Qed.

(** Strings by blocks of three bytes. *)
Lemma string_ind3 (P : string -> Prop) :
  P "" -> (forall a, P (String a "")) -> (forall a b, P (String a (String b ""))) ->
  (forall a b c s, P s -> P (String a (String b (String c s)))) -> forall s, P s.
Proof.
  intros H0 H1 H2 H3. fix IH 1. intros [|a [|b [|c s]]]; [done|apply H1|apply H2|apply H3, IH].
Qed.

(** The four base-64 digits of a 24-bit block determine its three bytes. *)
Lemma block_digits_inj a b c a' b' c' :
  let v := (N_of_ascii a * 65536 + N_of_ascii b * 256 + N_of_ascii c)%N in
  let v' := (N_of_ascii a' * 65536 + N_of_ascii b' * 256 + N_of_ascii c')%N in
  b64_char (v / 262144) = b64_char (v' / 262144) ->
  b64_char (v / 4096 mod 64) = b64_char (v' / 4096 mod 64) ->
  b64_char (v / 64 mod 64) = b64_char (v' / 64 mod 64) ->
  b64_char (v mod 64) = b64_char (v' mod 64) -> a = a' /\ b = b' /\ c = c'.
Proof.
  pose proof (byte_bound a). pose proof (byte_bound b). pose proof (byte_bound c).
  pose proof (byte_bound a'). pose proof (byte_bound b'). pose proof (byte_bound c').
  intros v v' E1 E2 E3 E4.
  apply b64_char_inj in E1; [|subst v v'; n_arith..].
  apply b64_char_inj in E2; [|apply N.mod_lt; lia..].
  apply b64_char_inj in E3; [|apply N.mod_lt; lia..].
  apply b64_char_inj in E4; [|apply N.mod_lt; lia..].
  assert (v = v') as Hv.
  { clearbody v v'. clear -E1 E2 E3 E4. n_arith. }
  subst v v'. repeat split; apply N_of_ascii_inj; lia.
Qed.

Lemma base64url_inj s t : base64url s = base64url t -> s = t.
Proof.
  revert t. induction s as [|a|a b|a b c s IH] using string_ind3;
    intros [|a' [|b' [|c' t]]] E; cbn [base64url] in E; try discriminate E; [done|..].
  - injection E as E1 E2. pose proof (byte_bound a). pose proof (byte_bound a').
    apply b64_char_inj in E1; [|n_arith..]. apply b64_char_inj in E2; [|apply N.mod_lt; lia..].
    f_equal. apply N_of_ascii_inj. n_arith.
  - injection E as E1 E2 E3. pose proof (byte_bound a). pose proof (byte_bound a').
    pose proof (byte_bound b). pose proof (byte_bound b').
    apply b64_char_inj in E1; [|n_arith..]. apply b64_char_inj in E2; [|apply N.mod_lt; lia..].
    apply b64_char_inj in E3; [|apply N.mod_lt; lia..].
    assert (N_of_ascii a = N_of_ascii a') by n_arith.
    assert (N_of_ascii b = N_of_ascii b') by n_arith.
    by rewrite (N_of_ascii_inj a a'), (N_of_ascii_inj b b').
  - injection E as E1 E2 E3 E4 E5.
    destruct (block_digits_inj a b c a' b' c' E1 E2 E3 E4) as (-> & -> & ->).
    by rewrite (IH t E5).
Qed.

Lemma base64url_no_slash s : Contains_byte "/" (base64url s) = false.
Proof.
  induction s as [|a|a b|a b c s IH] using string_ind3; cbn [base64url Contains_byte]; [done|..];
    repeat match goal with
    | |- context [Ascii.eqb (b64_char ?n) ?slash] =>
        replace (Ascii.eqb (b64_char n) slash) with false
          by (symmetry; apply Ascii.eqb_neq, b64_char_no_slash;
              first [ apply N.mod_lt; lia
                    | pose proof (byte_bound a); try pose proof (byte_bound b);
                      try pose proof (byte_bound c); n_arith ])
    end; by rewrite ?orb_false_l.
Qed.

Lemma Split_app sep s t : Split sep (s +:+ String sep t) = Split sep s ++ Split sep t.
Proof.
  induction s as [|c s IH]; simpl; [by rewrite Ascii.eqb_refl|].
  destruct (Ascii.eqb c sep); [by rewrite IH|]. rewrite IH.
  destruct (Split sep s) eqn:E; [|done]. destruct s; simpl in E; [done|].
  by repeat case_match.
Qed.

Lemma Split_nonempty sep s : Split sep s <> [].
Proof. destruct s; simpl; repeat case_match; done. Qed.

Lemma Split_cons sep c s :
  exists w ws, Split sep s = w :: ws /\
    Split sep (String c s) = if Ascii.eqb c sep then "" :: w :: ws else String c w :: ws.
Proof.
  simpl. pose proof (Split_nonempty sep s). destruct (Split sep s) as [|w ws]; [done|].
  by exists w, ws.
Qed.

Lemma Split_inj sep s t : Split sep s = Split sep t -> s = t.
Proof.
  revert t. induction s as [|c s IH]; intros [|d t]; [done|..].
  - destruct (Split_cons sep d t) as (w & ws & Ht & ->). simpl. by case_match.
  - destruct (Split_cons sep c s) as (w & ws & Hs & ->). simpl. by case_match.
  - destruct (Split_cons sep c s) as (w & ws & Hs & ->),
      (Split_cons sep d t) as (w' & ws' & Ht & ->).
    destruct (Ascii.eqb_spec c sep), (Ascii.eqb_spec d sep); intros E; simplify_eq;
      f_equal; apply IH; congruence.
Qed.

Lemma Split_no_sep sep s : Contains_byte sep s = false -> Split sep s = [s].
Proof.
  induction s as [|c s IH]; simpl; [done|]. intros Hc. b2p.
  rewrite IH by done. by rewrite H.
Qed.

Section runtime.
Context `{GoRuntime}.

Definition extension_id (e : ExtensionCapability) : string :=
  "extension/" +:+ (NormalizeExtension e).(ext_Name) +:+ "/"
  +:+ base64url (NormalizeExtension e).(ext_Value).

(** A key has an identity exactly when it is a defined platform capability or
    a valid extension. *)
Lemma KeyID_inv key id :
  KeyID key = Ok id ->
  (exists p d, key = Some (KindPlatform p) /\ PlatformDefinition p = Some d /\ id = platform_id p) \/
  (exists e, key = Some (KindExtension (Some e)) /\ ValidateExtension (Some e) = Ok () /\
             id = extension_id e).
Proof.
  destruct key as [[|p|[e|]]|]; unfold KeyID; cbn [GetPlatform GetExtension]; try discriminate.
  - case_bool_decide as Hp; cbn [negb]; [discriminate|].
    destruct (PlatformDefinition p) as [d|] eqn:Hd; [|discriminate].
    intros [= <-]. left. by exists p, d.
  - rewrite bool_decide_eq_true_2 by done. cbn [negb].
    intros Hv. apply bind_Ok in Hv as ([] & Hv & [= <-]). right. by exists e.
Qed.

Lemma KeyID_platform p d : PlatformDefinition p = Some d -> KeyID (Some (KindPlatform p)) = Ok (platform_id p).
Proof.
  intros Hd. unfold KeyID; cbn [GetPlatform GetExtension]. rewrite Hd.
  case_bool_decide as Hp; cbn [negb]; [|done]. subst p. discriminate Hd.
Qed.

Lemma ValidateExtension_parts e :
  ValidateExtension (Some e) = Ok () ->
  exists a b, Split "/" (NormalizeExtension e).(ext_Name) = [a; b].
Proof.
  unfold ValidateExtension. case_match; [discriminate|].
  destruct (Split "/" _) as [|a [|b [|c l]]]; try discriminate. intros _. by exists a, b.
Qed.

Lemma extension_id_split e :
  ValidateExtension (Some e) = Ok () ->
  Split "/" (extension_id e) =
  "extension" :: Split "/" (NormalizeExtension e).(ext_Name) ++ [base64url e.(ext_Value)].
Proof.
  intros Hv. unfold extension_id.
  change ("extension/" +:+ ?x) with ("extension" +:+ String "/" x).
  rewrite Split_app. change (?x +:+ "/" +:+ ?y) with (x +:+ String "/" y).
  rewrite Split_app, (Split_no_sep _ (base64url _)); [|apply base64url_no_slash]. done.
Qed.

(** The textual identity that deduplicates, orders and joins capability
    keys is injective up to the canonical form of the key: two keys with the
    same [KeyID] have the same clone, so no two different capabilities can be
    confused in a snapshot, a requirement list or a database row. *)
Theorem KeyID_injective k k' id :
  KeyID k = Ok id -> KeyID k' = Ok id -> CloneKey k = CloneKey k'.
Proof.
  intros E E'.
  destruct (KeyID_inv _ _ E) as [(p & d & -> & Hd & ->)|(e & -> & Hv & ->)],
           (KeyID_inv _ _ E') as [(p' & d' & -> & Hd' & Hid)|(e' & -> & Hv' & Hid)];
    [| discriminate Hid | discriminate Hid |].
  - simpl. by rewrite (platform_id_inj _ _ _ _ Hd Hd' Hid).
  - pose proof (extension_id_split _ Hv) as S1. rewrite Hid, (extension_id_split _ Hv') in S1.
    destruct (ValidateExtension_parts _ Hv) as (a & b & Hs).
    destruct (ValidateExtension_parts _ Hv') as (a' & b' & Hs').
    rewrite Hs, Hs' in S1. injection S1 as -> -> Hb.
    apply base64url_inj in Hb. rewrite <- Hs in Hs'. apply Split_inj in Hs'.
    unfold CloneKey, ExtensionKey; simpl. unfold NormalizeExtension in *; simpl in *.
    by rewrite Hs', Hb.
Qed.

(** ** Availability *)
Definition keyed (byKey : gmap string CapabilityObservation) : Prop :=
  forall id o, byKey !! id = Some o -> KeyID o.(obs_Key) = Ok id.

Lemma observationsByKey_step_inv state observation state' :
  observationsByKey_step state observation = Ok state' ->
  exists o id, observation = Some o /\ KeyID o.(obs_Key) = Ok id /\ state.1 !! id = None /\
    state'.1 = <[id := o]> state.1.
Proof.
  unfold observationsByKey_step. destruct observation as [o|]; [|discriminate].
  intros Hs. apply bind_Ok in Hs as (id & Hid & Hs). exists o, id.
  destruct (state.1 !! id); [discriminate Hs|]. simpl in Hs.
  destruct (GetExtension (obs_Key o)); [case_bool_decide; [discriminate Hs|]|];
    by injection Hs as <-.
Qed.

Lemma observationsByKey_fold_spec l state state' :
  foldM observationsByKey_step state l = Ok state' ->
  forall id o, state'.1 !! id = Some o <->
    state.1 !! id = Some o \/ (Some o ∈ l /\ KeyID o.(obs_Key) = Ok id).
Proof.
  revert state. induction l as [|x l IH]; intros state Hf id o; simpl in Hf.
  { injection Hf as <-. set_solver. }
  apply bind_Ok in Hf as (st & Hx & Hf). rewrite (IH _ Hf id o), elem_of_cons.
  apply observationsByKey_step_inv in Hx as (y & idy & -> & Hidy & Hnone & ->).
  rewrite lookup_insert_Some. split.
  - intros [[[-> ->]|[Hne Hl]]|Hr]; naive_solver.
  - intros [Hl|[[[= ->]|Hin] Hid]]; [|left|by right].
    + left. right. split; [congruence|done].
    + left. by rewrite Hidy in Hid; simplify_eq.
Qed.

(** The map holds exactly the listed observations, each under its identity. *)
Lemma observationsByKey_spec l byKey :
  observationsByKey l = Ok byKey ->
  forall id o, byKey !! id = Some o <-> Some o ∈ l /\ KeyID o.(obs_Key) = Ok id.
Proof.
  unfold observationsByKey. intros Hl. apply bind_Ok in Hl as (st & Hf & [= <-]).
  intros id o. rewrite (observationsByKey_fold_spec _ _ _ Hf id o). simpl.
  rewrite lookup_empty. naive_solver.
Qed.

Lemma observationsByKey_keyed l byKey : observationsByKey l = Ok byKey -> keyed byKey.
Proof. intros Hl id o Ho. by apply (observationsByKey_spec _ _ Hl). Qed.

(** *** What a list of observations must be to be read at all
    Every entry carries a defined key, no platform capability is observed twice,
    and no two extensions have one name, whatever their values. *)
Definition defined_key (key : option CapabilityKey) : Prop :=
  match key with
  | Some (KindPlatform p) => is_Some (PlatformDefinition p)
  | Some (KindExtension (Some e)) => ValidateExtension (Some e) = Ok ()
  | _ => False
  end.
Definition key_platform (x : option CapabilityObservation) : option PlatformCapability :=
  o ← x; match o.(obs_Key) with Some (KindPlatform p) => Some p | _ => None end.
Definition key_name (x : option CapabilityObservation) : option string :=
  o ← x; match o.(obs_Key) with
         | Some (KindExtension (Some e)) => Some (NormalizeExtension e).(ext_Name)
         | _ => None
         end.
Record coherent (l : list (option CapabilityObservation)) : Prop := {
  co_defined x : x ∈ l -> exists o, x = Some o /\ defined_key o.(obs_Key);
  co_platforms : NoDup (omap key_platform l);
  co_names : NoDup (omap key_name l) }.

(** The names of the extensions read so far are all remembered. *)
Definition names_seen (st : gmap string CapabilityObservation * gset string) : Prop :=
  keyed st.1 /\ forall id o nm, st.1 !! id = Some o -> key_name (Some o) = Some nm -> nm ∈ st.2.
Lemma keyed_insert m id o : keyed m -> KeyID o.(obs_Key) = Ok id -> keyed (<[id := o]> m).
Proof. intros Hk Hid i x. rewrite lookup_insert_Some. intros [[<- <-]|[_ Hx]]; [done|by apply Hk]. Qed.

Lemma extension_id_name e e' :
  ValidateExtension (Some e) = Ok () -> ValidateExtension (Some e') = Ok () -> extension_id e = extension_id e' ->
  (NormalizeExtension e).(ext_Name) = (NormalizeExtension e').(ext_Name).
Proof.
  intros Hv Hv' E. pose proof (extension_id_split _ Hv) as S1. rewrite E, (extension_id_split _ Hv') in S1.
  destruct (ValidateExtension_parts _ Hv) as (a & b & Hs). destruct (ValidateExtension_parts _ Hv') as (a' & b' & Hs').
  rewrite Hs, Hs' in S1. injection S1 as -> -> _. rewrite <- Hs in Hs'. by apply Split_inj in Hs'.
Qed.
Lemma step_platform st o p d :
  o.(obs_Key) = Some (KindPlatform p) -> PlatformDefinition p = Some d ->
  observationsByKey_step st (Some o) =
    if st.1 !! platform_id p then Err (Errorf "duplicate capability observation %q" [AStr (platform_id p)])
    else Ok (<[platform_id p := o]> st.1, st.2).
Proof.
  intros Hk Hd. unfold observationsByKey_step. rewrite Hk, (KeyID_platform _ _ Hd). simpl. by destruct (st.1 !! _).
Qed.
Lemma KeyID_extension e : ValidateExtension (Some e) = Ok () -> KeyID (Some (KindExtension (Some e))) = Ok (extension_id e).
Proof.
  intros Hv. unfold KeyID. cbn [GetPlatform GetExtension]. rewrite bool_decide_eq_true_2 by done. cbn [negb]. by rewrite Hv.
Qed.
Lemma step_extension st o e :
  names_seen st -> o.(obs_Key) = Some (KindExtension (Some e)) -> ValidateExtension (Some e) = Ok () ->
  (exists err, observationsByKey_step st (Some o) = Err err) /\ (NormalizeExtension e).(ext_Name) ∈ st.2 \/
  observationsByKey_step st (Some o) =
    Ok (<[extension_id e := o]> st.1, {[(NormalizeExtension e).(ext_Name)]} ∪ st.2) /\
    (NormalizeExtension e).(ext_Name) ∉ st.2 /\ KeyID o.(obs_Key) = Ok (extension_id e).
Proof.
  intros [Hk Hs] Hkey Hv. assert (Hid : KeyID o.(obs_Key) = Ok (extension_id e)).
  { rewrite Hkey. by apply KeyID_extension. }
  unfold observationsByKey_step. rewrite Hid, Hkey. cbn [mbind result_bind GetExtension].
  destruct (st.1 !! extension_id e) as [o'|] eqn:Ho; cbn [non_nil].
  - left. split; [eauto|]. apply (Hs _ _ _ Ho). pose proof (Hk _ _ Ho) as Hid'. unfold key_name. cbn [mbind option_bind].
    destruct (KeyID_inv _ _ Hid') as [(p & d & Ek & _ & E)|(e' & Ek & Hv' & E)]; [discriminate E|]. rewrite Ek.
    f_equal. symmetry. by apply extension_id_name.
  - case_bool_decide as Hn; [left; eauto|by right].
Qed.

(** What is left to read after [st] neither repeats itself nor what was read. *)
Definition readable (st : gmap string CapabilityObservation * gset string) (l : list (option CapabilityObservation)) : Prop :=
  (forall x, x ∈ l -> exists o, x = Some o /\ defined_key o.(obs_Key)) /\
  NoDup (omap key_platform l) /\ (forall p, p ∈ omap key_platform l -> st.1 !! platform_id p = None) /\
  NoDup (omap key_name l) /\ (forall nm, nm ∈ omap key_name l -> nm ∉ st.2).
Lemma platforms_defined (l : list (option CapabilityObservation)) p :
  (forall x, x ∈ l -> exists o, x = Some o /\ defined_key o.(obs_Key)) -> p ∈ omap key_platform l ->
  exists d, PlatformDefinition p = Some d.
Proof.
  intros Hd (x & Hx & Ex)%list_elem_of_omap. destruct (Hd _ Hx) as (o & -> & Ho). simpl in Ex.
  destruct (obs_Key o) as [[|q|e]|]; simplify_eq. exact Ho.
Qed.
Lemma readable_cons_platform st l o p d :
  o.(obs_Key) = Some (KindPlatform p) -> PlatformDefinition p = Some d -> st.1 !! platform_id p = None ->
  readable st (Some o :: l) <-> readable (<[platform_id p := o]> st.1, st.2) l.
Proof.
  intros Hk Hd Hn. unfold readable. cbn [omap list_omap].
  assert (key_platform (Some o) = Some p) as -> by (unfold key_platform; simpl; by rewrite Hk).
  assert (key_name (Some o) = None) as -> by (unfold key_name; simpl; by rewrite Hk).
  rewrite NoDup_cons. setoid_rewrite elem_of_cons. split.
  - intros (Hdef & [Hni Hnd] & Hp & Hrest). split; [auto|]. split; [done|]. split; [|done].
    intros q Hq. simpl. destruct (platforms_defined l q) as [dq Hdq]; [auto|done|].
    rewrite lookup_insert_ne; [by auto|]. intros E. apply Hni. by rewrite (platform_id_inj _ _ _ _ Hd Hdq E).
  - intros (Hdef & Hnd & Hp & Hrest). split; [|split; [|split; [|done]]].
    + intros x [-> |Hx]; [|auto]. exists o. split; [done|]. rewrite Hk. by exists d.
    + split; [|done]. intros Hin. specialize (Hp _ Hin). simpl in Hp. by rewrite lookup_insert_eq in Hp.
    + intros q [-> |Hq]; [done|]. specialize (Hp _ Hq). simpl in Hp. by apply lookup_insert_None in Hp as [? _].
Qed.
Lemma readable_cons_extension st l o e :
  o.(obs_Key) = Some (KindExtension (Some e)) -> ValidateExtension (Some e) = Ok () ->
  (NormalizeExtension e).(ext_Name) ∉ st.2 ->
  readable st (Some o :: l) <->
  readable (<[extension_id e := o]> st.1, {[(NormalizeExtension e).(ext_Name)]} ∪ st.2) l.
Proof.
  intros Hk Hv Hn. unfold readable. cbn [omap list_omap].
  assert (key_platform (Some o) = None) as -> by (unfold key_platform; simpl; by rewrite Hk).
  assert (key_name (Some o) = Some (NormalizeExtension e).(ext_Name)) as -> by (unfold key_name; simpl; by rewrite Hk).
  rewrite NoDup_cons. setoid_rewrite elem_of_cons. simpl. split.
  - intros (Hdef & Hnd & Hp & [Hni Hnn] & Hs). split; [auto|]. split; [done|]. split; [|split; [done|]].
    + intros q Hq. by rewrite lookup_insert_ne; [auto|].
    + intros nm Hnm [->%elem_of_singleton|Hin]%elem_of_union; [done|]. by apply (Hs nm); auto.
  - intros (Hdef & Hnd & Hp & Hnn & Hs). split; [|split; [done|split; [|split]]].
    + intros x [-> |Hx]; [|auto]. exists o. split; [done|]. by rewrite Hk.
    + intros q Hq. specialize (Hp _ Hq). by apply lookup_insert_None in Hp as [? _].
    + split; [|done]. intros Hin. apply (Hs _ Hin). set_solver.
    + intros nm [-> |Hin]; [done|]. specialize (Hs _ Hin). set_solver.
Qed.
Lemma fold_readable l st : names_seen st ->
  (exists st', foldM observationsByKey_step st l = Ok st') <-> readable st l.
Proof.
  revert st. induction l as [|x l IH]; intros st Hst.
  { split; [|simpl; eauto]. intros _. unfold readable. simpl. split; [set_solver|].
    split; [apply NoDup_nil_2|]. split; [set_solver|]. split; [apply NoDup_nil_2|set_solver]. }
  destruct x as [o|]; [|split; [by intros [? ?]|]; intros [Hd _]; destruct (Hd None) as (? & ? & _); [left|done]].
  assert (Hbad : ~ defined_key o.(obs_Key) -> (exists err, KeyID o.(obs_Key) = Err err) ->
    (exists st', foldM observationsByKey_step st (Some o :: l) = Ok st') <-> readable st (Some o :: l)).
  { intros Hn [err He]. split.
    - intros [st' Hf]. simpl in Hf. by rewrite He in Hf.
    - intros [Hd _]. destruct (Hd (Some o)) as (o' & [= <-] & Ho); [left|done]. }
  destruct (KeyID o.(obs_Key)) as [id|err] eqn:Hid.
  2: { apply Hbad; [|eauto]. intros Hd. destruct (obs_Key o) as [[|p|[e|]]|] eqn:Hk; simpl in Hd; try done.
       - destruct Hd as [d Hd]. by rewrite (KeyID_platform _ _ Hd) in Hid.
       - by rewrite (KeyID_extension _ Hd) in Hid. }
  clear Hbad. destruct (KeyID_inv _ _ Hid) as [(p & d & Hk & Hd & ->)|(e & Hk & Hv & ->)].
  - cbn [foldM]. rewrite (step_platform st o p d Hk Hd). destruct (st.1 !! platform_id p) as [o'|] eqn:Hn; cbn [mbind result_bind].
    + split; [by intros [? ?]|]. intros (_ & _ & Hp & _). rewrite (Hp p) in Hn; [done|].
      unfold key_platform at 1. cbn. rewrite Hk. left.
    + rewrite (readable_cons_platform _ _ _ _ _ Hk Hd Hn). apply IH. destruct Hst as [Hky Hs].
      split; [by apply keyed_insert|]. intros i x nm. simpl. rewrite lookup_insert_Some.
      intros [[<- <-]|[_ Hx]]; [|by apply (Hs i)]. unfold key_name. simpl. by rewrite Hk.
  - cbn [foldM]. destruct (step_extension st o e Hst Hk Hv) as [([err ->] & Hin)|(-> & Hn & _)]; cbn [mbind result_bind].
    + split; [by intros [? ?]|]. intros (_ & _ & _ & _ & Hs). exfalso. apply (Hs _ ) in Hin; [done|].
      unfold key_name at 1. cbn. rewrite Hk. left.
    + rewrite (readable_cons_extension _ _ _ _ Hk Hv Hn). apply IH. destruct Hst as [Hky Hs].
      split; [by apply keyed_insert|]. intros i x nm. simpl. rewrite lookup_insert_Some.
      intros [[<- <-]|[_ Hx]]; [|intros Hnm; apply elem_of_union_r; by apply (Hs i x)].
      unfold key_name. simpl. rewrite Hk. intros [= <-]. set_solver.
Qed.
Lemma observationsByKey_coherent l :
  (exists byKey, observationsByKey l = Ok byKey) <-> coherent l.
Proof.
  assert (Hf : (exists byKey, observationsByKey l = Ok byKey) <-> exists st', foldM observationsByKey_step (∅, ∅) l = Ok st').
  { unfold observationsByKey. destruct (foldM _ _ _) as [st|e]; cbn [mbind result_bind]; split; intros [? ?]; eauto; done. }
  rewrite Hf, fold_readable by done. unfold readable. simpl. split.
  - intros (H1 & H2 & _ & H3 & _). by split.
  - intros [H1 H2 H3]. split; [done|]. split; [done|]. split; [done|]. split; [done|set_solver].
Qed.

Lemma defined_KeyID key : defined_key key -> exists id, KeyID key = Ok id.
Proof.
  destruct key as [[|p|[e|]]|]; simpl; try done.
  - intros [d Hd]. eexists. by apply (KeyID_platform _ d).
  - intros Hv. eexists. by apply KeyID_extension.
Qed.

(** Platform dependencies of an observation's key. *)
Definition dependencies (o : CapabilityObservation) : list PlatformCapability :=
  match o.(obs_Key) with
  | Some (KindPlatform p) => from_option def_Dependencies [] (PlatformDefinition p)
  | _ => []
  end.

Lemma keyed_platform byKey p d o :
  keyed byKey -> PlatformDefinition p = Some d -> byKey !! platform_id p = Some o ->
  o.(obs_Key) = Some (KindPlatform p).
Proof.
  intros Hk Hd Ho. apply Hk in Ho.
  destruct (KeyID_inv _ _ Ho) as [(q & dq & -> & Hq & E)|(e & -> & _ & E)]; [|discriminate E].
  by rewrite (platform_id_inj _ _ _ _ Hd Hq E).
Qed.

Lemma forallb_map_ext {A B} (f : B -> bool) (g : A -> B) (h : A -> bool) l :
  (forall x, x ∈ l -> f (g x) = h x) -> forallb f (map g l) = forallb h l.
Proof.
  induction l as [|x l IH]; intros Hx; simpl; [done|].
  rewrite Hx by set_solver. f_equal. apply IH. set_solver.
Qed.

(** One level of the recursion, once the id is not on the path. *)
Lemma available_unfold fuel byKey id now visiting :
  id ∉ visiting ->
  availableObservationSet_fuel (S fuel) byKey id now visiting =
  match byKey !! id with
  | None => false
  | Some o =>
      observationValid (Some o) now &&
      match GetExtension o.(obs_Key) with
      | Some _ => true
      | None =>
          match PlatformDependencyKeys (GetPlatform o.(obs_Key)) with
          | Err _ => false
          | Ok deps =>
              forallb (fun dependency =>
                match KeyID (Some dependency) with
                | Err _ => false
                | Ok dependencyID =>
                    availableObservationSet_fuel fuel byKey dependencyID now (id :: visiting)
                end) deps
          end
      end
  end.
Proof.
  intros Hv. cbn [availableObservationSet_fuel]. rewrite bool_decide_eq_false_2 by done.
  destruct (byKey !! id) as [o|]; [|done]. by destruct (observationValid (Some o) now).
Qed.

Lemma available_leaf fuel byKey p d now visiting :
  keyed byKey -> PlatformDefinition p = Some d -> d.(def_Dependencies) = [] ->
  platform_id p ∉ visiting ->
  availableObservationSet_fuel (S fuel) byKey (platform_id p) now visiting
  = observationValid (byKey !! platform_id p) now.
Proof.
  intros Hk Hd Hnil Hv. rewrite available_unfold by done.
  destruct (byKey !! platform_id p) as [o|] eqn:Ho; [|done].
  rewrite (keyed_platform _ _ _ _ Hk Hd Ho). cbn [GetExtension GetPlatform].
  unfold PlatformDependencyKeys. rewrite Hd, Hnil. apply andb_true_r.
Qed.

(** Two levels of recursion decide availability, for every larger fuel. *)
Lemma available_top fuel byKey id now :
  keyed byKey ->
  availableObservationSet_fuel (S (S fuel)) byKey id now [] =
  match byKey !! id with
  | None => false
  | Some o => observationValid (Some o) now
              && forallb (fun dep => observationValid (byKey !! platform_id dep) now) (dependencies o)
  end.
Proof.
  intros Hk. rewrite available_unfold by set_solver.
  destruct (byKey !! id) as [o|] eqn:Ho; [|done]. f_equal. unfold dependencies.
  destruct (KeyID_inv _ _ (Hk _ _ Ho)) as [(p & d & -> & Hd & ->)|(e & -> & _ & ->)];
    cbn [GetExtension GetPlatform]; [|done].
  unfold PlatformDependencyKeys. rewrite Hd. cbn [from_option].
  apply forallb_map_ext. intros dep Hdep.
  destruct (dependency_leaf _ _ _ Hd Hdep) as (Hne & d' & Hd' & Hnil).
  unfold PlatformKey. rewrite (KeyID_platform _ _ Hd').
  apply (available_leaf _ _ _ d'); [done..|].
  intros Hin. apply list_elem_of_singleton in Hin.
  by apply (platform_id_inj _ _ _ _ Hd' Hd) in Hin.
Qed.

(** So any fuel from two on gives the same answer as [available_fuel]. *)
Lemma available_fuel_irrelevant fuel byKey id now :
  keyed byKey -> (2 <= fuel)%nat ->
  availableObservationSet_fuel fuel byKey id now [] = availableObservationSet byKey id now.
Proof.
  intros Hk Hf. destruct fuel as [|[|fuel]]; [lia..|].
  unfold availableObservationSet, available_fuel. by rewrite !available_top.
Qed.

(** The observations a snapshot publishes for a platform capability that are
    valid at [now]. *)
Definition published (l : list (option CapabilityObservation)) (p : PlatformCapability) (now : time) : Prop :=
  exists o, Some o ∈ l /\ o.(obs_Key) = Some (KindPlatform p) /\ observationValid (Some o) now = true.

Lemma published_lookup l byKey p d now :
  observationsByKey l = Ok byKey -> PlatformDefinition p = Some d ->
  observationValid (byKey !! platform_id p) now = true <-> published l p now.
Proof.
  intros Hl Hd. pose proof (observationsByKey_spec _ _ Hl) as Hspec. split.
  - destruct (byKey !! platform_id p) as [o|] eqn:Ho; [|discriminate]. intros Hv. exists o.
    split; [by apply Hspec in Ho as [? _]|]. split; [|done].
    by apply (keyed_platform _ _ d _ (observationsByKey_keyed _ _ Hl)).
  - intros (o & Hin & Hkey & Hv).
    assert (byKey !! platform_id p = Some o) as ->; [|done].
    apply Hspec. split; [done|]. rewrite Hkey. by apply (KeyID_platform _ d).
Qed.

Lemma dependencies_defined o dep :
  dep ∈ dependencies o -> exists d, PlatformDefinition dep = Some d.
Proof.
  unfold dependencies. destruct (obs_Key o) as [[|p|e]|]; [set_solver| |set_solver..].
  destruct (PlatformDefinition p) as [d|] eqn:Hd; simpl; [|set_solver].
  intros Hin. destruct (dependency_leaf _ _ _ Hd Hin) as (_ & d' & Hd' & _). by exists d'.
Qed.

(** C31: an observation is available for a key in a dated snapshot exactly when the
    snapshot is not from the future, all its observations are there and carry defined keys, no
    platform capability is observed twice and no two extensions share a name (even
    with different values), one of the observations carries the key's identity and
    is itself valid and current, and so is an observation of every capability its
    definition depends on. *)
Theorem AvailableObservation_iff s t key now o :
  s.(snap_CollectedAt) = Some t ->
  AvailableObservation (Some s) key now = Some o <->
  AsTime (Some t) <= now + Minute /\ coherent s.(snap_Observations) /\
  Some o ∈ s.(snap_Observations) /\
  (exists id, KeyID key = Ok id /\ KeyID o.(obs_Key) = Ok id) /\
  observationValid (Some o) now = true /\
  (forall dep, dep ∈ dependencies o -> published s.(snap_Observations) dep now).
Proof.
  intros Ht. unfold AvailableObservation. cbn [is_nil orb]. change (deref (Some s)) with s.
  rewrite Ht. cbn [is_nil orb].
  destruct key as [k|]; [|split; [discriminate|by intros (_ & _ & _ & (id & [=] & _) & _)]].
  cbn [is_nil orb]. unfold After, Add.
  destruct (Z.ltb_spec (now + Minute) (AsTime (Some t))) as [Hlt|Hle]; [split; [discriminate|lia]|].
  destruct (KeyID (Some k)) as [want|] eqn:Hwant;
    [|split; [discriminate|by intros (_ & _ & _ & (id & [=] & _) & _)]].
  destruct (observationsByKey (snap_Observations s)) as [byKey|] eqn:Hl;
    [|split; [discriminate|intros (_ & Hc & _); apply observationsByKey_coherent in Hc as [? ?]; congruence]].
  assert (Hco : coherent (snap_Observations s)) by (apply observationsByKey_coherent; eauto).
  pose proof (observationsByKey_spec _ _ Hl) as Hspec.
  unfold availableObservationSet, available_fuel.
  rewrite (available_top _ _ _ _ (observationsByKey_keyed _ _ Hl)). split.
  - destruct (byKey !! want) as [o'|] eqn:Ho; [|discriminate].
    destruct (observationValid (Some o') now && _) eqn:Hv; [|discriminate].
    intros [= ->]. apply andb_true_iff in Hv as [Hv Hd]. apply Hspec in Ho as [Hin Hid].
    do 3 (split; [done|]). split; [by exists want|]. split; [done|].
    intros dep Hdep. destruct (dependencies_defined _ _ Hdep) as [d Hdef].
    apply (published_lookup _ _ _ _ _ Hl Hdef).
    rewrite forallb_forall in Hd. apply Hd. by apply list_elem_of_In.
  - intros (_ & _ & Hin & (id & [= <-] & Hid) & Hv & Hdeps).
    assert (byKey !! want = Some o) as -> by (by apply Hspec).
    rewrite Hv. cbn [andb]. replace (forallb _ _) with true; [done|]. symmetry.
    apply forallb_forall. intros dep Hdep. apply list_elem_of_In in Hdep.
    destruct (dependencies_defined _ _ Hdep) as [d Hdef].
    apply (published_lookup _ _ _ _ _ Hl Hdef). by apply Hdeps.
Qed.

Lemma AvailableObservation_key snapshot key now o :
  AvailableObservation snapshot key now = Some o -> exists id, KeyID key = Ok id.
Proof.
  unfold AvailableObservation. case_match; [discriminate|].
  destruct (KeyID key) as [id|]; [|discriminate]. by exists id.
Qed.

Lemma LossPolicy_defined key id : KeyID key = Ok id -> exists policy, LossPolicy key = Ok policy.
Proof.
  intros Hid. destruct (KeyID_inv _ _ Hid) as [(p & d & -> & Hd & _)|(e & -> & Hv & _)];
    unfold LossPolicy; cbn [GetExtension GetPlatform].
  - rewrite Hd. by exists d.(def_LossPolicy).
  - rewrite Hv. by exists CLP_ADMISSION_ONLY.
Qed.

(** What a resolved requirement records of the requested key. *)
Definition resolves (snapshot : option CapabilitySnapshot) (now : time)
    (key : option CapabilityKey) (r : CapabilityRequirement) : Prop :=
  is_Some (AvailableObservation snapshot key now) /\
  r.(cr_Key) = CloneKey key /\ LossPolicy key = Ok r.(cr_LossPolicy).

Definition resolve_step (snapshot : option CapabilitySnapshot) (now : time)
    (resolved : list CapabilityRequirement) (key : option CapabilityKey)
    : result (list CapabilityRequirement) :=
  match AvailableObservation snapshot key now with
  | None => Err (Errorf "required capability %q is not available" [AStr (KeyID_or_empty key)])
  | Some _ => policy ← LossPolicy key; Ok (resolved ++ [mkRequirement (CloneKey key) policy])
  end.

Lemma resolve_fold snapshot now keys acc :
  (exists rs, foldM (resolve_step snapshot now) acc keys = Ok (acc ++ rs) /\
     Forall2 (resolves snapshot now) keys rs) \/
  (exists e k, foldM (resolve_step snapshot now) acc keys = Err e /\ k ∈ keys /\
     AvailableObservation snapshot k now = None).
Proof.
  revert acc. induction keys as [|k keys IH]; intros acc; cbn [foldM].
  { left. exists []. by rewrite app_nil_r. }
  destruct (AvailableObservation snapshot k now) as [o|] eqn:Ho.
  - destruct (AvailableObservation_key _ _ _ _ Ho) as [id Hid].
    destruct (LossPolicy_defined _ _ Hid) as [policy Hp].
    assert (resolve_step snapshot now acc k = Ok (acc ++ [mkRequirement (CloneKey k) policy])) as ->
      by (unfold resolve_step; by rewrite Ho, Hp).
    cbn [mbind result_bind].
    destruct (IH (acc ++ [mkRequirement (CloneKey k) policy])) as [(rs & Hf & Hrs)|(e & k' & Hf & Hk & Hn)].
    + left. exists (mkRequirement (CloneKey k) policy :: rs). rewrite Hf, <- app_assoc.
      split; [done|]. constructor; [|done]. split; [by exists o|done].
    + right. exists e, k'. rewrite Hf. set_solver.
  - right. eexists _, k.
    assert (resolve_step snapshot now acc k = Err (Errorf "required capability %q is not available"
              [AStr (KeyID_or_empty k)])) as -> by (unfold resolve_step; by rewrite Ho).
    split; [reflexivity|]. set_solver.
Qed.

Lemma requirement_less_strict_weak : strict_weak requirement_less.
Proof.
  split; unfold requirement_less; intros *; [apply string_lt_asym|].
  apply (sw_trans _ string_lt_strict_weak).
Qed.

(** Resolving a key set succeeds exactly when the key set and the snapshot
    are valid and every key has an available observation; the result lists
    one requirement per key, with the registry's loss policy, in identity
    order. *)
Theorem ResolveRequirements_spec snapshot keys now :
  (forall rs, ResolveRequirements snapshot keys now = Ok rs ->
     StronglySorted (not_after requirement_less) rs /\
     exists rs', rs ≡ₚ rs' /\ Forall2 (resolves snapshot now) keys rs') /\
  (is_Ok (ResolveRequirements snapshot keys now) = true <->
     ValidateRequirementKeys keys = Ok () /\ ValidateSnapshot snapshot now = Ok () /\
     Forall (fun key => is_Some (AvailableObservation snapshot key now)) keys).
Proof.
  unfold ResolveRequirements.
  destruct (ValidateRequirementKeys keys) as [[]|e]; cbn [mbind result_bind];
    [|split; [discriminate|split; [discriminate|by intros ([=] & _)]]].
  destruct (ValidateSnapshot snapshot now) as [[]|e]; cbn [mbind result_bind wrap_err];
    [|split; [discriminate|split; [discriminate|by intros (_ & [=] & _)]]].
  change (foldM _ [] keys) with (foldM (resolve_step snapshot now) [] keys).
  destruct (resolve_fold snapshot now keys []) as [(rs & -> & Hrs)|(e & k & -> & Hk & Hn)].
  - cbn [mbind result_bind app is_Ok]. split.
    + intros rs' [= <-]. split; [apply sort_slice_sorted, requirement_less_strict_weak|].
      exists rs. split; [apply sort_slice_perm|done].
    + split; [intros _|done]. do 2 (split; [done|]).
      eapply Forall2_Forall_l; [exact Hrs|]. apply Forall_forall. by intros r _ k [Ho _].
  - cbn [mbind result_bind is_Ok]. split; [discriminate|]. split; [discriminate|].
    intros (_ & _ & Hall). rewrite Forall_forall in Hall. specialize (Hall k Hk).
    rewrite Hn in Hall. by destruct Hall.
Qed.

(** ** Freshness *)
Lemma observationValid_inv o now :
  observationValid (Some o) now = true ->
  o.(obs_State) = CS_AVAILABLE /\ o.(obs_ReasonCode) = CRC_AVAILABLE /\
  AsTime o.(obs_ObservedAt) <= now + Minute /\
  (exists owner, ObservationOwner o.(obs_Key) = Ok owner /\ o.(obs_Provider) = owner.1 /\
     ValidateEvidence o.(obs_Evidence) owner.2 = Ok ()) /\
  validateFreshness o.(obs_Key) o.(obs_ObservedAt) o.(obs_ValidUntil) now true = Ok ().
Proof.
  unfold observationValid. case_match eqn:E1; [discriminate|]. b2p.
  destruct (ObservationOwner (obs_Key o)) as [[provider ident]|]; [|discriminate].
  case_match eqn:E2; [discriminate|]. b2p.
  destruct (ValidateEvidence _ ident) as [[]|] eqn:E3; [|discriminate]. cbn [is_Ok negb].
  destruct (validateFreshness _ _ _ _ _) as [[]|] eqn:E4; [|discriminate]. intros _.
  unfold After, Add in *. do 2 (split; [done|]). split; [lia|]. split; [|done].
  by exists (provider, ident).
Qed.

Lemma validateFreshness_current key observedAt validUntil now :
  validateFreshness key observedAt validUntil now true = Ok () ->
  exists m, max_validity key = Ok m /\
    (m <> 0 -> now < AsTime validUntil <= AsTime observedAt + m /\ AsTime observedAt < AsTime validUntil).
Proof.
  unfold validateFreshness. destruct observedAt as [t|]; [|discriminate].
  intros Hf. apply bind_Ok in Hf as (m & Hm & Hf). exists m. split; [done|]. intros Hne.
  rewrite (proj2 (Z.eqb_neq m 0) Hne) in Hf. destruct validUntil as [u|]; [|discriminate].
  unfold After, Add in Hf. destruct (negb _ || _) eqn:E1 in Hf; [discriminate|].
  destruct (true && _) eqn:E2 in Hf; [discriminate|]. b2p.
  destruct E2 as [E2|E2]; b2p; [done|lia].
Qed.

(** An observation the control plane treats as available was taken at most
    a minute ahead of its own clock and, when its definition bounds the
    validity of an observation, less than that bound ago: a node that stops
    reporting loses an expiring capability within [MaxValidity]. *)
Theorem AvailableObservation_current snapshot key now o :
  AvailableObservation snapshot key now = Some o ->
  AsTime o.(obs_ObservedAt) <= now + Minute /\
  forall m, max_validity o.(obs_Key) = Ok m -> m <> 0 -> now < AsTime o.(obs_ObservedAt) + m.
Proof.
  unfold AvailableObservation. case_match; [discriminate|].
  destruct (KeyID key) as [want|]; [|discriminate].
  destruct (observationsByKey _) as [byKey|] eqn:Hl; [|discriminate].
  unfold availableObservationSet, available_fuel.
  rewrite (available_top _ _ _ _ (observationsByKey_keyed _ _ Hl)).
  destruct (byKey !! want) as [o'|] eqn:Ho; [|discriminate].
  destruct (observationValid (Some o') now && _) eqn:Hv; [|discriminate]. intros [= ->].
  apply andb_true_iff in Hv as [Hv _].
  destruct (observationValid_inv _ _ Hv) as (_ & _ & Hobs & _ & Hf). split; [done|].
  destruct (validateFreshness_current _ _ _ _ Hf) as (m & Hm & Hcur).
  intros m' Hm' Hne. rewrite Hm in Hm'. injection Hm' as <-. specialize (Hcur Hne). lia.
Qed.

Lemma for_each_map_to_list {A} (body : string -> A -> result ()) (m : gmap string A) l :
  l ≡ₚ map_to_list m ->
  for_each (fun _ '(id, o) => body id o) l = Ok () <->
  (forall id o, m !! id = Some o -> body id o = Ok ()).
Proof.
  intros Hp. rewrite for_each_ok. split.
  - intros Hall id o Ho. apply elem_of_map_to_list in Ho. rewrite <- Hp in Ho.
    apply list_elem_of_lookup in Ho as [j Hj]. apply (Hall j _ Hj).
  - intros Hall j [id o] Hj. apply Hall, elem_of_map_to_list. rewrite <- Hp.
    by eapply list_elem_of_lookup_2.
Qed.

(** A snapshot is accepted exactly when every published observation is
    well formed for its identity and every observation published as available
    is available through its dependencies; the verdict does not depend on the
    order in which the Go map is ranged over. *)
Theorem ValidateSnapshot_iff s t now :
  s.(snap_CollectedAt) = Some t ->
  ValidateSnapshot (Some s) now = Ok () <->
  CheckValid (Some t) = Ok () /\ Z.of_nat (length s.(snap_Observations)) <= MaxSnapshotObservations /\
  AsTime (Some t) <= now + Minute /\
  exists byKey, observationsByKey s.(snap_Observations) = Ok byKey /\
    forall id o, byKey !! id = Some o ->
      validateObservation id o (AsTime (Some t)) now = Ok () /\
      (o.(obs_State) = CS_AVAILABLE ->
       observationValid (Some o) now = true /\
       forall dep, dep ∈ dependencies o -> published s.(snap_Observations) dep now).
Proof.
  intros Ht. unfold ValidateSnapshot. rewrite Ht.
  destruct (CheckValid (Some t)) as [[]|e] eqn:Hc; cbn [wrap_err mbind result_bind];
    [|split; [discriminate|by intros ([=] & _)]].
  destruct (Z.ltb_spec MaxSnapshotObservations (Z.of_nat (length (snap_Observations s))));
    [split; [discriminate|lia]|].
  unfold After, Add. destruct (Z.ltb_spec (now + Minute) (AsTime (Some t)));
    [split; [discriminate|lia]|].
  destruct (observationsByKey (snap_Observations s)) as [byKey|e] eqn:Hl; cbn [mbind result_bind];
    [|split; [discriminate|by intros (_ & _ & _ & b & [=] & _)]].
  rewrite bind_unit_Ok, (for_each_map_to_list (fun id o =>
    validateObservation id o (AsTime (Some t)) now) byKey), (for_each_map_to_list (fun id o =>
    if bool_decide (obs_State o = CS_AVAILABLE) && negb (availableObservationSet byKey id now)
    then Err _ else Ok ()) byKey) by done.
  assert (Hav : forall id o, byKey !! id = Some o ->
    availableObservationSet byKey id now = true <->
    observationValid (Some o) now = true /\
       forall dep, dep ∈ dependencies o -> published s.(snap_Observations) dep now).
  { intros id o Ho. unfold availableObservationSet, available_fuel.
    rewrite (available_top _ _ _ _ (observationsByKey_keyed _ _ Hl)), Ho, andb_true_iff, forallb_forall.
    f_equiv. split.
    - intros Hall dep Hdep. destruct (dependencies_defined _ _ Hdep) as [d Hd].
      apply (published_lookup _ _ _ _ _ Hl Hd), Hall. by apply list_elem_of_In.
    - intros Hall dep Hdep. apply list_elem_of_In in Hdep.
      destruct (dependencies_defined _ _ Hdep) as [d Hd].
      apply (published_lookup _ _ _ _ _ Hl Hd). by apply Hall. }
  split.
  - intros [Hv Ha]. do 3 (split; [done|]). exists byKey. split; [done|].
    intros id o Ho. split; [by apply Hv|]. intros Hst. apply (Hav id); [done|].
    specialize (Ha id o Ho). simpl in Ha. rewrite bool_decide_eq_true_2 in Ha by done.
    by destruct (availableObservationSet byKey id now).
  - intros (_ & _ & _ & b & [= <-] & Hall). split; [intros id o Ho; by apply Hall|].
    intros id o Ho. case_bool_decide as Hst; [|done].
    by rewrite (proj2 (Hav id o Ho) (proj2 (Hall id o Ho) Hst)).
Qed.

(** ** Transitions *)

(** Evaluation fails closed and transitions ignore refreshes.  A capability
    is effectively available only while the snapshot makes it available at
    that moment, so expiry, absence or a lost dependency turns it off; and two
    samples that are both available with the same evidence are no
    transition, whatever their timestamps, validity and reason text. *)
Theorem EvaluateObservation_fail_closed :
  (forall snapshot observation now,
     (EvaluateObservation snapshot observation now).(ev_State) = CS_AVAILABLE <->
     exists o, observation = Some o /\ is_Some (AvailableObservation snapshot o.(obs_Key) now)) /\
  (forall s1 o1 t1 s2 o2 t2,
     is_Some (AvailableObservation s1 o1.(obs_Key) t1) ->
     is_Some (AvailableObservation s2 o2.(obs_Key) t2) ->
     (EvaluateObservationTransition s1 (Some o1) t1 s2 (Some o2) t2).2
     = negb (bool_decide (o1.(obs_Evidence) = o2.(obs_Evidence)))).
Proof.
  split.
  - intros snapshot [o|] now; simpl; [|split; [discriminate|by intros (o & [=] & _)]].
    destruct (AvailableObservation snapshot (obs_Key o) now) as [o'|] eqn:Ho; simpl.
    + split; [|done]. intros _. exists o. by rewrite Ho.
    + case_bool_decide; simpl; (split; [congruence|intros (o' & [= <-] & Hs); rewrite Ho in Hs; by destruct Hs]).
  - intros s1 o1 t1 s2 o2 t2 [x Hx] [y Hy].
    unfold EvaluateObservationTransition, EvaluateObservation. rewrite Hx, Hy. reflexivity.
Qed.

(** ** Derived requirements *)
Definition lower_trim (s : string) : string := ToLower (TrimSpace s).
Definition needs_backend (input : RequirementInput) (names : list string) : bool :=
  negb (String.eqb (lower_trim input.(ri_NetworkMode)) "host")
  && existsb (String.eqb (lower_trim input.(ri_NetworkBackend))) names.

(** The platform capabilities a workload needs. *)
Definition needed (input : RequirementInput) (p : PlatformCapability) : bool :=
  match p with
  | PC_DNS_POLICY_ENFORCEMENT => input.(ri_RequiresDNSPolicyEnforcement)
  | PC_STRICT_EGRESS_ENFORCEMENT => input.(ri_RequiresStrictEgressEnforcement)
  | PC_NETWORK_BRIDGE => needs_backend input ["bridge"; "iptables"]
  | PC_NETWORK_BPFNET => needs_backend input ["bpfnet"; "ebpf"]
  | PC_RUNSC_MEMORY_HARD_LIMIT => 0 <? input.(ri_MemoryLimitBytes)
  | PC_RUNSC_EPHEMERAL_STORAGE_HARD_LIMIT =>
      input.(ri_RootfsWritable) || (0 <? input.(ri_EphemeralStorageLimitBytes))
  | PC_ROOTFS_LOWER_EROFS => input.(ri_EROFSBacking)
  | PC_ROOTFS_SNAPSHOT => input.(ri_RootfsSnapshot)
  | _ => false
  end.

Lemma elem_of_when {A} (b : bool) (x y : A) : y ∈ when b x <-> b = true /\ y = x.
Proof. destruct b; simpl; set_solver. Qed.

Lemma network_keys_elem input defer l p :
  network_keys input defer = Ok l ->
  PlatformKey p ∈ l <->
  (p = PC_NETWORK_BRIDGE /\ needs_backend input ["bridge"; "iptables"] = true) \/
  (p = PC_NETWORK_BPFNET /\ needs_backend input ["bpfnet"; "ebpf"] = true).
Proof.
  unfold network_keys, needs_backend, lower_trim, PlatformKey. cbn [existsb].
  destruct (String.eqb (ToLower (TrimSpace (ri_NetworkMode input))) "host").
  { intros [= <-]. simpl. set_solver. }
  remember (ToLower (TrimSpace (ri_NetworkBackend input))) as b eqn:Hb. clear Hb.
  case_match eqn:E1; [discriminate|].
  destruct (String.eqb_spec b ""); [intros [= <-]; subst b; simpl; set_solver|].
  destruct (String.eqb_spec b "bridge"), (String.eqb_spec b "iptables"),
    (String.eqb_spec b "bpfnet"), (String.eqb_spec b "ebpf"); simpl; try congruence;
    intros [= <-]; set_solver.
Qed.

Lemma network_keys_platform input defer l k :
  network_keys input defer = Ok l -> k ∈ l -> exists p, k = PlatformKey p.
Proof.
  unfold network_keys. intros Hl. repeat case_match; simplify_eq; set_solver.
Qed.

Lemma requirement_keys_fold keys st st' :
  foldM ValidateRequirementKeys_step st keys = Ok st' ->
  Forall (fun k => IsWorkloadRequirement k = true) keys /\
  NoDup (map KeyID_or_empty keys) /\ (forall k, k ∈ keys -> KeyID_or_empty k ∉ st.(ks_seen)).
Proof.
  revert st. induction keys as [|k keys IH]; intros st; cbn [foldM map];
    [intros _; split; [constructor|split; [constructor|set_solver]]|].
  intros Hf. apply bind_Ok in Hf as (s1 & Hk & Hf). apply IH in Hf as (Hw & Hnd & Hnew).
  unfold ValidateRequirementKeys_step in Hk. apply bind_Ok in Hk as (id & Hid & Hk).
  assert (Hke : KeyID_or_empty k = id) by (unfold KeyID_or_empty; by rewrite Hid).
  destruct (IsWorkloadRequirement k) eqn:Hwk; [|discriminate Hk]. cbn [negb] in Hk.
  case_bool_decide as Hseen; [discriminate Hk|].
  assert (Hs : s1.(ks_seen) = {[id]} ∪ st.(ks_seen)).
  { destruct (GetExtension k); [case_bool_decide; [discriminate Hk|]|]; by injection Hk as <-. }
  rewrite Hs in Hnew. split; [by constructor|]. rewrite Hke. split.
  - constructor; [|done]. intros Hin. apply list_elem_of_fmap in Hin as (k' & E & Hk').
    specialize (Hnew k' Hk'). set_solver.
  - intros k' [->|Hk']%elem_of_cons; [by rewrite Hke|]. specialize (Hnew k' Hk'). set_solver.
Qed.

Lemma ValidateRequirementKeys_ok keys :
  ValidateRequirementKeys keys = Ok () ->
  Forall (fun k => IsWorkloadRequirement k = true) keys /\ NoDup (map KeyID_or_empty keys).
Proof.
  unfold ValidateRequirementKeys. case_match; [discriminate|]. intros Hf.
  apply bind_Ok in Hf as (st & Hf & _). by apply requirement_keys_fold in Hf as (? & ? & _).
Qed.

Lemma key_less_strict_weak : strict_weak key_less.
Proof.
  split; unfold key_less; intros *; [apply string_lt_asym|].
  apply (sw_trans _ string_lt_strict_weak).
Qed.

(** The keys [deriveRequirements] collects before sorting. *)
Definition raw_keys (input : RequirementInput) (network : list CapabilityKey) : list CapabilityKey :=
  when input.(ri_RequiresDNSPolicyEnforcement) (PlatformKey PC_DNS_POLICY_ENFORCEMENT)
  ++ when input.(ri_RequiresStrictEgressEnforcement) (PlatformKey PC_STRICT_EGRESS_ENFORCEMENT)
  ++ network
  ++ when (0 <? input.(ri_MemoryLimitBytes)) (PlatformKey PC_RUNSC_MEMORY_HARD_LIMIT)
  ++ when (input.(ri_RootfsWritable) || (0 <? input.(ri_EphemeralStorageLimitBytes)))
       (PlatformKey PC_RUNSC_EPHEMERAL_STORAGE_HARD_LIMIT)
  ++ when input.(ri_EROFSBacking) (PlatformKey PC_ROOTFS_LOWER_EROFS)
  ++ when input.(ri_RootfsSnapshot) (PlatformKey PC_ROOTFS_SNAPSHOT)
  ++ map (fun requirement =>
       let capability := deref (deref requirement).(er_Capability) in
       ExtensionKey capability.(ext_Name) capability.(ext_Value))
       input.(ri_ExtensionCapabilityRequests).

Lemma deriveRequirements_inv input defer keys :
  deriveRequirements input defer = Ok keys ->
  exists network, network_keys input defer = Ok network /\
    keys = sort_slice key_less (raw_keys input network) /\
    ValidateRequirementKeys (map Some keys) = Ok () /\
    input.(ri_RequiresDNSPolicyEnforcement) && input.(ri_RequiresStrictEgressEnforcement) = false.
Proof.
  unfold deriveRequirements. case_match; [discriminate|]. intros Hd.
  apply bind_Ok in Hd as ([] & _ & Hd). destruct (_ && _) in Hd |- *; [discriminate|].
  apply bind_Ok in Hd as (network & Hn & Hd). exists network. split; [done|].
  apply bind_Ok in Hd as ([] & Hv & [= <-]). done.
Qed.

Lemma ext_not_platform p (l : list (option ExtensionCapabilityRequirement)) f :
  PlatformKey p ∈ map (fun r => ExtensionKey (f r).(ext_Name) (f r).(ext_Value)) l -> False.
Proof. intros Hin. apply list_elem_of_fmap in Hin as (x & E & _). discriminate E. Qed.

(** The requirements derived for a workload are exactly the platform
    capabilities its shape needs plus one key per requested extension; they
    are in identity order, pairwise distinct, and never name an internal
    fact. *)
Theorem deriveRequirements_spec input defer keys :
  deriveRequirements input defer = Ok keys ->
  (forall p, PlatformKey p ∈ keys <-> needed input p = true) /\
  (forall e, KindExtension (Some e) ∈ keys <->
     exists r, r ∈ input.(ri_ExtensionCapabilityRequests) /\
               e = NormalizeExtension (deref (deref r).(er_Capability))) /\
  StronglySorted (not_after key_less) keys /\
  NoDup (map KeyID_or_empty (map Some keys)) /\
  Forall (fun k => IsWorkloadRequirement (Some k) = true) keys.
Proof.
  intros Hd. apply deriveRequirements_inv in Hd as (network & Hn & -> & Hv & Hexcl).
  apply ValidateRequirementKeys_ok in Hv as [Hw Hnd].
  split; [|split; [|split; [apply sort_slice_sorted, key_less_strict_weak|split; [done|]]]].
  - intros p. rewrite elem_of_sort_slice. unfold raw_keys, PlatformKey.
    rewrite !elem_of_app, !elem_of_when. setoid_rewrite (network_keys_elem _ _ _ p Hn). split.
    + intros Hin. repeat (destruct Hin as [Hin|Hin]; [naive_solver|]).
      by apply (ext_not_platform p _ (fun r => deref (deref r).(er_Capability))) in Hin.
    + destruct p; simpl; naive_solver.
  - intros e. rewrite elem_of_sort_slice. unfold raw_keys.
    rewrite !elem_of_app, !elem_of_when. split.
    + intros Hin. repeat (destruct Hin as [Hin|Hin];
        [try (by destruct Hin as [_ [=]]);
         by apply (network_keys_platform _ _ _ _ Hn) in Hin as [p [=]]|]).
      apply list_elem_of_fmap in Hin as (r & E & Hr). injection E as ->. exists r.
      split; [done|]. by destruct (deref (er_Capability (deref r))).
    + intros (r & Hr & ->). do 7 right. apply list_elem_of_fmap. exists r.
      split; [|done]. unfold ExtensionKey. by destruct (deref (er_Capability (deref r))).
  - by rewrite Forall_map in Hw.
Qed.
End runtime.

(** ** Bounded diagnostics *)
Inductive utf8 : string -> Prop :=
| utf8_nil : utf8 ""
| utf8_rune n s : rune_len s = Some n -> utf8 (drop_bytes n s) -> utf8 s.

Ltac rune_cases :=
  repeat match goal with
  | H : context [match ?x with _ => _ end] |- _ => destruct x eqn:?; simplify_eq
  | H : context [if ?b then _ else _] |- _ => destruct b eqn:?; simplify_eq
  end.
Ltac rewrite_conds :=
  repeat match goal with H : ?x = ?b |- context [if ?x then _ else _] =>
    match b with true => rewrite H | false => rewrite H end end.

Lemma rune_len_app n s t : rune_len s = Some n -> rune_len (take_bytes n s +:+ t) = Some n.
Proof.
  intros Hn. destruct s as [|a [|b [|c [|d s]]]]; unfold rune_len in Hn; rune_cases;
    simpl; unfold rune_len; rewrite_conds; try done.
Qed.

Lemma rune_len_bounds n s : rune_len s = Some n -> (1 <= n <= String.length s)%nat.
Proof.
  intros Hn. destruct s as [|a [|b [|c [|d s]]]]; unfold rune_len in Hn; rune_cases; simpl;
    (discriminate Hn || lia).
Qed.

Lemma rune_len_cont n k s :
  rune_len s = Some n -> (0 < k < n)%nat -> exists c, String.get k s = Some c /\ is_cont c = true.
Proof.
  intros Hn Hk. assert (Hc : forall lo hi c, (128 <= lo)%nat -> (hi <= 191)%nat ->
    in_range lo hi c = true -> is_cont c = true).
  { intros lo hi c Hlo Hhi Hr. unfold is_cont, in_range in *. b2p.
    apply Nat.leb_le in H, H0. apply andb_true_iff. split; apply Nat.leb_le; lia. }
  destruct s as [|a [|b [|c [|d s]]]]; unfold rune_len in Hn; rune_cases; b2p;
    try (discriminate Hn || lia);
    destruct k as [|[|[|[|k]]]]; try lia; simpl; eexists; (split; [reflexivity|]);
    first [done | eapply Hc; [| |eassumption]; lia].
Qed.

Lemma utf8_app n s t : rune_len s = Some n -> utf8 t -> utf8 (take_bytes n s +:+ t).
Proof.
  intros Hn Ht. apply (utf8_rune n); [by apply rune_len_app|].
  assert (drop_bytes n (take_bytes n s +:+ t) = t) as ->; [|done].
  apply rune_len_bounds in Hn as [_ Hn]. revert s Hn.
  induction n as [|n IH]; intros s Hn; [done|].
  destruct s as [|c s]; simpl in *; [lia|]. apply IH. lia.
Qed.

Lemma drop_bytes_length n s : String.length (drop_bytes n s) = (String.length s - n)%nat.
Proof. revert s. induction n as [|n IH]; intros [|c s]; simpl; [done..|apply IH]. Qed.

Lemma ValidString_utf8 s : ValidString s = true <-> utf8 s.
Proof.
  unfold ValidString.
  assert (Hf : forall fuel, (String.length s <= fuel)%nat -> valid_utf8_fuel fuel s = true <-> utf8 s);
    [|by apply Hf].
  intros fuel. revert s. induction fuel as [|fuel IH]; intros s Hl.
  - destruct s; simpl in *; [|lia]. split; [constructor|done].
  - destruct s as [|c s]; [split; [constructor|done]|]. cbn [valid_utf8_fuel]. split.
    + destruct (rune_len (String c s)) as [n|] eqn:Hn; [|discriminate]. intros Hv.
      apply (utf8_rune n); [done|]. apply IH; [|done].
      rewrite drop_bytes_length. apply rune_len_bounds in Hn. lia.
    + inversion 1 as [|n s' Hn Hd]; subst. rewrite Hn. apply IH; [|done].
      rewrite drop_bytes_length. apply rune_len_bounds in Hn. lia.
Qed.

Lemma to_valid_utf8 fuel b s : utf8 (to_valid_utf8_fuel fuel b replacement_rune s).
Proof.
  revert b s. induction fuel as [|fuel IH]; intros b s; [constructor|].
  destruct s as [|c s]; [constructor|]. cbn [to_valid_utf8_fuel].
  destruct (rune_len (String c s)) as [n|] eqn:Hn; [by apply utf8_app|].
  destruct b; [done|]. by apply (utf8_app 3 replacement_rune).
Qed.

Lemma take_drop_bytes n s : take_bytes n s +:+ drop_bytes n s = s.
Proof. revert s. induction n as [|n IH]; intros [|c s]; [done..|]. exact (f_equal (String c) (IH s)). Qed.

Lemma to_valid_utf8_id fuel b s :
  utf8 s -> (String.length s < fuel)%nat -> to_valid_utf8_fuel fuel b replacement_rune s = s.
Proof.
  revert b s. induction fuel as [|fuel IH]; intros b s Hu Hl; [lia|].
  destruct s as [|c s]; [done|]. cbn [to_valid_utf8_fuel].
  inversion Hu as [|n s' Hn Hd]; subst. rewrite Hn, IH; [apply take_drop_bytes|done|].
  rewrite drop_bytes_length. apply rune_len_bounds in Hn. lia.
Qed.

Lemma utf8_prefix s k :
  utf8 s -> (forall c, String.get k s = Some c -> is_cont c = false) -> utf8 (take_bytes k s).
Proof.
  intros Hu. revert k. induction Hu as [|n s Hn Hu IH]; intros k Hk; [destruct k; constructor|].
  destruct (decide (k = 0%nat)) as [->|]; [constructor|].
  destruct (decide (k < n)%nat) as [Hlt|].
  { destruct (rune_len_cont n k s Hn ltac:(lia)) as (c & Hc & Hcont).
    by rewrite (Hk c Hc) in Hcont. }
  assert (Hsplit : forall m j t, take_bytes (m + j) t = take_bytes m t +:+ take_bytes j (drop_bytes m t)).
  { induction m as [|m IHm]; intros j [|c t]; [done..|by destruct j|].
    exact (f_equal (String c) (IHm j t)). }
  assert (Hget : forall m j t, String.get j (drop_bytes m t) = String.get (m + j) t).
  { induction m as [|m IHm]; intros j [|c t]; [done..|by destruct j|exact (IHm j t)]. }
  replace k with (n + (k - n))%nat by lia. rewrite Hsplit. apply utf8_app; [done|].
  apply IH. intros c. rewrite Hget. intros Hc. apply (Hk c). by replace k with (n + (k - n))%nat by lia.
Qed.

Lemma rune_boundary_spec s e :
  (e < String.length s)%nat ->
  (rune_boundary s e <= e)%nat /\
  (rune_boundary s e = 0%nat \/ forall c, String.get (rune_boundary s e) s = Some c -> is_cont c = false).
Proof.
  induction e as [|e IH]; intros He; [simpl; auto|]. cbn [rune_boundary].
  destruct (String.get (S e) s) as [c|] eqn:Hc.
  - unfold RuneStart. destruct (is_cont c) eqn:Hcont; cbn [negb].
    + destruct IH as [IH1 IH2]; [lia|]. split; [lia|done].
    + split; [lia|]. right. intros c'. rewrite Hc. by intros [= <-].
  - split; [lia|]. right. intros c. by rewrite Hc.
Qed.

Lemma take_bytes_length n s : (String.length (take_bytes n s) <= n)%nat.
Proof. revert s. induction n as [|n IH]; intros [|c s]; simpl; [lia..|]. specialize (IH s). lia. Qed.

(** A bounded reason is valid UTF-8 of at most [MaxReasonBytes] bytes, cut
    at a rune boundary, and a reason that already was is left unchanged, so a
    normalized observation always passes the reason checks of
    [validateObservation] and [observationValid]. *)
Theorem BoundedReason_spec reason :
  ValidString (BoundedReason reason) = true /\ str_len (BoundedReason reason) <= MaxReasonBytes /\
  (ValidString reason = true -> str_len reason <= MaxReasonBytes -> BoundedReason reason = reason).
Proof.
  unfold BoundedReason. pose proof (to_valid_utf8 (S (String.length reason)) false reason) as Hu.
  unfold ToValidUTF8. set (r := to_valid_utf8_fuel _ _ _ _) in *. split; [|split].
  - apply ValidString_utf8. destruct (Z.leb_spec (str_len r) MaxReasonBytes) as [|Hlt]; [done|].
    unfold str_len, MaxReasonBytes in Hlt.
    destruct (rune_boundary_spec r (Z.to_nat MaxReasonBytes)) as [_ [->|Hb]];
      [unfold MaxReasonBytes; lia|constructor|].
    by apply utf8_prefix.
  - destruct (Z.leb_spec (str_len r) MaxReasonBytes) as [|Hlt]; [done|].
    unfold str_len, MaxReasonBytes in *. fold MaxReasonBytes.
    destruct (rune_boundary_spec r (Z.to_nat MaxReasonBytes)) as [Hb _];
      [unfold MaxReasonBytes; lia|].
    pose proof (take_bytes_length (rune_boundary r (Z.to_nat MaxReasonBytes)) r).
    unfold MaxReasonBytes in *. lia.
  - intros Hv Hl. assert (r = reason) as ->.
    { apply to_valid_utf8_id; [by apply ValidString_utf8|lia]. }
    by rewrite (proj2 (Z.leb_le _ _) Hl).
Qed.

(** ** Concrete instances *)
Definition ex_boot : string := "0123abcd-0123-4567-89ab-0123456789ab".
Definition ex_digest : string :=
  "sha256:0000000000000000000000000000000000000000000000000000000000000000".
Definition ex_obs (p : PlatformCapability) (provider : CapabilityProvider)
    (until : option Timestamp) (evidence : option CapabilityEvidence) : CapabilityObservation :=
  mkObservation (Some (KindPlatform p)) CS_AVAILABLE provider (Some (mkTimestamp 1000 0)) until
    evidence CRC_AVAILABLE "ok".
Definition ex_hard_limit : CapabilityObservation :=
  ex_obs PC_RUNSC_MEMORY_HARD_LIMIT CP_DERIVED None None.
Definition ex_bridge : CapabilityObservation :=
  ex_obs PC_NETWORK_BRIDGE CP_NETWORK_HEALTH (Some (mkTimestamp 1010 0)) None.
Definition ex_snapshot : CapabilitySnapshot :=
  mkSnapshot (Some (mkTimestamp 1001 0)) [
    Some ex_bridge; Some ex_hard_limit;
    Some (ex_obs PC_CGROUP_V2_MEMORY_CONTROLLER CP_HOST_CGROUP None (Some (Some (EvBoot ex_boot))));
    Some (ex_obs PC_RUNSC_MEMORY_ENFORCEMENT_SELF_TEST CP_RUNSC_SELF_TEST None
            (Some (Some (EvRuntime ex_boot ex_digest ex_digest)))) ].
Definition ex_now : time := 1005 * Second.

Lemma KeyID_injective_witness :
  @CloneKey amd64 (Some (KindExtension (Some (mkExtension "Example.com/gpu" "a100")))) =
  @CloneKey amd64 (Some (KindExtension (Some (mkExtension "example.com/gpu" "a100")))).
Proof. eapply (@KeyID_injective amd64); vm_compute; reflexivity. Defined.

Lemma AvailableObservation_iff_witness :
  Some ex_hard_limit ∈ ex_snapshot.(snap_Observations).
Proof.
  pose proof (@AvailableObservation_iff amd64 ex_snapshot (mkTimestamp 1001 0)
    (Some (KindPlatform PC_RUNSC_MEMORY_HARD_LIMIT)) ex_now ex_hard_limit eq_refl) as H.
  apply (proj1 H). vm_compute. reflexivity.
Defined.

Lemma AvailableObservation_current_witness :
  AsTime ex_bridge.(obs_ObservedAt) <= ex_now + Minute /\
  forall m, max_validity ex_bridge.(obs_Key) = Ok m -> m <> 0 ->
  ex_now < AsTime ex_bridge.(obs_ObservedAt) + m.
Proof.
  apply (@AvailableObservation_current amd64 (Some ex_snapshot) (Some (KindPlatform PC_NETWORK_BRIDGE))).
  vm_compute. reflexivity.
Defined.

Lemma ValidateSnapshot_iff_witness :
  CheckValid (Some (mkTimestamp 1001 0)) = Ok ().
Proof.
  pose proof (@ValidateSnapshot_iff amd64 ex_snapshot (mkTimestamp 1001 0) ex_now eq_refl) as H.
  apply (proj1 H). vm_compute. reflexivity.
Defined.

Definition ex_input : RequirementInput :=
  mkRequirementInput " Bridge" "IPTables" false true 1024 true 0 false true
    [Some (mkExtensionRequirement (Some (mkExtension "Example.com/gpu" "a100")))].
Definition ex_keys : list CapabilityKey :=
  [KindExtension (Some (mkExtension "example.com/gpu" "a100")); PlatformKey PC_NETWORK_BRIDGE;
   PlatformKey PC_STRICT_EGRESS_ENFORCEMENT; PlatformKey PC_ROOTFS_SNAPSHOT;
   PlatformKey PC_RUNSC_MEMORY_HARD_LIMIT; PlatformKey PC_RUNSC_EPHEMERAL_STORAGE_HARD_LIMIT].

Lemma deriveRequirements_spec_witness :
  PlatformKey PC_NETWORK_BRIDGE ∈ ex_keys <-> @needed amd64 ex_input PC_NETWORK_BRIDGE = true.
Proof.
  assert (Hd : @deriveRequirements amd64 ex_input false = Ok ex_keys) by (vm_compute; reflexivity).
  apply (@deriveRequirements_spec amd64 _ _ _ Hd).
Defined.
