(* ===== verification/MemoryBudget.v ===== *)
(** * Node memory budget

    [lib/go/memorybudget/budget.go]: the scheduling boundary a node derives
    from its allocatable memory, delegated cgroup limit and system reserve. *)
From S2P Require Import Prelude Proto.

Module memorybudget.

Definition maxCapacityIdentityBytes : Z := 1024.
Definition SampleFreshness : Z := 15 * Second.
Definition maxFutureSkew : Z := Minute.

Definition Published (budget : option NodeMemoryBudget) : bool :=
  match budget with
  | None => false
  | Some b =>
      negb (b.(mb_SourceAllocatableBytes) =? 0) || negb (b.(mb_SystemReserveBytes) =? 0)
      || negb (String.eqb (TrimSpace b.(mb_CapacityIdentity)) "") || non_nil b.(mb_SampledAt)
      || negb (bool_decide (b.(mb_Mode) = MBM_UNSPECIFIED))
  end.

(** The [switch] on the enforcement mode. *)
Definition validateMode (b : NodeMemoryBudget) : result () :=
  match b.(mb_Mode) with
  | MBM_CGROUP_V2 =>
      if b.(mb_SystemReserveBytes) <=? 0
      then Err (Errorf "cgroup v2 memory budget requires a positive system reserve" [])
      else Ok ()
  | MBM_DISABLED_DEV =>
      if negb (b.(mb_SystemReserveBytes) =? 0)
      then Err (Errorf "disabled_dev memory budget requires zero system reserve" [])
      else if b.(mb_DelegatedRootLimitFinite) || negb (b.(mb_DelegatedRootLimitBytes) =? 0)
      then Err (Errorf "disabled_dev memory budget cannot claim a delegated root limit" [])
      else if b.(mb_SystemReserveExhausted)
      then Err (Errorf "disabled_dev memory budget cannot claim exhausted system reserve" [])
      else Ok ()
  | _ => Err (Errorf "memory budget mode is required" [])
  end.

Definition raw_limit (b : NodeMemoryBudget) : result Z :=
  if b.(mb_DelegatedRootLimitFinite)
  then if b.(mb_DelegatedRootLimitBytes) <=? 0
       then Err (Errorf "finite delegated root limit must be positive" [])
       else Ok (Z.min b.(mb_SourceAllocatableBytes) b.(mb_DelegatedRootLimitBytes))
  else if negb (b.(mb_DelegatedRootLimitBytes) =? 0)
       then Err (Errorf "unbounded delegated root cannot carry a finite limit" [])
       else Ok b.(mb_SourceAllocatableBytes).

Definition Validate (budget : option NodeMemoryBudget) : result () :=
  match budget with
  | None => Err (Errorf "node memory budget is required" [])
  | Some b =>
      if b.(mb_SourceAllocatableBytes) <=? 0
      then Err (Errorf "source allocatable must be positive" [])
      else
        _ ← validateMode b;
        raw ← raw_limit b;
        if raw <=? b.(mb_SystemReserveBytes)
        then Err (Errorf "system reserve leaves no sandbox memory capacity" [])
        else
          let ident := TrimSpace b.(mb_CapacityIdentity) in
          if String.eqb ident "" || (maxCapacityIdentityBytes <? str_len ident)
          then Err (Errorf "capacity identity is missing or exceeds %d bytes" [AInt maxCapacityIdentityBytes])
          else
            match b.(mb_SampledAt) with
            | None => Err (Errorf "memory budget sample time is required" [])
            | Some _ => wrap_err "invalid memory budget sample time: %w" [] (CheckValid b.(mb_SampledAt))
            end
  end.

Definition EffectiveAllocatable (budget : option NodeMemoryBudget) : Z :=
  match budget with
  | None => 0
  | Some b =>
      let raw := if b.(mb_DelegatedRootLimitFinite)
                 then Z.min b.(mb_SourceAllocatableBytes) b.(mb_DelegatedRootLimitBytes)
                 else b.(mb_SourceAllocatableBytes) in
      wrap64 (raw - b.(mb_SystemReserveBytes))
  end.

Definition ValidateAt (budget : option NodeMemoryBudget) (now : time) : result () :=
  _ ← Validate budget;
  let sampledAt := AsTime (deref budget).(mb_SampledAt) in
  if After sampledAt (Add now maxFutureSkew)
  then Err (Errorf "memory budget sample is in the future" [])
  else if SampleFreshness <? Sub now sampledAt
  then Err (Errorf "memory budget sample is stale" [])
  else Ok ().

Definition ValidateSummary (summary : option NodeSummary) (now : time) : result () :=
  match summary with
  | None => Err (Errorf "node summary is required" [])
  | Some s =>
      let budget := s.(ns_MemoryBudget) in
      _ ← ValidateAt budget now;
      if is_nil s.(ns_Capacity) || ((deref s.(ns_Capacity)).(rq_MemoryBytes) <=? 0)
      then Err (Errorf "capacity.memory_bytes must be positive" [])
      else if (deref s.(ns_Capacity)).(rq_MemoryBytes) <? (deref budget).(mb_SourceAllocatableBytes)
      then Err (Errorf "source allocatable must not exceed capacity.memory_bytes" [])
      else if is_nil s.(ns_Allocatable)
              || negb ((deref s.(ns_Allocatable)).(rq_MemoryBytes) =? EffectiveAllocatable budget)
      then Err (Errorf "allocatable.memory_bytes does not match the memory boundary" [])
      else
        match s.(ns_CollectedAt) with
        | None => Err (Errorf "summary collected_at is required" [])
        | Some _ =>
            _ ← wrap_err "invalid summary collected_at: %w" [] (CheckValid s.(ns_CollectedAt));
            if After (AsTime (deref budget).(mb_SampledAt)) (AsTime s.(ns_CollectedAt))
            then Err (Errorf "sampled_at cannot be newer than summary.collected_at" [])
            else Ok ()
        end
  end.

(** ** Facts *)

(** The int64 fields of a decoded budget. *)
Definition budget_wf (b : NodeMemoryBudget) : Prop :=
  int64 b.(mb_SourceAllocatableBytes) /\ int64 b.(mb_DelegatedRootLimitBytes) /\
  int64 b.(mb_SystemReserveBytes).

Lemma Validate_inv b :
  Validate (Some b) = Ok () ->
  0 < b.(mb_SourceAllocatableBytes) /\ validateMode b = Ok () /\
  (exists raw, raw_limit b = Ok raw /\ b.(mb_SystemReserveBytes) < raw) /\
  is_Some b.(mb_SampledAt).
Proof.
  unfold Validate. destruct (Z.leb_spec b.(mb_SourceAllocatableBytes) 0); [discriminate|].
  rewrite bind_unit_Ok, bind_Ok. intros (Hm & raw & Hr & Hk).
  destruct (Z.leb_spec raw b.(mb_SystemReserveBytes)); [discriminate|].
  case_match; [discriminate|]. destruct (mb_SampledAt b); [|discriminate].
  split; [lia|]. split; [done|]. split; [by exists raw|done].
Qed.

Lemma validateMode_reserve b : validateMode b = Ok () -> 0 <= b.(mb_SystemReserveBytes).
Proof.
  unfold validateMode. destruct (mb_Mode b); try discriminate.
  - destruct (Z.leb_spec b.(mb_SystemReserveBytes) 0); [discriminate|lia].
  - destruct (Z.eqb_spec b.(mb_SystemReserveBytes) 0); [lia|discriminate].
Qed.

Lemma raw_limit_bounds b raw :
  raw_limit b = Ok raw -> 0 < b.(mb_SourceAllocatableBytes) ->
  0 < raw <= b.(mb_SourceAllocatableBytes) /\
  EffectiveAllocatable (Some b) = wrap64 (raw - b.(mb_SystemReserveBytes)).
Proof.
  unfold raw_limit, EffectiveAllocatable. intros Hr Hs.
  destruct (mb_DelegatedRootLimitFinite b).
  - destruct (Z.leb_spec b.(mb_DelegatedRootLimitBytes) 0); [discriminate|].
    injection Hr as <-. split; [lia|done].
  - destruct (Z.eqb_spec b.(mb_DelegatedRootLimitBytes) 0); [|discriminate].
    injection Hr as <-. split; [lia|done].
Qed.

(** A valid budget leaves a positive capacity, computed without overflow. *)
Lemma EffectiveAllocatable_positive b :
  budget_wf b -> Validate (Some b) = Ok () ->
  0 < EffectiveAllocatable (Some b) <= b.(mb_SourceAllocatableBytes) - b.(mb_SystemReserveBytes) /\
  0 <= b.(mb_SystemReserveBytes).
Proof.
  intros (Hs & Hd & Hr) Hv. apply Validate_inv in Hv as (Hpos & Hm & (raw & Hraw & Hlt) & _).
  apply validateMode_reserve in Hm. destruct (raw_limit_bounds _ _ Hraw Hpos) as [Hb ->].
  unfold int64, MinInt64, MaxInt64 in *.
  rewrite wrap64_id by (unfold int64, MinInt64, MaxInt64; lia). lia.
Qed.

(** A summary that passes [ValidateSummary] offers the scheduler a positive
    memory capacity that, together with the system reserve, stays within the
    physical capacity, and rests on a memory sample at most
    [SampleFreshness] old and not newer than the summary itself. *)
Theorem ValidateSummary_sound s b now :
  s.(ns_MemoryBudget) = Some b -> budget_wf b -> ValidateSummary (Some s) now = Ok () ->
  (exists q, s.(ns_Allocatable) = Some q /\ 0 < q.(rq_MemoryBytes)) /\
  (deref s.(ns_Allocatable)).(rq_MemoryBytes) + b.(mb_SystemReserveBytes)
    <= (deref s.(ns_Capacity)).(rq_MemoryBytes) /\
  now - AsTime b.(mb_SampledAt) <= SampleFreshness /\
  AsTime b.(mb_SampledAt) <= Z.min (now + maxFutureSkew) (AsTime s.(ns_CollectedAt)).
Proof.
  intros Hb Hwf. unfold ValidateSummary. rewrite Hb, bind_unit_Ok. intros [Hat Hs].
  unfold ValidateAt in Hat. apply bind_unit_Ok in Hat as [Hv Hat]. simpl in Hat.
  unfold After, Add in Hat.
  destruct (Z.ltb_spec (now + maxFutureSkew) (AsTime (mb_SampledAt b))); [discriminate|].
  destruct (Z.ltb_spec SampleFreshness (Sub now (AsTime (mb_SampledAt b)))); [discriminate|].
  destruct (EffectiveAllocatable_positive b Hwf Hv) as [Heff Hres].
  destruct (_ || _) in Hs; [discriminate|].
  change (deref (Some b)) with b in Hs.
  destruct (Z.ltb_spec (deref (ns_Capacity s)).(rq_MemoryBytes) b.(mb_SourceAllocatableBytes)); [discriminate|].
  destruct (is_nil _ || _) eqn:Ha in Hs; [discriminate|]. b2p.
  destruct (ns_CollectedAt s) as [c|] eqn:Hc; [|discriminate].
  apply bind_unit_Ok in Hs as [_ Hs]. unfold After in Hs.
  destruct (Z.ltb_spec (AsTime (Some c)) (AsTime (mb_SampledAt b))); [discriminate|].
  apply Z.eqb_eq in H3. destruct (ns_Allocatable s) as [q|]; [|discriminate].
  simpl deref in *. split; [exists q; split; [done|lia]|]. split; [lia|].
  unfold Sub, SampleFreshness, Second, MaxInt64, MinInt64 in *. split; lia.
Qed.

Definition ex_budget : NodeMemoryBudget :=
  mkBudget 8000 6000 true 1000 "cgroup:/axern" (Some (mkTimestamp 100 0)) false MBM_CGROUP_V2.
Definition ex_summary : NodeSummary :=
  mkNodeSummary "i-1" 1 (Some (mkTimestamp 101 0)) None None [] NS_READY ∅ None
    (Some (mkResourceQuantity 4000 9000 0)) (Some (mkResourceQuantity 4000 5000 0)) (Some ex_budget).

Lemma ValidateSummary_sound_witness :
  105 * Second - AsTime ex_budget.(mb_SampledAt) <= SampleFreshness.
Proof.
  apply (ValidateSummary_sound ex_summary ex_budget (105 * Second));
    [reflexivity| |vm_compute; reflexivity].
  unfold budget_wf, int64, MinInt64, MaxInt64; simpl; lia.
Defined.

End memorybudget.
