(* ===== verification/Node.v ===== *)
(** * Node registry

    [control/controld/internal/kernel/node]: freshness of heartbeats and
    summaries, the in-memory registry of nodes with its one-way lifecycle, and
    the runtime slot accounting placement uses. *)
From S2P Require Import Prelude Proto.

(** ** Freshness (freshness.go) *)
Definition HeartbeatAgeSecs (updatedAt now : time) : Z :=
  if IsZero updatedAt || Before now updatedAt then 0 else Z.quot (Sub now updatedAt) Second.

Definition SummaryCollectedAt (summary : option NodeSummary) : time :=
  match summary with
  | None => zero_time
  | Some s => match s.(ns_CollectedAt) with None => zero_time | Some _ => AsTime s.(ns_CollectedAt) end
  end.

Definition SummaryAgeSecs (summary : option NodeSummary) (now : time) : Z :=
  let collectedAt := SummaryCollectedAt summary in
  if IsZero collectedAt || Before now collectedAt then 0 else Z.quot (Sub now collectedAt) Second.

Definition HeartbeatFresh (updatedAt now : time) (window : Z) : bool :=
  if IsZero updatedAt then false
  else if Before now updatedAt then true
  else Sub now updatedAt <=? window.

Definition SummaryFresh (summary : option NodeSummary) (now : time) (window : Z) : bool :=
  let collectedAt := SummaryCollectedAt summary in
  if IsZero collectedAt then false
  else if Before now collectedAt then true
  else Sub now collectedAt <=? window.

Definition ClassifyFreshnessState (heartbeatFresh summaryFresh : bool) : string :=
  if heartbeatFresh && summaryFresh then "fresh"
  else if negb heartbeatFresh && negb summaryFresh then "stale_both"
  else if negb heartbeatFresh then "stale_heartbeat"
  else "stale_summary".

(** ** Registry (registry.go) *)
Definition LifecycleStatus := string.
Definition LifecycleActive : LifecycleStatus := "active".
Definition LifecycleRevoked : LifecycleStatus := "revoked".
Definition LifecycleRetired : LifecycleStatus := "retired".

(** [ReportedCapabilityChanges] is transient and never stored in the registry
    ([cloneRecord] drops it). *)
Record NodeRecord := mkNodeRecord {
  nr_NodeID : string;
  nr_NodeTarget : string;
  nr_Summary : option NodeSummary;
  nr_Lifecycle : LifecycleStatus;
  nr_AdmittedAt : time;
  nr_LastHeartbeatAt : time;
  nr_RetiredAt : time;
  nr_RetiredReason : string }.

Definition Active (r : option NodeRecord) : bool :=
  match r with None => false | Some r => String.eqb r.(nr_Lifecycle) LifecycleActive end.

Abbreviation Registry := (gmap string NodeRecord).
Definition NewRegistry : Registry := ∅.

Definition upsertLocked (r : Registry) (nodeID : string) (now : time) : NodeRecord :=
  match r !! nodeID with
  | None => mkNodeRecord nodeID "" None LifecycleActive now now zero_time ""
  | Some record =>
      if IsZero record.(nr_AdmittedAt)
      then mkNodeRecord record.(nr_NodeID) record.(nr_NodeTarget) record.(nr_Summary)
             record.(nr_Lifecycle) now record.(nr_LastHeartbeatAt) record.(nr_RetiredAt)
             record.(nr_RetiredReason)
      else record
  end.

Definition Report (r : Registry) (nodeID nodeTarget : string) (summary : option NodeSummary)
    (now : time) : Registry :=
  let record := upsertLocked r nodeID now in
  <[nodeID := mkNodeRecord record.(nr_NodeID) nodeTarget summary record.(nr_Lifecycle)
                record.(nr_AdmittedAt) now record.(nr_RetiredAt) record.(nr_RetiredReason)]> r.

Definition SyncLifecycle (r : Registry) (nodeID : string) (lifecycle : LifecycleStatus)
    (retiredAt : time) (reason : string) : Registry :=
  let record := default (mkNodeRecord nodeID "" None "" zero_time zero_time zero_time "") (r !! nodeID) in
  let r := <[nodeID := record]> r in
  if (String.eqb record.(nr_Lifecycle) LifecycleRetired && negb (String.eqb lifecycle LifecycleRetired))
     || (String.eqb record.(nr_Lifecycle) LifecycleRevoked && String.eqb lifecycle LifecycleActive)
  then r
  else <[nodeID := mkNodeRecord record.(nr_NodeID) record.(nr_NodeTarget) record.(nr_Summary) lifecycle
                     record.(nr_AdmittedAt) record.(nr_LastHeartbeatAt) retiredAt reason]> r.

Definition Get (r : Registry) (nodeID : string) : option NodeRecord := r !! nodeID.

Definition Replace (records : list (option NodeRecord)) : Registry :=
  fold_left (fun nodes record =>
    match record with None => nodes | Some rec => <[rec.(nr_NodeID) := rec]> nodes end) records ∅.

Definition record_less (a b : NodeRecord) : bool := string_lt a.(nr_NodeID) b.(nr_NodeID).

(** The map is ranged over in an unspecified order before sorting. *)
Definition Snapshot (r : Registry) : list NodeRecord :=
  sort_slice record_less (map snd (map_to_list r)).

(** ** Runtime slots (resources.go) *)
Record RuntimeSlotOccupancy := mkOccupancy {
  ro_Charged : Z; ro_Active : Z; ro_PoolUsing : Z; ro_Occupied : Z }.

Definition active_ids (summary : option NodeSummary) : list string :=
  (deref (deref (deref summary).(ns_Components)).(comps_Axnoded)).(ax_ActiveAllocationIds).
Definition slots (summary : option NodeSummary) : PoolState :=
  deref (deref (deref summary).(ns_Pools)).(pools_RuntimeSlots).

Definition ReportedActiveInstances (summary : option NodeSummary) : Z :=
  match summary with
  | None => 0
  | Some _ => Z.max (Z.of_nat (length (active_ids summary))) (slots summary).(pool_Using)
  end.

Definition allocationIDSet (ids : list string) : gset string :=
  fold_left (fun set id => let id := TrimSpace id in
                           if String.eqb id "" then set else {[id]} ∪ set) ids ∅.

Definition CalculateRuntimeSlotOccupancy (summary : option NodeSummary)
    (chargedAllocationIDs : list string) : RuntimeSlotOccupancy :=
  let chargedIDs := allocationIDSet chargedAllocationIDs in
  let activeIDs := allocationIDSet (active_ids summary) in
  let poolUsing := (slots summary).(pool_Using) in
  mkOccupancy (Z.of_nat (size chargedIDs)) (Z.of_nat (size activeIDs)) poolUsing
    (Z.max (Z.of_nat (size (chargedIDs ∪ activeIDs))) poolUsing).

(** The subtraction is on int32. *)
Definition RuntimeSlotCapacity (summary : option NodeSummary) : Z * bool :=
  if is_nil summary || is_nil (deref summary).(ns_Pools)
     || is_nil (deref (deref summary).(ns_Pools)).(pools_RuntimeSlots)
  then (0, false)
  else (Z.max 0 (wrap32 ((slots summary).(pool_Capacity) - (slots summary).(pool_Unavailable))), true).

(** ** Facts *)

Definition lifecycle_valid (l : LifecycleStatus) : Prop :=
  l = LifecycleActive \/ l = LifecycleRevoked \/ l = LifecycleRetired.

(** Heartbeats and lifecycle synchronisation; the persistent store holds only
    the three lifecycle values. *)
Inductive registry_step : Registry -> Registry -> Prop :=
| step_Report r nodeID target summary now : registry_step r (Report r nodeID target summary now)
| step_Sync r nodeID lifecycle retiredAt reason :
    lifecycle_valid lifecycle ->
    registry_step r (SyncLifecycle r nodeID lifecycle retiredAt reason).

(** What later steps preserve of a record. *)
Record record_le (a b : NodeRecord) : Prop := {
  rle_id : b.(nr_NodeID) = a.(nr_NodeID);
  rle_retired : a.(nr_Lifecycle) = LifecycleRetired -> b.(nr_Lifecycle) = LifecycleRetired;
  rle_revoked : a.(nr_Lifecycle) = LifecycleRevoked ->
    b.(nr_Lifecycle) = LifecycleRevoked \/ b.(nr_Lifecycle) = LifecycleRetired;
  rle_admitted : a.(nr_AdmittedAt) <> zero_time -> b.(nr_AdmittedAt) = a.(nr_AdmittedAt) }.

#[export] Instance record_le_preorder : PreOrder record_le.
Proof.
  split; [intros a; split; naive_solver|]. intros a b c [] []. split; [congruence|naive_solver..|].
  intros Ha. rewrite rle_admitted1; [by apply rle_admitted0|]. by rewrite rle_admitted0.
Qed.

Lemma Report_le r nid target summary now rec :
  r !! nid = Some rec ->
  exists rec', Report r nid target summary now !! nid = Some rec' /\ record_le rec rec'.
Proof.
  intros Hr. unfold Report, upsertLocked. rewrite Hr. cbv zeta. rewrite lookup_insert_eq. eexists.
  split; [reflexivity|]. unfold IsZero.
  destruct (Z.eqb_spec rec.(nr_AdmittedAt) zero_time); split; simpl; naive_solver.
Qed.

Lemma SyncLifecycle_le r nid lifecycle retiredAt reason rec :
  lifecycle_valid lifecycle -> r !! nid = Some rec ->
  exists rec', SyncLifecycle r nid lifecycle retiredAt reason !! nid = Some rec' /\ record_le rec rec'.
Proof.
  intros Hv Hr. unfold SyncLifecycle. rewrite Hr. cbv zeta. cbn [default from_option].
  change (Datatypes.id rec) with rec.
  destruct (_ || _) eqn:E; rewrite lookup_insert_eq; eexists; (split; [reflexivity|]); [done|].
  apply orb_false_iff in E as [E1 E2]. split; simpl; [done|..|done]; intros Hl; rewrite Hl in *.
  - destruct Hv as [Hv|[Hv|Hv]]; by rewrite Hv in *.
  - destruct Hv as [Hv|[Hv|Hv]]; rewrite Hv in *; [done|by left|by right].
Qed.

Lemma registry_step_le r r' nid rec :
  registry_step r r' -> r !! nid = Some rec ->
  exists rec', r' !! nid = Some rec' /\ record_le rec rec'.
Proof.
  intros Hs Hr. destruct Hs as [r nid' target summary now|r nid' lifecycle retiredAt reason Hv];
    destruct (decide (nid' = nid)) as [->|Hne].
  - by apply Report_le.
  - exists rec. unfold Report. by rewrite lookup_insert_ne.
  - by apply SyncLifecycle_le.
  - exists rec. unfold SyncLifecycle. cbv zeta. case_match; by rewrite !lookup_insert_ne.
Qed.

(** C33: however heartbeats and lifecycle synchronisations interleave, a node is
    never forgotten, a retired node stays retired, a revoked node is never
    active again, and its admission time is fixed once set. *)
Theorem registry_lifecycle_monotone r r' nid rec :
  rtc registry_step r r' -> r !! nid = Some rec ->
  exists rec', r' !! nid = Some rec' /\ record_le rec rec'.
Proof.
  intros Hsteps. revert rec. induction Hsteps as [r|r1 r2 r3 Hs _ IH]; intros rec Hr; [by exists rec|].
  destruct (registry_step_le _ _ _ _ Hs Hr) as (rec2 & H2 & Hle).
  destruct (IH _ H2) as (rec3 & H3 & Hle'). exists rec3. split; [done|]. by etrans.
Qed.

Lemma registry_lifecycle_monotone_witness :
  exists rec', Report (SyncLifecycle (Report ∅ "n1" "t" None 5) "n1" LifecycleRetired 7 "gone")
                 "n1" "t2" None 9 !! "n1" = Some rec' /\
    record_le (mkNodeRecord "n1" "t" None LifecycleRetired 5 5 7 "gone") rec'.
Proof.
  apply (registry_lifecycle_monotone
    (SyncLifecycle (Report ∅ "n1" "t" None 5) "n1" LifecycleRetired 7 "gone")).
  - apply rtc_once. constructor.
  - reflexivity.
Defined.

(** *** Keyed registries and snapshots *)
Definition registry_keyed (r : Registry) : Prop :=
  forall nid rec, r !! nid = Some rec -> rec.(nr_NodeID) = nid.

Lemma registry_step_keyed r r' : registry_step r r' -> registry_keyed r -> registry_keyed r'.
Proof.
  intros Hs Hk nid rec. destruct Hs as [r nid' target summary now|r nid' lifecycle retiredAt reason Hv].
  - unfold Report. rewrite lookup_insert_Some. intros [[Hn <-]|[_ Hr]]; [subst nid'; simpl|by apply Hk].
    unfold upsertLocked. destruct (r !! nid) as [rec|] eqn:Hr; [|done].
    case_match; simpl; by apply Hk.
  - unfold SyncLifecycle.
    assert (Hd : (default (mkNodeRecord nid' "" None "" zero_time zero_time zero_time "") (r !! nid')).(nr_NodeID) = nid').
    { destruct (r !! nid') as [rec'|] eqn:Hr; [by apply Hk|done]. }
    cbv zeta. case_match; rewrite ?lookup_insert_Some; naive_solver.
Qed.

Lemma Replace_keyed records : registry_keyed (Replace records).
Proof.
  unfold Replace. assert (Hg : forall l (r : Registry), registry_keyed r ->
    registry_keyed (fold_left (fun nodes record =>
      match record with None => nodes | Some rec => <[rec.(nr_NodeID) := rec]> nodes end) l r)).
  { induction l as [|[rec|] l IH]; intros r Hk; simpl; [done|..]; apply IH; [|done].
    intros nid rec'. rewrite lookup_insert_Some. naive_solver. }
  apply Hg. intros nid rec. by rewrite lookup_empty.
Qed.

Lemma record_less_strict_weak : strict_weak record_less.
Proof.
  split; unfold record_less; intros *; [apply string_lt_asym|].
  apply (sw_trans _ string_lt_strict_weak).
Qed.

(** On a registry whose records carry their own key (established by
    [Replace] and preserved by every step), a snapshot lists every record once
    in node-id order, and it is the only such list: the order in which the map
    is ranged over cannot show. *)
Theorem Snapshot_deterministic r l :
  registry_keyed r -> l ≡ₚ map snd (map_to_list r) -> StronglySorted (not_after record_less) l ->
  l = Snapshot r /\ (forall rec, rec ∈ l <-> r !! rec.(nr_NodeID) = Some rec).
Proof.
  intros Hk Hp Hs.
  assert (Hmem : forall rec, rec ∈ map snd (map_to_list r) <-> r !! rec.(nr_NodeID) = Some rec).
  { intros rec. rewrite list_elem_of_fmap. setoid_rewrite elem_of_map_to_list'. split.
    - intros ([nid rec'] & -> & Hr). simpl in *. by rewrite (Hk _ _ Hr).
    - intros Hr. by exists (rec.(nr_NodeID), rec). }
  split; [|intros rec; rewrite Hp; apply Hmem].
  apply sort_slice_unique; [apply record_less_strict_weak| |done|done].
  intros a b Ha Hb Hab Hba. apply Hmem in Ha, Hb.
  rewrite (string_lt_connex _ _ Hab Hba) in Ha. congruence.
Qed.

Lemma Snapshot_deterministic_witness :
  [mkNodeRecord "n1" "t" None LifecycleActive 5 5 zero_time ""] = Snapshot (Report ∅ "n1" "t" None 5).
Proof.
  apply (Snapshot_deterministic (Report ∅ "n1" "t" None 5)).
  - apply (registry_step_keyed ∅); [constructor|]. intros nid rec. by rewrite lookup_empty.
  - reflexivity.
  - repeat constructor.
Defined.

(** *** Slot accounting *)
Lemma allocationIDSet_elem ids x :
  x ∈ allocationIDSet ids <-> x <> "" /\ exists raw, raw ∈ ids /\ TrimSpace raw = x.
Proof.
  unfold allocationIDSet.
  assert (Hg : forall l (s : gset string),
    x ∈ fold_left (fun set id => let id := TrimSpace id in
                     if String.eqb id "" then set else {[id]} ∪ set) l s <->
    x ∈ s \/ (x <> "" /\ exists raw, raw ∈ l /\ TrimSpace raw = x)).
  { induction l as [|y l IH]; intros s; simpl; [set_solver|]. rewrite IH.
    destruct (String.eqb_spec (TrimSpace y) "") as [E|E]; [set_solver|].
    rewrite elem_of_union, elem_of_singleton. setoid_rewrite elem_of_cons.
    split; [|naive_solver]. intros [[->|Hs]|Hr]; [right|by left|right; naive_solver].
    split; [done|]. exists y. set_solver. }
  rewrite Hg. set_solver.
Qed.

(** Slot occupancy never under-counts: it is at least the durable charges,
    at least the allocations the node still runs, at least the slots its pool
    reports in use, and it counts an allocation that is both charged and
    reported only once. *)
Theorem occupancy_conservative summary charged :
  let o := CalculateRuntimeSlotOccupancy summary charged in
  Z.max o.(ro_Charged) (Z.max o.(ro_Active) o.(ro_PoolUsing)) <= o.(ro_Occupied) /\
  o.(ro_Occupied) <= Z.max (o.(ro_Charged) + o.(ro_Active)) o.(ro_PoolUsing) /\
  (forall raw, raw ∈ charged -> raw ∈ active_ids summary -> TrimSpace raw <> "" ->
     o.(ro_Occupied) <= Z.max (o.(ro_Charged) + o.(ro_Active) - 1) o.(ro_PoolUsing)).
Proof.
  unfold CalculateRuntimeSlotOccupancy; cbn [ro_Charged ro_Active ro_PoolUsing ro_Occupied].
  set (c := allocationIDSet charged). set (a := allocationIDSet (active_ids summary)).
  pose proof (size_union_alt c a) as Hu.
  assert (size c <= size (c ∪ a) /\ size a <= size (c ∪ a))%nat as [Hc Ha]
    by (split; apply subseteq_size; set_solver).
  assert (size (a ∖ c) <= size a)%nat as Hd by (apply subseteq_size; set_solver).
  split; [lia|]. split; [lia|]. intros raw Hrc Hra Hne.
  assert (Hin : TrimSpace raw ∈ c /\ TrimSpace raw ∈ a).
  { unfold c, a. rewrite !allocationIDSet_elem. naive_solver. }
  assert (size (a ∖ c) < size a)%nat by (apply subset_size; set_solver). lia.
Qed.
