(* ===== verification/Placement.v ===== *)
(** * Placement

    [control/controld/internal/kernel/placement] (requests, evaluations, their
    order and the rejection error) and [control/controld/internal/placement]
    (the engine, its predicates, ranking and the candidate selector). *)
From S2P Require Import Prelude Proto Resource Capability MemoryBudget Node.

(** ** Kernel: evaluations (evaluation.go) *)
Inductive CandidateState :=
  CandidateStateUnspecified | CandidateStateEligible | CandidateStateRejected.
Inductive RejectionReason :=
  RejectionReasonUnspecified | RejectionReasonStaleHeartbeat | RejectionReasonStaleSummary
| RejectionReasonAxnodedNotReady | RejectionReasonImagemgrUnavailable
| RejectionReasonImagefsdUnavailable | RejectionReasonNodeDraining | RejectionReasonNodeDisabled
| RejectionReasonNodeSelectorMismatch | RejectionReasonInsufficientCPU
| RejectionReasonInsufficientMemory | RejectionReasonNetworkUnsupported
| RejectionReasonCapabilityUnsupported | RejectionReasonNodeRetired
| RejectionReasonInsufficientEphemeralStorage | RejectionReasonNodeMemorySystemReserveExhausted
| RejectionReasonNodeMemoryBudgetUnavailable.
#[export] Instance cstate_eq_dec : EqDecision CandidateState.
Proof. solve_decision. Defined.
#[export] Instance reason_eq_dec : EqDecision RejectionReason.
Proof. solve_decision. Defined.

(** The underlying uint8. *)
Definition reason_number (r : RejectionReason) : Z :=
  match r with
  | RejectionReasonUnspecified => 0 | RejectionReasonStaleHeartbeat => 1
  | RejectionReasonStaleSummary => 2 | RejectionReasonAxnodedNotReady => 3
  | RejectionReasonImagemgrUnavailable => 4 | RejectionReasonImagefsdUnavailable => 5
  | RejectionReasonNodeDraining => 6 | RejectionReasonNodeDisabled => 7
  | RejectionReasonNodeSelectorMismatch => 8 | RejectionReasonInsufficientCPU => 9
  | RejectionReasonInsufficientMemory => 10 | RejectionReasonNetworkUnsupported => 11
  | RejectionReasonCapabilityUnsupported => 12 | RejectionReasonNodeRetired => 13
  | RejectionReasonInsufficientEphemeralStorage => 14
  | RejectionReasonNodeMemorySystemReserveExhausted => 15
  | RejectionReasonNodeMemoryBudgetUnavailable => 16
  end.

Definition RejectionReason_String (r : RejectionReason) : string :=
  match r with
  | RejectionReasonUnspecified => "unspecified"
  | RejectionReasonStaleHeartbeat => "stale_heartbeat"
  | RejectionReasonStaleSummary => "stale_summary"
  | RejectionReasonAxnodedNotReady => "axnoded_not_ready"
  | RejectionReasonImagemgrUnavailable => "imagemgr_unavailable"
  | RejectionReasonImagefsdUnavailable => "imagefsd_unavailable"
  | RejectionReasonNodeDraining => "node_draining"
  | RejectionReasonNodeDisabled => "node_disabled"
  | RejectionReasonNodeSelectorMismatch => "node_selector_mismatch"
  | RejectionReasonInsufficientCPU => "insufficient_cpu"
  | RejectionReasonInsufficientMemory => "insufficient_memory"
  | RejectionReasonNetworkUnsupported => "network_unsupported"
  | RejectionReasonCapabilityUnsupported => "capability_unsupported"
  | RejectionReasonNodeRetired => "node_retired"
  | RejectionReasonInsufficientEphemeralStorage => "insufficient_ephemeral_storage"
  | RejectionReasonNodeMemorySystemReserveExhausted => "node_memory_system_reserve_exhausted"
  | RejectionReasonNodeMemoryBudgetUnavailable => "node_memory_budget_unavailable"
  end.

Record Rank := mkRank {
  rk_MountedMatch : bool;
  rk_RetainedRootfsCount : Z;
  rk_RetainedEnvironmentCount : Z;
  rk_NydusDaemonAlive : bool;
  rk_ChunkDBRecentAccessAgeSecs : Z;
  rk_PeerHealthyCount : Z;
  rk_PeerHintedCount : Z;
  rk_IdlePoolReady : bool;
  rk_RuntimeSlotOccupancy : Z;
  rk_ChargedCPUMilli : Z;
  rk_ChargedMemoryBytes : Z;
  rk_ChargedEphemeralBytes : Z }.
#[export] Instance zero_Rank : Zero Rank := mkRank false 0 0 false 0 0 0 false 0 0 0 0.

Record Evaluation := mkEvaluation {
  e_NodeID : string;
  e_State : CandidateState;
  e_RejectionReasons : list RejectionReason;
  e_HeartbeatAgeSecs : Z;
  e_SummaryAgeSecs : Z;
  e_Pools : option PoolsSummary;
  e_Locality : option LocalitySummary;
  e_Rank : option Rank }.
#[export] Instance zero_Evaluation : Zero Evaluation :=
  mkEvaluation "" CandidateStateUnspecified [] 0 0 None None None.

Definition CloneEvaluation (e : option Evaluation) : Evaluation := deref e.
Definition GetRank (e : Evaluation) : Rank := deref e.(e_Rank).

(** ** Kernel: order of candidates (candidate.go) *)
Definition EvaluationLess (left right : option Evaluation) : bool :=
  match left, right with
  | None, _ => false
  | Some _, None => true
  | Some a, Some b =>
      let l := GetRank a in
      let r := GetRank b in
      if negb (Bool.eqb l.(rk_MountedMatch) r.(rk_MountedMatch)) then l.(rk_MountedMatch)
      else if negb (l.(rk_RetainedRootfsCount) =? r.(rk_RetainedRootfsCount))
      then r.(rk_RetainedRootfsCount) <? l.(rk_RetainedRootfsCount)
      else if negb (l.(rk_RetainedEnvironmentCount) =? r.(rk_RetainedEnvironmentCount))
      then r.(rk_RetainedEnvironmentCount) <? l.(rk_RetainedEnvironmentCount)
      else if negb (Bool.eqb l.(rk_NydusDaemonAlive) r.(rk_NydusDaemonAlive)) then l.(rk_NydusDaemonAlive)
      else if negb (l.(rk_ChunkDBRecentAccessAgeSecs) =? r.(rk_ChunkDBRecentAccessAgeSecs))
      then l.(rk_ChunkDBRecentAccessAgeSecs) <? r.(rk_ChunkDBRecentAccessAgeSecs)
      else if negb (l.(rk_PeerHealthyCount) =? r.(rk_PeerHealthyCount))
      then r.(rk_PeerHealthyCount) <? l.(rk_PeerHealthyCount)
      else if negb (l.(rk_PeerHintedCount) =? r.(rk_PeerHintedCount))
      then r.(rk_PeerHintedCount) <? l.(rk_PeerHintedCount)
      else if negb (Bool.eqb l.(rk_IdlePoolReady) r.(rk_IdlePoolReady)) then l.(rk_IdlePoolReady)
      else if negb (l.(rk_RuntimeSlotOccupancy) =? r.(rk_RuntimeSlotOccupancy))
      then l.(rk_RuntimeSlotOccupancy) <? r.(rk_RuntimeSlotOccupancy)
      else if negb (l.(rk_ChargedCPUMilli) =? r.(rk_ChargedCPUMilli))
      then l.(rk_ChargedCPUMilli) <? r.(rk_ChargedCPUMilli)
      else if negb (l.(rk_ChargedMemoryBytes) =? r.(rk_ChargedMemoryBytes))
      then l.(rk_ChargedMemoryBytes) <? r.(rk_ChargedMemoryBytes)
      else if negb (l.(rk_ChargedEphemeralBytes) =? r.(rk_ChargedEphemeralBytes))
      then l.(rk_ChargedEphemeralBytes) <? r.(rk_ChargedEphemeralBytes)
      else if negb (a.(e_HeartbeatAgeSecs) =? b.(e_HeartbeatAgeSecs))
      then a.(e_HeartbeatAgeSecs) <? b.(e_HeartbeatAgeSecs)
      else string_lt a.(e_NodeID) b.(e_NodeID)
  end.

(** ** Kernel: requests (request.go) *)
Record Request := mkRequest {
  rq_RootfsKey : string;
  rq_RootfsType : RootfsType;
  rq_MountType : MountType;
  rq_MemoryLimitBytes : Z;
  rq_RootfsWritable : bool;
  rq_EphemeralStorageLimitBytes : Z;
  rq_RootfsSnapshot : bool;
  rq_RequestedCpuMilli : Z;
  rq_RequestedMemoryBytes : Z;
  rq_RequestedEphemeralStorageBytes : Z;
  rq_Network : string;
  rq_NetworkBackend : string;
  rq_RequiresDNSPolicyEnforcement : bool;
  rq_RequiresStrictEgressEnforcement : bool;
  rq_CapabilityRequirements : list CapabilityKey;
  rq_ExtensionCapabilityRequirements : list (option ExtensionCapabilityRequirement);
  rq_NodeSelector : gmap string string }.

(** [CandidateLess] and the candidate itself (candidate.go). *)
Record Candidate := mkCandidate {
  c_Record : NodeRecord;
  c_Evaluation : option Evaluation;
  c_BaseRequest : option Request;
  c_Request : option Request }.
Definition CandidateLess (left right : option Candidate) : bool :=
  match left, right with
  | None, _ => false
  | Some _, None => true
  | Some a, Some b => EvaluationLess a.(c_Evaluation) b.(c_Evaluation)
  end.

Section runtime.
Context `{GoRuntime}.

Definition cloneExtensionRequirements (l : list (option ExtensionCapabilityRequirement)) :=
  List.filter non_nil l.

(** Is there a locality entry that backs the rootfs with EROFS? *)
Definition erofs_backing (base : Request) (summary : option NodeSummary) : bool :=
  existsb (fun locality =>
    String.eqb (deref locality).(loc_Key) base.(rq_RootfsKey)
    && bool_decide ((deref locality).(loc_MountType) = MT_EROFS)) (deref summary).(ns_Locality).

Definition requirement_input (out : Request) (erofsBacking : bool) : RequirementInput :=
  mkRequirementInput out.(rq_Network) out.(rq_NetworkBackend) out.(rq_RequiresDNSPolicyEnforcement)
    out.(rq_RequiresStrictEgressEnforcement) out.(rq_MemoryLimitBytes) out.(rq_RootfsWritable)
    out.(rq_EphemeralStorageLimitBytes) erofsBacking out.(rq_RootfsSnapshot)
    out.(rq_ExtensionCapabilityRequirements).

(** [out] before the capability requirements are replaced. *)
Definition resolved_request (base : Request) (summary : option NodeSummary) (now : time)
    (requirements : list CapabilityKey) : Request :=
  mkRequest base.(rq_RootfsKey) base.(rq_RootfsType)
    (if erofs_backing base summary then MT_EROFS else base.(rq_MountType))
    base.(rq_MemoryLimitBytes) base.(rq_RootfsWritable) base.(rq_EphemeralStorageLimitBytes)
    base.(rq_RootfsSnapshot) base.(rq_RequestedCpuMilli) base.(rq_RequestedMemoryBytes)
    base.(rq_RequestedEphemeralStorageBytes) base.(rq_Network)
    (if String.eqb base.(rq_Network) "host" then base.(rq_NetworkBackend)
     else AvailableNetworkBackend (deref summary).(ns_CapabilitySnapshot) now)
    base.(rq_RequiresDNSPolicyEnforcement) base.(rq_RequiresStrictEgressEnforcement)
    requirements (cloneExtensionRequirements base.(rq_ExtensionCapabilityRequirements))
    base.(rq_NodeSelector).

(** Both results of the Go function: the request and the error. *)
Definition ResolveRequestForNode (base : option Request) (summary : option NodeSummary) (now : time)
    : option Request * option error :=
  match base with
  | None => (None, None)
  | Some base =>
      let out := resolved_request base summary now base.(rq_CapabilityRequirements) in
      let networkErr :=
        if negb (String.eqb out.(rq_Network) "host") && String.eqb out.(rq_NetworkBackend) ""
        then Some (Errorf "node has no available network backend" []) else None in
      let input := requirement_input out (erofs_backing base summary) in
      match (if non_nil networkErr then DeriveRequestStaticRequirements input
             else DeriveRequirements input) with
      | Err e => (Some out, Some (Wrapf "derive node-specific capability requirements: %w" [] e))
      | Ok requirements => (Some (resolved_request base summary now requirements), networkErr)
      end
  end.

(** ** Engine: predicates (predicates.go) *)
Definition imagemgrUsable (summary : option NodeSummary) : bool :=
  match summary with
  | None => false
  | Some s => let component := deref (deref s.(ns_Components)).(comps_Imagemgr) in
              component.(comp_Reachable) && negb (bool_decide (component.(comp_State) = COMP_DISABLED))
  end.
Definition imagefsdUsable (summary : option NodeSummary) : bool :=
  match summary with
  | None => false
  | Some s => let component := deref (deref s.(ns_Components)).(comps_Imagefsd) in
              component.(comp_Reachable) && negb (bool_decide (component.(comp_State) = COMP_DISABLED))
  end.

Definition effectiveNodeState (summary : option NodeSummary) (heartbeatFresh : bool) : NodeState :=
  if negb heartbeatFresh then NS_UNREACHABLE
  else
    match summary with
    | None => NS_UNSPECIFIED
    | Some s => match s.(ns_NodeState) with
                | NS_DRAINING => NS_DRAINING
                | NS_DISABLED => NS_DISABLED
                | _ => NS_READY
                end
    end.

(** A missing label reads as the empty string. *)
Definition labelsMatch (labels selector : gmap string string) : bool :=
  forallb (fun '(key, value) => String.eqb (default "" (labels !! key)) value) (map_to_list selector).

Definition hasCapability (summary : option NodeSummary) (want : CapabilityKey) (now : time) : bool :=
  non_nil (AvailableObservation (deref summary).(ns_CapabilitySnapshot) (Some want) now).

Definition requiresNodeDataplane (req : option Request) : bool :=
  match req with None => false | Some r => negb (String.eqb r.(rq_Network) "host") end.

Definition hasAvailableCPU (policy : AdmissionPolicy) (summary : option NodeSummary) (requested : Z) : bool :=
  if requested <=? 0 then true
  else AdmissionPolicy_Fits policy (deref summary).(ns_Allocatable) empty_claim (mkClaim requested 0 0).
Definition hasAvailableMemory (policy : AdmissionPolicy) (summary : option NodeSummary) (requested : Z) : bool :=
  if requested <=? 0 then true
  else AdmissionPolicy_Fits policy (deref summary).(ns_Allocatable) empty_claim (mkClaim 0 requested 0).
Definition hasAvailableEphemeralStorage (policy : AdmissionPolicy) (summary : option NodeSummary) (requested : Z) : bool :=
  if requested <=? 0 then true
  else AdmissionPolicy_Fits policy (deref summary).(ns_Allocatable) empty_claim (mkClaim 0 0 requested).

(** ** Engine: ranking (rank.go) *)
Definition reason_less (a b : RejectionReason) : bool := reason_number a <? reason_number b.

Definition dedupeRejectionReasons (l : list RejectionReason) : list RejectionReason :=
  let out := fold_left (fun out reason =>
      if bool_decide (reason = RejectionReasonUnspecified) then out
      else if bool_decide (reason ∈ out) then out
      else out ++ [reason]) l [] in
  sort_slice reason_less out.

Definition findMatchingLocality (entries : list (option LocalitySummary)) (key : string)
    : option LocalitySummary :=
  mjoin (find (fun entry => non_nil entry && String.eqb (deref entry).(loc_Key) key) entries).

Definition localityMounted (locality : option LocalitySummary) (key : string) : bool :=
  match locality with None => false | Some l => String.eqb l.(loc_Key) key && l.(loc_Mounted) end.

Definition localityAge (locality : option LocalitySummary) : Z :=
  match locality with
  | None => 2 ^ 62 - 1
  | Some l => if l.(loc_ChunkdbRecentAccessAgeSecs) <=? 0 then 2 ^ 62 - 1
              else l.(loc_ChunkdbRecentAccessAgeSecs)
  end.

Definition hasWarmRuntimeSlot (pools : option PoolsSummary) : bool :=
  match pools with None => false | Some p => 0 <? (deref p.(pools_RuntimeSlots)).(pool_Idle) end.

Definition buildPlacementRank (req : Request) (summary : option NodeSummary)
    (locality : option LocalitySummary) : Rank :=
  mkRank (localityMounted locality req.(rq_RootfsKey)) (deref locality).(loc_RetainedRootfsCount)
    (deref locality).(loc_RetainedEnvironmentCount) (deref locality).(loc_NydusDaemonAlive)
    (localityAge locality) (deref locality).(loc_PeerHealthyCount)
    (deref locality).(loc_PeerHintedCount) (hasWarmRuntimeSlot (deref summary).(ns_Pools))
    (ReportedActiveInstances summary) 0 0 0.

(** ** Engine: eligibility (eligibility.go) *)
Record Engine := mkEngine {
  heartbeatFreshnessWindow : Z;
  summaryFreshnessWindow : Z;
  resourcePolicy : AdmissionPolicy }.

Definition NewEngine (cfg : Engine) : Engine :=
  mkEngine
    (if cfg.(heartbeatFreshnessWindow) <=? 0 then 15 * Second else cfg.(heartbeatFreshnessWindow))
    (if cfg.(summaryFreshnessWindow) <=? 0 then 15 * Second else cfg.(summaryFreshnessWindow))
    (NormalizeAdmissionPolicy cfg.(resourcePolicy)).

Definition missingCapabilityRejectionReasons (summary : option NodeSummary)
    (requirements : list CapabilityKey) (now : time) : list RejectionReason :=
  dedupeRejectionReasons (flat_map (fun requirement =>
    if hasCapability summary requirement now then []
    else match GetPlatform (Some requirement) with
         | PC_NETWORK_BRIDGE | PC_NETWORK_BPFNET => [RejectionReasonNetworkUnsupported]
         | _ => [RejectionReasonCapabilityUnsupported]
         end) requirements).

Definition node_state_reasons (summary : option NodeSummary) (heartbeatFresh : bool) : list RejectionReason :=
  match effectiveNodeState summary heartbeatFresh with
  | NS_DRAINING => [RejectionReasonNodeDraining]
  | NS_DISABLED => [RejectionReasonNodeDisabled]
  | _ => []
  end.

Definition mount_reasons (mountType : MountType) (imagemgrReady imagefsdReady : bool) : list RejectionReason :=
  match mountType with
  | MT_LOCAL => []
  | MT_OCI | MT_EROFS => when (negb imagemgrReady) RejectionReasonImagemgrUnavailable
  | MT_NYDUS => when (negb imagemgrReady) RejectionReasonImagemgrUnavailable
                ++ when (negb imagefsdReady) RejectionReasonImagefsdUnavailable
  | _ => [RejectionReasonImagemgrUnavailable; RejectionReasonImagefsdUnavailable]
  end.

(** The reasons in the order they are appended. *)
Definition rejection_reasons (e : Engine) (record : NodeRecord) (request : Request)
    (derivationErr : option error) (now : time) : list RejectionReason :=
  let summary := record.(nr_Summary) in
  let locality := findMatchingLocality (deref summary).(ns_Locality) request.(rq_RootfsKey) in
  let heartbeatFresh := HeartbeatFresh record.(nr_LastHeartbeatAt) now e.(heartbeatFreshnessWindow) in
  let summaryFresh := SummaryFresh summary now e.(summaryFreshnessWindow) in
  let mountType := if bool_decide ((deref locality).(loc_MountType) = MT_EROFS) then MT_EROFS
                   else request.(rq_MountType) in
  when (negb (Active (Some record))) RejectionReasonNodeRetired
  ++ when (negb heartbeatFresh) RejectionReasonStaleHeartbeat
  ++ when (negb summaryFresh) RejectionReasonStaleSummary
  ++ node_state_reasons summary heartbeatFresh
  ++ when (negb (labelsMatch (deref summary).(ns_Labels) request.(rq_NodeSelector)))
       RejectionReasonNodeSelectorMismatch
  ++ when (is_nil summary || negb (deref (deref (deref summary).(ns_Components)).(comps_Axnoded)).(ax_Ready))
       RejectionReasonAxnodedNotReady
  ++ when (deref (deref summary).(ns_MemoryBudget)).(mb_SystemReserveExhausted)
       RejectionReasonNodeMemorySystemReserveExhausted
  ++ when (negb (is_Ok (memorybudget.ValidateSummary summary now))) RejectionReasonNodeMemoryBudgetUnavailable
  ++ mount_reasons mountType (imagemgrUsable summary) (imagefsdUsable summary)
  ++ when (non_nil derivationErr && requiresNodeDataplane (Some request)) RejectionReasonNetworkUnsupported
  ++ missingCapabilityRejectionReasons summary request.(rq_CapabilityRequirements) now
  ++ when (negb (hasAvailableCPU e.(resourcePolicy) summary request.(rq_RequestedCpuMilli)))
       RejectionReasonInsufficientCPU
  ++ when (negb (hasAvailableMemory e.(resourcePolicy) summary request.(rq_RequestedMemoryBytes)))
       RejectionReasonInsufficientMemory
  ++ when (negb (hasAvailableEphemeralStorage e.(resourcePolicy) summary request.(rq_RequestedEphemeralStorageBytes)))
       RejectionReasonInsufficientEphemeralStorage.

Definition evaluateCandidate (e : Engine) (record : option NodeRecord) (base : option Request)
    (now : time) : option Evaluation :=
  match record with
  | None => None
  | Some record =>
      match ResolveRequestForNode base record.(nr_Summary) now with
      | (None, _) => None
      | (Some request, derivationErr) =>
          let summary := record.(nr_Summary) in
          let locality := findMatchingLocality (deref summary).(ns_Locality) request.(rq_RootfsKey) in
          let reasons := rejection_reasons e record request derivationErr now in
          Some (mkEvaluation record.(nr_NodeID)
            (if (0 <? length reasons)%nat then CandidateStateRejected else CandidateStateEligible)
            (if (0 <? length reasons)%nat then dedupeRejectionReasons reasons else [])
            (HeartbeatAgeSecs record.(nr_LastHeartbeatAt) now) (SummaryAgeSecs summary now)
            (deref summary).(ns_Pools) locality (Some (buildPlacementRank request summary locality)))
      end
  end.

(** ** Engine: planning (engine.go) *)
Definition eval_less (a b : Evaluation) : bool := EvaluationLess (Some a) (Some b).
Definition eval_id_less (a b : Evaluation) : bool := string_lt a.(e_NodeID) b.(e_NodeID).
Definition is_eligible (e : Evaluation) : bool := bool_decide (e.(e_State) = CandidateStateEligible).

Definition planned (e : Engine) (records : list NodeRecord) (req : option Request) (now : time)
    : list Evaluation :=
  omap (fun record => evaluateCandidate e (Some record) req now) records.

Definition Plan (e : Engine) (records : list NodeRecord) (req : option Request) (now : time)
    : list Evaluation * list Evaluation :=
  let l := planned e records req now in
  (sort_slice eval_less (List.filter is_eligible l),
   sort_slice eval_id_less (List.filter (fun c => negb (is_eligible c)) l)).

Definition Evaluate (e : Engine) (record : option NodeRecord) (req : option Request) (now : time) :=
  evaluateCandidate e record req now.

(** ** Rejection error (kernel rejection.go) *)
Definition CandidateRejectionReasons (candidates : list Evaluation) : list RejectionReason :=
  fold_left (fun reasons reason => if bool_decide (reason ∈ reasons) then reasons else reasons ++ [reason])
    (flat_map e_RejectionReasons candidates) [].

Definition RejectionReasonLabels (reasons : list RejectionReason) : list string :=
  sort_slice string_lt
    (List.filter (fun label => negb (String.eqb label "" || String.eqb label "unspecified"))
       (map RejectionReason_String reasons)).

(** The loop with its early return; [has] is [hasCapacityReason]. *)
Fixpoint capacityOnlyRejection_from (has : bool) (reasons : list RejectionReason) : bool :=
  match reasons with
  | [] => has
  | r :: rest =>
      match r with
      | RejectionReasonInsufficientCPU | RejectionReasonInsufficientMemory
      | RejectionReasonInsufficientEphemeralStorage => capacityOnlyRejection_from true rest
      | RejectionReasonUnspecified => capacityOnlyRejection_from has rest
      | _ => false
      end
  end.
Definition capacityOnlyRejection := capacityOnlyRejection_from false.

Definition admissionReason (rejected : list Evaluation) : AdmissionRejectionReason :=
  if (length rejected =? 0)%nat then AdmissionRejectionNodeSelection
  else if forallb (fun c => capacityOnlyRejection c.(e_RejectionReasons)) rejected
  then AdmissionRejectionPlacementCapacity
  else AdmissionRejectionNodeSelection.

Definition AdmissionErrorDomain : string := "axern.control.resource_admission".
Definition AdmissionRejectionReason_string (r : AdmissionRejectionReason) : string :=
  match r with
  | AdmissionRejectionNamespaceQuotaExceeded => "NAMESPACE_QUOTA_EXCEEDED"
  | AdmissionRejectionNodeCapacity => "NODE_CAPACITY_EXHAUSTED"
  | AdmissionRejectionPlacementCapacity => "PLACEMENT_CAPACITY_EXHAUSTED"
  | AdmissionRejectionNodeSelection => "NODE_SELECTION_ERROR"
  | AdmissionRejectionOther s => s
  end.
Definition AdmissionDiagnosticCode_string (c : AdmissionDiagnosticCode) : string :=
  match c with
  | AdmissionDiagnosticUnspecified => ""
  | AdmissionDiagnosticNamespaceQuotaExceeded => "namespace_quota_exceeded"
  | AdmissionDiagnosticNodeCapacity => "node_capacity_exhausted"
  | AdmissionDiagnosticPlacementCapacity => "placement_capacity_exhausted"
  | AdmissionDiagnosticNodeSelection => "node_selection_error"
  end.

Definition noEligibleNodeMessage (req : Request) (reasons : list RejectionReason) : string :=
  let message := "no eligible node: requested cpu_milli=" +:+ format_Z req.(rq_RequestedCpuMilli)
    +:+ " memory_bytes=" +:+ format_Z req.(rq_RequestedMemoryBytes)
    +:+ " ephemeral_storage_bytes=" +:+ format_Z req.(rq_RequestedEphemeralStorageBytes) in
  let labels := RejectionReasonLabels reasons in
  if (0 <? length labels)%nat then message +:+ "; rejection_reasons=" +:+ sconcat "," labels else message.

(** The metadata map, by key order. *)
Definition NoEligibleNodeError (req : Request) (rejected : list Evaluation) : error :=
  let reasons := CandidateRejectionReasons rejected in
  let reason := admissionReason rejected in
  StatusInfo FailedPrecondition (noEligibleNodeMessage req reasons)
    (AdmissionRejectionReason_string reason) AdmissionErrorDomain
    [ ("diagnostic_code", AdmissionDiagnosticCode_string (AdmissionDiagnosticForReason reason));
      ("rejection_reasons", sconcat "," (RejectionReasonLabels reasons));
      ("requested_cpu_milli", format_Z req.(rq_RequestedCpuMilli));
      ("requested_ephemeral_storage_bytes", format_Z req.(rq_RequestedEphemeralStorageBytes));
      ("requested_memory_bytes", format_Z req.(rq_RequestedMemoryBytes)) ].

(** ** Selector (selector.go) *)
Definition requestForCandidate (request : option Request) (record : option NodeRecord) (now : time)
    : option Request * option error :=
  match request, record with
  | Some _, Some r => ResolveRequestForNode request r.(nr_Summary) now
  | _, _ => (None, None)
  end.

(** A [byID] map built by ranging over the records: a later record wins. *)
Definition by_id (key : NodeRecord -> string) (records : list NodeRecord) : gmap string NodeRecord :=
  fold_left (fun m r => <[key r := r]> m) records ∅.

Definition eligible_candidate (byID : gmap string NodeRecord) (req : Request) (now : time)
    (out : list Candidate) (evaluation : Evaluation) : result (list Candidate) :=
  match byID !! TrimSpace evaluation.(e_NodeID) with
  | None => Ok out
  | Some record =>
      match requestForCandidate (Some req) (Some record) now with
      | (_, Some e) => Err e
      | (candidateRequest, None) =>
          Ok (out ++ [mkCandidate record (Some evaluation) (Some req) candidateRequest])
      end
  end.

Definition planEligibleCandidates (registry : Registry) (engine : Engine) (req : Request) (now : time)
    : result (list Candidate) * list Evaluation * list NodeRecord :=
  let snapshot := Snapshot registry in
  let '(eligible, rejected) := Plan engine snapshot (Some req) now in
  if (length eligible =? 0)%nat then (Ok [], rejected, snapshot)
  else
    let byID := by_id nr_NodeID snapshot in
    let r := out ← foldM (eligible_candidate byID req now) [] eligible;
             if (length out =? 0)%nat then Err (Status Internal "eligible nodes disappeared" [])
             else Ok out in
    (r, rejected, snapshot).

Definition retryableRejectionReason (reason : RejectionReason) : bool :=
  match reason with
  | RejectionReasonStaleHeartbeat | RejectionReasonStaleSummary | RejectionReasonAxnodedNotReady
  | RejectionReasonImagemgrUnavailable | RejectionReasonImagefsdUnavailable
  | RejectionReasonNodeMemorySystemReserveExhausted | RejectionReasonNodeMemoryBudgetUnavailable
  | RejectionReasonUnspecified => true
  | _ => false
  end.

Definition retryableRejection (reasons : list RejectionReason) : bool :=
  if (length reasons =? 0)%nat then false else forallb retryableRejectionReason reasons.

Definition retryableCandidatesFromRejected (snapshot : list NodeRecord) (rejected : list Evaluation)
    (req : Request) (now : time) : list Candidate :=
  if (length rejected =? 0)%nat || (length snapshot =? 0)%nat then []
  else
    let byID := by_id (fun r => TrimSpace r.(nr_NodeID)) snapshot in
    omap (fun evaluation =>
      if negb (retryableRejection evaluation.(e_RejectionReasons)) then None
      else
        match byID !! TrimSpace evaluation.(e_NodeID) with
        | None => None
        | Some record =>
            match requestForCandidate (Some req) (Some record) now with
            | (_, Some _) => None
            | (candidateRequest, None) =>
                Some (mkCandidate record (Some evaluation) (Some req) candidateRequest)
            end
        end) rejected.

(** [SelectCandidates] after [buildRequest]; the observer only records metrics. *)
Definition SelectCandidates (registry : Registry) (engine : Engine) (req : Request) (now : time)
    : result (list Candidate) :=
  let '(r, rejected, snapshot) := planEligibleCandidates registry engine req now in
  candidates ← r;
  if (length candidates =? 0)%nat then
    let retryable := retryableCandidatesFromRejected snapshot rejected req now in
    if (length retryable =? 0)%nat then Err (NoEligibleNodeError req rejected) else Ok retryable
  else Ok candidates.
End runtime.
