(* ===== verification/PlacementFacts.v ===== *)
(** * Facts about placement

    The candidate order is a strict total order on nodes, so planning is
    deterministic although [sort.Slice] is not stable; eligibility is the
    conjunction of the node predicates; the selector returns only usable
    candidates. *)
From S2P Require Import Prelude Proto Resource Capability CapabilityFacts MemoryBudget Node Placement.

(** ** The order of evaluations *)
Definition bool_key (b : bool) : Z := if b then 0 else 1.

(** The order is lexicographic on this key, then on the node id. *)
Definition rank_key (e : Evaluation) : list Z :=
  let r := GetRank e in
  [bool_key r.(rk_MountedMatch); - r.(rk_RetainedRootfsCount); - r.(rk_RetainedEnvironmentCount);
   bool_key r.(rk_NydusDaemonAlive); r.(rk_ChunkDBRecentAccessAgeSecs); - r.(rk_PeerHealthyCount);
   - r.(rk_PeerHintedCount); bool_key r.(rk_IdlePoolReady); r.(rk_RuntimeSlotOccupancy);
   r.(rk_ChargedCPUMilli); r.(rk_ChargedMemoryBytes); r.(rk_ChargedEphemeralBytes);
   e.(e_HeartbeatAgeSecs)].

Fixpoint lex_less (a b : list Z) (tie : bool) : bool :=
  match a, b with
  | x :: a', y :: b' => if x =? y then lex_less a' b' tie else x <? y
  | _, _ => tie
  end.

Lemma lex_less_tie a t : lex_less a a t = t.
Proof. induction a as [|x a IH]; simpl; [done|]. by rewrite Z.eqb_refl. Qed.

(** Which of two keys of equal length comes first. *)
Lemma lex_less_cases a b :
  length a = length b ->
  (a = b) \/ (forall t, lex_less a b t = true /\ lex_less b a t = false) \/
  (forall t, lex_less a b t = false /\ lex_less b a t = true).
Proof.
  revert b. induction a as [|x a IH]; intros [|y b] Hl; simpl in *; try done; [by left|].
  rewrite (Z.eqb_sym y x). destruct (Z.eqb_spec x y) as [->|Hne].
  - destruct (IH b) as [->|[Hc|Hc]]; [lia|by left|by right; left|by right; right].
  - right. destruct (Z.ltb_spec x y); [left|right]; intros _; split; lia.
Qed.

Lemma lex_less_trans a b c t1 t2 t3 :
  length a = length b -> length b = length c ->
  (t1 = true -> t2 = true -> t3 = true) ->
  lex_less a b t1 = true -> lex_less b c t2 = true -> lex_less a c t3 = true.
Proof.
  revert b c. induction a as [|x a IH]; intros [|y b] [|z c] H1 H2 Ht; simpl in *; try done.
  destruct (Z.eqb_spec x y), (Z.eqb_spec y z), (Z.eqb_spec x z); try lia; subst; eauto with lia.
Qed.

Lemma bool_key_neq a b : negb (Bool.eqb a b) = negb (bool_key a =? bool_key b).
Proof. by destruct a, b. Qed.
Lemma bool_key_lt a b : negb (Bool.eqb a b) = true -> (bool_key a <? bool_key b) = a.
Proof. by destruct a, b. Qed.

Lemma eval_less_lex a b :
  eval_less a b = lex_less (rank_key a) (rank_key b) (eval_id_less a b).
Proof.
  unfold eval_less, EvaluationLess, rank_key, eval_id_less. cbn [lex_less].
  assert (Hb : forall x y (t u : bool), t = u ->
    (if negb (Bool.eqb x y) then x else t) =
    (if bool_key x =? bool_key y then u else bool_key x <? bool_key y)) by (intros [] [] t u ->; done).
  assert (Hlt : forall x y (t u : bool), t = u ->
    (if negb (x =? y) then x <? y else t) = (if x =? y then u else x <? y))
    by (intros x y t u ->; by destruct (x =? y)).
  assert (Hgt : forall x y (t u : bool), t = u ->
    (if negb (x =? y) then y <? x else t) = (if - x =? - y then u else - x <? - y)).
  { intros x y t u ->. destruct (Z.eqb_spec x y), (Z.eqb_spec (- x) (- y)); try lia; simpl; [done|].
    destruct (Z.ltb_spec y x), (Z.ltb_spec (- x) (- y)); try lia; done. }
  apply Hb, Hgt, Hgt, Hb, Hlt, Hgt, Hgt, Hb, Hlt, Hlt, Hlt, Hlt, Hlt. done.
Qed.

Lemma eval_less_strict_weak : strict_weak eval_less.
Proof.
  assert (Hlen : forall a b, length (rank_key a) = length (rank_key b)) by done.
  split; intros a b; rewrite ?eval_less_lex.
  - intros Hab. unfold eval_id_less in *.
    destruct (lex_less_cases _ _ (Hlen a b)) as [E|[Hc|Hc]]; [|apply Hc|].
    + rewrite E, lex_less_tie in *. by apply string_lt_asym.
    + by rewrite (proj1 (Hc _)) in Hab.
  - intros c Hab Hbc. rewrite eval_less_lex in *. apply not_true_iff_false. intros Hac.
    unfold eval_id_less in *.
    (* not a < b means b <= a, and b <= a < c gives b < c *)
    assert (Hbc' : lex_less (rank_key b) (rank_key c) (string_lt b.(e_NodeID) c.(e_NodeID)) = true);
      [|congruence].
    destruct (lex_less_cases _ _ (Hlen a b)) as [E|[Hc|Hc]].
    + rewrite <- E in *. rewrite lex_less_tie in Hab.
      destruct (lex_less_cases _ _ (Hlen a c)) as [E'|[Hc|Hc]]; [|apply Hc|by rewrite (proj1 (Hc _)) in Hac].
      rewrite <- E' in *. rewrite lex_less_tie in *.
      destruct (string_lt (e_NodeID b) (e_NodeID a)) eqn:Hba;
        [by eapply string_lt_trans|by rewrite <- (string_lt_connex _ _ Hab Hba)].
    + by rewrite (proj1 (Hc _)) in Hab.
    + eapply (lex_less_trans _ _ _ false); [apply Hlen..| |apply Hc|exact Hac]. done.
Qed.

(** Two evaluations neither of which comes first are of the same node. *)
Lemma eval_less_connex a b :
  eval_less a b = false -> eval_less b a = false -> a.(e_NodeID) = b.(e_NodeID).
Proof.
  rewrite !eval_less_lex. unfold eval_id_less.
  destruct (lex_less_cases (rank_key a) (rank_key b) eq_refl) as [E|[Hc|Hc]].
  - rewrite E, !lex_less_tie. apply string_lt_connex.
  - by rewrite (proj1 (Hc _)).
  - intros _. by rewrite (proj2 (Hc _)).
Qed.

Lemma eval_id_less_strict_weak : strict_weak eval_id_less.
Proof.
  split; unfold eval_id_less; intros *; [apply string_lt_asym|].
  apply (sw_trans _ string_lt_strict_weak).
Qed.

Section runtime.
Context `{GoRuntime}.

(** ** Planning *)
Lemma evaluateCandidate_some e record req now :
  exists ev, evaluateCandidate e (Some record) (Some req) now = Some ev /\ ev.(e_NodeID) = record.(nr_NodeID).
Proof.
  unfold evaluateCandidate. destruct (ResolveRequestForNode (Some req) (nr_Summary record) now) as [r err] eqn:E.
  unfold ResolveRequestForNode in E. destruct (if non_nil _ then _ else _) in E; simplify_eq; by eexists.
Qed.

Lemma planned_ids e records req now :
  map e_NodeID (planned e records (Some req) now) = map nr_NodeID records.
Proof.
  unfold planned. induction records as [|r records IH]; [done|]. cbn [omap list_omap].
  destruct (evaluateCandidate_some e r req now) as (ev & -> & Hid). cbn [map]. by rewrite IH, Hid.
Qed.

Lemma ids_injective {A} (f : A -> string) l a b :
  NoDup (map f l) -> a ∈ l -> b ∈ l -> f a = f b -> a = b.
Proof.
  induction l as [|x l IH]; cbn [map]; [set_solver|]. rewrite NoDup_cons, !elem_of_cons.
  intros [Hx Hl] [->|Ha] [->|Hb] E; [done|..].
  - exfalso. apply Hx. rewrite E. by apply list_elem_of_fmap_2.
  - exfalso. apply Hx. rewrite <- E. by apply list_elem_of_fmap_2.
  - by apply IH.
Qed.

Lemma filter_split {A} (p : A -> bool) l :
  l ≡ₚ List.filter p l ++ List.filter (fun x => negb (p x)) l.
Proof.
  induction l as [|x l IH]; simpl; [done|]. destruct (p x); simpl; rewrite IH at 1; [done|].
  apply Permutation_middle.
Qed.

(** Planning partitions the snapshot.  Every node is evaluated exactly once
    and lands either in the eligible or in the rejected list; with distinct
    node ids both lists are the only ones in their order, so neither the map
    order nor the instability of [sort.Slice] can change a plan, and the
    first eligible node is preferred to all the others. *)
Theorem Plan_spec e records req now eligible rejected :
  NoDup (map nr_NodeID records) -> Plan e records (Some req) now = (eligible, rejected) ->
  map e_NodeID (eligible ++ rejected) ≡ₚ map nr_NodeID records /\
  Forall (fun c => c.(e_State) = CandidateStateEligible) eligible /\
  Forall (fun c => c.(e_State) <> CandidateStateEligible) rejected /\
  (forall l, l ≡ₚ eligible -> StronglySorted (not_after eval_less) l -> l = eligible) /\
  (forall l, l ≡ₚ rejected -> StronglySorted (not_after eval_id_less) l -> l = rejected) /\
  (forall best rest c, eligible = best :: rest -> c ∈ rest -> eval_less best c = true).
Proof.
  intros Hnd. unfold Plan. set (l := planned e records (Some req) now). intros [= <- <-].
  assert (Hids : map e_NodeID l = map nr_NodeID records) by apply planned_ids.
  assert (Hl : NoDup (map e_NodeID l)) by (by rewrite Hids).
  assert (Hmem : forall p a, a ∈ List.filter p l -> a ∈ l /\ p a = true).
  { intros p a. rewrite !list_elem_of_In. apply filter_In. }
  assert (Huniq : forall p less, strict_weak less ->
    (forall a b, less a b = false -> less b a = false -> e_NodeID a = e_NodeID b) ->
    forall l', l' ≡ₚ sort_slice less (List.filter p l) -> StronglySorted (not_after less) l' ->
    l' = sort_slice less (List.filter p l)).
  { intros p less Hsw Hconn l' Hp Hs. apply sort_slice_unique; [done| |by rewrite Hp; apply sort_slice_perm|done].
    intros a b Ha Hb Hab Hba. apply (ids_injective e_NodeID l); [done|by apply (Hmem p)..|by apply Hconn]. }
  split; [|split; [|split; [|split; [|split]]]].
  - rewrite <- Hids. apply Permutation_map. rewrite !sort_slice_perm. symmetry. apply filter_split.
  - apply Forall_forall. intros c Hc. apply elem_of_sort_slice, Hmem in Hc as [_ Hc].
    by apply bool_decide_eq_true in Hc.
  - apply Forall_forall. intros c Hc. apply elem_of_sort_slice, Hmem in Hc as [_ Hc].
    by apply negb_true_iff, bool_decide_eq_false in Hc.
  - apply Huniq; [apply eval_less_strict_weak|apply eval_less_connex].
  - apply Huniq; [apply eval_id_less_strict_weak|intros a b; apply string_lt_connex].
  - intros best rest c Heq Hc.
    pose proof (sort_slice_sorted eval_less eval_less_strict_weak (List.filter is_eligible l)) as Hs.
    assert (Hin : forall x, x ∈ best :: rest -> x ∈ l).
    { intros x. rewrite <- Heq, elem_of_sort_slice. intros Hx. by apply Hmem in Hx as [? _]. }
    assert (Hnd' : NoDup (best :: rest)).
    { rewrite <- Heq, sort_slice_perm. apply NoDup_ListNoDup, List.NoDup_filter, NoDup_ListNoDup.
      by apply (NoDup_fmap_1 e_NodeID). }
    rewrite Heq in Hs. inversion Hs as [|x y _ Hall]; subst. rewrite Forall_forall in Hall.
    destruct (eval_less best c) eqn:E; [done|]. exfalso.
    apply NoDup_cons in Hnd' as [Hnot _]. apply Hnot.
    assert (best = c) as ->; [|done].
    apply (ids_injective e_NodeID l); [done|set_solver..|].
    apply eval_less_connex; [done|]. by apply Hall.
Qed.

(** ** Eligibility *)
Lemma when_nil {A} (b : bool) (x : A) : when b x = [] <-> b = false.
Proof. by destruct b. Qed.

Lemma dedupe_elem l r :
  r ∈ dedupeRejectionReasons l <-> r <> RejectionReasonUnspecified /\ r ∈ l.
Proof.
  unfold dedupeRejectionReasons. rewrite elem_of_sort_slice.
  assert (Hg : forall l acc, r ∈ fold_left (fun out reason =>
      if bool_decide (reason = RejectionReasonUnspecified) then out
      else if bool_decide (reason ∈ out) then out else out ++ [reason]) l acc <->
    r ∈ acc \/ (r <> RejectionReasonUnspecified /\ r ∈ l)).
  { clear l. induction l as [|x l IH]; intros acc; cbn [fold_left]; [set_solver|]. rewrite IH, elem_of_cons.
    case_bool_decide as Hu; [naive_solver|].
    case_bool_decide as Hin; [naive_solver|]. rewrite elem_of_app, list_elem_of_singleton. naive_solver. }
  rewrite Hg. set_solver.
Qed.

Lemma dedupe_nil l :
  (forall r, r ∈ l -> r <> RejectionReasonUnspecified) -> dedupeRejectionReasons l = [] <-> l = [].
Proof.
  intros Hl. split; [|by intros ->]. intros Hd. destruct l as [|x l]; [done|].
  assert (Hx : x ∈ dedupeRejectionReasons (x :: l)) by (apply dedupe_elem; set_solver).
  rewrite Hd in Hx. set_solver.
Qed.

Definition specified (l : list RejectionReason) : Prop := forall r, r ∈ l -> r <> RejectionReasonUnspecified.

Lemma specified_app a b : specified a -> specified b -> specified (a ++ b).
Proof. intros Ha Hb r Hr. apply elem_of_app in Hr as [Hr|Hr]; [by apply Ha|by apply Hb]. Qed.
Lemma specified_when b x : x <> RejectionReasonUnspecified -> specified (when b x).
Proof. intros Hx r. rewrite elem_of_when. naive_solver. Qed.
Lemma specified_dedupe l : specified (dedupeRejectionReasons l).
Proof. intros r. rewrite dedupe_elem. naive_solver. Qed.

Lemma rejection_reasons_specified e record request err now :
  specified (rejection_reasons e record request err now).
Proof.
  unfold rejection_reasons, node_state_reasons, mount_reasons, missingCapabilityRejectionReasons.
  repeat apply specified_app; try (by apply specified_when); try apply specified_dedupe.
  - destruct (effectiveNodeState _ _); intros r Hr; set_solver.
  - destruct (if bool_decide _ then _ else _); try (intros r Hr; set_solver);
      try apply specified_app; by apply specified_when.
Qed.

Lemma missing_nil summary keys now :
  missingCapabilityRejectionReasons summary keys now = [] <->
  Forall (fun k => is_Some (AvailableObservation (deref summary).(ns_CapabilitySnapshot) (Some k) now)) keys.
Proof.
  unfold missingCapabilityRejectionReasons. rewrite dedupe_nil.
  - induction keys as [|k keys IH]; cbn [flat_map]; [by rewrite Forall_nil|].
    rewrite app_nil, IH, Forall_cons. apply and_iff_compat_r. unfold hasCapability.
    destruct (AvailableObservation _ (Some k) now) as [o|]; simpl.
    + split; [by eexists|done].
    + split; [by repeat case_match|by intros [? [=]]].
  - intros r Hr. apply list_elem_of_In, in_flat_map in Hr as (k & _ & Hr). apply list_elem_of_In in Hr.
    repeat case_match; set_solver.
Qed.

Lemma labelsMatch_iff labels selector :
  labelsMatch labels selector = true <->
  forall k v, selector !! k = Some v -> default "" (labels !! k) = v.
Proof.
  unfold labelsMatch. rewrite forallb_forall. split.
  - intros Hall k v Hk. specialize (Hall (k, v)). simpl in Hall. apply String.eqb_eq, Hall.
    by apply list_elem_of_In, elem_of_map_to_list.
  - intros Hall [k v] Hin. apply list_elem_of_In, elem_of_map_to_list in Hin.
    apply String.eqb_eq. by apply Hall.
Qed.

(** What placement demands of a node for a resolved request. *)
Record node_fit (e : Engine) (record : NodeRecord) (request : Request) (err : option error) (now : time)
    : Prop := {
  nf_active : record.(nr_Lifecycle) = LifecycleActive;
  nf_heartbeat : HeartbeatFresh record.(nr_LastHeartbeatAt) now e.(heartbeatFreshnessWindow) = true;
  nf_summary : SummaryFresh record.(nr_Summary) now e.(summaryFreshnessWindow) = true;
  nf_state : (deref record.(nr_Summary)).(ns_NodeState) <> NS_DRAINING /\
             (deref record.(nr_Summary)).(ns_NodeState) <> NS_DISABLED;
  nf_labels k v : request.(rq_NodeSelector) !! k = Some v ->
    default "" ((deref record.(nr_Summary)).(ns_Labels) !! k) = v;
  nf_axnoded : (deref (deref (deref record.(nr_Summary)).(ns_Components)).(comps_Axnoded)).(ax_Ready) = true;
  nf_reserve : (deref (deref record.(nr_Summary)).(ns_MemoryBudget)).(mb_SystemReserveExhausted) = false;
  nf_memory : memorybudget.ValidateSummary record.(nr_Summary) now = Ok ();
  nf_mount : let locality := findMatchingLocality (deref record.(nr_Summary)).(ns_Locality) request.(rq_RootfsKey) in
    mount_reasons (if bool_decide ((deref locality).(loc_MountType) = MT_EROFS) then MT_EROFS
                   else request.(rq_MountType))
      (imagemgrUsable record.(nr_Summary)) (imagefsdUsable record.(nr_Summary)) = [];
  nf_network : request.(rq_Network) <> "host" -> err = None;
  nf_capabilities : Forall (fun k => is_Some (AvailableObservation
    (deref record.(nr_Summary)).(ns_CapabilitySnapshot) (Some k) now)) request.(rq_CapabilityRequirements);
  nf_cpu : 0 < request.(rq_RequestedCpuMilli) ->
    AdmissionPolicy_Fits e.(resourcePolicy) (deref record.(nr_Summary)).(ns_Allocatable) empty_claim
      (mkClaim request.(rq_RequestedCpuMilli) 0 0) = true;
  nf_mem : 0 < request.(rq_RequestedMemoryBytes) ->
    AdmissionPolicy_Fits e.(resourcePolicy) (deref record.(nr_Summary)).(ns_Allocatable) empty_claim
      (mkClaim 0 request.(rq_RequestedMemoryBytes) 0) = true;
  nf_ephemeral : 0 < request.(rq_RequestedEphemeralStorageBytes) ->
    AdmissionPolicy_Fits e.(resourcePolicy) (deref record.(nr_Summary)).(ns_Allocatable) empty_claim
      (mkClaim 0 0 request.(rq_RequestedEphemeralStorageBytes)) = true }.

Lemma has_available_iff (b : bool) requested :
  (if requested <=? 0 then true else b) = true <-> (0 < requested -> b = true).
Proof. destruct (Z.leb_spec requested 0); split; intros; try done; try lia; auto. Qed.

Lemma summary_fresh_some summary now window :
  SummaryFresh summary now window = true -> is_nil summary = false.
Proof. by destruct summary. Qed.

Lemma node_state_nil record now e :
  HeartbeatFresh record.(nr_LastHeartbeatAt) now e.(heartbeatFreshnessWindow) = true ->
  is_nil record.(nr_Summary) = false ->
  node_state_reasons record.(nr_Summary) true = [] <->
  (deref record.(nr_Summary)).(ns_NodeState) <> NS_DRAINING /\
  (deref record.(nr_Summary)).(ns_NodeState) <> NS_DISABLED.
Proof.
  unfold node_state_reasons, effectiveNodeState. destruct (nr_Summary record) as [s|]; [|done].
  intros _ _. simpl. destruct (ns_NodeState s); simpl; split; try done; intuition congruence.
Qed.

Lemma rejection_reasons_nil e record request err now :
  rejection_reasons e record request err now = [] <-> node_fit e record request err now.
Proof.
  unfold rejection_reasons. cbv zeta. rewrite !app_nil, !when_nil, !negb_false_iff, missing_nil, labelsMatch_iff.
  unfold hasAvailableCPU, hasAvailableMemory, hasAvailableEphemeralStorage. rewrite !has_available_iff.
  cbn [Active]. rewrite String.eqb_eq, orb_false_iff, negb_false_iff, andb_false_iff.
  split.
  - intros (Ha & Hh & Hs & Hst & Hl & [Hnil Hax] & Hr & Hm & Hmt & Hn & Hc & H1 & H2 & H3).
    split; try done.
    + rewrite Hh in Hst. by apply (node_state_nil record now e).
    + by destruct (memorybudget.ValidateSummary (nr_Summary record) now) as [[]|].
    + intros Hne. destruct Hn as [Hn|Hn]; [by destruct err|].
      simpl in Hn. apply negb_false_iff, String.eqb_eq in Hn. done.
  - intros [Ha Hh Hs Hst Hl Hax Hr Hm Hmt Hn Hc H1 H2 H3]. rewrite Hh, Hm.
    pose proof (summary_fresh_some _ _ _ Hs) as Hnil.
    do 3 (split; [done|]). split; [by apply (node_state_nil record now e)|].
    do 5 (split; [done|]). split; [|done].
    destruct (decide (rq_Network request = "host")) as [E|E]; [right|left; by rewrite (Hn E)].
    simpl. by rewrite E.
Qed.

Lemma evaluateCandidate_inv e record base now ev :
  evaluateCandidate e (Some record) (Some base) now = Some ev ->
  exists request err, ResolveRequestForNode (Some base) record.(nr_Summary) now = (Some request, err) /\
    request.(rq_Network) = base.(rq_Network) /\ ev.(e_NodeID) = record.(nr_NodeID) /\
    ev.(e_State) = (if (0 <? length (rejection_reasons e record request err now))%nat
                    then CandidateStateRejected else CandidateStateEligible) /\
    ev.(e_RejectionReasons) = dedupeRejectionReasons (rejection_reasons e record request err now).
Proof.
  unfold evaluateCandidate.
  destruct (ResolveRequestForNode (Some base) (nr_Summary record) now) as [[request|] err] eqn:E; [|discriminate].
  intros [= <-]. exists request, err. split; [done|]. split.
  - unfold ResolveRequestForNode in E. destruct (if non_nil _ then _ else _) in E; by simplify_eq.
  - split; [done|]. split; [done|]. simpl. by destruct (rejection_reasons e record request err now).
Qed.

(** C30: a node is eligible for a request exactly when it passes every check
    ([node_fit]: active, fresh heartbeat and summary, schedulable state,
    matching labels, ready components, a valid and unexhausted memory budget,
    an available observation for each derived capability, and enough
    allocatable resources); a node that is not is rejected with at least one
    concrete reason. *)
Theorem evaluateCandidate_eligible_iff e record base now ev request err :
  evaluateCandidate e (Some record) (Some base) now = Some ev ->
  ResolveRequestForNode (Some base) record.(nr_Summary) now = (Some request, err) ->
  (ev.(e_State) = CandidateStateEligible <-> node_fit e record request err now) /\
  (ev.(e_State) = CandidateStateEligible <-> ev.(e_RejectionReasons) = []) /\
  (ev.(e_State) <> CandidateStateEligible -> ev.(e_State) = CandidateStateRejected).
Proof.
  intros Hev Hres. destruct (evaluateCandidate_inv _ _ _ _ _ Hev) as (r' & err' & Hres' & _ & _ & -> & ->).
  rewrite Hres in Hres'. injection Hres' as <- <-. rewrite <- rejection_reasons_nil.
  rewrite (dedupe_nil _ (rejection_reasons_specified e record request err now)).
  by destruct (rejection_reasons e record request err now).
Qed.

(** ** The selector *)
Definition ids_trimmed (registry : Registry) : Prop :=
  forall nid rec, registry !! nid = Some rec -> TrimSpace nid = nid.

Lemma by_id_lookup (key : NodeRecord -> string) l k r :
  NoDup (map key l) -> by_id key l !! k = Some r <-> r ∈ l /\ key r = k.
Proof.
  unfold by_id. assert (Hg : forall l (m : gmap string NodeRecord), NoDup (map key l) ->
    (forall x, x ∈ l -> m !! key x = None) ->
    fold_left (fun m r => <[key r := r]> m) l m !! k = Some r <-> m !! k = Some r \/ (r ∈ l /\ key r = k)).
  { clear l. induction l as [|x l IH]; intros m Hnd Hm; cbn [fold_left]; [set_solver|].
    cbn [map] in Hnd. apply NoDup_cons in Hnd as [Hx Hnd]. rewrite IH; [|done|].
    - rewrite lookup_insert_Some, elem_of_cons. split.
      + intros [[[<- <-]|[Hne Hk]]|[Hr <-]]; naive_solver.
      + intros [Hk|[[->|Hr] <-]]; [|naive_solver..]. left. right. split; [|done].
        intros <-. rewrite Hm in Hk; [done|set_solver].
    - intros y Hy. rewrite lookup_insert_ne; [apply Hm; set_solver|].
      intros E. apply Hx. rewrite E. by apply list_elem_of_fmap_2. }
  intros Hnd. rewrite Hg; [|done|intros; apply lookup_empty]. rewrite lookup_empty. set_solver.
Qed.

Section selector.
Context (registry : Registry) (engine : Engine) (req : Request) (now : time).
Context (Hkeyed : registry_keyed registry) (Htrim : ids_trimmed registry).
Context (Hnet : req.(rq_Network) <> "host").

Definition eligible_record (rec : NodeRecord) : Prop :=
  exists ev, evaluateCandidate engine (Some rec) (Some req) now = Some ev /\
             ev.(e_State) = CandidateStateEligible.

(** What a returned candidate binds together. *)
Record candidate_of (c : Candidate) : Prop := {
  co_record : registry !! c.(c_Record).(nr_NodeID) = Some c.(c_Record);
  co_evaluation : c.(c_Evaluation) = evaluateCandidate engine (Some c.(c_Record)) (Some req) now;
  co_base : c.(c_BaseRequest) = Some req;
  co_request : ResolveRequestForNode (Some req) c.(c_Record).(nr_Summary) now = (c.(c_Request), None) }.

Lemma snapshot_elem rec : rec ∈ Snapshot registry <-> registry !! rec.(nr_NodeID) = Some rec.
Proof.
  unfold Snapshot. rewrite elem_of_sort_slice, list_elem_of_fmap. setoid_rewrite elem_of_map_to_list'. split.
  - intros ([nid rec'] & -> & Hr). simpl in *. by rewrite (Hkeyed _ _ Hr).
  - intros Hr. by exists (rec.(nr_NodeID), rec).
Qed.

Lemma snapshot_ids : NoDup (map nr_NodeID (Snapshot registry)).
Proof.
  unfold Snapshot.
  assert (Hp : map nr_NodeID (sort_slice record_less (map snd (map_to_list registry)))
               ≡ₚ map fst (map_to_list registry)).
  { etrans; [apply Permutation_map, sort_slice_perm|]. rewrite map_map.
    assert (Hfg : Forall (fun p => nr_NodeID p.2 = p.1) (map_to_list registry)).
    { apply Forall_forall. intros [nid rec] Hin. apply elem_of_map_to_list in Hin. by apply Hkeyed. }
    induction Hfg as [|p l Hp _ IH]; cbn [map]; [done|]. by rewrite Hp, IH. }
  rewrite Hp. apply NoDup_fst_map_to_list.
Qed.

Lemma snapshot_trim rec : rec ∈ Snapshot registry -> TrimSpace rec.(nr_NodeID) = rec.(nr_NodeID).
Proof. rewrite snapshot_elem. apply Htrim. Qed.

Lemma snapshot_by_id rec :
  rec ∈ Snapshot registry -> by_id nr_NodeID (Snapshot registry) !! TrimSpace rec.(nr_NodeID) = Some rec.
Proof.
  intros Hr. rewrite (snapshot_trim _ Hr). apply by_id_lookup; [apply snapshot_ids|done].
Qed.

Lemma snapshot_by_trimmed_id rec :
  rec ∈ Snapshot registry ->
  by_id (fun r => TrimSpace r.(nr_NodeID)) (Snapshot registry) !! TrimSpace rec.(nr_NodeID) = Some rec.
Proof.
  intros Hr. apply by_id_lookup; [|done].
  assert (map (fun r => TrimSpace (nr_NodeID r)) (Snapshot registry) = map nr_NodeID (Snapshot registry))
    as ->; [|apply snapshot_ids].
  apply map_ext_in. intros r Hin. apply snapshot_trim. by apply list_elem_of_In.
Qed.

Lemma planned_elem ev :
  ev ∈ planned engine (Snapshot registry) (Some req) now <->
  exists rec, rec ∈ Snapshot registry /\ evaluateCandidate engine (Some rec) (Some req) now = Some ev.
Proof. unfold planned. rewrite list_elem_of_omap. naive_solver. Qed.

(** An eligible node's request resolved without error. *)
Lemma eligible_resolves rec ev :
  evaluateCandidate engine (Some rec) (Some req) now = Some ev -> ev.(e_State) = CandidateStateEligible ->
  exists request, ResolveRequestForNode (Some req) rec.(nr_Summary) now = (Some request, None).
Proof.
  intros Hev Hst. destruct (evaluateCandidate_inv _ _ _ _ _ Hev) as (request & err & Hres & Hn & _ & Hs & _).
  exists request. rewrite Hs in Hst.
  assert (Hnil : rejection_reasons engine rec request err now = []).
  { by destruct (rejection_reasons engine rec request err now). }
  apply rejection_reasons_nil in Hnil. rewrite Hres, (nf_network _ _ _ _ _ Hnil); [done|]. by rewrite Hn.
Qed.

Lemma eligible_fold evs acc :
  (forall ev, ev ∈ evs -> ev ∈ planned engine (Snapshot registry) (Some req) now /\
                          ev.(e_State) = CandidateStateEligible) ->
  exists cs, foldM (eligible_candidate (by_id nr_NodeID (Snapshot registry)) req now) acc evs = Ok (acc ++ cs) /\
    map c_Evaluation cs = map Some evs /\ Forall candidate_of cs.
Proof.
  revert acc. induction evs as [|ev evs IH]; intros acc Hall; cbn [foldM].
  { exists []. by rewrite app_nil_r. }
  destruct (Hall ev) as [Hin Hst]; [set_solver|]. apply planned_elem in Hin as (rec & Hrec & Hev).
  destruct (evaluateCandidate_inv _ _ _ _ _ Hev) as (_ & _ & _ & _ & Hid & _).
  destruct (eligible_resolves _ _ Hev Hst) as [request Hres].
  set (c := mkCandidate rec (Some ev) (Some req) (Some request)).
  assert (eligible_candidate (by_id nr_NodeID (Snapshot registry)) req now acc ev = Ok (acc ++ [c])) as ->.
  { unfold eligible_candidate. rewrite Hid, (snapshot_by_id _ Hrec). cbn [requestForCandidate]. by rewrite Hres. }
  destruct (IH (acc ++ [c])) as (cs & Hf & Hm & Hcs); [set_solver|].
  exists (c :: cs). cbn [mbind result_bind]. rewrite Hf, <- app_assoc. split; [done|].
  split; [simpl; by rewrite Hm|]. constructor; [|done].
  split; cbn; [by apply snapshot_elem|done..].
Qed.

Lemma retryable_elem rejected c :
  (forall ev, ev ∈ rejected -> ev ∈ planned engine (Snapshot registry) (Some req) now) ->
  c ∈ retryableCandidatesFromRejected (Snapshot registry) rejected req now ->
  candidate_of c /\ exists ev, ev ∈ rejected /\ c.(c_Evaluation) = Some ev /\
    retryableRejection ev.(e_RejectionReasons) = true.
Proof.
  intros Hrej. unfold retryableCandidatesFromRejected. case_match; [set_solver|].
  rewrite list_elem_of_omap. intros (ev & Hin & Hc).
  destruct (retryableRejection (e_RejectionReasons ev)) eqn:Hr; [|discriminate]. cbn [negb] in Hc.
  destruct (proj1 (planned_elem ev) (Hrej ev Hin)) as (rec & Hrec & Hev).
  destruct (evaluateCandidate_inv _ _ _ _ _ Hev) as (_ & _ & _ & _ & Hid & _).
  rewrite Hid, (snapshot_by_trimmed_id _ Hrec) in Hc. cbn [requestForCandidate] in Hc.
  destruct (ResolveRequestForNode (Some req) (nr_Summary rec) now) as [request [e|]] eqn:Hres; [discriminate|].
  injection Hc as <-. split; [|by exists ev].
  split; cbn; [by apply snapshot_elem|done..].
Qed.

Lemma eligible_map_lookup cs evs ev :
  map c_Evaluation cs = map Some evs -> ev ∈ evs -> exists c, c ∈ cs /\ c.(c_Evaluation) = Some ev.
Proof.
  intros Hm Hin. assert (Hs : Some ev ∈ map c_Evaluation cs).
  { rewrite Hm. by apply list_elem_of_fmap_2. }
  apply list_elem_of_fmap in Hs as (c & Hc & Hin'). by exists c.
Qed.

Lemma SelectCandidates_cases :
  (exists cs evs, SelectCandidates registry engine req now = Ok cs /\ cs <> [] /\ Forall candidate_of cs /\
     map c_Evaluation cs = map Some evs /\ StronglySorted (not_after eval_less) evs /\
     (forall ev, ev ∈ evs <-> ev ∈ planned engine (Snapshot registry) (Some req) now /\
                              ev.(e_State) = CandidateStateEligible)) \/
  ((forall ev, ev ∈ planned engine (Snapshot registry) (Some req) now -> ev.(e_State) <> CandidateStateEligible) /\
   exists rejected, (forall ev, ev ∈ rejected <-> ev ∈ planned engine (Snapshot registry) (Some req) now) /\
     let retryable := retryableCandidatesFromRejected (Snapshot registry) rejected req now in
     SelectCandidates registry engine req now =
       (if (length retryable =? 0)%nat then Err (NoEligibleNodeError req rejected) else Ok retryable)).
Proof.
  unfold SelectCandidates, planEligibleCandidates, Plan.
  set (pl := planned engine (Snapshot registry) (Some req) now).
  set (evs := sort_slice eval_less (List.filter is_eligible pl)).
  assert (Hevs : forall ev, ev ∈ evs <-> ev ∈ pl /\ ev.(e_State) = CandidateStateEligible).
  { intros ev. unfold evs. rewrite elem_of_sort_slice, !list_elem_of_In, filter_In.
    unfold is_eligible. by rewrite bool_decide_eq_true. }
  destruct (Nat.eqb_spec (length evs) 0) as [Hz|Hz].
  - right. apply nil_length_inv in Hz. split.
    { intros ev Hin Hst. assert (ev ∈ evs) as Hx by (by apply Hevs). rewrite Hz in Hx. set_solver. }
    eexists. split; [|cbn [mbind result_bind]; reflexivity].
    intros ev. rewrite elem_of_sort_slice, !list_elem_of_In, filter_In. split; [by intros [? _]|].
    intros Hin. split; [done|]. apply negb_true_iff, bool_decide_eq_false. intros Hst.
    assert (ev ∈ evs) as Hx by (apply Hevs; split; [by apply list_elem_of_In|done]).
    rewrite Hz in Hx. set_solver.
  - left. destruct (eligible_fold evs []) as (cs & Hf & Hm & Hcs); [intros ev; apply Hevs|].
    rewrite Hf. cbn [app mbind result_bind].
    assert (Hlen : length cs = length evs).
    { rewrite <- (length_map c_Evaluation), Hm. apply length_map. }
    rewrite Hlen, (proj2 (Nat.eqb_neq _ _) Hz). cbn [mbind result_bind].
    rewrite Hlen, (proj2 (Nat.eqb_neq _ _) Hz). exists cs, evs. split; [done|].
    split; [intros ->; by simpl in Hlen|]. do 2 (split; [done|]). split; [|done].
    apply sort_slice_sorted, eval_less_strict_weak.
Qed.
End selector.

(** C29: candidate selection over a keyed registry with trimmed node ids, for a
    request that uses the node dataplane.  A success is never empty, every
    candidate binds a registered node to its own evaluation and to a request
    resolved for it without error, and either the candidates are all the
    eligible nodes in preference order, or no node is eligible and each
    candidate was rejected only for reasons that can clear by themselves.
    A failure means no node is eligible and carries the canonical error. *)
Theorem SelectCandidates_spec registry engine req now :
  registry_keyed registry -> ids_trimmed registry -> req.(rq_Network) <> "host" ->
  match SelectCandidates registry engine req now with
  | Ok cs =>
      cs <> [] /\ Forall (candidate_of registry engine req now) cs /\
      ((exists evs, map c_Evaluation cs = map Some evs /\ StronglySorted (not_after eval_less) evs /\
          Forall (fun ev => ev.(e_State) = CandidateStateEligible) evs /\
          forall nid rec, registry !! nid = Some rec -> eligible_record engine req now rec ->
            exists c, c ∈ cs /\ c.(c_Record) = rec) \/
       ((forall nid rec, registry !! nid = Some rec -> ~ eligible_record engine req now rec) /\
        Forall (fun c => exists ev, c.(c_Evaluation) = Some ev /\
                  retryableRejection ev.(e_RejectionReasons) = true) cs))
  | Err e =>
      (forall nid rec, registry !! nid = Some rec -> ~ eligible_record engine req now rec) /\
      exists rejected, e = NoEligibleNodeError req rejected
  end.
Proof.
  intros Hk Ht Hn.
  assert (Hnone : (forall ev, ev ∈ planned engine (Snapshot registry) (Some req) now ->
      ev.(e_State) <> CandidateStateEligible) ->
    forall nid rec, registry !! nid = Some rec -> ~ eligible_record engine req now rec).
  { intros Hno nid rec Hr (ev & Hev & Hst). apply (Hno ev); [|done]. apply planned_elem. exists rec.
    split; [|done]. apply snapshot_elem; [done|]. by rewrite (Hk _ _ Hr). }
  destruct (SelectCandidates_cases registry engine req now Hk Ht Hn)
    as [(cs & evs & -> & Hne & Hcs & Hm & Hs & Hevs)|(Hno & rejected & Hrej & Heq)].
  - do 2 (split; [done|]). left. exists evs. do 2 (split; [done|]). split.
    { apply Forall_forall. intros ev Hin. by apply Hevs. }
    intros nid rec Hr (ev & Hev & Hst).
    destruct (eligible_map_lookup cs evs ev Hm) as (c & Hc & Hce).
    { apply Hevs. split; [|done]. apply planned_elem. exists rec. split; [|done].
      apply snapshot_elem; [done|]. by rewrite (Hk _ _ Hr). }
    exists c. split; [done|]. rewrite Forall_forall in Hcs. destruct (Hcs c Hc) as [Hrec Hev' _ _].
    rewrite Hce in Hev'. symmetry in Hev'.
    destruct (evaluateCandidate_inv _ _ _ _ _ Hev) as (_ & _ & _ & _ & Hid & _).
    destruct (evaluateCandidate_inv _ _ _ _ _ Hev') as (_ & _ & _ & _ & Hid' & _).
    rewrite <- Hid', Hid, (Hk _ _ Hr), Hr in Hrec. congruence.
  - rewrite Heq. destruct (Nat.eqb_spec (length (retryableCandidatesFromRejected (Snapshot registry) rejected req now)) 0).
    + split; [by apply Hnone|by exists rejected].
    + pose proof (fun c => retryable_elem registry engine req now Hk Ht Hn rejected c
        (fun ev Hin => proj1 (Hrej ev) Hin)) as Hret.
      split; [by intros E; rewrite E in *|]. split; [apply Forall_forall; intros c Hc; by apply Hret|].
      right. split; [by apply Hnone|]. apply Forall_forall. intros c Hc.
      destruct (Hret c Hc) as [_ (ev & _ & He & Hr)]. by exists ev.
Qed.

(** ** Classification of a failed placement *)
Definition capacity_reason (r : RejectionReason) : bool :=
  match r with
  | RejectionReasonInsufficientCPU | RejectionReasonInsufficientMemory
  | RejectionReasonInsufficientEphemeralStorage => true
  | _ => false
  end.

Lemma capacityOnly_from_iff has reasons :
  capacityOnlyRejection_from has reasons = true <->
  (forall r, r ∈ reasons -> capacity_reason r = true \/ r = RejectionReasonUnspecified) /\
  (has = true \/ exists r, r ∈ reasons /\ capacity_reason r = true).
Proof.
  revert has. induction reasons as [|x reasons IH]; intros has; simpl; [set_solver|].
  setoid_rewrite elem_of_cons.
  destruct x; try (rewrite IH; naive_solver);
    (split; [discriminate|intros [Hall _]; specialize (Hall _ (or_introl eq_refl)); naive_solver]).
Qed.

(** A placement failure is reported as exhausted capacity (and so as
    something more capacity would fix) exactly when at least one node was
    considered and every node was rejected for lack of CPU, memory or
    ephemeral storage and for nothing else. *)
Theorem admissionReason_capacity_iff rejected :
  admissionReason rejected = AdmissionRejectionPlacementCapacity <->
  rejected <> [] /\
  forall ev, ev ∈ rejected ->
    (forall r, r ∈ ev.(e_RejectionReasons) -> capacity_reason r = true \/ r = RejectionReasonUnspecified) /\
    (exists r, r ∈ ev.(e_RejectionReasons) /\ capacity_reason r = true).
Proof.
  unfold admissionReason. destruct rejected as [|x l] eqn:El; [by split; [|intros [[] _]]|].
  rewrite <- El at 2. cbn [length Nat.eqb]. rewrite <- El at 1.
  assert (Hf : forallb (fun c => capacityOnlyRejection c.(e_RejectionReasons)) rejected = true <->
    forall ev, ev ∈ rejected ->
      (forall r, r ∈ ev.(e_RejectionReasons) -> capacity_reason r = true \/ r = RejectionReasonUnspecified) /\
      (exists r, r ∈ ev.(e_RejectionReasons) /\ capacity_reason r = true)).
  { rewrite forallb_forall. setoid_rewrite <- list_elem_of_In. unfold capacityOnlyRejection.
    setoid_rewrite capacityOnly_from_iff. naive_solver. }
  subst rejected. destruct (forallb _ (x :: l)); split; try done.
  - intros _. split; [done|]. by apply Hf.
  - intros [_ Hall]. by apply Hf in Hall.
Qed.
End runtime.

(** ** Concrete instances *)
Definition ex_summary (idle : Z) : NodeSummary :=
  mkNodeSummary "i-1" 7 (Some (mkTimestamp 1004 0)) (Some (mkPools (Some (mkPoolState 1 idle 8 0))))
    (Some (mkComponents (Some (mkAxnoded true ["a1"])) (Some (mkReach COMP_READY true)) None))
    [Some (mkLocality "env-1" MT_OCI true 1 1 false 30 0 0)] NS_READY {["zone" := "a"]} (Some ex_snapshot)
    (Some (mkResourceQuantity 4000 9000 100)) (Some (mkResourceQuantity 4000 5000 100))
    (Some (mkBudget 8000 6000 true 1000 "cgroup:/axern" (Some (mkTimestamp 1002 0)) false MBM_CGROUP_V2)).
Definition ex_record (nid : string) (idle : Z) : NodeRecord :=
  mkNodeRecord nid (nid +:+ ":9000") (Some (ex_summary idle)) LifecycleActive (900 * Second) (1004 * Second)
    zero_time "".
Definition ex_request : Request :=
  mkRequest "env-1" RT_IMAGE MT_OCI 2048 false 0 false 500 2048 0 "bridge" "" false false [] []
    {["zone" := "a"]}.
Definition ex_engine : Engine := @NewEngine (mkEngine 0 0 (mkPolicy (f64_of_Z 1))).
Definition ex_registry : Registry := Replace [Some (ex_record "n2" 1); None; Some (ex_record "n1" 0)].

Lemma Plan_spec_witness :
  eval_less
    (default zero (@evaluateCandidate amd64 ex_engine (Some (ex_record "n2" 1)) (Some ex_request) ex_now))
    (default zero (@evaluateCandidate amd64 ex_engine (Some (ex_record "n1" 0)) (Some ex_request) ex_now)) = true.
Proof.
  refine (proj2 (proj2 (proj2 (proj2 (proj2 (@Plan_spec amd64 ex_engine [ex_record "n1" 0; ex_record "n2" 1]
    ex_request ex_now _ _ _ eq_refl))))) _ _ _ _ _).
  - refine (bool_decide_unpack _ _). vm_compute. constructor.
  - vm_compute. reflexivity.
  - vm_compute. constructor.
Defined.

Lemma evaluateCandidate_eligible_iff_witness :
  exists ev request, ev.(e_State) = CandidateStateEligible /\
    @node_fit amd64 ex_engine (ex_record "n1" 0) request None ex_now.
Proof.
  eexists _, _.
  assert (Hst : (default zero (@evaluateCandidate amd64 ex_engine (Some (ex_record "n1" 0))
    (Some ex_request) ex_now)).(e_State) = CandidateStateEligible) by (vm_compute; reflexivity).
  split; [exact Hst|].
  refine (proj1 (proj1 (@evaluateCandidate_eligible_iff amd64 ex_engine (ex_record "n1" 0) ex_request ex_now
    _ _ _ _ _)) Hst); [vm_compute; reflexivity|].
  vm_compute. reflexivity.
Defined.

Lemma SelectCandidates_spec_witness :
  exists cs, @SelectCandidates amd64 ex_registry ex_engine ex_request ex_now = Ok cs /\
    map (fun c => c.(c_Record).(nr_NodeID)) cs = ["n2"; "n1"] /\
    Forall (@candidate_of amd64 ex_registry ex_engine ex_request ex_now) cs.
Proof.
  pose proof (@SelectCandidates_spec amd64 ex_registry ex_engine ex_request ex_now) as Hspec.
  destruct (@SelectCandidates amd64 ex_registry ex_engine ex_request ex_now) as [cs|e] eqn:E;
    [|vm_compute in E; discriminate E].
  exists cs. split; [done|]. split.
  - assert (Hcs : cs = match @SelectCandidates amd64 ex_registry ex_engine ex_request ex_now with
                       | Ok l => l | Err _ => [] end) by (by rewrite E).
    rewrite Hcs. vm_compute. reflexivity.
  - apply Hspec.
    + apply Replace_keyed.
    + intros nid rec Hr. assert (Hin : nid ∈ map fst (map_to_list ex_registry)).
      { apply list_elem_of_fmap. exists (nid, rec). split; [done|]. by apply elem_of_map_to_list. }
      clear Hr. revert nid Hin. apply Forall_forall. refine (bool_decide_unpack _ _). vm_compute. constructor.
    + discriminate.
Defined.
