(* ===== verification/NetworkPolicy.v ===== *)
(** * Network policy

    [lib/go/networkpolicy/policy.go]: validation and canonical form of sandbox
    network policies, with the part of [net/netip] it uses.  The IDNA lookup
    profile ([golang.org/x/net/idna]) is the parameter [ToASCII]. *)
From S2P Require Import Prelude Proto Resource Capability.

(** ** Messages *)
Inductive NetworkMode :=
  NETWORK_MODE_UNSPECIFIED | NETWORK_MODE_DEFAULT | NETWORK_MODE_ISOLATED | NETWORK_MODE_HOST
| NETWORK_MODE_UNRECOGNIZED (n : Z).
Inductive EgressProtocol :=
  EGRESS_PROTOCOL_UNSPECIFIED | EGRESS_PROTOCOL_TCP | EGRESS_PROTOCOL_UDP
| EGRESS_PROTOCOL_UNRECOGNIZED (n : Z).
#[export] Instance mode_eq_dec : EqDecision NetworkMode.
Proof. solve_decision. Defined.
#[export] Instance proto_eq_dec : EqDecision EgressProtocol.
Proof. solve_decision. Defined.
Definition protocol_number (p : EgressProtocol) : Z :=
  match p with
  | EGRESS_PROTOCOL_UNSPECIFIED => 0 | EGRESS_PROTOCOL_TCP => 1 | EGRESS_PROTOCOL_UDP => 2
  | EGRESS_PROTOCOL_UNRECOGNIZED n => n
  end.
Record PortRange := mkPortRange { pr_Start : Z; pr_End : Z }.
#[export] Instance port_eq_dec : EqDecision PortRange.
Proof. solve_decision. Defined.
Record CIDREgressRule := mkCIDRRule {
  cidr_Cidr : string; cidr_Protocol : EgressProtocol; cidr_Ports : list (option PortRange) }.
Record StrictEgressPolicy := mkStrict {
  strict_AllowedDomains : list string; strict_AllowedCidrs : list (option CIDREgressRule) }.
#[export] Instance zero_Strict : Zero StrictEgressPolicy := mkStrict [] [].
Record DnsDenyPolicy := mkDnsDeny { dd_DeniedDomains : list string }.
(** The [policy] oneof. *)
Inductive NetworkEgressPolicy :=
| PolicyUnset
| PolicyStrict (s : option StrictEgressPolicy)
| PolicyDnsDeny (d : option DnsDenyPolicy).
Record NetworkSpec := mkNetworkSpec {
  net_Mode : NetworkMode; net_EgressPolicy : option NetworkEgressPolicy }.
#[export] Instance zero_NetworkSpec : Zero NetworkSpec := mkNetworkSpec NETWORK_MODE_UNSPECIFIED None.

Definition GetStrict (p : option NetworkEgressPolicy) : option StrictEgressPolicy :=
  match p with Some (PolicyStrict s) => s | _ => None end.
Definition GetDnsDeny (p : option NetworkEgressPolicy) : option DnsDenyPolicy :=
  match p with Some (PolicyDnsDeny d) => d | _ => None end.

(** ** net/netip *)
Record Addr := mkAddr { addr_6 : bool; addr_value : Z }.
#[export] Instance addr_eq_dec : EqDecision Addr.
Proof. solve_decision. Defined.
Definition BitLen (a : Addr) : Z := if a.(addr_6) then 128 else 32.
Record Prefix := mkPrefix { prefix_addr : Addr; prefix_bits : Z }.
#[export] Instance prefix_eq_dec : EqDecision Prefix.
Proof. solve_decision. Defined.

Definition is_digit : ascii -> bool := in_range 48 57.
Definition digit_value (c : ascii) : Z := Z.of_nat (nat_of_ascii c) - 48.
Fixpoint decimal_acc (acc : Z) (s : string) : Z :=
  match s with EmptyString => acc | String c s' => decimal_acc (acc * 10 + digit_value c) s' end.

(** One octet: decimal digits without a leading zero, at most 255. *)
Definition parse_octet (s : string) : option Z :=
  match s with
  | EmptyString => None
  | String c rest =>
      if all_bytes is_digit s && (String.eqb rest "" || negb (Ascii.eqb c "0"))
         && (str_len s <=? 3) && (decimal_acc 0 s <=? 255)
      then Some (decimal_acc 0 s) else None
  end.

Definition parseIPv4 (s : string) : option Z :=
  match map parse_octet (Split "." s) with
  | [Some a; Some b; Some c; Some d] => Some (((a * 256 + b) * 256 + c) * 256 + d)
  | _ => None
  end.

Definition hex_value (c : ascii) : option Z :=
  let n := Z.of_nat (nat_of_ascii c) in
  if in_range 48 57 c then Some (n - 48)
  else if in_range 97 102 c then Some (n - 87)
  else if in_range 65 70 c then Some (n - 55)
  else None.

(** The hex digits at the front of [s]: their number, value and the rest. *)
Fixpoint hex_run (s : string) (count : nat) (acc : Z) : nat * Z * string :=
  match s with
  | EmptyString => (count, acc, s)
  | String c s' =>
      match hex_value c with
      | Some v => hex_run s' (S count) (acc * 16 + v)
      | None => (count, acc, s)
      end
  end.

(** The loop of [parseIPv6] after the zone and a leading ellipsis have been
    split off: 16-bit groups so far and the position of the ellipsis.
    Eight iterations consume all sixteen bytes. *)
Fixpoint ipv6_groups (fuel : nat) (s : string) (groups : list Z) (ellipsis : option nat)
    : option (list Z * option nat * string) :=
  match fuel with
  | O => Some (groups, ellipsis, s)
  | S fuel' =>
      let '(off, acc, rest) := hex_run s 0 0 in
      if (4 <? off)%nat || (off =? 0)%nat then None
      else
        let groups' := groups ++ [acc] in
        match rest with
        | EmptyString => Some (groups', ellipsis, "")
        | String c after =>
            if Ascii.eqb c "." then
              if is_nil ellipsis && negb (length groups =? 6)%nat then None
              else if (6 <? length groups)%nat then None
              else match parseIPv4 s with
                   | None => None
                   | Some v => Some (groups ++ [v / 65536; v mod 65536], ellipsis, "")
                   end
            else if negb (Ascii.eqb c ":") then None
            else
              match after with
              | EmptyString => None
              | String c2 after2 =>
                  if Ascii.eqb c2 ":" then
                    if non_nil ellipsis then None
                    else match after2 with
                         | EmptyString => Some (groups', Some (length groups'), "")
                         | _ => ipv6_groups fuel' after2 groups' (Some (length groups'))
                         end
                  else ipv6_groups fuel' after groups' ellipsis
              end
        end
  end.

Definition groups_value (groups : list Z) : Z := fold_left (fun acc g => acc * 65536 + g) groups 0.

(** The address and whether it carries a zone. *)
Definition parseIPv6 (s : string) : option (Addr * bool) :=
  let '(body, zone, hasZone) := Cut "%" s in
  if hasZone && String.eqb zone "" then None
  else
    let '(ellipsis, body') := match strip_prefix "::" body with
                              | Some rest => (Some 0%nat, rest)
                              | None => (None, body)
                              end in
    if non_nil ellipsis && String.eqb body' "" then Some (mkAddr true 0, hasZone)
    else
      match ipv6_groups 8 body' [] ellipsis with
      | Some (groups, ellipsis, rest) =>
          if negb (String.eqb rest "") then None
          else if (length groups <? 8)%nat then
            match ellipsis with
            | None => None
            | Some e => Some (mkAddr true (groups_value
                          (take e groups ++ replicate (8 - length groups) 0 ++ drop e groups)), hasZone)
            end
          else if non_nil ellipsis then None
          else Some (mkAddr true (groups_value groups), hasZone)
      | None => None
      end.

(** The first of the three separators decides the syntax. *)
Fixpoint addr_syntax (s : string) : option ascii :=
  match s with
  | EmptyString => None
  | String c s' => if one_of ".:%" c then Some c else addr_syntax s'
  end.
Definition ParseAddr (s : string) : option (Addr * bool) :=
  match addr_syntax s with
  | Some "."%char => option_map (fun v => (mkAddr false v, false)) (parseIPv4 s)
  | Some ":"%char => parseIPv6 s
  | _ => None
  end.

(** [strconv.Atoi] on an unsigned digit string without a leading zero. *)
Definition parse_bits (s : string) : option Z :=
  match s with
  | EmptyString => None
  | String c rest =>
      if negb (String.eqb rest "") && negb (in_range 49 57 c) then None
      else if all_bytes is_digit s then Some (decimal_acc 0 s) else None
  end.

(** Split at the last slash. *)
Definition last_slash (s : string) : option (string * string) :=
  let '(a, b, found) := Cut "/" (string_rev s) in
  if found : bool then Some (string_rev b, string_rev a) else None.

Definition ParsePrefix (s : string) : option Prefix :=
  match last_slash s with
  | None => None
  | Some (addr, bitsStr) =>
      match ParseAddr addr with
      | None => None
      | Some (ip, zoned) =>
          if zoned : bool then None
          else match parse_bits bitsStr with
               | None => None
               | Some bits => if (bits <? 0) || (BitLen ip <? bits) then None else Some (mkPrefix ip bits)
               end
      end
  end.

Definition Is4In6 (a : Addr) : bool := a.(addr_6) && (a.(addr_value) / 2 ^ 32 =? 65535).
Definition mask_low (len bits v : Z) : Z := Z.shiftl (Z.shiftr v (len - bits)) (len - bits).
Definition Masked (p : Prefix) : Prefix :=
  let a := p.(prefix_addr) in
  mkPrefix (mkAddr a.(addr_6) (mask_low (BitLen a) p.(prefix_bits) a.(addr_value))) p.(prefix_bits).
Definition Contains (p : Prefix) (a : Addr) : bool :=
  Bool.eqb p.(prefix_addr).(addr_6) a.(addr_6)
  && (Z.shiftr p.(prefix_addr).(addr_value) (BitLen a - p.(prefix_bits))
      =? Z.shiftr a.(addr_value) (BitLen a - p.(prefix_bits))).

Definition v4_String (v : Z) : string :=
  format_Z (v / 2 ^ 24) +:+ "." +:+ format_Z (v / 2 ^ 16 mod 256) +:+ "."
  +:+ format_Z (v / 2 ^ 8 mod 256) +:+ "." +:+ format_Z (v mod 256).

Definition v6u16 (v : Z) (i : nat) : Z := Z.shiftr v (16 * (7 - Z.of_nat i)) mod 65536.
Definition hex_digit (n : Z) : ascii :=
  if n <? 10 then ascii_of_nat (48 + Z.to_nat n) else ascii_of_nat (87 + Z.to_nat n).
(** [appendHex]: up to four digits without leading zeros. *)
Definition format_hex16 (x : Z) : string :=
  let d n := String (hex_digit (Z.shiftr x n mod 16)) "" in
  (if 4096 <=? x then d 12 else "") +:+ (if 256 <=? x then d 8 else "")
  +:+ (if 16 <=? x then d 4 else "") +:+ d 0.
(** Length of the run of zero groups at [i]. *)
Fixpoint zero_run (v : Z) (i fuel : nat) : nat :=
  match fuel with
  | O => O
  | S f => if (i <? 8)%nat && (v6u16 v i =? 0) then S (zero_run v (S i) f) else O
  end.
Definition longest_zero_run (v : Z) : nat * nat :=
  fold_left (fun '(start, len) i =>
    let l := zero_run v i 8 in
    if (2 <=? l)%nat && (len <? l)%nat then (i, l) else (start, len)) (seq 0 8) (8%nat, 0%nat).
Fixpoint v6_render (v : Z) (zstart zlen i fuel : nat) : string :=
  match fuel with
  | O => ""
  | S f =>
      if (8 <=? i)%nat then ""
      else if (0 <? zlen)%nat && (i =? zstart)%nat then
        let i' := (zstart + zlen)%nat in
        if (8 <=? i')%nat then "::"
        else "::" +:+ format_hex16 (v6u16 v i') +:+ v6_render v zstart zlen (S i') f
      else (if (0 <? i)%nat then ":" else "") +:+ format_hex16 (v6u16 v i) +:+ v6_render v zstart zlen (S i) f
  end.
Definition v6_String (v : Z) : string :=
  let '(zstart, zlen) := longest_zero_run v in v6_render v zstart zlen 0 9.
Definition Prefix_String (p : Prefix) : string :=
  (if p.(prefix_addr).(addr_6) then v6_String p.(prefix_addr).(addr_value)
   else v4_String p.(prefix_addr).(addr_value)) +:+ "/" +:+ format_Z p.(prefix_bits).

Example v6_prints : map v6_String [0; 1; 2 ^ 127 + 5; 65535 * 2 ^ 112; 2 ^ 112 + 2 ^ 48 + 1]
  = ["::"; "::1"; "8000::5"; "ffff::"; "1::1:0:0:1"].
Proof. vm_compute. reflexivity. Qed.
Example prefix_parses :
  map (fun s => option_map Prefix_String (ParsePrefix s))
    ["10.1.2.3/8"; "fe80::1/10"; "::ffff:1.2.3.4/96"; "1:2:3:4:5:6:7:8/128"; "::1:2:3:4:5:6:7/64";
     "10.1.2.3/33"; "10.01.2.3/8"; "10.1.2/8"; "1::2::3/8"; "fe80::1%eth0/10"; "10.0.0.0/08"; "::/0"; "1:2:3:4:5:6:7::/1"]
  = [Some "10.1.2.3/8"; Some "fe80::1/10"; Some "::ffff:102:304/96"; Some "1:2:3:4:5:6:7:8/128";
     Some "0:1:2:3:4:5:6:7/64"; None; None; None; None; None; None; Some "::/0"; Some "1:2:3:4:5:6:7:0/1"].
Proof. vm_compute. reflexivity. Qed.

(** ** Policy (policy.go) *)
Module networkpolicy.

Definition MaxRules : Z := 256.
Inductive EnforcementMode := EnforcementNone | EnforcementDNSDeny | EnforcementStrict.
#[export] Instance enforcement_eq_dec : EqDecision EnforcementMode.
Proof. solve_decision. Defined.

Definition forbiddenCIDRs : list Prefix := Eval vm_compute in
  omap ParsePrefix ["0.0.0.0/32"; "100.100.100.200/32"; "127.0.0.0/8"; "169.254.0.0/16";
    "192.0.0.192/32"; "224.0.0.0/4"; "::/128"; "::1/128"; "fe80::/10"; "ff00::/8"].

Definition forbiddenPrefix (candidate : Prefix) : bool :=
  existsb (fun forbidden =>
    (BitLen candidate.(prefix_addr) =? BitLen forbidden.(prefix_addr))
    && (forbidden.(prefix_bits) <=? candidate.(prefix_bits))
    && Contains forbidden candidate.(prefix_addr)) forbiddenCIDRs.

Definition port_less (a b : PortRange) : bool :=
  if a.(pr_Start) =? b.(pr_Start) then a.(pr_End) <? b.(pr_End) else a.(pr_Start) <? b.(pr_Start).

(** The validating copy of [normalizePorts]. *)
Fixpoint copy_ports (index : Z) (l : list (option PortRange)) : result (list PortRange) :=
  match l with
  | [] => Ok []
  | ports :: rest =>
      let bad := Err (Errorf "port range %d must satisfy 1 <= start <= end <= 65535" [AInt index]) in
      match ports with
      | None => bad
      | Some p =>
          if (p.(pr_Start) =? 0) || (65535 <? p.(pr_Start)) || (p.(pr_End) =? 0)
             || (65535 <? p.(pr_End)) || (p.(pr_End) <? p.(pr_Start))
          then bad
          else out ← copy_ports (index + 1) rest; Ok (p :: out)
      end
  end.

(** The in-place merge over the sorted slice; [last] is the element being
    extended, [merged] the ones before it. *)
Fixpoint merge_ports (last : PortRange) (l : list PortRange) : list PortRange :=
  match l with
  | [] => [last]
  | current :: rest =>
      if last.(pr_End) + 1 <? current.(pr_Start) then last :: merge_ports current rest
      else if last.(pr_End) <? current.(pr_End)
      then merge_ports (mkPortRange last.(pr_Start) current.(pr_End)) rest
      else merge_ports last rest
  end.
Definition merge_sorted (l : list PortRange) : list PortRange :=
  match l with [] => [] | p :: rest => merge_ports p rest end.

Definition normalizePorts (l : list (option PortRange)) : result (list PortRange) :=
  out ← copy_ports 0 l;
  Ok (merge_sorted (sort_slice port_less out)).

Definition cidr_key : Type := string * EgressProtocol.
Definition cidr_key_less (a b : cidr_key) : bool :=
  if String.eqb a.1 b.1 then protocol_number a.2 <? protocol_number b.2 else string_lt a.1 b.1.

(** The [grouped] map as an association list: each key once. *)
Fixpoint group_add (key : cidr_key) (ports : list (option PortRange))
    (grouped : list (cidr_key * list (option PortRange))) : list (cidr_key * list (option PortRange)) :=
  match grouped with
  | [] => [(key, ports)]
  | (k, ps) :: rest => if bool_decide (k = key) then (k, ps ++ ports) :: rest
                       else (k, ps) :: group_add key ports rest
  end.

Definition cidr_rule_key (index : Z) (rule : option CIDREgressRule)
    : result (cidr_key * list (option PortRange)) :=
  match rule with
  | None => Err (Errorf "rule %d must not be nil" [AInt index])
  | Some rule =>
      match ParsePrefix (TrimSpace rule.(cidr_Cidr)) with
      | None => Err (Wrapf "rule %d has invalid CIDR: %w" [AInt index] (Errorf "netip.ParsePrefix" []))
      | Some prefix =>
          if Is4In6 prefix.(prefix_addr) then Err (Errorf "rule %d uses an IPv4-mapped IPv6 CIDR" [AInt index])
          else
            let prefix := Masked prefix in
            if forbiddenPrefix prefix
            then Err (Errorf "rule %d targets a reserved loopback, link-local, multicast, unspecified, or metadata range" [AInt index])
            else if negb (bool_decide (rule.(cidr_Protocol) = EGRESS_PROTOCOL_TCP))
                    && negb (bool_decide (rule.(cidr_Protocol) = EGRESS_PROTOCOL_UDP))
            then Err (Errorf "rule %d protocol must be TCP or UDP" [AInt index])
            else if (length rule.(cidr_Ports) =? 0)%nat
            then Err (Errorf "rule %d requires at least one port range" [AInt index])
            else Ok ((Prefix_String prefix, rule.(cidr_Protocol)), rule.(cidr_Ports))
      end
  end.

Fixpoint group_rules (index : Z) (l : list (option CIDREgressRule))
    (grouped : list (cidr_key * list (option PortRange))) : result (list (cidr_key * list (option PortRange))) :=
  match l with
  | [] => Ok grouped
  | rule :: rest =>
      kp ← cidr_rule_key index rule;
      group_rules (index + 1) rest (group_add kp.1 kp.2 grouped)
  end.

Definition rule_of_group (out : list (option CIDREgressRule)) (g : cidr_key * list (option PortRange))
    : result (list (option CIDREgressRule)) :=
  ports ← wrap_err "CIDR %s: %w" [AStr g.1.1] (normalizePorts g.2);
  Ok (out ++ [Some (mkCIDRRule g.1.1 g.1.2 (map Some ports))]).

Definition group_less (a b : cidr_key * list (option PortRange)) : bool := cidr_key_less a.1 b.1.

Definition normalizeCIDRs (l : list (option CIDREgressRule)) : result (list (option CIDREgressRule)) :=
  grouped ← group_rules 0 l [];
  foldM rule_of_group [] (sort_slice group_less grouped).

Section idna.
Context `{GoRuntime}.
(** [idna.Lookup.ToASCII]. *)
Context (ToASCII : string -> result string).

Definition contains_any (set s : string) : bool := negb (all_bytes (fun c => negb (one_of set c)) s).

Definition normalizeDomain (raw : string) : result string :=
  let value := TrimSuffix (TrimSpace raw) "." in
  if negb (ValidString value) then Err (Errorf "domain is not valid UTF-8" [])
  else
    let wildcard := HasPrefix value "*." in
    let value := if wildcard then TrimPrefix value "*." else value in
    if String.eqb value "" || contains_any "*" value || contains_any "/:@?#[]%" value
    then Err (Errorf "%q is not a DNS name or leading wildcard" [AStr raw])
    else
      ascii ← wrap_err "%q is not a valid IDNA name: %w" [AStr raw] (ToASCII value);
      let ascii := ToLower ascii in
      if 253 <? str_len ascii
      then Err (Errorf "%q exceeds 253 bytes after IDNA normalization" [AStr raw])
      else if existsb (fun label => String.eqb label "" || (63 <? str_len label)) (Split "." ascii)
      then Err (Errorf "%q contains an empty label or a label exceeding 63 bytes" [AStr raw])
      else if non_nil (ParseAddr ascii)
      then Err (Errorf "%q is an IP literal, not a domain" [AStr raw])
      else Ok (if wildcard then "*." +:+ ascii else ascii).

Fixpoint domain_set (index : Z) (l : list string) (seen : gset string) : result (gset string) :=
  match l with
  | [] => Ok seen
  | raw :: rest =>
      domain ← wrap_err "rule %d: %w" [AInt index] (normalizeDomain raw);
      domain_set (index + 1) rest ({[domain]} ∪ seen)
  end.
Definition normalizeDomains (l : list string) : result (list string) :=
  seen ← domain_set 0 l ∅;
  Ok (sort_slice string_lt (elements seen)).

Definition normalizeStrict (s : option StrictEgressPolicy) : result StrictEgressPolicy :=
  match s with
  | None => Err (Errorf "policy body is required" [])
  | Some s =>
      domains ← wrap_err "allowed_domains: %w" [] (normalizeDomains s.(strict_AllowedDomains));
      cidrs ← wrap_err "allowed_cidrs: %w" [] (normalizeCIDRs s.(strict_AllowedCidrs));
      if MaxRules <? Z.of_nat (length domains) + Z.of_nat (length cidrs)
      then Err (Errorf "normalized rule count exceeds %d" [AInt MaxRules])
      else Ok (mkStrict domains cidrs)
  end.

Definition normalizeDNSDeny (d : option DnsDenyPolicy) : result DnsDenyPolicy :=
  match d with
  | None => Err (Errorf "policy body is required" [])
  | Some d =>
      domains ← wrap_err "denied_domains: %w" [] (normalizeDomains d.(dd_DeniedDomains));
      if (length domains =? 0)%nat then Err (Errorf "at least one denied domain is required" [])
      else if MaxRules <? Z.of_nat (length domains)
      then Err (Errorf "normalized rule count exceeds %d" [AInt MaxRules])
      else Ok (mkDnsDeny domains)
  end.

Definition known_mode (m : NetworkMode) : bool :=
  match m with NETWORK_MODE_UNRECOGNIZED _ => false | _ => true end.

Definition strict_empty (s : StrictEgressPolicy) : bool :=
  (length s.(strict_AllowedDomains) =? 0)%nat && (length s.(strict_AllowedCidrs) =? 0)%nat.

Definition Normalize (net : option NetworkSpec) : result (option NetworkSpec) :=
  match net with
  | None => Ok None
  | Some net =>
      let mode := net.(net_Mode) in
      let policy := net.(net_EgressPolicy) in
      if negb (known_mode mode)
      then Err (Errorf "unknown network mode %d"
                  [AInt (match mode with NETWORK_MODE_UNRECOGNIZED n => n | _ => 0 end)])
      else if bool_decide (mode = NETWORK_MODE_HOST) && non_nil policy
      then Err (Errorf "host network mode conflicts with an egress policy" [])
      else if bool_decide (mode = NETWORK_MODE_ISOLATED)
      then
        if non_nil policy && negb (match GetStrict policy with Some s => strict_empty s | None => false end)
        then Err (Errorf "isolated network mode permits only strict deny-all" [])
        else Ok (Some (mkNetworkSpec mode None))
      else
        match policy with
        | None => Ok (Some (mkNetworkSpec mode None))
        | Some (PolicyStrict s) =>
            strict ← wrap_err "strict policy: %w" [] (normalizeStrict s);
            if strict_empty strict then Ok (Some (mkNetworkSpec NETWORK_MODE_ISOLATED None))
            else Ok (Some (mkNetworkSpec mode (Some (PolicyStrict (Some strict)))))
        | Some (PolicyDnsDeny d) =>
            dnsDeny ← wrap_err "dns deny policy: %w" [] (normalizeDNSDeny d);
            Ok (Some (mkNetworkSpec mode (Some (PolicyDnsDeny (Some dnsDeny)))))
        | Some PolicyUnset => Err (Errorf "egress policy kind is required" [])
        end
  end.

Definition Validate (net : option NetworkSpec) : result () := _ ← Normalize net; Ok ().
End idna.

Definition Mode (net : option NetworkSpec) : EnforcementMode :=
  match net with
  | None => EnforcementNone
  | Some n =>
      if bool_decide (n.(net_Mode) = NETWORK_MODE_ISOLATED) || non_nil (GetStrict n.(net_EgressPolicy))
      then EnforcementStrict
      else if non_nil (GetDnsDeny n.(net_EgressPolicy)) then EnforcementDNSDeny
      else EnforcementNone
  end.

Definition StrictNeedsEgressd (net : option NetworkSpec) : bool :=
  match GetStrict (deref net).(net_EgressPolicy) with
  | None => false
  | Some s => negb (length s.(strict_AllowedDomains) =? 0)%nat || negb (length s.(strict_AllowedCidrs) =? 0)%nat
  end.

Definition IsStrictDenyAll (net : option NetworkSpec) : bool :=
  match net with
  | None => false
  | Some n =>
      if bool_decide (n.(net_Mode) = NETWORK_MODE_ISOLATED) then true
      else match GetStrict n.(net_EgressPolicy) with None => false | Some s => strict_empty s end
  end.

Definition RequiresDNSUpstreams (policy : option NetworkEgressPolicy) : bool :=
  match policy with
  | None => false
  | Some _ =>
      if non_nil (GetDnsDeny policy) then true
      else match GetStrict policy with None => false | Some s => (0 <? length s.(strict_AllowedDomains))%nat end
  end.
End networkpolicy.
