(* ===== verification/NetworkPolicyFacts.v ===== *)
(** * Facts about network policies

    The canonical form of port ranges, and what a normalized policy can
    contain. *)
From S2P Require Import Prelude Proto Resource Capability NetworkPolicy.
Import networkpolicy.

(** ** Port ranges *)
Definition in_port (r : PortRange) (p : Z) : Prop := r.(pr_Start) <= p <= r.(pr_End).
Definition covers (l : list PortRange) (p : Z) : Prop := exists r, r ∈ l /\ in_port r p.
(** Neither overlapping nor adjacent, in order. *)
Definition gap (a b : PortRange) : Prop := a.(pr_End) + 1 < b.(pr_Start).
Definition port_valid (r : PortRange) : Prop := 1 <= r.(pr_Start) <= r.(pr_End) /\ r.(pr_End) <= 65535.
Definition canonical_ports (l : list PortRange) : Prop :=
  StronglySorted gap l /\ Forall port_valid l.

Lemma covers_cons r l p : covers (r :: l) p <-> in_port r p \/ covers l p.
Proof. unfold covers. setoid_rewrite elem_of_cons. naive_solver. Qed.
Lemma covers_nil p : covers [] p <-> False.
Proof. unfold covers. set_solver. Qed.

Lemma port_less_strict_weak : strict_weak port_less.
Proof.
  split; unfold port_less.
  - intros a b. destruct (Z.eqb_spec a.(pr_Start) b.(pr_Start)), (Z.eqb_spec b.(pr_Start) a.(pr_Start)); lia.
  - intros a b c. destruct (Z.eqb_spec a.(pr_Start) b.(pr_Start)), (Z.eqb_spec b.(pr_Start) c.(pr_Start)),
      (Z.eqb_spec a.(pr_Start) c.(pr_Start)); lia.
Qed.

Lemma merge_ports_spec l : forall last,
  port_valid last -> Forall port_valid l ->
  StronglySorted (not_after port_less) (last :: l) ->
  canonical_ports (merge_ports last l) /\
  (forall p, covers (merge_ports last l) p <-> covers (last :: l) p) /\
  exists r rest, merge_ports last l = r :: rest /\ r.(pr_Start) = last.(pr_Start).
Proof.
  induction l as [|c l IH]; intros last Hl Hv Hs; cbn [merge_ports].
  { split; [split; repeat constructor; apply Hl|]. split; [done|]. by exists last, []. }
  inversion Hv as [|? ? Hc Hv']; subst. inversion Hs as [|? ? Hs' Hall]; subst.
  inversion Hall as [|? ? Hlc Hall']; subst. inversion Hs' as [|? ? Hs'' Hcall]; subst.
  unfold not_after, port_less in Hlc.
  assert (Hle : last.(pr_Start) <= c.(pr_Start)).
  { destruct (Z.eqb_spec c.(pr_Start) last.(pr_Start)); lia. }
  destruct (Z.ltb_spec (last.(pr_End) + 1) c.(pr_Start)) as [Hgap|Hnogap].
  - destruct (IH c Hc Hv' Hs') as ([Hsorted Hvalid] & Hcov & r & rest & Heq & Hr).
    split; [split|].
    + rewrite Heq in *. constructor; [done|]. inversion Hsorted as [|? ? Hrest Hrall]; subst.
      constructor; [unfold gap; lia|]. eapply Forall_impl; [exact Hrall|].
      intros x Hx. unfold gap in *. inversion Hvalid as [|? ? Hrv _]; subst. destruct Hrv. lia.
    + by constructor.
    + split; [|by exists last, (merge_ports c l)]. intros p. by rewrite !covers_cons, Hcov, covers_cons.
  - assert (Hext : forall e, e = Z.max last.(pr_End) c.(pr_End) ->
      canonical_ports (merge_ports (mkPortRange last.(pr_Start) e) l) /\
      (forall p, covers (merge_ports (mkPortRange last.(pr_Start) e) l) p <-> covers (last :: c :: l) p) /\
      exists r rest, merge_ports (mkPortRange last.(pr_Start) e) l = r :: rest /\ r.(pr_Start) = last.(pr_Start)).
    { intros e He. destruct Hl as [Hl1 Hl2], Hc as [Hc1 Hc2].
      destruct (IH (mkPortRange last.(pr_Start) e)) as (Hcan & Hcov & Hhd); [split; simpl; lia|done| |].
      - constructor; [done|]. apply Forall_forall. intros x Hx.
        rewrite Forall_forall in Hcall. specialize (Hcall x Hx).
        unfold not_after, port_less in *; cbn [pr_Start pr_End].
        destruct (Z.eqb_spec x.(pr_Start) c.(pr_Start)), (Z.eqb_spec x.(pr_Start) last.(pr_Start)),
          (Z.eqb_spec c.(pr_Start) last.(pr_Start)); lia.
      - split; [done|]. split; [|done]. intros p. rewrite Hcov, !covers_cons. unfold in_port; simpl.
        assert (last.(pr_Start) <= p <= e <->
          last.(pr_Start) <= p <= last.(pr_End) \/ c.(pr_Start) <= p <= c.(pr_End)) by lia.
        intuition. }
    destruct (Z.ltb_spec last.(pr_End) c.(pr_End)); [apply Hext; lia|].
    specialize (Hext last.(pr_End)). replace (mkPortRange last.(pr_Start) last.(pr_End)) with last in Hext
      by (by destruct last). apply Hext. lia.
Qed.

(** A canonical list is determined by the ports it covers. *)
Lemma canonical_head a l p :
  canonical_ports (a :: l) -> covers (a :: l) p -> a.(pr_Start) <= p.
Proof.
  intros [Hs Hv] Hc. inversion Hs as [|? ? _ Hall]; subst. inversion Hv as [|? ? Ha Hv']; subst.
  apply covers_cons in Hc as [Hc|(r & Hr & Hp)]; [apply Hc|].
  rewrite Forall_forall in Hall. specialize (Hall r Hr). unfold gap, port_valid, in_port in *. lia.
Qed.

Lemma canonical_tail a l : canonical_ports (a :: l) -> canonical_ports l.
Proof. intros [Hs Hv]. inversion Hs; inversion Hv; subst. by split. Qed.

(** Past the end of the first range, the next port is not covered. *)
Lemma canonical_gap a l : canonical_ports (a :: l) -> ~ covers (a :: l) (a.(pr_End) + 1).
Proof.
  intros [Hs Hv] Hc. inversion Hs as [|? ? _ Hall]; subst. inversion Hv as [|? ? Ha Hv']; subst.
  apply covers_cons in Hc as [Hc|(r & Hr & Hp)]; [unfold in_port in Hc; lia|].
  rewrite Forall_forall in Hall. specialize (Hall r Hr). unfold gap, in_port in *. lia.
Qed.

Lemma canonical_unique a b :
  canonical_ports a -> canonical_ports b -> (forall p, covers a p <-> covers b p) -> a = b.
Proof.
  revert b. induction a as [|x a IH]; intros [|y b] Ha Hb Hc; [done|..].
  - exfalso. apply (covers_nil y.(pr_Start)), Hc, covers_cons. left.
    destruct Hb as [_ Hv]. inversion Hv as [|? ? Hy _]; subst. unfold port_valid, in_port in *. lia.
  - exfalso. apply (covers_nil x.(pr_Start)), Hc, covers_cons. left.
    destruct Ha as [_ Hv]. inversion Hv as [|? ? Hx _]; subst. unfold port_valid, in_port in *. lia.
  - assert (Hx : port_valid x) by (destruct Ha as [_ Hv]; by inversion Hv).
    assert (Hy : port_valid y) by (destruct Hb as [_ Hv]; by inversion Hv).
    assert (Hin : forall (r : PortRange) l p, in_port r p -> covers (r :: l) p) by (intros; apply covers_cons; by left).
    assert (Hstart : x.(pr_Start) = y.(pr_Start)).
    { assert (y.(pr_Start) <= x.(pr_Start)).
      { apply (canonical_head y b); [done|]. apply Hc, Hin. unfold in_port, port_valid in *. lia. }
      assert (x.(pr_Start) <= y.(pr_Start)).
      { apply (canonical_head x a); [done|]. apply Hc, Hin. unfold in_port, port_valid in *. lia. }
      lia. }
    assert (Hend : x.(pr_End) = y.(pr_End)).
    { pose proof (canonical_gap x a Ha) as Gx. pose proof (canonical_gap y b Hb) as Gy.
      destruct (Z.lt_trichotomy x.(pr_End) y.(pr_End)) as [Hlt|[?|Hlt]]; [exfalso|done|exfalso].
      - apply Gx, Hc, Hin. unfold in_port, port_valid in *. lia.
      - apply Gy, Hc, Hin. unfold in_port, port_valid in *. lia. }
    assert (x = y) as -> by (destruct x, y; simpl in *; congruence). f_equal.
    apply IH; [by eapply canonical_tail..|]. intros p.
    assert (Hout : forall l, canonical_ports (y :: l) -> covers l p <-> covers (y :: l) p /\ ~ in_port y p).
    { intros l Hl. rewrite covers_cons. split; [|naive_solver]. intros Hp. split; [by right|].
      destruct Hp as (r & Hr & Hp). destruct Hl as [Hs _]. inversion Hs as [|? ? _ Hall]; subst.
      rewrite Forall_forall in Hall. specialize (Hall r Hr). unfold gap, in_port in *. lia. }
    rewrite (Hout a Ha), (Hout b Hb), Hc. done.
Qed.

Lemma copy_ports_ok l i out :
  (forall r, Some r ∈ l -> 0 <= r.(pr_Start) /\ 0 <= r.(pr_End)) ->
  copy_ports i l = Ok out -> l = map Some out /\ Forall port_valid out.
Proof.
  revert i out. induction l as [|[r|] l IH]; intros i out Hu; cbn [copy_ports]; [by intros [= <-]|..]; [|discriminate].
  destruct (_ || _) eqn:Hbad; [discriminate|]. intros Ho. apply bind_Ok in Ho as (o & Ho & [= <-]).
  destruct (IH _ _ (fun x Hx => Hu x (proj2 (elem_of_cons _ _ _) (or_intror Hx))) Ho) as [-> Hv].
  destruct (Hu r) as [? ?]; [apply elem_of_cons; by left|]. split; [done|]. constructor; [|done]. unfold port_valid. b2p.
  repeat match goal with H : (_ =? _) = false |- _ => apply Z.eqb_neq in H end. lia.
Qed.

(** The ports the request names. *)
Definition requested (l : list (option PortRange)) (p : Z) : Prop :=
  exists r, Some r ∈ l /\ in_port r p.
(** The uint32 fields of a decoded range. *)
Definition ports_wf (l : list (option PortRange)) : Prop :=
  forall r, Some r ∈ l -> 0 <= r.(pr_Start) /\ 0 <= r.(pr_End).

Lemma normalizePorts_spec l out :
  ports_wf l -> normalizePorts l = Ok out ->
  canonical_ports out /\ (forall p, covers out p <-> requested l p).
Proof.
  intros Hwf. unfold normalizePorts. intros Hn. apply bind_Ok in Hn as (c & Hc & [= <-]).
  destruct (copy_ports_ok _ _ _ Hwf Hc) as [-> Hv].
  assert (Hreq : forall p, covers (sort_slice port_less c) p <-> requested (map Some c) p).
  { intros p. unfold covers, requested. setoid_rewrite elem_of_sort_slice.
    setoid_rewrite list_elem_of_fmap. naive_solver. }
  setoid_rewrite <- Hreq.
  pose proof (sort_slice_sorted port_less port_less_strict_weak c) as Hs.
  assert (Hv' : Forall port_valid (sort_slice port_less c)) by (by rewrite sort_slice_perm).
  destruct (sort_slice port_less c) as [|x l']; cbn [merge_sorted].
  - split; [split; constructor|done].
  - inversion Hv'; subst. destruct (merge_ports_spec l' x) as (? & ? & _); done.
Qed.

(** C40: normalizing port ranges, given with unsigned fields as the message has
    them, neither adds nor drops a port, the result has
    no overlapping or adjacent ranges, and it is canonical: two rule sets that
    open the same ports normalize to the same list, whatever their order,
    overlap or duplication. *)
Theorem normalizePorts_canonical l l' out out' :
  ports_wf l -> ports_wf l' -> normalizePorts l = Ok out -> normalizePorts l' = Ok out' ->
  canonical_ports out /\ (forall p, covers out p <-> requested l p) /\
  ((forall p, requested l p <-> requested l' p) <-> out = out').
Proof.
  intros Hw Hw' Hl Hl'. destruct (normalizePorts_spec _ _ Hw Hl) as [Hc Hcov].
  destruct (normalizePorts_spec _ _ Hw' Hl') as [Hc' Hcov']. do 2 (split; [done|]). split.
  - intros Heq. apply canonical_unique; [done..|]. intros p. by rewrite Hcov, Hcov', Heq.
  - intros -> p. by rewrite <- Hcov, <- Hcov'.
Qed.

Definition ex_split : list PortRange := [mkPortRange 85 90; mkPortRange 443 443; mkPortRange 80 84].
Definition ex_nested : list PortRange := [mkPortRange 80 90; mkPortRange 82 83; mkPortRange 443 443].
Lemma ex_ports_wf l : forallb (fun r => (0 <=? pr_Start r) && (0 <=? pr_End r)) l = true -> ports_wf (map Some l).
Proof.
  rewrite forallb_forall. intros Hl r Hr. apply list_elem_of_fmap in Hr as (x & [= ->] & Hx%list_elem_of_In).
  specialize (Hl _ Hx). b2p. lia.
Qed.
Lemma ex_same_ports p : requested (map Some ex_split) p <-> requested (map Some ex_nested) p.
Proof.
  assert (Hq : forall l, requested (map Some l) p <-> covers l p).
  { intros l. unfold requested, covers. setoid_rewrite list_elem_of_fmap. naive_solver. }
  rewrite !Hq. unfold ex_split, ex_nested. rewrite !covers_cons, !covers_nil. unfold in_port; simpl. lia.
Qed.
Lemma normalizePorts_canonical_witness :
  exists out out', normalizePorts (map Some ex_split) = Ok out /\ normalizePorts (map Some ex_nested) = Ok out' /\
    canonical_ports out /\ out = out'.
Proof.
  destruct (normalizePorts (map Some ex_split)) as [out|e] eqn:E; [|vm_compute in E; discriminate E].
  destruct (normalizePorts (map Some ex_nested)) as [out'|e] eqn:E'; [|vm_compute in E'; discriminate E'].
  destruct (normalizePorts_canonical (map Some ex_split) (map Some ex_nested) out out'
    (ex_ports_wf ex_split eq_refl) (ex_ports_wf ex_nested eq_refl) E E') as (Hc & _ & Heq).
  exists out, out'. split; [reflexivity|]. split; [reflexivity|]. split; [exact Hc|]. apply Heq, ex_same_ports.
Defined.

(** ** Normalized policies *)

(** *** Reserved ranges, as intervals of addresses: the unspecified address, the
    metadata addresses, loopback, link-local and multicast. *)
Definition ip4 (a b c d : Z) : Z := ((a * 256 + b) * 256 + c) * 256 + d.
Definition reserved : list (bool * Z * Z) :=
  [(false, ip4 0 0 0 0, ip4 0 0 0 0); (false, ip4 100 100 100 200, ip4 100 100 100 200);
   (false, ip4 127 0 0 0, ip4 127 255 255 255); (false, ip4 169 254 0 0, ip4 169 254 255 255);
   (false, ip4 192 0 0 192, ip4 192 0 0 192); (false, ip4 224 0 0 0, ip4 239 255 255 255);
   (true, 0, 0); (true, 1, 1);
   (true, 65152 * 2 ^ 112, 65216 * 2 ^ 112 - 1); (true, 65280 * 2 ^ 112, 2 ^ 128 - 1)].
(** The first and the last address of a prefix. *)
Definition first_addr (p : Prefix) : Z :=
  p.(prefix_addr).(addr_value) / 2 ^ (BitLen p.(prefix_addr) - p.(prefix_bits))
  * 2 ^ (BitLen p.(prefix_addr) - p.(prefix_bits)).
Definition last_addr (p : Prefix) : Z := first_addr p + 2 ^ (BitLen p.(prefix_addr) - p.(prefix_bits)) - 1.
Definition prefix_wf (p : Prefix) : Prop := 0 <= p.(prefix_bits) <= BitLen p.(prefix_addr).
(** No part of the internet that lies in a reserved range as a whole. *)
Definition unreserved (p : Prefix) : Prop :=
  forall six lo hi, (six, lo, hi) ∈ reserved -> p.(prefix_addr).(addr_6) = six ->
    ~ (lo <= first_addr p /\ last_addr p <= hi).

Lemma reserved_forbidden :
  reserved = map (fun f => (f.(prefix_addr).(addr_6), first_addr f, last_addr f)) forbiddenCIDRs.
Proof. vm_compute. reflexivity. Qed.
Lemma forbidden_wf f : f ∈ forbiddenCIDRs -> prefix_wf f.
Proof. revert f. apply Forall_forall. repeat constructor; vm_compute; discriminate. Qed.
Lemma Masked_addr p : prefix_wf p -> (Masked p).(prefix_addr).(addr_value) = first_addr p.
Proof.
  intros Hw. unfold Masked, first_addr, mask_low. simpl. rewrite Z.shiftl_mul_pow2, Z.shiftr_div_pow2 by (unfold prefix_wf in Hw; lia).
  done.
Qed.
(** An interval of addresses of one prefix within that of another: the latter is
    the shorter prefix, and contains the former's addresses. *)
Lemma contained_bits k m F C :
  0 <= k -> 0 <= m -> F * 2 ^ k <= C -> C + 2 ^ m - 1 <= F * 2 ^ k + 2 ^ k - 1 -> m <= k /\ C / 2 ^ k = F.
Proof.
  intros Hk Hm Hlo Hhi. pose proof (Z.pow_pos_nonneg 2 k ltac:(lia) Hk). pose proof (Z.pow_pos_nonneg 2 m ltac:(lia) Hm).
  split.
  - apply Z.nlt_ge. intros Hlt. pose proof (Z.pow_lt_mono_r 2 k m ltac:(lia) Hm Hlt). lia.
  - symmetry. apply (Z.div_unique C (2 ^ k) F (C - F * 2 ^ k)); [left; lia|lia].
Qed.
Lemma forbiddenPrefix_unreserved p : prefix_wf p -> forbiddenPrefix (Masked p) = false -> unreserved p.
Proof.
  intros Hw Hf six lo hi Hin H6 [Hlo Hhi]. rewrite reserved_forbidden in Hin.
  apply list_elem_of_fmap in Hin as (f & [= -> -> ->] & Hin). pose proof (forbidden_wf _ Hin) as Hfw.
  assert (Hbl : BitLen (prefix_addr f) = BitLen (prefix_addr p)) by (unfold BitLen; by rewrite H6).
  unfold last_addr, prefix_wf in *. rewrite Hbl in *. set (L := BitLen (prefix_addr p)) in *.
  assert (Ef : first_addr f = addr_value (prefix_addr f) / 2 ^ (L - prefix_bits f) * 2 ^ (L - prefix_bits f))
    by (unfold first_addr; by rewrite Hbl).
  rewrite Ef in Hlo, Hhi. apply contained_bits in Hhi as [Hb Hq]; [|lia..|done].
  apply not_true_iff_false in Hf. apply Hf, existsb_exists. exists f. split; [by apply list_elem_of_In|].
  assert (HL : BitLen (prefix_addr (Masked p)) = L) by done.
  unfold Contains. rewrite HL, Hbl, Z.eqb_refl, (Masked_addr _ Hw), !Z.shiftr_div_pow2, Hq, Z.eqb_refl, andb_true_r by lia.
  simpl. rewrite H6, eqb_reflx, andb_true_r. apply Z.leb_le. lia.
Qed.
Lemma ParsePrefix_wf s p : ParsePrefix s = Some p -> prefix_wf p.
Proof.
  unfold ParsePrefix. destruct (last_slash s) as [[addr bits]|]; [|done]. destruct (ParseAddr addr) as [[ip [|]]|]; [done| |done].
  destruct (parse_bits bits) as [b|]; [|done]. destruct (_ || _) eqn:E; [done|]. intros [= <-].
  unfold prefix_wf. simpl. apply orb_false_iff in E as [E1%Z.ltb_ge E2%Z.ltb_ge]. done.
Qed.

(** *** The rules of a policy, by address range and protocol *)
(** What the request asks to open: a rule names a range by any of its addresses. *)
Definition asked (l : list (option CIDREgressRule)) (key : cidr_key) (p : Z) : Prop :=
  exists rule prefix, Some rule ∈ l /\ ParsePrefix (TrimSpace rule.(cidr_Cidr)) = Some prefix /\
    key = (Prefix_String (Masked prefix), rule.(cidr_Protocol)) /\ requested rule.(cidr_Ports) p.
(** What a policy opens. *)
Definition rule_key (rule : option CIDREgressRule) : option cidr_key :=
  (fun r => (r.(cidr_Cidr), r.(cidr_Protocol))) <$> rule.
Definition opened (l : list (option CIDREgressRule)) (key : cidr_key) (p : Z) : Prop :=
  exists rule, Some rule ∈ l /\ rule_key (Some rule) = Some key /\ requested rule.(cidr_Ports) p.
(** Strictly increasing: by the text of the range, then by protocol. *)
Definition key_lt (a b : cidr_key) : Prop :=
  string_lt a.1 b.1 = true \/ a.1 = b.1 /\ protocol_number a.2 < protocol_number b.2.
(** A canonical CIDR rule. *)
Definition cidr_ok (rule : option CIDREgressRule) : Prop :=
  exists prefix protocol ports,
    rule = Some (mkCIDRRule (Prefix_String (Masked prefix)) protocol (map Some ports)) /\
    prefix_wf prefix /\ unreserved prefix /\ Is4In6 prefix.(prefix_addr) = false /\
    (protocol = EGRESS_PROTOCOL_TCP \/ protocol = EGRESS_PROTOCOL_UDP) /\ canonical_ports ports.
Record cidrs_ok (l : list (option CIDREgressRule)) : Prop := {
  co_rules : Forall cidr_ok l;
  co_sorted : exists keys, map rule_key l = map Some keys /\ StronglySorted key_lt keys }.

(** What a group of CIDR rules keeps: a masked prefix outside the forbidden
    ranges, TCP or UDP, and ports taken from the request. *)
Definition group_ok (g : cidr_key * list (option PortRange)) : Prop :=
  (exists prefix, g.1.1 = Prefix_String (Masked prefix) /\ prefix_wf prefix /\ unreserved prefix /\
                  Is4In6 prefix.(prefix_addr) = false) /\
  (g.1.2 = EGRESS_PROTOCOL_TCP \/ g.1.2 = EGRESS_PROTOCOL_UDP) /\ ports_wf g.2.
Definition grouped_ports (grouped : list (cidr_key * list (option PortRange))) (key : cidr_key) (p : Z) : Prop :=
  exists ports, (key, ports) ∈ grouped /\ requested ports p.

Lemma ports_wf_app a b : ports_wf a -> ports_wf b -> ports_wf (a ++ b).
Proof. intros Ha Hb r [Hr|Hr]%elem_of_app; auto. Qed.
Lemma requested_app a b p : requested (a ++ b) p <-> requested a p \/ requested b p.
Proof. unfold requested. setoid_rewrite elem_of_app. naive_solver. Qed.
Lemma grouped_cons k ps l key p :
  grouped_ports ((k, ps) :: l) key p <-> (k = key /\ requested ps p) \/ grouped_ports l key p.
Proof. unfold grouped_ports. setoid_rewrite elem_of_cons. naive_solver. Qed.

Lemma cidr_rule_key_ok i rule g :
  (forall r, rule = Some r -> ports_wf r.(cidr_Ports)) -> cidr_rule_key i rule = Ok g ->
  group_ok g /\ forall key p, asked [rule] key p <-> key = g.1 /\ requested g.2 p.
Proof.
  unfold cidr_rule_key. destruct rule as [r|]; [|discriminate]. intros Hw.
  destruct (ParsePrefix _) as [prefix|] eqn:Hp; [|discriminate].
  destruct (Is4In6 (prefix_addr prefix)) eqn:H6; [discriminate|].
  destruct (forbiddenPrefix (Masked prefix)) eqn:Hf; [discriminate|].
  destruct (_ && _) eqn:Hpr; [discriminate|]. case_match; [discriminate|]. intros [= <-].
  pose proof (ParsePrefix_wf _ _ Hp) as Hpw. split.
  - split; [exists prefix; split; [done|]; split; [done|]; split; [by apply forbiddenPrefix_unreserved|done]|].
    split; [|by apply Hw]. simpl. b2p. destruct Hpr as [Hpr|Hpr]; b2p; auto.
  - intros key p. unfold asked. setoid_rewrite list_elem_of_singleton. naive_solver.
Qed.

Lemma group_add_ports key ports grouped k p :
  grouped_ports (group_add key ports grouped) k p <-> grouped_ports grouped k p \/ (k = key /\ requested ports p).
Proof.
  induction grouped as [|[k0 ps] l IH]; cbn [group_add].
  - rewrite grouped_cons. unfold grouped_ports. set_solver.
  - case_bool_decide as Hk; rewrite !grouped_cons; [rewrite requested_app|rewrite IH]; naive_solver.
Qed.
Lemma group_add_keys key ports grouped k : k ∈ (group_add key ports grouped).*1 <-> k = key \/ k ∈ grouped.*1.
Proof.
  induction grouped as [|[k0 ps] l IH]; cbn [group_add]; [set_solver|].
  case_bool_decide as Hk; csimpl; rewrite !elem_of_cons; [naive_solver|]. rewrite IH. naive_solver.
Qed.
Lemma group_add_NoDup key ports grouped : NoDup grouped.*1 -> NoDup (group_add key ports grouped).*1.
Proof.
  induction grouped as [|[k0 ps] l IH]; cbn [group_add]; [intros; apply NoDup_singleton|].
  case_bool_decide as Hk; csimpl; [done|]. rewrite !NoDup_cons, group_add_keys. intros [? ?]. split; [|auto].
  intros [?|?]; [congruence|done].
Qed.
Lemma group_add_ok key ports grouped :
  group_ok (key, ports) -> Forall group_ok grouped -> Forall group_ok (group_add key ports grouped).
Proof.
  intros Hk. induction 1 as [|[k ps] l Hg Hl IH]; cbn [group_add]; [by apply Forall_singleton|].
  case_bool_decide; (constructor; [|done]); [|done].
  destruct Hg as (? & ? & ?), Hk as (_ & _ & ?). split; [done|]. split; [done|]. by apply ports_wf_app.
Qed.

Lemma group_rules_ok l : forall i grouped out,
  (forall r, Some r ∈ l -> ports_wf r.(cidr_Ports)) -> Forall group_ok grouped -> NoDup grouped.*1 ->
  group_rules i l grouped = Ok out ->
  Forall group_ok out /\ NoDup out.*1 /\
  forall key p, grouped_ports out key p <-> grouped_ports grouped key p \/ asked l key p.
Proof.
  induction l as [|x l IH]; intros i grouped out Hw Hg Hnd; cbn [group_rules].
  { intros [= <-]. do 2 (split; [done|]). intros key p. unfold asked. set_solver. }
  intros Ho. apply bind_Ok in Ho as ([k ps] & Hk & Ho).
  assert (Hwl : forall r, Some r ∈ l -> ports_wf r.(cidr_Ports)) by (intros r Hr; apply Hw; by right).
  apply cidr_rule_key_ok in Hk as [Hgk Hask]; [|intros r ->; apply Hw; left].
  apply IH in Ho as (H1 & H2 & H3); [|done|by apply group_add_ok|by apply group_add_NoDup].
  do 2 (split; [done|]). intros key p. rewrite H3. simpl. rewrite group_add_ports, <- Hask.
  assert (Hcons : asked (x :: l) key p <-> asked [x] key p \/ asked l key p).
  { unfold asked. setoid_rewrite elem_of_cons. setoid_rewrite elem_of_nil. naive_solver. }
  rewrite Hcons. tauto.
Qed.

Lemma opened_app a b key p : opened (a ++ b) key p <-> opened a key p \/ opened b key p.
Proof. unfold opened. setoid_rewrite elem_of_app. naive_solver. Qed.
Lemma covers_requested ports p : requested (map Some ports) p <-> covers ports p.
Proof. unfold requested, covers. setoid_rewrite list_elem_of_fmap. naive_solver. Qed.
Lemma rule_of_group_ok acc g out :
  group_ok g -> rule_of_group acc g = Ok out ->
  exists rule, out = acc ++ [rule] /\ cidr_ok rule /\ rule_key rule = Some g.1 /\
    forall key p, opened [rule] key p <-> key = g.1 /\ requested g.2 p.
Proof.
  intros ((prefix & Hk & Hpw & Hf & H6) & Hproto & Hwf) Ho. unfold rule_of_group in Ho.
  apply bind_Ok in Ho as (ports & Hp & [= <-]).
  destruct (normalizePorts g.2) as [ports'|] eqn:En; [|discriminate Hp]. injection Hp as ->.
  destruct (normalizePorts_spec _ _ Hwf En) as [Hcan Hcov]. eexists. split; [done|]. split; [|split].
  - exists prefix, g.1.2, ports. rewrite Hk. done.
  - simpl. by destruct g.1.
  - intros key p. unfold opened. setoid_rewrite list_elem_of_singleton. rewrite <- Hcov, <- covers_requested. split.
    + intros (rule & [= ->] & [= <-] & Hr). split; [by destruct g.1|done].
    + intros [-> Hr]. eexists. split; [done|]. split; [simpl; by destruct g.1|done].
Qed.
Lemma rule_fold_ok l : forall acc out,
  Forall group_ok l -> foldM rule_of_group acc l = Ok out ->
  exists rules, out = acc ++ rules /\ Forall cidr_ok rules /\ map rule_key rules = map Some l.*1 /\
    forall key p, opened rules key p <-> grouped_ports l key p.
Proof.
  induction l as [|[k ps] l IH]; intros acc out Hl; cbn [foldM].
  { intros [= <-]. exists []. rewrite app_nil_r. do 3 (split; [done|]). unfold opened, grouped_ports. set_solver. }
  inversion Hl as [|? ? Hg Hl']; subst. intros Ho. apply bind_Ok in Ho as (acc' & Hg' & Ho).
  apply rule_of_group_ok in Hg' as (rule & -> & Hok & Hkey & Hop); [|done].
  apply IH in Ho as (rules & -> & Hoks & Hkeys & Hops); [|done].
  exists (rule :: rules). split; [by rewrite <- app_assoc|]. split; [by constructor|].
  split; [simpl; by rewrite Hkey, Hkeys|]. intros key p.
  change (rule :: rules) with ([rule] ++ rules). rewrite opened_app, Hop, Hops, grouped_cons. simpl. naive_solver.
Qed.

(** Groups with different keys, sorted, are strictly increasing. *)
Lemma string_lt_cases a b : string_lt a b = true \/ a = b \/ string_lt b a = true.
Proof.
  destruct (string_lt a b) eqn:E1; [by left|]. destruct (string_lt b a) eqn:E2; [by right; right|].
  right; left. by apply string_lt_connex.
Qed.
Lemma cidr_key_less_lt a b : cidr_key_less a b = true <-> key_lt a b.
Proof.
  unfold cidr_key_less, key_lt. destruct (String.eqb_spec a.1 b.1) as [E|Hn].
  - rewrite E, string_lt_irrefl, Z.ltb_lt. naive_solver.
  - naive_solver.
Qed.
Lemma key_lt_asym a b : key_lt a b -> ~ key_lt b a.
Proof.
  intros [H1|[E1 H1]] [H2|[E2 H2]]; [|rewrite E2, string_lt_irrefl in H1|rewrite E1, string_lt_irrefl in H2|lia]; try done.
  by rewrite (string_lt_asym _ _ H1) in H2.
Qed.
Lemma key_lt_split a b c : key_lt a c -> key_lt a b \/ key_lt b c.
Proof.
  intros Hac. destruct (string_lt_cases a.1 b.1) as [?|[E|Hba]]; [by left; left| |right; left].
  - destruct Hac as [Hac|[Ec Hac]]; [right; left; by rewrite <- E|].
    destruct (Z.lt_ge_cases (protocol_number a.2) (protocol_number b.2)); [left; by right|right; right].
    split; [congruence|lia].
  - destruct Hac as [Hac|[Ec _]]; [by eapply string_lt_trans|by rewrite <- Ec].
Qed.
Lemma group_less_strict_weak : strict_weak group_less.
Proof.
  assert (Hlt : forall a b, group_less a b = true <-> key_lt a.1 b.1) by (intros; apply cidr_key_less_lt).
  split.
  - intros a b Hab%Hlt. apply not_true_iff_false. intros Hba%Hlt. by eapply key_lt_asym.
  - intros a b c Hab Hbc. apply not_true_iff_false. intros Hac%Hlt.
    destruct (key_lt_split _ b.1 _ Hac) as [H%Hlt|H%Hlt]; congruence.
Qed.
Lemma sorted_groups l :
  Forall group_ok l -> NoDup l.*1 -> StronglySorted (not_after group_less) l -> StronglySorted key_lt l.*1.
Proof.
  intros Hok Hnd Hs. induction Hs as [|g l Hs IH Hall]; csimpl; [constructor|].
  csimpl in Hnd. apply NoDup_cons in Hnd as [Hni Hnd]. inversion Hok as [|? ? Hg Hok']; subst.
  constructor; [by apply IH|]. apply Forall_forall. intros k Hk. pose proof Hk as (g' & -> & Hg')%list_elem_of_fmap.
  rewrite Forall_forall in Hall, Hok'. specialize (Hall _ Hg'). destruct (Hok' _ Hg') as (_ & Hp' & _), Hg as (_ & Hp & _).
  assert (Hnlt : ~ key_lt g'.1 g.1) by (intros Hlt%cidr_key_less_lt; unfold not_after, group_less in Hall; congruence).
  destruct (string_lt_cases g.1.1 g'.1.1) as [?|[E|?]]; [by left| |by destruct Hnlt; left].
  assert (Hn : protocol_number g.1.2 <> protocol_number g'.1.2).
  { intros En. apply Hni. replace g.1 with g'.1; [done|]. destruct g.1 as [c x], g'.1 as [c' x']. simpl in *. subst c'.
    f_equal. destruct Hp as [-> | ->], Hp' as [-> | ->]; done. }
  right. split; [done|]. apply Z.nle_gt. intros Hle. apply Hnlt. right. split; [done|lia].
Qed.

Lemma normalizeCIDRs_ok l out :
  (forall r, Some r ∈ l -> ports_wf r.(cidr_Ports)) -> normalizeCIDRs l = Ok out ->
  cidrs_ok out /\ forall key p, opened out key p <-> asked l key p.
Proof.
  intros Hw. unfold normalizeCIDRs. intros Ho. apply bind_Ok in Ho as (grouped & Hg & Ho).
  apply group_rules_ok in Hg as (Hok & Hnd & Hask); [|done|constructor|constructor].
  apply rule_fold_ok in Ho as (rules & -> & Hrules & Hkeys & Hop); [|by rewrite sort_slice_perm]. simpl. split.
  - split; [done|]. eexists. split; [exact Hkeys|]. apply sorted_groups; [by rewrite sort_slice_perm| |].
    + by rewrite sort_slice_perm.
    + apply sort_slice_sorted, group_less_strict_weak.
  - intros key p. rewrite Hop. transitivity (grouped_ports grouped key p).
    + unfold grouped_ports. by setoid_rewrite elem_of_sort_slice.
    + rewrite Hask. unfold grouped_ports. set_solver.
Qed.

Section idna.
Context `{GoRuntime} (ToASCII : string -> result string).

Lemma normalizeDomains_sorted l out :
  normalizeDomains ToASCII l = Ok out -> StronglySorted (not_after string_lt) out /\ NoDup out.
Proof.
  unfold normalizeDomains. intros Ho. apply bind_Ok in Ho as (seen & _ & [= <-]).
  split; [apply sort_slice_sorted, string_lt_strict_weak|]. rewrite sort_slice_perm. apply NoDup_elements.
Qed.

(** A strict policy the node runtime may be given. *)
Definition strict_ok (s : StrictEgressPolicy) : Prop :=
  strict_empty s = false /\
  Z.of_nat (length s.(strict_AllowedDomains)) + Z.of_nat (length s.(strict_AllowedCidrs)) <= MaxRules /\
  NoDup s.(strict_AllowedDomains) /\ StronglySorted (not_after string_lt) s.(strict_AllowedDomains) /\
  cidrs_ok s.(strict_AllowedCidrs).

Definition spec_wf (n : NetworkSpec) : Prop :=
  forall s r, GetStrict n.(net_EgressPolicy) = Some s -> Some r ∈ s.(strict_AllowedCidrs) -> ports_wf r.(cidr_Ports).

Lemma normalizeStrict_ok s out :
  (forall r, Some r ∈ s.(strict_AllowedCidrs) -> ports_wf r.(cidr_Ports)) ->
  normalizeStrict ToASCII (Some s) = Ok out ->
  (strict_empty out = false -> strict_ok out) /\
  forall key p, opened out.(strict_AllowedCidrs) key p <-> asked s.(strict_AllowedCidrs) key p.
Proof.
  intros Hw. unfold normalizeStrict. intros Ho. apply bind_Ok in Ho as (domains & Hd & Ho).
  apply bind_Ok in Ho as (cidrs & Hc & Ho).
  destruct (normalizeDomains _ _) as [d|] eqn:Ed; [injection Hd as ->|discriminate Hd].
  destruct (normalizeCIDRs _) as [c|] eqn:Ec; [injection Hc as ->|discriminate Hc].
  case_match eqn:El; [discriminate|]. injection Ho as <-.
  destruct (normalizeCIDRs_ok _ _ Hw Ec) as [Hok Hop]. split; [|done]. intros He.
  destruct (normalizeDomains_sorted _ _ Ed). split; [done|]. split; [simpl; lia|]. done.
Qed.

(** C32: every accepted network specification, its port fields unsigned as the
    message has them, comes out in canonical form.  Host
    and isolated networks carry no egress policy, a strict policy that allows
    nothing has become the isolated mode (so deny-all has one representation and
    needs no policy record), and a remaining strict policy is non-empty and within
    the rule limit; its domains are sorted and without duplicates; its CIDR rules
    are strictly increasing by the text of the range and then by protocol, so that
    no range is listed twice for one protocol; none of its ranges lies inside a reserved range or is
    IPv4-mapped; each rule names TCP or UDP and sorted port ranges that neither
    overlap nor touch; and for every range and protocol it opens exactly the ports
    that the rules of the request ask for. *)
Theorem Normalize_canonical n out :
  spec_wf n -> Normalize ToASCII (Some n) = Ok (Some out) ->
  (out.(net_Mode) = NETWORK_MODE_HOST \/ out.(net_Mode) = NETWORK_MODE_ISOLATED -> out.(net_EgressPolicy) = None) /\
  (IsStrictDenyAll (Some n) = true -> out = mkNetworkSpec NETWORK_MODE_ISOLATED None) /\
  (forall s, out.(net_EgressPolicy) = Some (PolicyStrict s) ->
     exists s' s0, s = Some s' /\ strict_ok s' /\ GetStrict n.(net_EgressPolicy) = Some s0 /\
       forall key p, opened s'.(strict_AllowedCidrs) key p <-> asked s0.(strict_AllowedCidrs) key p) /\
  Mode (Some out) = (if IsStrictDenyAll (Some out) then EnforcementStrict else Mode (Some n)).
Proof.
  intros Hw. unfold Normalize. destruct n as [mode policy]; cbn [net_Mode net_EgressPolicy].
  destruct (known_mode mode); [|discriminate]. cbn [negb].
  destruct (bool_decide (mode = NETWORK_MODE_HOST) && non_nil policy) eqn:Eh; [discriminate|].
  unfold IsStrictDenyAll, Mode; cbn [net_Mode net_EgressPolicy].
  destruct (bool_decide (mode = NETWORK_MODE_ISOLATED)) eqn:Ei.
  { case_match; [discriminate|]. intros [= <-]. cbn. rewrite Ei. apply bool_decide_eq_true in Ei. subst mode.
    repeat split; intros; naive_solver. }
  destruct policy as [[|s|d]|]; cbn [GetStrict GetDnsDeny non_nil is_nil negb].
  - discriminate.
  - intros Ho. apply bind_Ok in Ho as (strict & Hs & Ho).
    destruct (normalizeStrict ToASCII s) as [st|] eqn:Es; [injection Hs as ->|discriminate Hs].
    destruct s as [s|]; [|discriminate Es].
    assert (Hne : mode <> NETWORK_MODE_HOST) by (intros ->; done).
    assert (Hni : mode <> NETWORK_MODE_ISOLATED) by (by apply bool_decide_eq_false in Ei).
    destruct (strict_empty strict) eqn:Ee; injection Ho as <-; cbn.
    + repeat split; intros; naive_solver.
    + rewrite Ei, Ee. cbn. split; [naive_solver|]. split.
      * intros Hempty. exfalso. unfold strict_empty in Hempty. b2p.
        apply Nat.eqb_eq, nil_length_inv in H0, H1. unfold normalizeStrict in Es. rewrite H0, H1 in Es.
        vm_compute in Es. injection Es as <-. discriminate Ee.
      * split; [|done]. intros s' [= <-]. exists strict, s. split; [done|].
        destruct (normalizeStrict_ok s strict) as [Hok Hop]; [intros r Hr; by eapply Hw|done|]. by split; [apply Hok|].
  - intros Ho. apply bind_Ok in Ho as (dd & Hd & [= <-]). cbn. rewrite Ei.
    assert (Hne : mode <> NETWORK_MODE_HOST) by (intros ->; done).
    assert (Hni : mode <> NETWORK_MODE_ISOLATED) by (by apply bool_decide_eq_false in Ei).
    destruct d; [|discriminate Hd]. cbn. repeat split; intros; naive_solver.
  - intros [= <-]. cbn. rewrite Ei. repeat split; intros; naive_solver.
Qed.
End idna.

Definition ex_spec : NetworkSpec :=
  mkNetworkSpec NETWORK_MODE_DEFAULT (Some (PolicyStrict (Some (mkStrict ["API.example.com."; "*.example.com"; "api.example.com"]
    [Some (mkCIDRRule "10.1.2.3/8" EGRESS_PROTOCOL_TCP [Some (mkPortRange 443 443); Some (mkPortRange 440 442)])])))).
Definition ex_out : NetworkSpec :=
  mkNetworkSpec NETWORK_MODE_DEFAULT (Some (PolicyStrict (Some (mkStrict ["*.example.com"; "api.example.com"]
    [Some (mkCIDRRule "10.0.0.0/8" EGRESS_PROTOCOL_TCP [Some (mkPortRange 440 443)])])))).

Lemma Normalize_canonical_witness :
  exists s' s0, Some (mkStrict ["*.example.com"; "api.example.com"]
    [Some (mkCIDRRule "10.0.0.0/8" EGRESS_PROTOCOL_TCP [Some (mkPortRange 440 443)])]) = Some s' /\ strict_ok s' /\
    GetStrict ex_spec.(net_EgressPolicy) = Some s0 /\
    forall key p, opened s'.(strict_AllowedCidrs) key p <-> asked s0.(strict_AllowedCidrs) key p.
Proof.
  assert (Hn : @Normalize amd64 (fun s => Ok s) (Some ex_spec) = Ok (Some ex_out)) by (vm_compute; reflexivity).
  refine (proj1 (proj2 (proj2 (@Normalize_canonical amd64 (fun s => Ok s) ex_spec ex_out _ Hn))) _ eq_refl).
  intros s r [= <-] Hr. apply list_elem_of_singleton in Hr. injection Hr as ->.
  intros x Hx. apply elem_of_cons in Hx as [[= ->]|Hx]; [simpl; lia|].
  apply list_elem_of_singleton in Hx. injection Hx as ->. simpl. lia.
Defined.
