(* ===== verification/Execution.v ===== *)
(** * Execution configuration

    The kernel package [kernel/execution] ([normalize.go], [defaults.go]): the
    defaults, normalization and validation of a Run's execution configuration,
    and [buildRequest] of [placement/selector_request.go], which turns a
    normalized configuration into a placement request. *)
From S2P Require Import Prelude Proto Resource Capability Node Placement NetworkPolicy.

#[local] Existing Instance networkpolicy.enforcement_eq_dec.

(** ** Messages *)
Record SecretEnvVar := mkSecretEnv {
  se_Name : string; se_SecretID : string; se_Key : string; se_Optional : bool }.
Record SecretFile := mkSecretFile {
  sf_Path : string; sf_SecretID : string; sf_Key : string; sf_Mode : Z; sf_Optional : bool }.
Record ImageMount := mkImageMount { im_Image : string; im_Target : string }.
Inductive DeclaredOutputFormat :=
  DOF_UNSPECIFIED | DOF_FILE | DOF_TAR | DOF_UNRECOGNIZED (n : Z).
#[export] Instance dof_eq_dec : EqDecision DeclaredOutputFormat.
Proof. solve_decision. Defined.
Definition DeclaredOutputFormat_String (f : DeclaredOutputFormat) : string :=
  match f with
  | DOF_UNSPECIFIED => "DECLARED_OUTPUT_FORMAT_UNSPECIFIED"
  | DOF_FILE => "DECLARED_OUTPUT_FORMAT_FILE"
  | DOF_TAR => "DECLARED_OUTPUT_FORMAT_TAR"
  | DOF_UNRECOGNIZED n => format_Z n
  end.
Record DeclaredOutput := mkDeclaredOutput {
  do_Path : string; do_Format : DeclaredOutputFormat; do_MediaType : string }.

(** [RootfsSnapshot] has no fields: [Some ()] when the message is present. *)
Record ExecutionConfig := mkConfig {
  ec_Argv : list string;
  ec_Env : gmap string string;
  ec_Cwd : string;
  ec_Resources : option ResourceSpec;
  ec_Network : option NetworkSpec;
  ec_ExtensionCapabilityRequirements : list (option ExtensionCapabilityRequirement);
  ec_NodeSelector : gmap string string;
  ec_SecretEnv : list (option SecretEnvVar);
  ec_SecretFiles : list (option SecretFile);
  ec_ImageMounts : list (option ImageMount);
  ec_DeclaredOutputs : list (option DeclaredOutput);
  ec_RootfsSnapshot : option () }.
#[export] Instance zero_ExecutionConfig : Zero ExecutionConfig :=
  mkConfig [] ∅ "" None None [] ∅ [] [] [] [] None.

(** [environment.v1]: the fields the modelled code reads or writes. *)
Record OciImageDescriptor := mkDescriptor {
  id_Digest : string; id_MediaType : string; id_SizeBytes : Z; id_Annotations : gmap string string }.
#[export] Instance zero_Descriptor : Zero OciImageDescriptor := mkDescriptor "" "" 0 ∅.
Record EnvironmentImageSource := mkImageSource { is_Ref : string; is_RegistryCredentialID : string }.
#[export] Instance zero_ImageSource : Zero EnvironmentImageSource := mkImageSource "" "".
Record EnvironmentSpec := mkEnvSpec { es_Namespace : string; es_Image : option EnvironmentImageSource }.
#[export] Instance zero_EnvSpec : Zero EnvironmentSpec := mkEnvSpec "" None.
Record ResolvedEnvironmentSpec := mkResolvedSpec {
  rs_RootfsReadonly : bool; rs_ImageDescriptor : option OciImageDescriptor }.
#[export] Instance zero_ResolvedSpec : Zero ResolvedEnvironmentSpec := mkResolvedSpec false None.
Record Environment := mkEnvironment {
  env_ID : string; env_Namespace : string; env_Spec : EnvironmentSpec;
  env_ResolvedSpec : option ResolvedEnvironmentSpec }.

(** ** path.Clean *)
Fixpoint clean_elements (rooted : bool) (out : list string) (elements : list string) : list string :=
  match elements with
  | [] => rev out
  | e :: rest =>
      if String.eqb e "" || String.eqb e "." then clean_elements rooted out rest
      else if String.eqb e ".." then
        match out with
        | [] => clean_elements rooted (if rooted then [] else [".."]) rest
        | top :: below =>
            if String.eqb top ".." then clean_elements rooted (".." :: out) rest
            else clean_elements rooted below rest
        end
      else clean_elements rooted (e :: out) rest
  end.
Definition Clean (path : string) : string :=
  let rooted := HasPrefix path "/" in
  match clean_elements rooted [] (Split "/" path) with
  | [] => if rooted then "/" else "."
  | l => (if rooted then "/" else "") +:+ sconcat "/" l
  end.

Example Clean_examples :
  map Clean [""; "/"; "//a/./b//"; "/../a"; "a/../.."; "../../x/y/.."; "/a/b/../../.."]
  = ["."; "/"; "/a/b"; "/a"; ".."; "../../x"; "/"].
Proof. vm_compute. reflexivity. Qed.

(** ** Defaults (defaults.go) *)
Definition DefaultCPUMilli : Z := 500.
Definition DefaultMemoryBytes : Z := 4 * 1024 * 1024 * 1024.
Definition DefaultEphemeralStorageBytes : Z := 256 * 1024 * 1024.
Definition MaxDeclaredOutputs : Z := 16.

(** ** Normalization (normalize.go) *)
Definition keep {A B} (f : A -> B) (l : list (option A)) : list (option B) :=
  flat_map (fun item => match item with None => [] | Some a => [Some (f a)] end) l.

Definition normalizeSecretEnv : list (option SecretEnvVar) -> list (option SecretEnvVar) :=
  keep (fun item => mkSecretEnv (TrimSpace item.(se_Name)) (TrimSpace item.(se_SecretID))
                      (TrimSpace item.(se_Key)) item.(se_Optional)).
Definition normalizeSecretFiles : list (option SecretFile) -> list (option SecretFile) :=
  keep (fun item => mkSecretFile (Clean (TrimSpace item.(sf_Path))) (TrimSpace item.(sf_SecretID))
                      (TrimSpace item.(sf_Key)) item.(sf_Mode) item.(sf_Optional)).
Definition NormalizeImageMounts : list (option ImageMount) -> list (option ImageMount) :=
  keep (fun mount => mkImageMount (TrimSpace mount.(im_Image)) (Clean (TrimSpace mount.(im_Target)))).

Definition output_path (o : option DeclaredOutput) : string :=
  match o with Some o => o.(do_Path) | None => "" end.
Definition output_less (a b : option DeclaredOutput) : bool := string_lt (output_path a) (output_path b).
Definition normalizeDeclaredOutputs (l : list (option DeclaredOutput)) : list (option DeclaredOutput) :=
  sort_slice output_less
    (keep (fun o => mkDeclaredOutput (Clean (TrimSpace o.(do_Path))) o.(do_Format)
                      (TrimSpace o.(do_MediaType))) l).

Definition defaultRequest (limit fallback : Z) : Z := if 0 <? limit then limit else fallback.

Definition NormalizeResources (spec : option ResourceSpec) : ResourceSpec :=
  let out := deref spec in
  let requests := deref out.(rs_Requests) in
  let limits := deref out.(rs_Limits) in
  mkResourceSpec
    (Some (mkResourceQuantity
      (if requests.(rq_CpuMilli) <=? 0 then defaultRequest limits.(rq_CpuMilli) DefaultCPUMilli
       else requests.(rq_CpuMilli))
      (if requests.(rq_MemoryBytes) <=? 0 then defaultRequest limits.(rq_MemoryBytes) DefaultMemoryBytes
       else requests.(rq_MemoryBytes))
      (if (requests.(rq_EphemeralStorageBytes) <=? 0) && (0 <? limits.(rq_EphemeralStorageBytes))
       then limits.(rq_EphemeralStorageBytes) else requests.(rq_EphemeralStorageBytes))))
    out.(rs_Limits).

Definition with_ephemeral (q : ResourceQuantity) (z : Z) : ResourceQuantity :=
  mkResourceQuantity q.(rq_CpuMilli) q.(rq_MemoryBytes) z.

Definition NormalizeResourcesForRootfs (spec : option ResourceSpec) (readonly : bool) : result ResourceSpec :=
  let out := NormalizeResources spec in
  let requests := deref out.(rs_Requests) in
  let requested := requests.(rq_EphemeralStorageBytes) in
  let limit := (deref out.(rs_Limits)).(rq_EphemeralStorageBytes) in
  if readonly
  then
    if negb (requested =? 0) || negb (limit =? 0)
    then Err (Status InvalidArgument
                "readonly rootfs conflicts with ephemeral storage resources: request=%d limit=%d"
                [AInt requested; AInt limit])
    else Ok out
  else
    let limits := deref out.(rs_Limits) in
    let '(limit, limits) :=
      if limit =? 0 then (DefaultEphemeralStorageBytes, with_ephemeral limits DefaultEphemeralStorageBytes)
      else (limit, limits) in
    let requests := if requested =? 0 then with_ephemeral requests limit else requests in
    Ok (mkResourceSpec (Some requests) (Some limits)).

Definition require_nonneg (value : Z) (field : string) : result () :=
  if value <? 0 then Err (Status InvalidArgument (field +:+ " must be >= 0") []) else Ok ().

Definition validateResourceSigns (spec : option ResourceSpec) : result () :=
  let requests := deref (deref spec).(rs_Requests) in
  let limits := deref (deref spec).(rs_Limits) in
  _ ← require_nonneg requests.(rq_CpuMilli) "config.resources.requests.cpu_milli";
  _ ← require_nonneg requests.(rq_MemoryBytes) "config.resources.requests.memory_bytes";
  _ ← require_nonneg requests.(rq_EphemeralStorageBytes) "config.resources.requests.ephemeral_storage_bytes";
  _ ← require_nonneg limits.(rq_CpuMilli) "config.resources.limits.cpu_milli";
  _ ← require_nonneg limits.(rq_MemoryBytes) "config.resources.limits.memory_bytes";
  require_nonneg limits.(rq_EphemeralStorageBytes) "config.resources.limits.ephemeral_storage_bytes".

Definition require_within (request limit : Z) (field limit_field : string) : result () :=
  if (0 <? limit) && (limit <? request)
  then Err (Status InvalidArgument
              ("config.resources.requests." +:+ field +:+ " must be <= limits." +:+ limit_field
               +:+ ": request=%d limit=%d") [AInt request; AInt limit])
  else Ok ().

Definition ValidateResources (spec : option ResourceSpec) : result () :=
  _ ← validateResourceSigns spec;
  let normalized := NormalizeResources spec in
  let requests := deref normalized.(rs_Requests) in
  let limits := deref normalized.(rs_Limits) in
  _ ← require_within requests.(rq_CpuMilli) limits.(rq_CpuMilli) "cpu_milli" "cpu_milli";
  _ ← require_within requests.(rq_MemoryBytes) limits.(rq_MemoryBytes) "memory_bytes" "memory_bytes";
  require_within requests.(rq_EphemeralStorageBytes) limits.(rq_EphemeralStorageBytes)
    "ephemeral_storage_bytes" "ephemeral_storage_bytes".

Definition hasParentPathElement (value : string) : bool := existsb (String.eqb "..") (Split "/" value).

Section config.
Context `{GoRuntime}.
(** [idna.Lookup.ToASCII], and whether [mime.ParseMediaType] accepts a value. *)
Context (ToASCII : string -> result string) (ParseMediaType_ok : string -> bool).

Definition normalizeExtensionCapabilityRequirements
    (l : list (option ExtensionCapabilityRequirement)) : list (option ExtensionCapabilityRequirement) :=
  map (fun requirement =>
         match requirement with
         | Some r => match r.(er_Capability) with
                     | Some c => Some (mkExtensionRequirement (Some (NormalizeExtension c)))
                     | None => requirement
                     end
         | None => requirement
         end) l.

Definition NormalizeConfig (config : option ExecutionConfig) : ExecutionConfig :=
  let out := deref config in
  mkConfig out.(ec_Argv) out.(ec_Env) out.(ec_Cwd)
    (Some (NormalizeResources out.(ec_Resources)))
    (match networkpolicy.Normalize ToASCII out.(ec_Network) with
     | Ok network => network | Err _ => out.(ec_Network) end)
    (normalizeExtensionCapabilityRequirements out.(ec_ExtensionCapabilityRequirements))
    out.(ec_NodeSelector)
    (normalizeSecretEnv out.(ec_SecretEnv))
    (normalizeSecretFiles out.(ec_SecretFiles))
    (NormalizeImageMounts out.(ec_ImageMounts))
    (normalizeDeclaredOutputs out.(ec_DeclaredOutputs))
    out.(ec_RootfsSnapshot).

Definition validateDeclaredOutput (seen : gset string) (declared : option DeclaredOutput) : result (gset string) :=
  match declared with
  | None => Err (Status InvalidArgument "config.declared_outputs entry is required" [])
  | Some declared =>
      let rawPath := TrimSpace declared.(do_Path) in
      let cleanPath := Clean rawPath in
      let mediaType := TrimSpace declared.(do_MediaType) in
      if String.eqb rawPath "" || String.eqb cleanPath "/" || negb (HasPrefix cleanPath "/")
         || hasParentPathElement rawPath
      then Err (Status InvalidArgument "config.declared_outputs path %q must be an absolute sandbox path below /"
                  [AStr rawPath])
      else if bool_decide (cleanPath ∈ seen)
      then Err (Status InvalidArgument "config.declared_outputs path %q is duplicated" [AStr cleanPath])
      else if negb (bool_decide (declared.(do_Format) = DOF_FILE)) && negb (bool_decide (declared.(do_Format) = DOF_TAR))
      then Err (Status InvalidArgument "config.declared_outputs path %q has unsupported format %s"
                  [AStr cleanPath; AStr (DeclaredOutputFormat_String declared.(do_Format))])
      else if 128 <? str_len mediaType
      then Err (Status InvalidArgument "config.declared_outputs path %q media_type exceeds 128 bytes" [AStr cleanPath])
      else if negb (String.eqb mediaType "") && negb (ParseMediaType_ok mediaType)
      then Err (Status InvalidArgument "config.declared_outputs path %q media_type is invalid" [AStr cleanPath])
      else Ok ({[cleanPath]} ∪ seen)
  end.

Definition validateDeclaredOutputs (l : list (option DeclaredOutput)) : result () :=
  let n := Z.of_nat (length l) in
  if MaxDeclaredOutputs <? n
  then Err (Status InvalidArgument "config.declared_outputs has %d entries; maximum is %d"
              [AInt n; AInt MaxDeclaredOutputs])
  else _ ← foldM validateDeclaredOutput ∅ l; Ok ().

Definition ValidateNetwork (network : option NetworkSpec) : result () :=
  match networkpolicy.Validate ToASCII network with
  | Ok _ => Ok ()
  | Err e => Err (StatusOf InvalidArgument "config.network: %v" e)
  end.

Definition validateExtensionCapabilityRequirements
    (l : list (option ExtensionCapabilityRequirement)) : result () :=
  match ValidateExtensionRequirements l with
  | Ok _ => Ok ()
  | Err e => Err (StatusOf InvalidArgument "config.extension_capability_requirements: %v" e)
  end.

(** The Go function returns its output beside the final validation error; every
    caller discards it on error. *)
Definition NormalizeConfigForRootfs (config : option ExecutionConfig) (readonly : bool) : result ExecutionConfig :=
  let c := deref config in
  if readonly && non_nil c.(ec_RootfsSnapshot)
  then Err (Status InvalidArgument "config.rootfs_snapshot requires a writable rootfs" [])
  else
    _ ← validateResourceSigns c.(ec_Resources);
    _ ← validateExtensionCapabilityRequirements c.(ec_ExtensionCapabilityRequirements);
    _ ← ValidateNetwork c.(ec_Network);
    _ ← validateDeclaredOutputs c.(ec_DeclaredOutputs);
    let out := NormalizeConfig config in
    resources ← NormalizeResourcesForRootfs out.(ec_Resources) readonly;
    let out := mkConfig out.(ec_Argv) out.(ec_Env) out.(ec_Cwd) (Some resources) out.(ec_Network)
                 out.(ec_ExtensionCapabilityRequirements) out.(ec_NodeSelector) out.(ec_SecretEnv)
                 out.(ec_SecretFiles) out.(ec_ImageMounts) out.(ec_DeclaredOutputs)
                 out.(ec_RootfsSnapshot) in
    _ ← ValidateResources out.(ec_Resources);
    Ok out.

(** ** Placement requests (selector_request.go) *)
Definition firstNonEmpty (values : list string) : string :=
  match List.filter (fun v => negb (String.eqb (TrimSpace v) "")) values with
  | [] => ""
  | v :: _ => TrimSpace v
  end.

Definition NetworkMode_String (m : NetworkMode) : string :=
  match m with
  | NETWORK_MODE_UNSPECIFIED => "NETWORK_MODE_UNSPECIFIED"
  | NETWORK_MODE_DEFAULT => "NETWORK_MODE_DEFAULT"
  | NETWORK_MODE_ISOLATED => "NETWORK_MODE_ISOLATED"
  | NETWORK_MODE_HOST => "NETWORK_MODE_HOST"
  | NETWORK_MODE_UNRECOGNIZED n => format_Z n
  end.

Definition networkSpecToPlacementNetwork (network : option NetworkSpec) : string :=
  if networkpolicy.IsStrictDenyAll network then "isolated"
  else match network with
       | None => ""
       | Some n =>
           if bool_decide (n.(net_Mode) = NETWORK_MODE_UNSPECIFIED) then ""
           else ToLower (TrimPrefix (NetworkMode_String n.(net_Mode)) "NETWORK_MODE_")
       end.

Definition buildRequest (env : Environment) (config : option ExecutionConfig) : result Request :=
  let resolved := deref env.(env_ResolvedSpec) in
  let config := deref config in
  let requests := deref (deref config.(ec_Resources)).(rs_Requests) in
  let limits := deref (deref config.(ec_Resources)).(rs_Limits) in
  normalizedNetwork ← wrap_err "normalize placement network policy: %w" []
                        (networkpolicy.Normalize ToASCII config.(ec_Network));
  let network := networkSpecToPlacementNetwork normalizedNetwork in
  let policyMode := networkpolicy.Mode normalizedNetwork in
  let dns := bool_decide (policyMode = networkpolicy.EnforcementDNSDeny) in
  let strict := bool_decide (policyMode = networkpolicy.EnforcementStrict)
                && networkpolicy.StrictNeedsEgressd normalizedNetwork in
  let writable := negb resolved.(rs_RootfsReadonly) in
  let snapshot := non_nil config.(ec_RootfsSnapshot) in
  capabilities ← wrap_err "derive placement capability requirements: %w" []
    (DeriveRequestStaticRequirements
       (mkRequirementInput network "" dns strict limits.(rq_MemoryBytes) writable
          limits.(rq_EphemeralStorageBytes) false snapshot config.(ec_ExtensionCapabilityRequirements)));
  Ok (mkRequest
        (firstNonEmpty [env.(env_ID); (deref resolved.(rs_ImageDescriptor)).(id_Digest)])
        RT_IMAGE MT_OCI limits.(rq_MemoryBytes) writable limits.(rq_EphemeralStorageBytes) snapshot
        requests.(rq_CpuMilli) requests.(rq_MemoryBytes) requests.(rq_EphemeralStorageBytes)
        network "" dns strict capabilities
        (normalizeExtensionCapabilityRequirements config.(ec_ExtensionCapabilityRequirements))
        config.(ec_NodeSelector)).
End config.

(** ** Facts *)

(** What durable admission may rely on: positive CPU and memory requests, no
    request above a set limit, and an ephemeral budget exactly when the root
    filesystem is writable. *)
Definition resources_admissible (readonly : bool) (spec : ResourceSpec) : Prop :=
  let r := deref spec.(rs_Requests) in
  let l := deref spec.(rs_Limits) in
  0 < r.(rq_CpuMilli) /\ 0 < r.(rq_MemoryBytes) /\
  0 <= l.(rq_CpuMilli) /\ 0 <= l.(rq_MemoryBytes) /\
  (0 < l.(rq_CpuMilli) -> r.(rq_CpuMilli) <= l.(rq_CpuMilli)) /\
  (0 < l.(rq_MemoryBytes) -> r.(rq_MemoryBytes) <= l.(rq_MemoryBytes)) /\
  (if readonly then r.(rq_EphemeralStorageBytes) = 0 /\ l.(rq_EphemeralStorageBytes) = 0
   else 0 < r.(rq_EphemeralStorageBytes) <= l.(rq_EphemeralStorageBytes)).

Lemma NormalizeResources_idempotent spec :
  NormalizeResources (Some (NormalizeResources spec)) = NormalizeResources spec.
Proof.
  unfold NormalizeResources, deref, defaultRequest, DefaultCPUMilli, DefaultMemoryBytes; simpl.
  f_equal. f_equal.
  destruct (default zero spec) as [[[rc rm re]|] [[lc lm le]|]]; simpl; f_equal;
    repeat case_match; lia.
Qed.

Lemma require_nonneg_ok z f : require_nonneg z f = Ok () <-> 0 <= z.
Proof. unfold require_nonneg. destruct (z <? 0) eqn:E; split; intros; try done; lia. Qed.

Lemma require_within_ok r l f g : require_within r l f g = Ok () <-> (0 < l -> r <= l).
Proof.
  unfold require_within. destruct (0 <? l) eqn:E, (l <? r) eqn:E'; simpl; split; intros; try done; lia.
Qed.

Lemma ValidateResources_ok spec :
  ValidateResources spec = Ok () ->
  let n := NormalizeResources spec in
  let r := deref n.(rs_Requests) in
  let l := deref n.(rs_Limits) in
  0 <= (deref (deref spec).(rs_Requests)).(rq_EphemeralStorageBytes) /\
  0 <= l.(rq_CpuMilli) /\ 0 <= l.(rq_MemoryBytes) /\ 0 <= l.(rq_EphemeralStorageBytes) /\
  (0 < l.(rq_CpuMilli) -> r.(rq_CpuMilli) <= l.(rq_CpuMilli)) /\
  (0 < l.(rq_MemoryBytes) -> r.(rq_MemoryBytes) <= l.(rq_MemoryBytes)) /\
  (0 < l.(rq_EphemeralStorageBytes) -> r.(rq_EphemeralStorageBytes) <= l.(rq_EphemeralStorageBytes)).
Proof.
  unfold ValidateResources, validateResourceSigns. intros Hv.
  apply bind_Ok in Hv as ([] & Hs & Hv).
  apply bind_Ok in Hs as ([] & H1 & Hs). apply bind_Ok in Hs as ([] & H2 & Hs).
  apply bind_Ok in Hs as ([] & H3 & Hs). apply bind_Ok in Hs as ([] & H4 & Hs).
  apply bind_Ok in Hs as ([] & H5 & H6).
  rewrite require_nonneg_ok in H3, H4, H5, H6.
  apply bind_Ok in Hv as ([] & W1 & Hv). apply bind_Ok in Hv as ([] & W2 & W3).
  rewrite require_within_ok in W1, W2, W3. simpl in *. auto 10.
Qed.

Lemma NormalizeResources_positive spec :
  let r := deref (NormalizeResources spec).(rs_Requests) in
  0 < r.(rq_CpuMilli) /\ 0 < r.(rq_MemoryBytes).
Proof.
  unfold NormalizeResources, defaultRequest, DefaultCPUMilli, DefaultMemoryBytes; simpl.
  split; repeat case_match; lia.
Qed.

Lemma NormalizeResources_fix r lim :
  0 < r.(rq_CpuMilli) -> 0 < r.(rq_MemoryBytes) ->
  0 < r.(rq_EphemeralStorageBytes) \/ (deref lim).(rq_EphemeralStorageBytes) <= 0 ->
  NormalizeResources (Some (mkResourceSpec (Some r) lim)) = mkResourceSpec (Some r) lim.
Proof.
  destruct r as [rc rm re]. unfold NormalizeResources; simpl. intros Hc Hm He.
  rewrite (proj2 (Z.leb_gt _ _) Hc), (proj2 (Z.leb_gt _ _) Hm).
  by destruct (re <=? 0) eqn:E1, (0 <? _) eqn:E2; simpl; try lia.
Qed.

(** The rootfs-specific defaults, once their result is valid, give an admissible
    specification that normalizing again does not change. *)
Lemma NormalizeResourcesForRootfs_admissible spec readonly out :
  NormalizeResourcesForRootfs spec readonly = Ok out -> ValidateResources (Some out) = Ok () ->
  NormalizeResources (Some out) = out /\ resources_admissible readonly out.
Proof.
  intros Hn Hv. pose proof (ValidateResources_ok _ Hv) as [Hsign Hok]. simpl in Hsign.
  assert (Hidem : NormalizeResources (Some out) = out).
  { clear Hok. revert Hn Hsign. unfold NormalizeResourcesForRootfs.
    pose proof (NormalizeResources_idempotent spec) as Hi.
    pose proof (NormalizeResources_positive spec) as [Hc Hm].
    destruct (NormalizeResources spec) as [[r|] lim]; simpl in *; [|lia].
    destruct readonly; [case_match; by intros [= <-]|].
    unfold DefaultEphemeralStorageBytes, with_ephemeral.
    repeat case_match; intros [= <-]; simplify_eq; simpl; intros Hsign;
      apply NormalizeResources_fix; simpl; lia. }
  split; [done|].
  rewrite Hidem in Hok.
  pose proof (NormalizeResources_positive (Some out)) as Hp. rewrite Hidem in Hp.
  destruct Hok as (? & ? & ? & ? & ? & ?), Hp. repeat split; try done.
  revert Hn. unfold NormalizeResourcesForRootfs.
  destruct (NormalizeResources spec) as [[[rc rm re]|] [[lc lm le]|]] eqn:E;
    destruct readonly; simpl; unfold DefaultEphemeralStorageBytes;
    repeat case_match; intros [= <-]; simplify_eq; simpl in *; b2p; lia.
Qed.

Section facts.
Context `{GoRuntime} (ToASCII : string -> result string) (ParseMediaType_ok : string -> bool).

Lemma NormalizeConfigForRootfs_inv config readonly out :
  NormalizeConfigForRootfs ToASCII ParseMediaType_ok config readonly = Ok out ->
  let normalized := NormalizeConfig ToASCII config in
  (readonly = true -> (deref config).(ec_RootfsSnapshot) = None) /\
  is_Ok (networkpolicy.Normalize ToASCII (deref config).(ec_Network)) = true /\
  (exists resources,
     NormalizeResourcesForRootfs normalized.(ec_Resources) readonly = Ok resources /\
     ValidateResources (Some resources) = Ok () /\ out.(ec_Resources) = Some resources) /\
  out.(ec_Network) = normalized.(ec_Network) /\
  out.(ec_RootfsSnapshot) = (deref config).(ec_RootfsSnapshot).
Proof.
  unfold NormalizeConfigForRootfs. destruct (readonly && _) eqn:Er; [done|]. intros Hc.
  apply bind_Ok in Hc as ([] & _ & Hc). apply bind_Ok in Hc as ([] & _ & Hc).
  apply bind_Ok in Hc as ([] & Hn & Hc). apply bind_Ok in Hc as ([] & _ & Hc).
  apply bind_Ok in Hc as (r & Hr & Hc). apply bind_Ok in Hc as ([] & Hv & [= <-]).
  split; [|split; [|split]].
  - intros ->. simpl in Er. by destruct (ec_RootfsSnapshot _).
  - revert Hn. unfold ValidateNetwork, networkpolicy.Validate.
    by destruct (networkpolicy.Normalize _ _).
  - by exists r.
  - done.
Qed.

(** C35: a Run configuration that passes the rootfs-specific normalization has
    positive CPU and memory requests, no request above its limit and an
    ephemeral-storage budget exactly when the root filesystem is writable;
    normalizing its resources again, as durable admission does, changes
    nothing; and its network policy is the normalized one. *)
Theorem NormalizeConfigForRootfs_sound config readonly out :
  NormalizeConfigForRootfs ToASCII ParseMediaType_ok config readonly = Ok out ->
  resources_admissible readonly (deref out.(ec_Resources)) /\
  NormalizeResources out.(ec_Resources) = deref out.(ec_Resources) /\
  networkpolicy.Normalize ToASCII (deref config).(ec_Network) = Ok out.(ec_Network) /\
  (readonly = true -> out.(ec_RootfsSnapshot) = None).
Proof.
  intros (Hs & Hn & (r & Hr & Hv & Ho) & Hnet & Hsnap)%NormalizeConfigForRootfs_inv.
  destruct (NormalizeResourcesForRootfs_admissible _ _ _ Hr Hv) as [Hidem Hadm].
  rewrite Ho, Hsnap. split; [done|]. split; [done|]. split; [|done].
  rewrite Hnet. unfold NormalizeConfig; simpl.
  by destruct (networkpolicy.Normalize ToASCII _).
Qed.

(** The placement request built from an accepted configuration asks for
    exactly the claim that durable admission later charges, and never requires
    both DNS-only and strict egress enforcement. *)
Theorem buildRequest_claim config readonly out env req :
  NormalizeConfigForRootfs ToASCII ParseMediaType_ok config readonly = Ok out ->
  buildRequest ToASCII env (Some out) = Ok req ->
  QuantityToClaim (deref (NormalizeConfig ToASCII (Some out)).(ec_Resources)).(rs_Requests)
    = mkClaim req.(rq_RequestedCpuMilli) req.(rq_RequestedMemoryBytes)
        req.(rq_RequestedEphemeralStorageBytes) /\
  req.(rq_RequiresDNSPolicyEnforcement) && req.(rq_RequiresStrictEgressEnforcement) = false.
Proof.
  intros (_ & _ & (r & Hr & Hv & Ho) & _ & _)%NormalizeConfigForRootfs_inv Hb.
  destruct (NormalizeResourcesForRootfs_admissible _ _ _ Hr Hv) as [Hidem (Hc & _)].
  unfold buildRequest in Hb. simpl in Hb. rewrite Ho in Hb. simpl in Hb.
  apply bind_Ok in Hb as (net & _ & Hb). apply bind_Ok in Hb as (caps & _ & [= <-]).
  split.
  - assert (Hn : ec_Resources (NormalizeConfig ToASCII (Some out)) = Some r)
      by (unfold NormalizeConfig; cbn [ec_Resources]; simpl deref; by rewrite Ho, Hidem).
    by rewrite Hn.
  - simpl. unfold networkpolicy.Mode. by repeat case_match.
Qed.
End facts.

(** A memory-limited configuration for a writable root filesystem. *)
Definition ex_config : ExecutionConfig :=
  mkConfig ["sh"] ∅ "/"
    (Some (mkResourceSpec None (Some (mkResourceQuantity 0 1073741824 0))))
    (Some (mkNetworkSpec NETWORK_MODE_DEFAULT None)) [] ∅ [] [] [] [] None.
Definition ex_normalized : ExecutionConfig :=
  mkConfig ["sh"] ∅ "/"
    (Some (mkResourceSpec (Some (mkResourceQuantity 500 1073741824 268435456))
             (Some (mkResourceQuantity 0 1073741824 268435456))))
    (Some (mkNetworkSpec NETWORK_MODE_DEFAULT None)) [] ∅ [] [] [] [] None.
Definition ex_environment : Environment :=
  mkEnvironment "env-1" "default" (mkEnvSpec "default" None) None.

Lemma NormalizeConfigForRootfs_sound_witness :
  resources_admissible false (deref ex_normalized.(ec_Resources)).
Proof.
  apply (@NormalizeConfigForRootfs_sound amd64 Ok (fun _ => true) (Some ex_config) false ex_normalized).
  vm_compute. reflexivity.
Defined.

Lemma buildRequest_claim_witness :
  exists req, buildRequest (H := amd64) Ok ex_environment (Some ex_normalized) = Ok req /\
    QuantityToClaim (deref (NormalizeConfig (H := amd64) Ok (Some ex_normalized)).(ec_Resources)).(rs_Requests)
    = mkClaim req.(rq_RequestedCpuMilli) req.(rq_RequestedMemoryBytes) req.(rq_RequestedEphemeralStorageBytes).
Proof.
  eexists. split; [vm_compute; reflexivity|].
  apply (@buildRequest_claim amd64 Ok (fun _ => true) (Some ex_config) false ex_normalized ex_environment);
    vm_compute; reflexivity.
Defined.
