(* ===== verification/Store.v ===== *)
(** * The durable store

    The tables of [postgres/migrations/000001_initial.sql] that the modelled
    operations touch, with their CHECK, key and trigger rules, and the
    transaction helpers of [postgres/run/tx.go], [postgres/tx_error.go] and
    [postgres/admin/allocation_lifecycle.go].

    A table is a finite map from its primary key to its other columns.
    Enumerations are stored as their values rather than their names.  Row locks
    serialize the transactions, so one transaction is one function from a
    database to a database and a result.  Columns no modelled statement reads
    or writes (enrollment certificates) are left out; the events of a table
    with a serial key are listed in key order. *)
From S2P Require Import Prelude Proto Resource Allocation Capability Node Execution.

(** A [timestamptz] column is coarser than Go's clock: what is stored for an
    instant is monotone in it and stable under a second store. *)
Class SqlTime := {
  sql_time : time -> time;
  sql_time_mono t u : t <= u -> sql_time t <= sql_time u;
  sql_time_idem t : sql_time (sql_time t) = sql_time t }.

(** Truncation to microseconds. *)
Definition micros (t : time) : time := 1000 * (t / 1000).
Lemma micros_mono t u : t <= u -> micros t <= micros u.
Proof. unfold micros. intros Htu. pose proof (Z.div_le_mono t u 1000). lia. Qed.
Lemma micros_idem t : micros (micros t) = micros t.
Proof. unfold micros. rewrite (Z.mul_comm 1000 (t / 1000)), Z.div_mul; lia. Qed.
Definition microseconds : SqlTime :=
  {| sql_time := micros; sql_time_mono := micros_mono; sql_time_idem := micros_idem |}.

(** ** Rows *)
Record RootfsSnapshotResult := mkSnapshotResult {
  ss_Status : RootfsSnapshotStatus; ss_EnvironmentID : string; ss_ImageRef : string;
  ss_ImageDescriptor : option OciImageDescriptor; ss_PlatformOS : string;
  ss_PlatformArch : string; ss_PlatformVariant : string; ss_Message : string }.
Definition no_snapshot : RootfsSnapshotResult := mkSnapshotResult RSS_UNSPECIFIED "" "" None "" "" "" "".
Definition snapshot_failed (message : string) : RootfsSnapshotResult :=
  mkSnapshotResult RSS_FAILED "" "" None "" "" "" message.

Record RunRow := mkRun {
  r_Namespace : string; r_EnvironmentID : string; r_Status : RunStatus;
  r_Config : ExecutionConfig; r_EnvironmentSpec : EnvironmentSpec;
  r_ResolvedSpec : ResolvedEnvironmentSpec; r_Labels : gmap string string;
  r_Version : Z; r_CreatedAt : time; r_UpdatedAt : time;
  r_ExitCode : option Z; r_DiagnosticCode : WorkloadDiagnosticCode; r_Message : string;
  r_RootfsSnapshot : RootfsSnapshotResult }.

Record AllocRow := mkAlloc {
  a_RunID : string; a_NodeID : string; a_State : AllocationLifecycleState;
  a_CPUMilli : Z; a_MemoryBytes : Z; a_EphemeralBytes : Z;
  a_CreatedAt : time; a_UpdatedAt : time;
  a_NodeActiveAt : option time; a_OutputExpiresAt : option time }.

Record QueueRow := mkQueue {
  q_NextRunAt : time; q_Attempts : Z; q_LastError : string;
  q_ClaimOwner : string; q_ClaimExpiresAt : option time;
  q_CreatedAt : time; q_UpdatedAt : time }.

Inductive AccessPurpose :=
  PURPOSE_UNSPECIFIED | PURPOSE_INTERACTIVE | PURPOSE_RUN_OUTPUT | PURPOSE_UNRECOGNIZED (n : Z).
#[export] Instance purpose_eq_dec : EqDecision AccessPurpose.
Proof. solve_decision. Defined.
Record GrantRow := mkGrant {
  g_AllocationID : string; g_NodeID : string; g_Purpose : AccessPurpose;
  g_ExpiresAt : time; g_Revision : Z; g_Revoked : bool; g_TokenHash : string; g_CreatedAt : time }.

Inductive TunnelStatus :=
  TUNNEL_PENDING | TUNNEL_RUNNING | TUNNEL_DEGRADED | TUNNEL_REVOKED | TUNNEL_EXPIRED | TUNNEL_FAILED.
#[export] Instance tunnel_status_eq_dec : EqDecision TunnelStatus.
Proof. solve_decision. Defined.
Record TunnelRow := mkTunnel {
  t_AllocationID : string; t_CreatorPrincipalID : string; t_RemotePort : Z; t_NodeEdgeTarget : string;
  t_RelayID : string; t_ClientEdgeTarget : string; t_Status : TunnelStatus; t_Reason : string;
  t_BoundAddr : string; t_ClientTokenHash : string; t_NodeTokenEncrypted : string; t_NodeTokenHash : string;
  t_Revision : Z; t_CreatedAt : time; t_UpdatedAt : time; t_ExpiresAt : time;
  t_ReadyAt : option time; t_LastPeerEventAt : option time; t_BytesIn : Z; t_BytesOut : Z }.
Inductive TunnelEventType :=
  TET_UNSPECIFIED | TET_CREATED | TET_RENEWED | TET_NODE_STATUS | TET_REVOKED | TET_EXPIRED | TET_OTHER (n : Z).
#[export] Instance tet_eq_dec : EqDecision TunnelEventType.
Proof. solve_decision. Defined.
Inductive TunnelReasonCode :=
  TRC_UNSPECIFIED | TRC_SESSION_CREATED | TRC_SESSION_RENEWED | TRC_NODE_RUNNING | TRC_NODE_DEGRADED
| TRC_NODE_FAILED | TRC_MANUAL_REVOKE | TRC_ALLOCATION_ENDED | TRC_SESSION_EXPIRED | TRC_OTHER (n : Z).
#[export] Instance trc_eq_dec : EqDecision TunnelReasonCode.
Proof. solve_decision. Defined.
Inductive TunnelPeerKind := PEER_UNSPECIFIED | PEER_CLIENT | PEER_NODE | PEER_UNRECOGNIZED (n : Z).
#[export] Instance peer_kind_eq_dec : EqDecision TunnelPeerKind.
Proof. solve_decision. Defined.
Record TunnelEvent := mkTunnelEvent {
  te_SessionID : string; te_Type : TunnelEventType; te_Status : TunnelStatus; te_ReasonCode : TunnelReasonCode;
  te_Reason : string; te_BoundAddr : string; te_RelayID : string; te_PeerKind : TunnelPeerKind;
  te_BytesIn : Z; te_BytesOut : Z; te_CreatedAt : time }.

Record QuotaEvent := mkQuotaEvent {
  qe_ID : string; qe_Namespace : string; qe_EnvironmentID : string; qe_Reason : QuotaEventReason;
  qe_Evaluation : QuotaEvaluation; qe_CreatedAt : time }.
Record AuditEvent := mkAuditEvent {
  ae_ID : string; ae_Operation : string; ae_TargetType : string; ae_TargetID : string;
  ae_OperatorReason : string; ae_CreatedAt : time }.

(** [nodes] joined with [node_summaries] is a registry record; [namespaces]
    keeps [deleted_at]; [secrets] the namespace; [node_enrollment_receipts] the node; [run_secret_references] pairs
    of run and secret; [allocation_capability_requirements] is keyed by
    allocation and capability key. *)
Record DB := mkDB {
  runs : gmap string RunRow;
  allocations : gmap string AllocRow;
  allocation_reconcile_queue : gmap string QueueRow;
  allocation_access_grants : gmap string GrantRow;
  node_access_grant_cursors : gmap string Z;
  tunnel_sessions : gmap string TunnelRow;
  tunnel_sessions_revision : Z;
  tunnel_session_events : list TunnelEvent;
  secrets : gmap string string;
  run_secret_references : gset (string * string);
  nodes : gmap string NodeRecord;
  namespaces : gmap string (option time);
  namespace_resource_quotas : gmap string NamespaceQuotaPolicy;
  environments : gmap string Environment;
  allocation_capability_requirements : gmap (string * string) CapabilityRequirement;
  allocation_capability_conditions : gmap string (time * CapabilityConditionSet);
  namespace_quota_events : list QuotaEvent;
  admin_audit_events : list AuditEvent;
  node_enrollment_receipts : gset string }.

Definition set_runs (db : DB) (x : gmap string RunRow) : DB :=
  let 'mkDB _ a q g c t tr te s rs n ns nq e cr cc qe ae en := db in
  mkDB x a q g c t tr te s rs n ns nq e cr cc qe ae en.
Definition set_allocations (db : DB) (x : gmap string AllocRow) : DB :=
  let 'mkDB r _ q g c t tr te s rs n ns nq e cr cc qe ae en := db in
  mkDB r x q g c t tr te s rs n ns nq e cr cc qe ae en.
Definition set_queue (db : DB) (x : gmap string QueueRow) : DB :=
  let 'mkDB r a _ g c t tr te s rs n ns nq e cr cc qe ae en := db in
  mkDB r a x g c t tr te s rs n ns nq e cr cc qe ae en.
Definition set_grants (db : DB) (x : gmap string GrantRow) : DB :=
  let 'mkDB r a q _ c t tr te s rs n ns nq e cr cc qe ae en := db in
  mkDB r a q x c t tr te s rs n ns nq e cr cc qe ae en.
Definition set_cursors (db : DB) (x : gmap string Z) : DB :=
  let 'mkDB r a q g _ t tr te s rs n ns nq e cr cc qe ae en := db in
  mkDB r a q g x t tr te s rs n ns nq e cr cc qe ae en.
Definition set_tunnels (db : DB) (x : gmap string TunnelRow) (rev : Z) (ev : list TunnelEvent) : DB :=
  let 'mkDB r a q g c _ _ _ s rs n ns nq e cr cc qe ae en := db in
  mkDB r a q g c x rev ev s rs n ns nq e cr cc qe ae en.
Definition set_run_secrets (db : DB) (x : gset (string * string)) : DB :=
  let 'mkDB r a q g c t tr te s _ n ns nq e cr cc qe ae en := db in
  mkDB r a q g c t tr te s x n ns nq e cr cc qe ae en.
Definition set_environments (db : DB) (x : gmap string Environment) : DB :=
  let 'mkDB r a q g c t tr te s rs n ns nq _ cr cc qe ae en := db in
  mkDB r a q g c t tr te s rs n ns nq x cr cc qe ae en.
Definition set_requirements (db : DB) (x : gmap (string * string) CapabilityRequirement) : DB :=
  let 'mkDB r a q g c t tr te s rs n ns nq e _ cc qe ae en := db in
  mkDB r a q g c t tr te s rs n ns nq e x cc qe ae en.
Definition set_conditions (db : DB) (x : gmap string (time * CapabilityConditionSet)) : DB :=
  let 'mkDB r a q g c t tr te s rs n ns nq e cr _ qe ae en := db in
  mkDB r a q g c t tr te s rs n ns nq e cr x qe ae en.
Definition set_quota_events (db : DB) (x : list QuotaEvent) : DB :=
  let 'mkDB r a q g c t tr te s rs n ns nq e cr cc _ ae en := db in
  mkDB r a q g c t tr te s rs n ns nq e cr cc x ae en.
Definition set_audit_events (db : DB) (x : list AuditEvent) : DB :=
  let 'mkDB r a q g c t tr te s rs n ns nq e cr cc qe _ en := db in
  mkDB r a q g c t tr te s rs n ns nq e cr cc qe x en.

Definition set_enrollments (db : DB) (x : gset string) : DB :=
  let 'mkDB r a q g c t tr te s rs n ns nq e cr cc qe ae _ := db in
  mkDB r a q g c t tr te s rs n ns nq e cr cc qe ae x.

(** ** Constraints *)
Definition snapshot_empty (s : RootfsSnapshotResult) : bool :=
  bool_decide (s.(ss_Status) = RSS_UNSPECIFIED) && String.eqb s.(ss_EnvironmentID) ""
  && String.eqb s.(ss_ImageRef) "" && is_nil s.(ss_ImageDescriptor) && String.eqb s.(ss_PlatformOS) ""
  && String.eqb s.(ss_PlatformArch) "" && String.eqb s.(ss_PlatformVariant) "" && String.eqb s.(ss_Message) "".

Definition check_run (r : RunRow) : bool :=
  let snap := r.(r_RootfsSnapshot).(ss_Status) in
  negb (bool_decide (r.(r_Status) = RUN_UNSPECIFIED))
  && (0 <? r.(r_Version)) && (r.(r_Version) <=? MaxInt64)
  && (if non_nil r.(r_Config).(ec_RootfsSnapshot)
      then negb (bool_decide (snap = RSS_UNSPECIFIED)) else snapshot_empty r.(r_RootfsSnapshot))
  && (negb (bool_decide (snap = RSS_READY)) || bool_decide (r.(r_Status) = RUN_SUCCEEDED))
  && (negb (bool_decide (snap = RSS_FAILED)) || IsTerminal r.(r_Status))
  && (r.(r_CreatedAt) <=? r.(r_UpdatedAt))
  && (is_nil r.(r_ExitCode) || bool_decide (r.(r_Status) = RUN_SUCCEEDED)
      || bool_decide (r.(r_Status) = RUN_FAILED)).

Definition stored_state (s : AllocationLifecycleState) : bool :=
  match s with
  | ALS_BOUND | ALS_STARTING | ALS_ACTIVE | ALS_RELEASING | ALS_RELEASED => true
  | _ => false
  end.
Definition check_alloc (a : AllocRow) : bool :=
  stored_state a.(a_State) && (0 <? a.(a_CPUMilli)) && (0 <=? a.(a_MemoryBytes))
  && (0 <=? a.(a_EphemeralBytes)) && (a.(a_CreatedAt) <=? a.(a_UpdatedAt)).

(** [length(btrim(claim_owner)) > 0]: some byte is not a space. *)
Definition not_blank (s : string) : bool := negb (all_bytes (fun c => Ascii.eqb c " ") s).
Definition check_queue (q : QueueRow) : bool :=
  (0 <=? q.(q_Attempts)) && (q.(q_Attempts) <=? 2 ^ 31 - 1) && (q.(q_CreatedAt) <=? q.(q_UpdatedAt))
  && ((String.eqb q.(q_ClaimOwner) "" && is_nil q.(q_ClaimExpiresAt))
      || (not_blank q.(q_ClaimOwner) && non_nil q.(q_ClaimExpiresAt))).
Definition check_grant (g : GrantRow) : bool :=
  (bool_decide (g.(g_Purpose) = PURPOSE_INTERACTIVE) || bool_decide (g.(g_Purpose) = PURPOSE_RUN_OUTPUT))
  && (0 <? g.(g_Revision)) && (g.(g_CreatedAt) <? g.(g_ExpiresAt)) && not_blank g.(g_TokenHash).

Definition check_violation : error := Sentinel "check_violation".
Definition unique_violation : error := Sentinel "unique_violation".
Definition foreign_key_violation : error := Sentinel "foreign_key_violation".

(** The trigger [freeze_allocation_output_expiry], on the value before it. *)
Definition OutputRetention : Z := 15 * Minute.
Definition freeze_allocation_output_expiry (old : option time) (a : AllocRow) : AllocRow :=
  let expires :=
    if IsCleanupState a.(a_State)
    then match old with Some t => Some t | None => Some (Add a.(a_UpdatedAt) OutputRetention) end
    else None in
  mkAlloc a.(a_RunID) a.(a_NodeID) a.(a_State) a.(a_CPUMilli) a.(a_MemoryBytes) a.(a_EphemeralBytes)
    a.(a_CreatedAt) a.(a_UpdatedAt) a.(a_NodeActiveAt) expires.

(** ** Transactions

    A statement or a sequence of statements.  An error leaves the state the
    transaction had reached: [withTx] decides whether it is committed. *)
Definition Tx (A : Type) : Type := DB -> DB * result A.
#[export] Instance tx_ret : MRet Tx := fun _ a db => (db, Ok a).
#[export] Instance tx_bind : MBind Tx := fun _ _ f m db =>
  match m db with
  | (db', Ok a) => f a db'
  | (db', Err e) => (db', Err e)
  end.
#[global] Typeclasses Opaque Tx.

Definition fail {A} (e : error) : Tx A := fun db => (db, Err e).
Definition gets {A} (f : DB -> A) : Tx A := fun db => (db, Ok (f db)).
Definition modify (f : DB -> DB) : Tx () := fun db => (f db, Ok ()).
Definition lift {A} (r : result A) : Tx A := fun db => (db, r).
Definition wrap {A} (format : string) (m : Tx A) : Tx A := fun db =>
  match m db with
  | (db', Err e) => (db', Err (Wrapf format [] e))
  | r => r
  end.
Definition guard_tx (b : bool) (e : error) : Tx () := if b then mret () else fail e.
Definition when_tx (b : bool) (m : Tx ()) : Tx () := if b then m else mret ().
Fixpoint for_tx {A} (body : A -> Tx ()) (l : list A) : Tx () :=
  match l with
  | [] => mret ()
  | x :: rest => _ ← body x; for_tx body rest
  end.

(** [ShouldCommitError]: [errors.As] finds a [CommitError] in the chain. *)
Fixpoint ShouldCommitError (e : error) : bool :=
  match e with
  | Committed _ => true
  | Wrapf _ _ cause => ShouldCommitError cause
  | _ => false
  end.

(** [withTx] of the run store. *)
Definition withTx {A} (fn : Tx A) : Tx A := fun db =>
  match fn db with
  | (db', Ok a) => (db', Ok a)
  | (db', Err e) => (if ShouldCommitError e then db' else db, Err e)
  end.
(** [withTx] of the admin store: an error always rolls back. *)
Definition withTx_admin {A} (fn : Tx A) : Tx A := fun db =>
  match fn db with
  | (db', Ok a) => (db', Ok a)
  | (_, Err e) => (db, Err e)
  end.

(** *** Statements

    [UPDATE .. WHERE key = id AND guard]: the number of rows changed. *)
Definition update_run (id : string) (guard : RunRow -> bool) (f : RunRow -> RunRow) : Tx Z := fun db =>
  match db.(runs) !! id with
  | Some r =>
      if guard r
      then if check_run (f r) then (set_runs db (<[id := f r]> db.(runs)), Ok 1)
           else (db, Err check_violation)
      else (db, Ok 0)
  | None => (db, Ok 0)
  end.
Definition update_allocation (id : string) (guard : AllocRow -> bool) (f : AllocRow -> AllocRow) : Tx Z := fun db =>
  match db.(allocations) !! id with
  | Some a =>
      if guard a
      then let a' := freeze_allocation_output_expiry a.(a_OutputExpiresAt) (f a) in
           if check_alloc a' then (set_allocations db (<[id := a']> db.(allocations)), Ok 1)
           else (db, Err check_violation)
      else (db, Ok 0)
  | None => (db, Ok 0)
  end.
Definition update_queue (id : string) (guard : QueueRow -> bool) (f : QueueRow -> QueueRow) : Tx Z := fun db =>
  match db.(allocation_reconcile_queue) !! id with
  | Some q =>
      if guard q
      then if check_queue (f q)
           then (set_queue db (<[id := f q]> db.(allocation_reconcile_queue)), Ok 1)
           else (db, Err check_violation)
      else (db, Ok 0)
  | None => (db, Ok 0)
  end.
Definition delete_queue (id : string) (guard : QueueRow -> bool) : Tx Z := fun db =>
  match db.(allocation_reconcile_queue) !! id with
  | Some q =>
      if guard q then (set_queue db (delete id db.(allocation_reconcile_queue)), Ok 1) else (db, Ok 0)
  | None => (db, Ok 0)
  end.

(** The [SET] clauses of the run and allocation updates. *)
Definition run_set_status (status : RunStatus) (exitCode : option Z) (code : WorkloadDiagnosticCode)
    (message : string) (now : time) (r : RunRow) : RunRow :=
  mkRun r.(r_Namespace) r.(r_EnvironmentID) status r.(r_Config) r.(r_EnvironmentSpec) r.(r_ResolvedSpec)
    r.(r_Labels) (r.(r_Version) + 1) r.(r_CreatedAt) now exitCode code message r.(r_RootfsSnapshot).
Definition run_set_snapshot (snapshot : RootfsSnapshotResult) (now : time) (r : RunRow) : RunRow :=
  mkRun r.(r_Namespace) r.(r_EnvironmentID) r.(r_Status) r.(r_Config) r.(r_EnvironmentSpec) r.(r_ResolvedSpec)
    r.(r_Labels) (r.(r_Version) + 1) r.(r_CreatedAt) now r.(r_ExitCode) r.(r_DiagnosticCode) r.(r_Message)
    snapshot.
Definition alloc_set_state (state : AllocationLifecycleState) (now : time) (active : option time)
    (a : AllocRow) : AllocRow :=
  mkAlloc a.(a_RunID) a.(a_NodeID) state a.(a_CPUMilli) a.(a_MemoryBytes) a.(a_EphemeralBytes)
    a.(a_CreatedAt) now active a.(a_OutputExpiresAt).
Definition always {A} (_ : A) : bool := true.
