(* ===== verification/Reconcile.v ===== *)
(** * Reconcile queue, access grants, tunnels and capability rows

    The shared statements of [postgres/allocation] ([reconcile_queue.go],
    [access_grants.go], [capability.go]), [postgres/tunnel/revoke.go] and
    [postgres/run/secret_references.go], as transactions on the store. *)
From S2P Require Import Prelude Proto Resource Allocation Capability Node Execution Store.

#[export] Instance timestamp_eq_dec : EqDecision Timestamp.
Proof. solve_decision. Defined.
#[export] Instance condition_eq_dec : EqDecision CapabilityCondition.
Proof. solve_decision. Defined.
#[export] Instance condition_set_eq_dec : EqDecision CapabilityConditionSet.
Proof. solve_decision. Defined.

(** ** Image references (lib/go/imageref) *)
Module imageref.
Definition Normalize (ref : string) : string :=
  TrimPrefix (TrimPrefix (TrimSpace ref) "https://") "http://".

(** [ref] up to the first [c], [None] when there is none. *)
Fixpoint before_first (c : ascii) (s : string) : option string :=
  match s with
  | EmptyString => None
  | String a s' =>
      if Ascii.eqb a c then Some "" else String a <$> before_first c s'
  end.
(** [ref] up to its last colon when no slash follows it. *)
Fixpoint drop_tag (s : string) : option string :=
  match s with
  | EmptyString => None
  | String a s' =>
      match drop_tag s' with
      | Some p => Some (String a p)
      | None => if Ascii.eqb a ":" && negb (Contains_byte "/" s') then Some "" else None
      end
  end.

Definition WithDigest (ref digest : string) : result string :=
  let ref := Normalize ref in
  let digest := TrimSpace digest in
  let '(algorithm, encoded, ok) := Cut ":" digest in
  if String.eqb ref "" || negb ok || negb (String.eqb algorithm "sha256") || negb (str_len encoded =? 64)
  then Err (Errorf "image reference and sha256 digest are required" [])
  else
    let ref := default ref (before_first "@" ref) in
    let ref := default ref (drop_tag ref) in
    if String.eqb (TrimSpace ref) "" then Err (Errorf "image repository is required" [])
    else Ok (ref +:+ "@" +:+ digest).
End imageref.

Example WithDigest_examples :
  let d := "sha256:" +:+ sconcat "" (repeat "ab" 32) in
  imageref.WithDigest " https://localhost:5001/a/b:dev@x " d = Ok ("localhost:5001/a/b@" +:+ d) /\
  imageref.WithDigest "localhost:5001/a/b" d = Ok ("localhost:5001/a/b@" +:+ d) /\
  is_Ok (imageref.WithDigest "a:b" "sha256:00") = false.
Proof. vm_compute. repeat split. Qed.

(** ** Reconcile queue (reconcile_queue.go) *)
Record ReconcileItem := mkItem {
  ri_AllocationID : string; ri_RunID : string; ri_EnvironmentID : string;
  ri_LifecycleState : AllocationLifecycleState; ri_NodeID : string; ri_NodeTarget : string;
  ri_ReconcileAttempts : Z; ri_LastReconcileError : string; ri_ClaimOwner : string;
  ri_NextRunAt : time; ri_EligibleAt : time; ri_OutputExpiresAt : option time;
  ri_CapabilityRequirements : list CapabilityRequirement;
  ri_DeclaredOutputs : list (option DeclaredOutput);
  ri_RootfsSnapshotRequested : bool; ri_BaseImageRef : string; ri_RegistryCredentialID : string }.

(** [ORDER BY capability_key_id]. *)
Definition key_id_less (a b : string * CapabilityRequirement) : bool := string_lt a.1 b.1.
Definition requirements_of (db : DB) (allocationID : string) : list (string * CapabilityRequirement) :=
  sort_slice key_id_less
    (map (fun kv : string * string * CapabilityRequirement => (kv.1.2, kv.2))
       (List.filter (fun kv : string * string * CapabilityRequirement => String.eqb kv.1.1 allocationID)
          (map_to_list db.(allocation_capability_requirements)))).

(** Does the lifecycle state accept the intent?  The statements pass the intent
    as its number. *)
Definition intent_accepts (intent : ReconcileIntent) (state : AllocationLifecycleState) : bool :=
  match intent with
  | EnsurePresent =>
      bool_decide (state = ALS_BOUND) || bool_decide (state = ALS_STARTING) || bool_decide (state = ALS_ACTIVE)
  | EnsureAbsent => bool_decide (state = ALS_RELEASING) || bool_decide (state = ALS_RELEASED)
  | IntentUnspecified => false
  end.

Definition intent_number (intent : ReconcileIntent) : Z :=
  match intent with IntentUnspecified => 0 | EnsurePresent => 1 | EnsureAbsent => 2 end.

(** A row of [ranked], before the ranking. *)
Record due_row := mkDue { d_ID : string; d_NodeID : string; d_NextRunAt : time }.
Definition live_claim (q : QueueRow) (now : time) : bool :=
  match q.(q_ClaimExpiresAt) with None => false | Some t => now <? t end.

Definition due_rows (db : DB) (now : time) : list due_row :=
  omap (fun kv : string * QueueRow =>
          let '(id, q) := kv in
          a ← db.(allocations) !! id;
          _ ← db.(runs) !! a.(a_RunID);
          _ ← db.(nodes) !! a.(a_NodeID);
          if (q.(q_NextRunAt) <=? now) && negb (live_claim q now)
          then Some (mkDue id a.(a_NodeID) q.(q_NextRunAt)) else None)
    (map_to_list db.(allocation_reconcile_queue)).

(** [ORDER BY next_run_at, allocation_id]. *)
Definition due_less (a b : due_row) : bool :=
  (a.(d_NextRunAt) <? b.(d_NextRunAt))
  || ((a.(d_NextRunAt) =? b.(d_NextRunAt)) && string_lt a.(d_ID) b.(d_ID)).
(** [ROW_NUMBER() OVER (PARTITION BY node_id ORDER BY ..)]. *)
Definition node_rank (rows : list due_row) (row : due_row) : nat :=
  S (length (List.filter (fun y => String.eqb y.(d_NodeID) row.(d_NodeID) && due_less y row) rows)).
Definition claim_less (rows : list due_row) (a b : due_row) : bool :=
  (node_rank rows a <? node_rank rows b)%nat
  || ((node_rank rows a =? node_rank rows b)%nat && due_less a b).

Definition claim_row (owner : string) (expires now : time) (q : QueueRow) : QueueRow :=
  mkQueue q.(q_NextRunAt) q.(q_Attempts) q.(q_LastError) owner (Some expires) q.(q_CreatedAt) now.

Definition greatest (q : QueueRow) : time :=
  let t := Z.max q.(q_NextRunAt) q.(q_UpdatedAt) in
  match q.(q_ClaimExpiresAt) with None => t | Some c => Z.max t c end.

Definition snapshot_requested (r : RunRow) : bool :=
  non_nil r.(r_Config).(ec_RootfsSnapshot) && bool_decide (r.(r_Status) = RUN_SUCCEEDED)
  && bool_decide (r.(r_RootfsSnapshot).(ss_Status) = RSS_PENDING).

(** The scan of one returned row, from the database before the update. *)
Definition scan_item (db : DB) (owner : string) (id : string) : result ReconcileItem :=
  match q ← db.(allocation_reconcile_queue) !! id;
        a ← db.(allocations) !! id;
        r ← db.(runs) !! a.(a_RunID);
        n ← db.(nodes) !! a.(a_NodeID); Some (q, a, r, n) with
  | None => Err (Sentinel "no rows")
  | Some (q, a, r, n) =>
      let image := deref r.(r_EnvironmentSpec).(es_Image) in
      let requested := snapshot_requested r in
      ref ← (if requested
             then wrap_err "build rootfs snapshot contract for allocation %s: %w" [AStr id]
                    (imageref.WithDigest image.(is_Ref)
                       (deref r.(r_ResolvedSpec).(rs_ImageDescriptor)).(id_Digest))
             else Ok image.(is_Ref));
      Ok (mkItem id a.(a_RunID) r.(r_EnvironmentID) a.(a_State) a.(a_NodeID) n.(nr_NodeTarget)
            q.(q_Attempts) q.(q_LastError) owner q.(q_NextRunAt) (greatest q) a.(a_OutputExpiresAt)
            (map snd (requirements_of db id)) r.(r_Config).(ec_DeclaredOutputs)
            requested ref image.(is_RegistryCredentialID))
  end.

Section store.
Context `{GoRuntime} `{SqlTime}.

(** The rows one call claims.  [locked] are the queue rows other transactions
    hold: [SKIP LOCKED] passes over them. *)
Definition claim_candidates (db : DB) (locked : gset string) (limit : Z) (now : time) : list string :=
  let rows := due_rows db now in
  map d_ID (take (Z.to_nat limit)
    (List.filter (fun row => negb (bool_decide (row.(d_ID) ∈ locked)))
       (sort_slice (claim_less rows) rows))).

(** The statement commits before its rows are scanned. *)
Definition ClaimDueReconcileItems (locked : gset string) (owner : string) (limit : Z) (now : time)
    (claimTTL : Z) : Tx (list ReconcileItem) := fun db =>
  let owner := TrimSpace owner in
  if String.eqb owner "" then (db, Err (Errorf "reconcile claim owner is required" []))
  else
    let limit := if limit <=? 0 then DefaultReconcileLimit else limit in
    if claimTTL <=? 0 then (db, Err (Errorf "reconcile claim TTL must be positive" []))
    else
      let claimExpiresAt := sql_time (Add now claimTTL) in
      let ids := claim_candidates db locked limit (sql_time now) in
      let claimed := claim_row owner claimExpiresAt (sql_time now) in
      let queue := db.(allocation_reconcile_queue) in
      let queue' := map_imap (fun id q => Some (if bool_decide (id ∈ ids) then claimed q else q)) queue in
      if forallb (fun id => match queue !! id with Some q => check_queue (claimed q) | None => true end) ids
      then (set_queue db queue',
            foldM (fun out id => item ← scan_item db owner id; Ok (out ++ [item])) []
              (sort_slice string_lt ids))
      else (db, Err (Wrapf "claim reconcile queue: %w" [] check_violation)).

(** Does [owner] hold a live claim on the item, for an intent its allocation
    accepts? *)
Definition claim_held (db : DB) (allocationID owner : string) (intent : ReconcileIntent) (now : time) : bool :=
  match db.(allocation_reconcile_queue) !! allocationID, db.(allocations) !! allocationID with
  | Some q, Some a =>
      String.eqb q.(q_ClaimOwner) owner && live_claim q now && intent_accepts intent a.(a_State)
  | _, _ => false
  end.

Definition RequireReconcileClaim (allocationID owner : string) (intent : ReconcileIntent) (now : time) : Tx () :=
  held ← gets (fun db => claim_held db (TrimSpace allocationID) (TrimSpace owner) intent (sql_time now));
  guard_tx held ErrReconcileClaimLost.

Definition RenewReconcileClaim (allocationID owner : string) (intent : ReconcileIntent) (now : time)
    (claimTTL : Z) : Tx bool :=
  if claimTTL <=? 0 then fail (Errorf "reconcile claim TTL must be positive" [])
  else
    let id := TrimSpace allocationID in
    held ← gets (fun db => claim_held db id (TrimSpace owner) intent (sql_time now));
    n ← wrap "renew allocation reconcile claim: %w"
      (update_queue id (fun _ => held) (fun q =>
        mkQueue q.(q_NextRunAt) q.(q_Attempts) q.(q_LastError) q.(q_ClaimOwner)
          (Some (sql_time (Add now claimTTL))) q.(q_CreatedAt) (sql_time now)));
    mret (n =? 1).

Definition schedule_conflict (req : ScheduleReconcileRequest) (next now : time) (q : QueueRow) : QueueRow :=
  mkQueue (Z.min q.(q_NextRunAt) next)
    (if req.(sr_IncrementAttempts) then q.(q_Attempts) + 1 else 0)
    (TrimSpace req.(sr_LastReconcileError))
    (if live_claim q now then q.(q_ClaimOwner) else "")
    (if live_claim q now then q.(q_ClaimExpiresAt) else None)
    q.(q_CreatedAt) now.
Definition schedule_insert (req : ScheduleReconcileRequest) (next now : time) : QueueRow :=
  mkQueue next (if req.(sr_IncrementAttempts) then 1 else 0) (TrimSpace req.(sr_LastReconcileError))
    "" None now now.

Definition ScheduleReconcile (req : ScheduleReconcileRequest) (now : time) : Tx () := fun db =>
  let next := sql_time (if IsZero req.(sr_NextRunAt) then now else req.(sr_NextRunAt)) in
  let now := sql_time now in
  let id := TrimSpace req.(sr_AllocationID) in
  let rejected := Errorf "allocation %q lifecycle does not accept reconcile intent %d"
                    [AStr req.(sr_AllocationID); AInt (intent_number req.(sr_Intent))] in
  match db.(allocations) !! id with
  | None => (db, Err rejected)
  | Some a =>
      if negb (intent_accepts req.(sr_Intent) a.(a_State)) then (db, Err rejected)
      else
        let row := match db.(allocation_reconcile_queue) !! id with
                   | Some q => schedule_conflict req next now q
                   | None => schedule_insert req next now
                   end in
        if check_queue row
        then (set_queue db (<[id := row]> db.(allocation_reconcile_queue)), Ok ())
        else (db, Err (Wrapf "schedule allocation reconcile: %w" [] check_violation))
  end.

Definition ScheduleClaimedReconcile (req : ScheduleReconcileRequest) (owner : string) (now : time) : Tx bool :=
  let next := sql_time (if IsZero req.(sr_NextRunAt) then now else req.(sr_NextRunAt)) in
  let now := sql_time now in
  let id := TrimSpace req.(sr_AllocationID) in
  held ← gets (fun db => claim_held db id (TrimSpace owner) req.(sr_Intent) now);
  n ← wrap "schedule claimed allocation reconcile: %w"
    (update_queue id (fun _ => held) (fun q =>
      mkQueue next (if req.(sr_IncrementAttempts) then q.(q_Attempts) + 1 else q.(q_Attempts))
        (TrimSpace req.(sr_LastReconcileError)) "" None q.(q_CreatedAt) now));
  mret (n =? 1).

(** ** Access grants (access_grants.go) *)
Definition NextAccessGrantRevision (nodeID : string) : Tx Z := fun db =>
  match db.(nodes) !! nodeID with
  | None => (db, Err (Wrapf "advance node access grant cursor: %w" [] foreign_key_violation))
  | Some _ =>
      let revision := match db.(node_access_grant_cursors) !! nodeID with Some r => r + 1 | None => 1 end in
      if revision <=? MaxInt64
      then (set_cursors db (<[nodeID := revision]> db.(node_access_grant_cursors)), Ok revision)
      else (db, Err (Wrapf "advance node access grant cursor: %w" [] check_violation))
  end.

Definition open_interactive (allocationID : string) (g : GrantRow) : bool :=
  String.eqb g.(g_AllocationID) allocationID && bool_decide (g.(g_Purpose) = PURPOSE_INTERACTIVE)
  && negb g.(g_Revoked).
Definition revoke_grant (revision : Z) (g : GrantRow) : GrantRow :=
  mkGrant g.(g_AllocationID) g.(g_NodeID) g.(g_Purpose) g.(g_ExpiresAt) revision true g.(g_TokenHash)
    g.(g_CreatedAt).

(** The owner is read from any open grant of the allocation; a foreign key
    makes them agree. *)
Definition RevokeInteractiveAccessGrants (allocationID : string) : Tx () :=
  open ← gets (fun db => List.filter (fun kv => open_interactive allocationID kv.2)
                           (map_to_list db.(allocation_access_grants)));
  match open with
  | [] => mret ()
  | (_, g) :: _ =>
      revision ← NextAccessGrantRevision g.(g_NodeID);
      modify (fun db => set_grants db
        ((fun g => if open_interactive allocationID g then revoke_grant revision g else g)
           <$> db.(allocation_access_grants)))
  end.

(** ** Tunnels (tunnel/revoke.go) *)
Definition active_tunnel (t : TunnelRow) : bool :=
  match t.(t_Status) with TUNNEL_PENDING | TUNNEL_RUNNING | TUNNEL_DEGRADED => true | _ => false end.
Definition tunnel_set_status (status : TunnelStatus) (reason boundAddr : string) (revision : Z)
    (now : time) (t : TunnelRow) : TunnelRow :=
  mkTunnel t.(t_AllocationID) t.(t_CreatorPrincipalID) t.(t_RemotePort) t.(t_NodeEdgeTarget) t.(t_RelayID)
    t.(t_ClientEdgeTarget) status reason boundAddr t.(t_ClientTokenHash) t.(t_NodeTokenEncrypted)
    t.(t_NodeTokenHash) revision t.(t_CreatedAt) now t.(t_ExpiresAt) t.(t_ReadyAt) t.(t_LastPeerEventAt)
    t.(t_BytesIn) t.(t_BytesOut).

(** One statement: the sessions that are due move to [status] under one new
    revision, and each leaves an event (in the order of the sessions; the
    statement leaves the order open).  The revision is a 64-bit integer and
    [updated_at] may not precede [created_at]. *)
Definition session_less (a b : string * TunnelRow) : bool := string_lt a.1 b.1.
Definition close_tunnels (due : TunnelRow -> bool) (status : TunnelStatus) (reason : string)
    (type : TunnelEventType) (code : TunnelReasonCode) (now : time) : Tx () := fun db =>
  let rows := sort_slice session_less
                (List.filter (fun kv => due kv.2) (map_to_list db.(tunnel_sessions))) in
  let revision := db.(tunnel_sessions_revision) + 1 in
  if (length rows =? 0)%nat then (db, Ok ())
  else if forallb (fun kv : string * TunnelRow => kv.2.(t_CreatedAt) <=? now) rows && (revision <=? MaxInt64)
  then
    let events := map (fun kv : string * TunnelRow =>
      mkTunnelEvent kv.1 type status code reason kv.2.(t_BoundAddr) "" PEER_UNSPECIFIED 0 0 now) rows in
    (set_tunnels db
       ((fun t => if due t then tunnel_set_status status reason t.(t_BoundAddr) revision now t else t)
          <$> db.(tunnel_sessions))
       revision (db.(tunnel_session_events) ++ events), Ok ())
  else (db, Err check_violation).

Definition RevokeActiveForAllocationsTx (ids : list string) (reason : string) (code : TunnelReasonCode)
    (now : time) : Tx () :=
  if (length ids =? 0)%nat then mret ()
  else
    let reason := if String.eqb (TrimSpace reason) "" then "allocation deleted" else TrimSpace reason in
    let code := if bool_decide (code = TRC_UNSPECIFIED) then TRC_ALLOCATION_ENDED else code in
    close_tunnels (fun t => bool_decide (t.(t_AllocationID) ∈ ids) && active_tunnel t)
      TUNNEL_REVOKED reason TET_REVOKED code (sql_time now).

(** ** Secret references (run/secret_references.go) *)
Definition requiredRunSecretIDs (config : ExecutionConfig) (spec : EnvironmentSpec) : list string :=
  let registry := TrimSpace (deref spec.(es_Image)).(is_RegistryCredentialID) in
  let env := omap (fun ref => r ← ref; if r.(se_Optional) then None else Some (TrimSpace r.(se_SecretID)))
               config.(ec_SecretEnv) in
  let files := omap (fun ref => r ← ref; if r.(sf_Optional) then None else Some (TrimSpace r.(sf_SecretID)))
                 config.(ec_SecretFiles) in
  sort_slice string_lt
    (elements (list_to_set (List.filter (fun id => negb (String.eqb id "")) (registry :: env ++ files)) : gset string)).

Definition insertRunSecretReferences (runID namespace : string) (ids : list string) : Tx () :=
  for_tx (fun secretID db =>
    if bool_decide (db.(secrets) !! secretID = Some namespace)
    then (set_run_secrets db ({[(runID, secretID)]} ∪ db.(run_secret_references)), Ok ())
    else (db, Err (Status FailedPrecondition "required Secret %q does not exist in namespace %q"
                     [AStr secretID; AStr namespace]))) ids.

Definition deleteRunSecretReferences (runID : string) : Tx () :=
  modify (fun db => set_run_secrets db
    (filter (fun p => p.1 <> TrimSpace runID) db.(run_secret_references))).
Definition deleteAllocationRunSecretReferences (allocationID : string) : Tx () :=
  modify (fun db => match db.(allocations) !! TrimSpace allocationID with
                    | None => db
                    | Some a => set_run_secrets db
                                  (filter (fun p => p.1 <> a.(a_RunID)) db.(run_secret_references))
                    end).

(** ** Capability rows (capability.go) *)
Definition InsertCapabilityRequirements (allocationID : string)
    (requirements : list (option CapabilityRequirement)) : Tx () :=
  _ ← lift (wrap_err "validate capability requirements: %w" [] (ValidateRequirements requirements));
  for_tx (fun requirement db =>
    match requirement with
    | None => (db, Ok ())
    | Some r =>
        let keyID := KeyID_or_empty r.(cr_Key) in
        let key := (TrimSpace allocationID, keyID) in
        if negb (not_blank keyID) then (db, Err check_violation)
        else match db.(allocation_capability_requirements) !! key with
             | Some _ => (db, Err (Wrapf "insert allocation capability requirement %q: %w" [AStr keyID] unique_violation))
             | None => (set_requirements db (<[key := r]> db.(allocation_capability_requirements)), Ok ())
             end
    end) requirements.

Definition condition_key (c : option CapabilityCondition) : string :=
  KeyID_or_empty (c ← c; c.(cc_Key)).
Definition condition_less (a b : option CapabilityCondition) : bool :=
  string_lt (condition_key a) (condition_key b).

Definition canonicalCapabilityConditionSet (set : option CapabilityConditionSet) : result CapabilityConditionSet :=
  match set with
  | None => Err (Errorf "capability condition set is required" [])
  | Some set =>
      _ ← for_each (fun _ c => _ ← KeyID (c ← c; c.(cc_Key)); Ok ()) set.(ccs_Conditions);
      Ok (mkConditionSet set.(ccs_ObservedAt) (sort_slice condition_less set.(ccs_Conditions)))
  end.

(** The loop of [validateStoredRequirementConditionKeys], deleting from [stored]. *)
Definition stored_step (stored : gset string) (c : option CapabilityCondition) : result (gset string) :=
  keyID ← KeyID (c ← c; c.(cc_Key));
  if bool_decide (keyID ∈ stored) then Ok (stored ∖ {[keyID]})
  else Err (Errorf "capability condition key %q is not an allocation requirement" [AStr keyID]).
Definition validateStoredRequirementConditionKeys (db : DB) (allocationID : string)
    (conditions : list (option CapabilityCondition)) : result () :=
  let stored := list_to_set (map fst (requirements_of db (TrimSpace allocationID))) : gset string in
  if negb (Z.of_nat (size stored) =? Z.of_nat (length conditions))
  then Err (Errorf "capability condition keys do not exactly match allocation requirements" [])
  else
    stored ← foldM stored_step stored conditions;
    if negb (size stored =? 0)%nat
    then Err (Errorf "capability condition set omits allocation requirements" []) else Ok ().

Definition ReplaceCapabilityConditions (allocationID : string) (set : option CapabilityConditionSet)
    (now : time) : Tx () :=
  canonical ← lift (canonicalCapabilityConditionSet set);
  _ ← lift (wrap_err "validate capability condition set: %w" [] (ValidateConditionSet (Some canonical) now));
  let id := TrimSpace allocationID in
  row ← gets (fun db => db.(allocations) !! id);
  match row with
  | None => fail (Wrapf "lock allocation capability conditions: %w" [] (Sentinel "no rows"))
  | Some a =>
      match a.(a_State) with
      | ALS_STOPPED | ALS_RELEASING | ALS_RELEASED => mret ()
      | _ =>
          checked ← gets (fun db => validateStoredRequirementConditionKeys db allocationID canonical.(ccs_Conditions));
          _ ← lift checked;
          existing ← gets (fun db => db.(allocation_capability_conditions) !! id);
          let incomingAt := AsTime canonical.(ccs_ObservedAt) in
          let persist := modify (fun db => set_conditions db
            (<[id := (sql_time incomingAt, canonical)]> db.(allocation_capability_conditions))) in
          match existing with
          | Some (existingObservedAt, stored) =>
              if Before incomingAt existingObservedAt then mret ()
              else if incomingAt =? existingObservedAt
              then guard_tx (bool_decide (stored = canonical))
                     (Errorf "capability conditions conflict at observed_at %s" [AInt incomingAt])
              else persist
          | None => persist
          end
      end
  end.
End store.
