(* ===== verification/RunStore.v ===== *)
(** * The run store

    The transactions of [postgres/run] that move Runs and Allocations through
    their lifecycle ([allocation_report.go], [run_mutation.go], [reconcile.go],
    [access_grant_issue.go], [capability_condition_report.go],
    [inventory_expectations.go], [execution_authority.go]) and the operator
    transactions of [postgres/admin] ([allocation_lifecycle.go],
    [allocation_lifecycle_state.go]).  Identifiers the code draws at random
    ([uuid.NewString], access tokens) are arguments. *)
From S2P Require Import Prelude Proto Resource Allocation Capability Node Execution Store Reconcile.

Definition not_terminal (r : RunRow) : bool := negb (IsTerminal r.(r_Status)).
Definition node_active (n : NodeRecord) : bool := String.eqb n.(nr_Lifecycle) LifecycleActive.
Definition no_rows : error := Sentinel "no rows".

(** ** Lifecycle reports (allocation_report.go) *)
Record reportedAllocation := mkReported {
  ra_allocationID : string; ra_runID : string; ra_nodeID : string;
  ra_lifecycleState : AllocationLifecycleState; ra_runStatus : RunStatus;
  ra_exitCode : option Z; ra_diagnosticCode : WorkloadDiagnosticCode; ra_message : string }.

(** A code the schema does not name is stored as its number and reads back as
    unspecified. *)
Definition parseWorkloadDiagnosticCode (stored : WorkloadDiagnosticCode) : WorkloadDiagnosticCode :=
  match stored with WDC_UNRECOGNIZED _ => WDC_UNSPECIFIED | c => c end.

Definition observation_id (obs : option AllocationLifecycleObservation) : string :=
  TrimSpace (deref obs).(lo_AllocationID).
Definition allocationIDsFromRunObservations (l : list (option AllocationLifecycleObservation)) : list string :=
  sort_slice string_lt
    (elements (list_to_set (List.filter (fun id => negb (String.eqb id "")) (map observation_id l)) : gset string)).

Definition reported_row (db : DB) (id : string) : option reportedAllocation :=
  a ← db.(allocations) !! id;
  r ← db.(runs) !! a.(a_RunID);
  Some (mkReported id a.(a_RunID) a.(a_NodeID) a.(a_State) r.(r_Status) r.(r_ExitCode)
          (parseWorkloadDiagnosticCode r.(r_DiagnosticCode)) r.(r_Message)).
Definition lockReportedAllocations (db : DB) (ids : list string) : gmap string reportedAllocation :=
  list_to_map (omap (fun id => (fun row => (id, row)) <$> reported_row db id) ids).

Definition runAllocationObservationMatches (alloc : reportedAllocation) (state : AllocationLifecycleState)
    (status : RunStatus) (obs : AllocationLifecycleObservation) (code : WorkloadDiagnosticCode)
    (message : string) : bool :=
  bool_decide (alloc.(ra_lifecycleState) = state) && bool_decide (alloc.(ra_runStatus) = status)
  && bool_decide (alloc.(ra_exitCode) = obs.(lo_ExitCode))
  && bool_decide (alloc.(ra_diagnosticCode) = code) && String.eqb (TrimSpace alloc.(ra_message)) message.

Definition hasTerminalAllocationObservation (l : list (option AllocationLifecycleObservation)) : bool :=
  existsb (fun obs => bool_decide ((deref obs).(lo_State) = ALS_STOPPED)) l.

Section store.
Context `{GoRuntime} `{SqlTime}.

(** The side effects of a terminal observation. *)
Definition terminate_allocation (runID allocationID : string) (now : time) : Tx () :=
  _ ← deleteRunSecretReferences runID;
  _ ← RevokeActiveForAllocationsTx [allocationID] "run allocation terminated" TRC_ALLOCATION_ENDED now;
  _ ← RevokeInteractiveAccessGrants allocationID;
  ScheduleReconcile (mkSchedule allocationID EnsureAbsent now "" false) now.

(** The two updates of an accepted observation. *)
Definition persist_observation (alloc : reportedAllocation) (state : AllocationLifecycleState)
    (status : RunStatus) (obs : AllocationLifecycleObservation) (message : string) (now : time) : Tx () :=
  let activeAt := sql_time (NodeActiveObservationTime (Some obs) now) in
  _ ← wrap "update allocation lifecycle: %w"
    (update_allocation alloc.(ra_allocationID) always (fun a =>
       alloc_set_state state (sql_time now)
         (if is_nil a.(a_NodeActiveAt)
             && (bool_decide (state = ALS_STARTING) || bool_decide (state = ALS_ACTIVE))
          then Some activeAt else a.(a_NodeActiveAt)) a));
  _ ← wrap "update run status: %w"
    (update_run alloc.(ra_runID) not_terminal
       (run_set_status status obs.(lo_ExitCode) obs.(lo_DiagnosticCode) message (sql_time now)));
  mret ().

(** One iteration of the loop: the locked projections are threaded through. *)
Definition report_one (nodeID : string) (now : time) (locked : gmap string reportedAllocation)
    (obs : option AllocationLifecycleObservation) : Tx (gmap string reportedAllocation) :=
  match locked !! observation_id obs, obs with
  | None, _ | _, None => mret locked
  | Some alloc, Some o =>
      match ValidateObservationBinding alloc.(ra_nodeID) nodeID with
      | Err e => fail (Wrapf "reject allocation %q lifecycle observation: %w" [AStr alloc.(ra_allocationID)] e)
      | Ok _ =>
          if negb (AcceptsObservation alloc.(ra_lifecycleState) alloc.(ra_nodeID) nodeID obs) then mret locked
          else
            let observedState := o.(lo_State) in
            let message := TrimSpace o.(lo_Message) in
            let code := o.(lo_DiagnosticCode) in
            let runStatus := RunStatusFromObservation observedState o.(lo_ExitCode) code in
            let persistedState :=
              if bool_decide (observedState = ALS_STOPPED) then ALS_RELEASING else observedState in
            if runAllocationObservationMatches alloc persistedState runStatus o code message then mret locked
            else
              _ ← persist_observation alloc persistedState runStatus o message now;
              _ ← when_tx (IsTerminal runStatus)
                    (terminate_allocation alloc.(ra_runID) alloc.(ra_allocationID) now);
              mret (<[observation_id obs :=
                       mkReported alloc.(ra_allocationID) alloc.(ra_runID) alloc.(ra_nodeID) persistedState
                         runStatus o.(lo_ExitCode) code message]> locked)
      end
  end.

Fixpoint report_all (nodeID : string) (now : time) (locked : gmap string reportedAllocation)
    (l : list (option AllocationLifecycleObservation)) : Tx () :=
  match l with
  | [] => mret ()
  | obs :: rest => locked ← report_one nodeID now locked obs; report_all nodeID now locked rest
  end.

Definition BatchReportAllocationLifecycle (nodeID : string)
    (l : list (option AllocationLifecycleObservation)) (now : time) : Tx () :=
  withTx (locked ← gets (fun db => lockReportedAllocations db (allocationIDsFromRunObservations l));
          report_all nodeID now locked l).

(** *** Inventory (inventory_expectations.go) *)
Definition created_less (a b : string * AllocRow) : bool :=
  (a.2.(a_CreatedAt) <? b.2.(a_CreatedAt))
  || ((a.2.(a_CreatedAt) =? b.2.(a_CreatedAt)) && string_lt a.1 b.1).
Definition node_allocations (db : DB) (nodeID : string) (states : list AllocationLifecycleState) :
    list (string * AllocRow) :=
  sort_slice created_less
    (List.filter (fun kv : string * AllocRow =>
       String.eqb kv.2.(a_NodeID) nodeID && bool_decide (kv.2.(a_State) ∈ states))
       (map_to_list db.(allocations))).
Definition activeRunInventoryExpectations (db : DB) (nodeID : string) : list NodeInventoryExpectation :=
  map (fun kv => mkExpectation kv.1 (default zero_time kv.2.(a_NodeActiveAt)))
    (node_allocations db (TrimSpace nodeID) [ALS_STARTING; ALS_ACTIVE]).
Definition unavailableRunAllocations (db : DB) (nodeID : string) : list string :=
  map fst (node_allocations db (TrimSpace nodeID) [ALS_BOUND; ALS_STARTING; ALS_ACTIVE]).

Definition stopped_observation (allocationID message : string) (now : time) : AllocationLifecycleObservation :=
  mkLifecycleObservation allocationID ALS_STOPPED None message (Some (timestamppb_New now))
    WDC_RUNTIME_START_ERROR.

(** One transaction per missing allocation; the first error ends the loop. *)
Definition ReconcileNodeInventory (snapshot : NodeInventorySnapshot) (now : time) : Tx () :=
  let nodeID := TrimSpace snapshot.(inv_NodeID) in
  if String.eqb nodeID "" then mret ()
  else
    expected ← gets (fun db => activeRunInventoryExpectations db nodeID);
    for_tx (fun e => BatchReportAllocationLifecycle nodeID
      [Some (stopped_observation e.(exp_AllocationID) MissingFromNodeInventoryMessage now)] now)
      (MissingFromNodeInventory snapshot expected).

Definition ReconcileNodeUnavailable (nodeID : string) (now : time) : Tx () :=
  let nodeID := TrimSpace nodeID in
  if String.eqb nodeID "" then mret ()
  else
    expected ← gets (fun db => unavailableRunAllocations db nodeID);
    for_tx (fun id => BatchReportAllocationLifecycle nodeID
      [Some (stopped_observation id NodeUnavailableMessage now)] now) expected.

(** ** Run mutations (run_mutation.go)

    The Run read back at the end of these transactions is left out; an absent
    row is an error. *)
Definition MarkAllocationCreateFailed (allocationID claimOwner message : string) (now : time) : Tx () :=
  withTx (
    row ← gets (fun db => a ← db.(allocations) !! TrimSpace allocationID; db.(runs) !! a.(a_RunID));
    _ ← guard_tx (non_nil row) (Status NotFound "allocation %q not found" [AStr allocationID]);
    _ ← RequireReconcileClaim allocationID claimOwner EnsurePresent now;
    _ ← wrap "mark allocation releasing after create failure: %w"
      (update_allocation allocationID (fun a => negb (IsCleanupState a.(a_State)))
         (fun a => alloc_set_state ALS_RELEASING (sql_time now) a.(a_NodeActiveAt) a));
    owner ← gets (fun db => a_RunID <$> db.(allocations) !! allocationID);
    _ ← wrap "mark run failed: %w"
      (match owner with
       | None => mret 0
       | Some runID => update_run runID not_terminal (fun r =>
           run_set_status RUN_FAILED r.(r_ExitCode) WDC_RUNTIME_START_ERROR message (sql_time now) r)
       end);
    _ ← deleteAllocationRunSecretReferences allocationID;
    updated ← ScheduleClaimedReconcile (mkSchedule allocationID EnsureAbsent now "" false) claimOwner now;
    guard_tx updated ErrReconcileClaimLost).

(** [runs JOIN allocations]: the allocation of a run, [run_id] being unique. *)
Definition allocation_of_run (db : DB) (runID : string) : option (string * AllocRow) :=
  head (List.filter (fun kv : string * AllocRow => String.eqb kv.2.(a_RunID) runID)
          (map_to_list db.(allocations))).

Definition CancelRun (runID : string) (now : time) : Tx () :=
  withTx (
    let id := TrimSpace runID in
    row ← gets (fun db => r ← db.(runs) !! id; al ← allocation_of_run db id; Some (r, al.1));
    match row with
    | None => fail (Status NotFound "run %q not found" [AStr runID])
    | Some (r, allocationID) =>
        when_tx (not_terminal r) (
          _ ← wrap "cancel run: %w"
            (update_run id always (fun r =>
               run_set_status RUN_CANCELLED r.(r_ExitCode) r.(r_DiagnosticCode) r.(r_Message) (sql_time now) r));
          _ ← wrap "mark allocation releasing: %w"
            (update_allocation allocationID always (fun a =>
               alloc_set_state ALS_RELEASING (sql_time now) a.(a_NodeActiveAt) a));
          _ ← RevokeInteractiveAccessGrants allocationID;
          _ ← RevokeActiveForAllocationsTx [allocationID] "run cancelled" TRC_ALLOCATION_ENDED now;
          _ ← deleteRunSecretReferences id;
          ScheduleReconcile (ScheduleDeleteRequest allocationID now) now)
    end).

(** ** Reconcile completions (reconcile.go) *)

(** The sealing result axnoded returns ([RootfsSnapshotResult] of the
    allocation kernel). *)
Record SealedSnapshot := mkSealed {
  sn_ImageRef : string; sn_ImageDescriptor : option OciImageDescriptor;
  sn_PlatformOS : string; sn_PlatformArch : string; sn_PlatformVariant : string }.

Definition release_queue (allocationID owner : string) (q : Tx Z) : Tx () :=
  n ← q; guard_tx (n =? 1) ErrReconcileClaimLost.
Definition owned_by (owner : string) (q : QueueRow) : bool := String.eqb q.(q_ClaimOwner) owner.

(** [uuid.NewSHA1(uuid.NameSpaceOID, ..)]: any function of the identifier. *)
Context (NewSHA1 : string -> string).

Definition insert_environment (env : Environment) : Tx () := fun db =>
  match db.(environments) !! env.(env_ID), db.(namespaces) !! env.(env_Namespace) with
  | None, Some _ => (set_environments db (<[env.(env_ID) := env]> db.(environments)), Ok ())
  | Some _, _ => (db, Err (Wrapf "publish snapshot environment: %w" [] unique_violation))
  | None, None => (db, Err (Wrapf "publish snapshot environment: %w" [] foreign_key_violation))
  end.

(** Publish a sealed snapshot: a new environment and the Run's READY result. *)
Definition publish_snapshot (allocationID runID : string) (r : RunRow) (s : SealedSnapshot) (now : time) : Tx () :=
  if is_nil r.(r_Config).(ec_RootfsSnapshot) || negb (bool_decide (r.(r_Status) = RUN_SUCCEEDED))
  then fail (Status FailedPrecondition "rootfs snapshot result does not match a successful snapshot request" [])
  else if negb (bool_decide (r.(r_RootfsSnapshot).(ss_Status) = RSS_PENDING))
  then fail (Status FailedPrecondition "rootfs snapshot result is already final" [])
  else if String.eqb (TrimSpace s.(sn_ImageRef)) "" || is_nil s.(sn_ImageDescriptor)
  then fail (Status FailedPrecondition "rootfs snapshot result is incomplete" [])
  else
    let environmentID := "env-" +:+ NewSHA1 allocationID in
    _ ← insert_environment
          (mkEnvironment environmentID r.(r_Namespace)
             (mkEnvSpec r.(r_Namespace) (Some (mkImageSource s.(sn_ImageRef) "")))
             (Some (mkResolvedSpec false s.(sn_ImageDescriptor))));
    _ ← wrap "publish run rootfs snapshot result: %w"
          (update_run runID always (run_set_snapshot
             (mkSnapshotResult RSS_READY environmentID s.(sn_ImageRef) s.(sn_ImageDescriptor)
                s.(sn_PlatformOS) s.(sn_PlatformArch) s.(sn_PlatformVariant) "") (sql_time now)));
    mret ().

Definition CompleteAllocationRelease (allocationID claimOwner : string) (snapshot : option SealedSnapshot)
    (now : time) : Tx () :=
  let id := TrimSpace allocationID in
  let owner := TrimSpace claimOwner in
  withTx (
    row ← gets (fun db => a ← db.(allocations) !! id; r ← db.(runs) !! a.(a_RunID); Some (a, r));
    match row with
    | None => fail (Status NotFound "allocation %q not found" [AStr id])
    | Some (a, r) =>
        _ ← RequireReconcileClaim id claimOwner EnsureAbsent now;
        _ ← guard_tx (IsCleanupState a.(a_State))
              (Status FailedPrecondition "allocation %q cannot be released from lifecycle state %s"
                 [AStr id; AStr (AllocationLifecycleState_String a.(a_State))]);
        _ ← when_tx (bool_decide (a.(a_State) = ALS_RELEASING))
              (_ ← wrap "complete allocation release: %w"
                     (update_allocation id always (fun a =>
                        alloc_set_state ALS_RELEASED (sql_time now) a.(a_NodeActiveAt) a));
               mret ());
        let wanted := non_nil r.(r_Config).(ec_RootfsSnapshot) in
        let succeeded := bool_decide (r.(r_Status) = RUN_SUCCEEDED) in
        match snapshot with
        | Some s =>
            _ ← publish_snapshot id a.(a_RunID) r s now;
            release_queue id owner (wrap "schedule snapshot release acknowledgement: %w"
              (update_queue id (owned_by owner) (fun q =>
                 mkQueue (sql_time now) q.(q_Attempts) q.(q_LastError) "" None q.(q_CreatedAt) (sql_time now))))
        | None =>
            if wanted && succeeded && bool_decide (r.(r_RootfsSnapshot).(ss_Status) = RSS_PENDING)
            then fail (Status FailedPrecondition "successful rootfs snapshot request has no sealing result" [])
            else
              _ ← when_tx (wanted && negb succeeded)
                    (_ ← update_run a.(a_RunID) always
                           (run_set_snapshot (snapshot_failed "workload did not succeed") (sql_time now));
                     mret ());
              release_queue id owner (wrap "delete reconcile item: %w" (delete_queue id (owned_by owner)))
        end
    end).

Definition CompleteAllocationReleaseAcknowledgement (allocationID claimOwner : string) (now : time) : Tx () :=
  withTx (
    _ ← RequireReconcileClaim allocationID claimOwner EnsureAbsent now;
    release_queue allocationID claimOwner
      (delete_queue (TrimSpace allocationID) (owned_by (TrimSpace claimOwner)))).

Definition MarkRootfsSnapshotFailed (allocationID claimOwner message : string) (now : time) : Tx () :=
  withTx (
    _ ← RequireReconcileClaim allocationID claimOwner EnsureAbsent now;
    owner ← gets (fun db => a_RunID <$> db.(allocations) !! TrimSpace allocationID);
    n ← match owner with
        | None => mret 0
        | Some runID =>
            update_run runID (fun r => bool_decide (r.(r_RootfsSnapshot).(ss_Status) = RSS_PENDING))
              (run_set_snapshot (snapshot_failed (TrimSpace message)) (sql_time now))
        end;
    guard_tx (n =? 1)
      (Status FailedPrecondition "rootfs snapshot result is already final or missing" [])).

Definition CompleteAllocationStart (allocationID claimOwner : string)
    (conditions : option CapabilityConditionSet) (now : time) : Tx () :=
  withTx (
    row ← gets (fun db => db.(allocations) !! TrimSpace allocationID);
    _ ← guard_tx (non_nil row) (Status NotFound "allocation %q not found" [AStr allocationID]);
    _ ← RequireReconcileClaim allocationID claimOwner EnsurePresent now;
    _ ← when_tx (non_nil conditions) (ReplaceCapabilityConditions allocationID conditions now);
    release_queue allocationID claimOwner
      (wrap "delete start reconcile item: %w"
         (delete_queue (TrimSpace allocationID) (owned_by (TrimSpace claimOwner))))).

(** The guards of [LoadStartAllocation]; on success the Run, its allocation
    and the allocation's requirements. *)
Definition LoadStartAllocation (allocationID : string) : Tx (RunRow * AllocRow * list CapabilityRequirement) :=
  withTx (
    let id := TrimSpace allocationID in
    row ← gets (fun db => a ← db.(allocations) !! id; r ← db.(runs) !! a.(a_RunID); Some (r, a));
    match row with
    | None => fail (Status NotFound "run allocation %q not found" [AStr allocationID])
    | Some (r, a) =>
        node ← gets (fun db => db.(nodes) !! a.(a_NodeID));
        match node with
        | None => fail (Status NotFound "allocation %q not found" [AStr allocationID])
        | Some n =>
            _ ← guard_tx (node_active n) (Status FailedPrecondition "Node identity is not active" []);
            requirements ← gets (fun db => map snd (requirements_of db id));
            mret (r, a, requirements)
        end
    end).

(** ** Access grants (access_grant_issue.go) *)
Definition defaultAllocationAccessGrantTTL : Z := 5 * Minute.

Definition IssueAllocationAccessGrant (allocationID : string) (purpose : AccessPurpose) (ttl : Z) (now : time)
    (grantID tokenHash : string) : Tx GrantRow :=
  let ttl := if ttl <=? 0 then defaultAllocationAccessGrantTTL else ttl in
  withTx (
    row ← gets (fun db => a ← db.(allocations) !! TrimSpace allocationID;
                          n ← db.(nodes) !! a.(a_NodeID); Some (a, n));
    match row with
    | None => fail (Status NotFound "allocation %q not found" [AStr allocationID])
    | Some (alloc, n) =>
        current ← gets (fun db => db.(allocations) !! allocationID);
        match current with
        | None => fail no_rows
        | Some a =>
            _ ← guard_tx (node_active n) (Status FailedPrecondition "Node identity is not active" []);
            ttl ← match purpose with
                  | PURPOSE_INTERACTIVE =>
                      _ ← guard_tx (bool_decide (a.(a_State) = ALS_ACTIVE))
                            (Status FailedPrecondition "allocation is not active" []);
                      mret ttl
                  | PURPOSE_RUN_OUTPUT =>
                      if bool_decide (a.(a_State) = ALS_ACTIVE) then mret ttl
                      else match a.(a_OutputExpiresAt) with
                           | Some expiry =>
                               if negb (Before now expiry)
                               then fail (Status FailedPrecondition "allocation output is unavailable or expired" [])
                               else if After (Add now ttl) expiry then mret (Sub expiry now) else mret ttl
                           | None =>
                               fail (Status FailedPrecondition "allocation output is unavailable or expired" [])
                           end
                  | _ => fail (Status InvalidArgument "allocation access purpose is required" [])
                  end;
            revision ← NextAccessGrantRevision alloc.(a_NodeID);
            let grant := mkGrant (TrimSpace allocationID) alloc.(a_NodeID) purpose (sql_time (Add now ttl))
                           revision false tokenHash (sql_time now) in
            exists_ ← gets (fun db => non_nil (db.(allocation_access_grants) !! grantID));
            _ ← guard_tx (negb exists_) (Wrapf "insert allocation access grant: %w" [] unique_violation);
            _ ← guard_tx (check_grant grant) (Wrapf "insert allocation access grant: %w" [] check_violation);
            _ ← modify (fun db => set_grants db (<[grantID := grant]> db.(allocation_access_grants)));
            mret grant
        end
    end).

(** ** Execution authority (execution_authority.go) *)
Definition ListNodeExecutionAllocationIDs (db : DB) (nodeID : string) : list string :=
  sort_slice string_lt
    (omap (fun kv : string * AllocRow =>
             let '(id, a) := kv in
             r ← db.(runs) !! a.(a_RunID);
             n ← db.(nodes) !! a.(a_NodeID);
             if node_active n && String.eqb a.(a_NodeID) (TrimSpace nodeID)
                && bool_decide (a.(a_State) ∈ [ALS_BOUND; ALS_STARTING; ALS_ACTIVE]) && not_terminal r
             then Some id else None)
       (map_to_list db.(allocations))).

(** ** Condition reports (capability_condition_report.go) *)
Definition report_less (a b : string * option CapabilityConditionSet) : bool :=
  string_lt (TrimSpace a.1) (TrimSpace b.1).
Definition BatchReportAllocationCapabilityConditions (nodeID : string)
    (reports : list (string * option CapabilityConditionSet)) (now : time) : Tx () :=
  withTx (for_tx (fun report =>
    let id := TrimSpace report.1 in
    row ← gets (fun db => db.(allocations) !! id);
    match row with
    | None => mret ()
    | Some a =>
        when_tx (String.eqb a.(a_NodeID) (TrimSpace nodeID))
          (ReplaceCapabilityConditions id report.2 now)
    end) (sort_slice report_less reports)).

(** ** Operator transactions (postgres/admin)

    [LifecycleRetryItem] without its age in seconds, which only reports. *)
Record LifecycleRetryItem := mkRetryItem {
  lr_AllocationID : string; lr_RunID : string; lr_EnvironmentID : string;
  lr_LifecycleState : AllocationLifecycleState; lr_NodeID : string; lr_NodeTarget : string;
  lr_ReconcileAttempts : Z; lr_LastReconcileError : string; lr_NextRunAt : time;
  lr_CreatedAt : time; lr_UpdatedAt : time; lr_Due : bool; lr_Clearance : LifecycleRetryClearance }.

Definition has_active_grant (db : DB) (id : string) (now : time) : bool :=
  existsb (fun kv : string * GrantRow =>
    String.eqb kv.2.(g_AllocationID) id && negb kv.2.(g_Revoked) && (now <? kv.2.(g_ExpiresAt)))
    (map_to_list db.(allocation_access_grants)).
Definition has_active_tunnel (db : DB) (id : string) : bool :=
  existsb (fun kv : string * TunnelRow => String.eqb kv.2.(t_AllocationID) id && active_tunnel kv.2)
    (map_to_list db.(tunnel_sessions)).

Definition retry_item (db : DB) (id : string) (now : time) : option LifecycleRetryItem :=
  q ← db.(allocation_reconcile_queue) !! id;
  a ← db.(allocations) !! id;
  r ← db.(runs) !! a.(a_RunID);
  n ← db.(nodes) !! a.(a_NodeID);
  Some (mkRetryItem id a.(a_RunID) r.(r_EnvironmentID) a.(a_State) a.(a_NodeID) n.(nr_NodeTarget)
          q.(q_Attempts) q.(q_LastError) q.(q_NextRunAt) q.(q_CreatedAt) q.(q_UpdatedAt)
          (negb (After q.(q_NextRunAt) now))
          (EvaluateLifecycleRetryClearance
             (mkClearanceInput (AllocationLifecycleState_String a.(a_State)) (RunStatus_String r.(r_Status))
                (has_active_grant db id (sql_time now)) (has_active_tunnel db id)))).

Definition retry_less (a b : LifecycleRetryItem) : bool :=
  (a.(lr_CreatedAt) <? b.(lr_CreatedAt))
  || ((a.(lr_CreatedAt) =? b.(lr_CreatedAt)) && string_lt a.(lr_AllocationID) b.(lr_AllocationID)).
Definition ListLifecycleRetries (db : DB) (f : LifecycleRetryFilter) (now : time) : list LifecycleRetryItem :=
  let f := NormalizeLifecycleRetryFilter f in
  take (Z.to_nat f.(rf_Limit))
    (sort_slice retry_less
       (List.filter (fun i => negb f.(rf_DueOnly) || (i.(lr_NextRunAt) <=? sql_time now))
          (omap (fun kv : string * QueueRow => retry_item db kv.1 now)
             (map_to_list db.(allocation_reconcile_queue))))).

Definition lockLifecycleRetry (allocationID : string) (now : time) : Tx LifecycleRetryItem :=
  item ← gets (fun db => retry_item db (TrimSpace allocationID) now);
  match item with
  | Some i =>
      _ ← guard_tx (negb (String.eqb (TrimSpace i.(lr_AllocationID)) ""))
            (Status NotFound "allocation lifecycle retry %q not found" [AStr allocationID]);
      mret i
  | None => fail (Status NotFound "allocation lifecycle retry %q not found" [AStr allocationID])
  end.

Definition loadLifecycleRetry (allocationID : string) (now : time) : Tx LifecycleRetryItem :=
  item ← gets (fun db => retry_item db (TrimSpace allocationID) now);
  match item with
  | Some i => mret i
  | None => fail (Status NotFound "allocation lifecycle retry %q not found" [AStr allocationID])
  end.

Definition insertAdminAuditEvent (e : AuditEvent) : Tx () := fun db =>
  if existsb (fun o => String.eqb o.(ae_ID) e.(ae_ID)) db.(admin_audit_events)
  then (db, Err (Wrapf "insert admin audit event: %w" [] unique_violation))
  else (set_audit_events db (db.(admin_audit_events) ++ [e]), Ok ()).
Definition audit (eventID operation target reason : string) (now : time) : Tx () :=
  insertAdminAuditEvent
    (mkAuditEvent ("admaudit-" +:+ eventID) operation "allocation" target reason (sql_time now)).

Definition ForceAllocationLifecycleRetry (req : ForceLifecycleRetryRequest) (now : time) (eventID : string) :
    Tx LifecycleRetryItem :=
  let req := NormalizeForceLifecycleRetryRequest req in
  _ ← lift (ValidateForceLifecycleRetryRequest req);
  let runAt := if IsZero req.(fr_RequestedRunAt) then now else req.(fr_RequestedRunAt) in
  let id := req.(fr_AllocationID) in
  withTx_admin (
    _ ← lockLifecycleRetry id now;
    _ ← audit eventID "force_allocation_lifecycle_retry" id req.(fr_OperatorReason) now;
    _ ← wrap "force allocation lifecycle retry: %w"
      (update_queue id always (fun q =>
         mkQueue (sql_time runAt) q.(q_Attempts) q.(q_LastError) "" None q.(q_CreatedAt) (sql_time now)));
    loadLifecycleRetry id now).

Definition failRunLifecycleRetry (item : LifecycleRetryItem) (message : string) (now : time) : Tx () :=
  let id := item.(lr_AllocationID) in
  _ ← wrap "fail run allocation: %w"
    (update_allocation id (fun a => String.eqb a.(a_RunID) item.(lr_RunID))
       (fun a => alloc_set_state ALS_RELEASING (sql_time now) a.(a_NodeActiveAt) a));
  n ← wrap "fail run lifecycle retry: %w"
    (update_run item.(lr_RunID) not_terminal (fun r =>
       run_set_status RUN_FAILED r.(r_ExitCode) WDC_RUNTIME_START_ERROR (TrimSpace message) (sql_time now) r));
  _ ← guard_tx (negb (n =? 0))
        (Status FailedPrecondition
           "run allocation lifecycle retry %q cannot be failed because the run is already terminal" [AStr id]);
  _ ← RevokeInteractiveAccessGrants id;
  _ ← RevokeActiveForAllocationsTx [id] "admin failed run allocation lifecycle retry" TRC_ALLOCATION_ENDED now;
  _ ← wrap "schedule cleanup after failed allocation create: %w"
    (update_queue id always (fun q =>
       mkQueue (sql_time now) 0 "" "" None q.(q_CreatedAt) (sql_time now)));
  mret ().

Definition FailAllocationLifecycleRetry (req : FailLifecycleRetryRequest) (now : time) (eventID : string) :
    Tx LifecycleRetryItem :=
  let req := NormalizeFailLifecycleRetryRequest req in
  _ ← lift (ValidateFailLifecycleRetryRequest req);
  let id := req.(fl_AllocationID) in
  withTx_admin (
    locked ← lockLifecycleRetry id now;
    _ ← guard_tx (bool_decide (ReconcileIntentForLifecycle locked.(lr_LifecycleState) = EnsurePresent))
          (Status FailedPrecondition "allocation delete retries cannot be abandoned before cleanup succeeds" []);
    _ ← guard_tx (negb (IsCleanupState locked.(lr_LifecycleState)))
          (Status FailedPrecondition "allocation lifecycle retry %q is already terminal; clear the retry instead"
             [AStr id]);
    _ ← audit eventID "fail_allocation_lifecycle_retry" id req.(fl_OperatorReason) now;
    _ ← failRunLifecycleRetry locked req.(fl_OperatorReason) now;
    loadLifecycleRetry id now).

Definition requireNoActiveAllocationCleanupState (allocationID : string) (now : time) : Tx () :=
  grants ← gets (fun db => has_active_grant db (TrimSpace allocationID) (sql_time now));
  _ ← guard_tx (negb grants)
        (Status FailedPrecondition "allocation lifecycle retry %q has active allocation access grants"
           [AStr allocationID]);
  tunnels ← gets (fun db => has_active_tunnel db (TrimSpace allocationID));
  guard_tx (negb tunnels)
    (Status FailedPrecondition "allocation lifecycle retry %q has active tunnel sessions" [AStr allocationID]).

Definition requireRunConvergedForClear (item : LifecycleRetryItem) : Tx () :=
  row ← gets (fun db => db.(runs) !! TrimSpace item.(lr_RunID));
  match row with
  | None => mret ()
  | Some r => guard_tx (IsTerminal r.(r_Status))
      (Status FailedPrecondition "allocation lifecycle retry %q cannot be cleared while run status is %s"
         [AStr item.(lr_AllocationID); AStr (RunStatus_String r.(r_Status))])
  end.

Definition deleteLifecycleRetry (allocationID : string) : Tx () :=
  n ← delete_queue (TrimSpace allocationID) always;
  guard_tx (negb (n =? 0)) (Status NotFound "allocation lifecycle retry %q not found" [AStr allocationID]).

Definition ClearAllocationLifecycleRetry (req : ClearLifecycleRetryRequest) (now : time) (eventID : string) :
    Tx LifecycleRetryItem :=
  let req := NormalizeClearLifecycleRetryRequest req in
  _ ← lift (ValidateClearLifecycleRetryRequest req);
  let id := req.(cl_AllocationID) in
  withTx_admin (
    locked ← lockLifecycleRetry id now;
    _ ← guard_tx (bool_decide (locked.(lr_LifecycleState) = ALS_RELEASED))
          (Status FailedPrecondition
             "allocation lifecycle retry %q cannot be cleared while allocation lifecycle state is %s"
             [AStr id; AStr (AllocationLifecycleState_String locked.(lr_LifecycleState))]);
    _ ← requireNoActiveAllocationCleanupState id now;
    _ ← requireRunConvergedForClear locked;
    _ ← audit eventID "clear_allocation_lifecycle_retry" id req.(cl_OperatorReason) now;
    _ ← deleteLifecycleRetry id;
    mret locked).
End store.
