(* ===== verification/StoreFacts.v ===== *)
(** * Facts about the run store

    The lifecycle of an Allocation and its Run is specified as a small state
    machine on what the store shows of one Allocation ([life], [life_step]).
    Every transaction of [RunStore] is shown to move every Allocation by steps of
    that machine, whatever its arguments, its outcome and the interleaving; the
    safety properties are then read off the machine. *)
From S2P Require Import Prelude Proto Resource Allocation Capability Node Execution Store Reconcile RunStore.

(** ** The transaction monad *)
Section tx.
Context {A B : Type}.

Lemma bind_tx_Ok (m : Tx A) (f : A -> Tx B) db db' b :
  (x ← m; f x) db = (db', Ok b) <->
  exists db1 a, m db = (db1, Ok a) /\ f a db1 = (db', Ok b).
Proof.
  unfold mbind, tx_bind. destruct (m db) as [db1 [a|e]]; split.
  - intros H. by exists db1, a.
  - by intros (? & ? & [= <- <-] & ?).
  - done.
  - by intros (? & ? & ? & ?).
Qed.

Lemma wrap_Ok fmt (m : Tx A) db db' a : wrap fmt m db = (db', Ok a) <-> m db = (db', Ok a).
Proof. unfold wrap. by destruct (m db) as [? [?|?]]. Qed.

Lemma guard_tx_Ok b e db db' u : guard_tx b e db = (db', Ok u) <-> b = true /\ db' = db.
Proof. destruct b, u; unfold guard_tx, mret, tx_ret, fail; naive_solver. Qed.

Lemma gets_Ok (f : DB -> A) db db' a : gets f db = (db', Ok a) <-> db' = db /\ a = f db.
Proof. unfold gets. naive_solver. Qed.

Lemma ret_Ok (a b : A) db db' : (mret a : Tx A) db = (db', Ok b) <-> db' = db /\ b = a.
Proof. unfold mret, tx_ret. naive_solver. Qed.

Lemma lift_Ok (r : result A) db db' a : lift r db = (db', Ok a) <-> db' = db /\ r = Ok a.
Proof. unfold lift. naive_solver. Qed.

(** Errors that roll back. *)
Definition plain (m : Tx A) : Prop := forall db db' e, m db = (db', Err e) -> ShouldCommitError e = false.
End tx.

Lemma plain_bind {A B} (m : Tx A) (f : A -> Tx B) : plain m -> (forall a, plain (f a)) -> plain (x ← m; f x).
Proof.
  intros Hm Hf db db' e. unfold mbind, tx_bind. destruct (m db) as [db1 [a|e']] eqn:E.
  - apply Hf.
  - intros [= <- <-]. by eapply Hm.
Qed.
Lemma plain_ret {A} (a : A) : plain (mret a).
Proof. done. Qed.
Lemma plain_gets {A} (f : DB -> A) : plain (gets f).
Proof. done. Qed.
Lemma plain_modify f : plain (modify f).
Proof. done. Qed.
Lemma plain_fail {A} e : ShouldCommitError e = false -> plain (fail e : Tx A).
Proof. by intros He db db' e' [= <- <-]. Qed.
Lemma plain_wrap {A} fmt (m : Tx A) : plain m -> plain (wrap fmt m).
Proof.
  intros Hm db db' e. unfold wrap. destruct (m db) as [db1 [a|e']] eqn:E; [done|].
  intros [= <- <-]. simpl. by eapply Hm.
Qed.
Lemma plain_guard b e : ShouldCommitError e = false -> plain (guard_tx b e).
Proof. destruct b; [done|]. apply plain_fail. Qed.
Lemma plain_when b m : plain m -> plain (when_tx b m).
Proof. by destruct b. Qed.

(** A rolled-back transaction leaves the database as it was. *)
Lemma withTx_plain {A} (m : Tx A) db :
  plain m ->
  (exists db' a, m db = (db', Ok a) /\ withTx m db = (db', Ok a)) \/
  (exists e, withTx m db = (db, Err e)).
Proof.
  intros Hm. unfold withTx. destruct (m db) as [db' [a|e]] eqn:E; [left; eauto|].
  right. rewrite (Hm _ _ _ E). eauto.
Qed.
Lemma withTx_admin_cases {A} (m : Tx A) db :
  (exists db' a, m db = (db', Ok a) /\ withTx_admin m db = (db', Ok a)) \/
  (exists e, withTx_admin m db = (db, Err e)).
Proof. unfold withTx_admin. destruct (m db) as [db' [a|e]]; eauto. Qed.

Lemma withTx_Ok {A} (m : Tx A) db db' a : withTx m db = (db', Ok a) -> m db = (db', Ok a).
Proof. unfold withTx. destruct (m db) as [? [?|e]]; [done|]. by destruct (ShouldCommitError e). Qed.
Lemma withTx_admin_Ok {A} (m : Tx A) db db' a : withTx_admin m db = (db', Ok a) -> m db = (db', Ok a).
Proof. unfold withTx_admin. by destruct (m db) as [? [?|?]]. Qed.

Lemma plain_update_run id g f : plain (update_run id g f).
Proof. intros db db' e. unfold update_run. repeat case_match; naive_solver. Qed.
Lemma plain_update_allocation id g f : plain (update_allocation id g f).
Proof. intros db db' e. unfold update_allocation. repeat case_match; naive_solver. Qed.
Lemma plain_update_queue id g f : plain (update_queue id g f).
Proof. intros db db' e. unfold update_queue. repeat case_match; naive_solver. Qed.
Lemma plain_delete_queue id g : plain (delete_queue id g).
Proof. intros db db' e. unfold delete_queue. repeat case_match; naive_solver. Qed.

Create HintDb plain.
#[export] Hint Resolve plain_ret plain_gets plain_modify plain_update_run
  plain_update_allocation plain_update_queue plain_delete_queue : plain.
#[export] Hint Extern 1 (plain (fail _)) => apply plain_fail; reflexivity : plain.
#[export] Hint Extern 1 (plain (guard_tx _ _)) => apply plain_guard; reflexivity : plain.

Ltac plain_tac :=
  repeat first
    [ match goal with |- forall _, _ => intro end
    | solve [eauto 2 with plain nocore]
    | apply plain_bind
    | apply plain_fail; reflexivity
    | apply plain_guard; reflexivity
    | apply plain_when
    | apply plain_wrap
    | case_match ].

(** ** The lifecycle machine *)
Record life := mkLife {
  l_run : string; l_node : string; l_charge : Claim;
  l_state : AllocationLifecycleState; l_expiry : option time;
  l_status : RunStatus; l_exit : option Z; l_code : WorkloadDiagnosticCode; l_message : string;
  l_version : Z; l_queued : bool }.

Definition life_of (a : AllocRow) (r : RunRow) (queued : bool) : life :=
  mkLife a.(a_RunID) a.(a_NodeID) (mkClaim a.(a_CPUMilli) a.(a_MemoryBytes) a.(a_EphemeralBytes))
    a.(a_State) a.(a_OutputExpiresAt) r.(r_Status) r.(r_ExitCode) r.(r_DiagnosticCode) r.(r_Message)
    r.(r_Version) queued.
Definition view (db : DB) (id : string) : option life :=
  a ← db.(allocations) !! id;
  r ← db.(runs) !! a.(a_RunID);
  Some (life_of a r (non_nil (db.(allocation_reconcile_queue) !! id))).

Definition same_identity (l l' : life) : Prop :=
  l'.(l_run) = l.(l_run) /\ l'.(l_node) = l.(l_node) /\ l'.(l_charge) = l.(l_charge).
Definition same_outcome (l l' : life) : Prop :=
  l'.(l_status) = l.(l_status) /\ l'.(l_exit) = l.(l_exit) /\
  l'.(l_code) = l.(l_code) /\ l'.(l_message) = l.(l_message).
Definition present (s : AllocationLifecycleState) : Prop := ReconcileIntentForLifecycle s = EnsurePresent.

(** An Allocation appears only where [fresh] identifiers may be admitted. *)
Inductive life_step (fresh : Prop) : option life -> option life -> Prop :=
| life_admit l :
    fresh ->
    l.(l_state) = ALS_BOUND -> l.(l_status) = RUN_PLACED -> l.(l_exit) = None -> l.(l_version) = 1 ->
    l.(l_queued) = true -> l.(l_expiry) = None -> life_step fresh None (Some l)
| life_observe l l' :
    present l.(l_state) -> present l'.(l_state) -> als_rank l.(l_state) <= als_rank l'.(l_state) ->
    IsTerminal l.(l_status) = false -> IsTerminal l'.(l_status) = false ->
    same_identity l l' -> l'.(l_version) = l.(l_version) + 1 -> l'.(l_queued) = l.(l_queued) ->
    l'.(l_expiry) = None -> life_step fresh (Some l) (Some l')
| life_terminate l l' :
    present l.(l_state) -> l'.(l_state) = ALS_RELEASING ->
    IsTerminal l.(l_status) = false -> IsTerminal l'.(l_status) = true ->
    same_identity l l' -> l'.(l_version) = l.(l_version) + 1 -> l'.(l_queued) = true ->
    is_Some l'.(l_expiry) -> life_step fresh (Some l) (Some l')
| life_release l l' :
    l.(l_state) = ALS_RELEASING -> l'.(l_state) = ALS_RELEASED ->
    same_identity l l' -> same_outcome l l' -> l'.(l_expiry) = l.(l_expiry) ->
    l'.(l_version) = l.(l_version) -> l'.(l_queued) = l.(l_queued) ->
    life_step fresh (Some l) (Some l')
| life_snapshot l l' :
    IsTerminal l.(l_status) = true ->
    l'.(l_state) = l.(l_state) -> same_identity l l' -> same_outcome l l' -> l'.(l_expiry) = l.(l_expiry) ->
    l'.(l_version) = l.(l_version) + 1 -> l'.(l_queued) = l.(l_queued) ->
    life_step fresh (Some l) (Some l')
| life_queue l queued :
    (l.(l_state) = ALS_RELEASING -> l.(l_queued) = true -> queued = true) ->
    life_step fresh (Some l)
      (Some (mkLife l.(l_run) l.(l_node) l.(l_charge) l.(l_state) l.(l_expiry) l.(l_status) l.(l_exit)
               l.(l_code) l.(l_message) l.(l_version) queued))
| life_delete l : l.(l_state) = ALS_RELEASED -> l.(l_queued) = false -> life_step fresh (Some l) None.

(** Every Run of an Allocation exists, and belongs to one Allocation;
    identifiers carry no surrounding white space. *)
Record wf (db : DB) : Prop := {
  wf_trimmed id a : db.(allocations) !! id = Some a -> TrimSpace id = id;
  wf_run id a : db.(allocations) !! id = Some a -> is_Some (db.(runs) !! a.(a_RunID));
  wf_unique id id' a a' :
    db.(allocations) !! id = Some a -> db.(allocations) !! id' = Some a' ->
    a.(a_RunID) = a'.(a_RunID) -> id = id' }.

(** The invariant of one Allocation: the Run is terminal exactly when teardown
    has begun, pending teardown is queued, and the output deadline is set
    exactly during teardown. *)
Definition sound (l : life) : Prop :=
  IsTerminal l.(l_status) = IsCleanupState l.(l_state) /\
  non_nil l.(l_expiry) = IsCleanupState l.(l_state) /\
  stored_state l.(l_state) = true /\
  (l.(l_state) = ALS_RELEASING -> l.(l_queued) = true).
Definition sound_view (v : option life) : Prop := match v with None => True | Some l => sound l end.
Definition inv (db : DB) : Prop := wf db /\ forall id, sound_view (view db id).

(** The identifiers an admission may draw. *)
Class Admissible := may_admit : string -> Prop.

(** [db] becomes [db'] by machine steps, Allocation by Allocation. *)
Definition moves `{Fresh : Admissible} (db db' : DB) : Prop :=
  wf db' /\ forall id, rtc (life_step (may_admit id)) (view db id) (view db' id).

Lemma present_iff s : present s <-> s = ALS_BOUND \/ s = ALS_STARTING \/ s = ALS_ACTIVE.
Proof. unfold present. destruct s; simpl; naive_solver. Qed.
Lemma present_not_cleanup s : present s -> IsCleanupState s = false.
Proof. rewrite present_iff. by intros [-> | [-> | ->]]. Qed.
Lemma intent_accepts_spec intent s :
  intent_accepts intent s = true <-> intent <> IntentUnspecified /\ ReconcileIntentForLifecycle s = intent.
Proof. destruct intent, s; simpl; naive_solver. Qed.
Lemma sound_present l : sound l -> IsTerminal l.(l_status) = false <-> present l.(l_state).
Proof.
  intros (-> & _ & Hs & _). rewrite present_iff. destruct (l_state l); simpl in *; naive_solver.
Qed.

Lemma life_step_sound fresh v v' : life_step fresh v v' -> sound_view v -> sound_view v'.
Proof.
  unfold sound_view, sound.
  destruct 1 as [l _ Es Et _ _ Eq Ex | l l' _ Hp _ _ Ht _ _ _ Ex | l l' _ Es _ Et _ _ Eq [t Ex]
    | l l' Es Es' _ (Eo & _) Ex _ _ | l l' _ Es _ (Eo & _) Ex _ Eq | l queued Hq | l _ _]; intros Hs; simpl in *.
  - by rewrite Es, Et, Eq, Ex.
  - apply present_iff in Hp. rewrite Ht, Ex. destruct Hp as [-> | [-> | ->]]; naive_solver.
  - by rewrite Es, Et, Eq, Ex.
  - destruct Hs as (Ht & Hx & _). by rewrite Es', Eo, Ht, Ex, Hx, Es.
  - destruct Hs as (Ht & Hx & Hst & Hrel). by rewrite Es, Eo, Eq, Ex.
  - naive_solver.
  - done.
Qed.

Lemma moves_inv `{Fresh : Admissible} db db' : inv db -> moves db db' -> inv db'.
Proof.
  intros [_ Hs] [Hwf Hm]. split; [done|]. intros id. specialize (Hs id). specialize (Hm id).
  induction Hm; [done|]. by eapply IHHm, life_step_sound.
Qed.

Lemma moves_refl `{Fresh : Admissible} db : inv db -> moves db db.
Proof. by intros [? _]. Qed.
Lemma moves_trans `{Fresh : Admissible} db1 db2 db3 : moves db1 db2 -> moves db2 db3 -> moves db1 db3.
Proof. intros [_ H1] [Hw H2]. split; [done|]. intros id. etrans; [apply H1|apply H2]. Qed.

(** The invariant decided on a concrete store. *)
Definition life_ok (l : life) : bool :=
  Bool.eqb (IsTerminal l.(l_status)) (IsCleanupState l.(l_state))
  && Bool.eqb (non_nil l.(l_expiry)) (IsCleanupState l.(l_state))
  && stored_state l.(l_state) && (negb (bool_decide (l.(l_state) = ALS_RELEASING)) || l.(l_queued)).
Definition inv_check (db : DB) : bool :=
  forallb (fun kv : string * AllocRow =>
    String.eqb (TrimSpace kv.1) kv.1
    && match view db kv.1 with Some l => life_ok l | None => false end) (map_to_list db.(allocations))
  && bool_decide (NoDup (map (fun kv : string * AllocRow => kv.2.(a_RunID)) (map_to_list db.(allocations)))).
Lemma life_ok_sound l : life_ok l = true -> sound l.
Proof.
  unfold life_ok, sound. rewrite !andb_true_iff, !eqb_true_iff, orb_true_iff, negb_true_iff, bool_decide_eq_false.
  naive_solver.
Qed.
Lemma NoDup_map_inj {A B} (f : A -> B) l x y : NoDup (map f l) -> x ∈ l -> y ∈ l -> f x = f y -> x = y.
Proof.
  induction l as [|z l IH]; simpl; [by intros _ ?%elem_of_nil|]. rewrite NoDup_cons. intros [Hz Hl] Hx Hy E.
  apply elem_of_cons in Hx as [->|Hx], Hy as [->|Hy]; [done|..|by apply IH]; destruct Hz;
    [rewrite E|rewrite <- E]; by apply list_elem_of_fmap_2.
Qed.
Lemma inv_check_ok db : inv_check db = true -> inv db.
Proof.
  unfold inv_check. rewrite andb_true_iff, forallb_forall, bool_decide_eq_true. intros [Hf Hn].
  assert (Hrow : forall id a, db.(allocations) !! id = Some a ->
    TrimSpace id = id /\ exists l, view db id = Some l /\ life_ok l = true).
  { intros id a Ha. specialize (Hf (id, a)). simpl in Hf. rewrite andb_true_iff, String.eqb_eq in Hf.
    destruct Hf as [? Hv]; [by apply list_elem_of_In, elem_of_map_to_list|]. split; [done|].
    destruct (view db id) as [l|]; [eauto|done]. }
  split; [split|].
  - intros id a Ha. by apply Hrow in Ha as [? _].
  - intros id a Ha. pose proof (Hrow _ _ Ha) as (_ & l & Hv & _). unfold view in Hv. rewrite Ha in Hv. simpl in Hv.
    destruct (runs db !! a_RunID a); [eauto|done].
  - intros id id' a a' Ha Ha' E. apply elem_of_map_to_list in Ha, Ha'.
    by assert ((id, a) = (id', a')) as [= -> ->] by (by eapply NoDup_map_inj).
  - intros id. destruct (view db id) as [l|] eqn:Hv; [|done]. simpl.
    assert (is_Some (allocations db !! id)) as [a Ha].
    { unfold view in Hv. destruct (allocations db !! id); [eauto|done]. }
    apply Hrow in Ha as (_ & l' & Hv' & Ho). simplify_eq. by apply life_ok_sound.
Qed.

(** *** How the statements change the view *)
Definition same_tables (db db' : DB) : Prop :=
  db'.(runs) = db.(runs) /\ db'.(allocations) = db.(allocations) /\
  db'.(allocation_reconcile_queue) = db.(allocation_reconcile_queue).

Lemma moves_same_tables `{Fresh : Admissible} db db' : inv db -> same_tables db db' -> moves db db'.
Proof.
  intros [[Ht Hr Hu] _] (Er & Ea & Eq). split.
  - split; rewrite ?Ea, ?Er; [apply Ht|apply Hr|apply Hu].
  - intros id. unfold view. by rewrite Er, Ea, Eq.
Qed.
Lemma same_tables_refl db : same_tables db db.
Proof. done. Qed.
Lemma same_tables_trans db1 db2 db3 : same_tables db1 db2 -> same_tables db2 db3 -> same_tables db1 db3.
Proof. unfold same_tables. intros (-> & -> & ->) (-> & -> & ->). done. Qed.

(** The setters of the other tables. *)
Lemma set_frames db :
  (forall x, runs (set_allocations db x) = runs db /\
     allocation_reconcile_queue (set_allocations db x) = allocation_reconcile_queue db /\
     allocations (set_allocations db x) = x) /\
  (forall x, allocations (set_runs db x) = allocations db /\
     allocation_reconcile_queue (set_runs db x) = allocation_reconcile_queue db /\ runs (set_runs db x) = x) /\
  (forall x, allocations (set_queue db x) = allocations db /\ runs (set_queue db x) = runs db /\
     allocation_reconcile_queue (set_queue db x) = x).
Proof. by destruct db. Qed.
Lemma same_tables_setters db :
  (forall x, same_tables db (set_grants db x)) /\ (forall x, same_tables db (set_cursors db x)) /\
  (forall x y z, same_tables db (set_tunnels db x y z)) /\ (forall x, same_tables db (set_run_secrets db x)) /\
  (forall x, same_tables db (set_environments db x)) /\ (forall x, same_tables db (set_requirements db x)) /\
  (forall x, same_tables db (set_conditions db x)) /\ (forall x, same_tables db (set_quota_events db x)) /\
  (forall x, same_tables db (set_audit_events db x)) /\ (forall x, same_tables db (set_enrollments db x)).
Proof. by destruct db. Qed.

(** Statements that leave the lifecycle tables alone, whatever their outcome. *)
Definition frame {A} (m : Tx A) : Prop := forall db, same_tables db (fst (m db)).

Lemma frame_bind {A B} (m : Tx A) (f : A -> Tx B) : frame m -> (forall a, frame (f a)) -> frame (x ← m; f x).
Proof.
  intros Hm Hf db. unfold mbind, tx_bind. specialize (Hm db).
  destruct (m db) as [db1 [a|e]]; [|done]. eapply same_tables_trans; [done|apply Hf].
Qed.
Lemma frame_ret {A} (a : A) : frame (mret a).
Proof. by intros db. Qed.
Lemma frame_fail {A} e : frame (fail e : Tx A).
Proof. by intros db. Qed.
Lemma frame_gets {A} (f : DB -> A) : frame (gets f).
Proof. by intros db. Qed.
Lemma frame_lift {A} (r : result A) : frame (lift r).
Proof. by intros db. Qed.
Lemma frame_guard b e : frame (guard_tx b e).
Proof. by destruct b. Qed.
Lemma frame_when b m : frame m -> frame (when_tx b m).
Proof. by destruct b. Qed.
Lemma frame_wrap {A} fmt (m : Tx A) : frame m -> frame (wrap fmt m).
Proof. intros Hm db. specialize (Hm db). unfold wrap. by destruct (m db) as [? [?|?]]. Qed.
Lemma frame_for {A} (body : A -> Tx ()) l : (forall x, frame (body x)) -> frame (for_tx body l).
Proof. intros Hb. induction l as [|x l IH]; [done|]. simpl. by apply frame_bind. Qed.
Lemma frame_modify f : (forall db, same_tables db (f db)) -> frame (modify f).
Proof. done. Qed.

Create HintDb frame.
#[export] Hint Resolve frame_ret frame_fail frame_gets frame_lift frame_guard : frame.
Ltac frame_tac :=
  repeat first
    [ match goal with |- forall _, _ => intro end
    | solve [eauto 2 with frame nocore]
    | apply frame_bind
    | apply frame_guard
    | apply frame_when
    | apply frame_wrap
    | apply frame_for
    | match goal with |- frame (modify _) => apply frame_modify end
    | case_match
    | apply same_tables_refl
    | apply same_tables_setters ].

(** Invert a transaction that succeeds into the successes of its statements. *)
Ltac tx_inv :=
  repeat match goal with
  | Hx : mbind _ _ _ = (_, Ok _) |- _ =>
      let db := fresh "db" in let x := fresh "x" in let Hm := fresh "Hm" in
      apply bind_tx_Ok in Hx as (db & x & Hm & Hx)
  | Hx : wrap _ _ _ = (_, Ok _) |- _ => apply wrap_Ok in Hx
  | Hx : guard_tx _ _ _ = (_, Ok _) |- _ => let Hb := fresh "Hb" in apply guard_tx_Ok in Hx as [Hb ->]; try subst
  | Hx : gets _ _ = (_, Ok _) |- _ => apply gets_Ok in Hx as [-> Hx]; first [subst | symmetry in Hx]
  | Hx : mret _ _ = (_, Ok _) |- _ => apply ret_Ok in Hx as [-> Hx]; try subst
  | Hx : lift _ _ = (_, Ok _) |- _ => let Hl := fresh "Hl" in apply lift_Ok in Hx as [-> Hl]
  | Hx : fail _ _ = (_, Ok _) |- _ => discriminate Hx
  | Hx : RequireReconcileClaim _ _ _ _ _ = (_, Ok _) |- _ => unfold RequireReconcileClaim in Hx
  end.

Lemma claim_held_spec db id owner intent now :
  claim_held db id owner intent now = true <->
  exists q a, db.(allocation_reconcile_queue) !! id = Some q /\ db.(allocations) !! id = Some a /\
    q.(q_ClaimOwner) = owner /\ live_claim q now = true /\
    intent <> IntentUnspecified /\ ReconcileIntentForLifecycle a.(a_State) = intent.
Proof.
  unfold claim_held. split.
  - destruct (allocation_reconcile_queue db !! id) as [q|]; [|done].
    destruct (allocations db !! id) as [a|]; [|done]. rewrite !andb_true_iff, String.eqb_eq, intent_accepts_spec. naive_solver.
  - intros (q & a & -> & -> & <- & -> & Hi). rewrite String.eqb_refl. simpl. by apply intent_accepts_spec.
Qed.

Ltac claim_inv :=
  repeat match goal with Hc : true = claim_held _ _ _ _ _ |- _ => symmetry in Hc end;
  match goal with Hc : claim_held _ _ _ _ _ = true |- _ =>
    let q := fresh "q" in let a := fresh "a" in let Hq := fresh "Hq" in let Ha := fresh "Ha" in
    let Ho := fresh "Howner" in let Hl := fresh "Hlive" in let Hi := fresh "Hintent" in
    apply claim_held_spec in Hc as (q & a & Hq & Ha & Ho & Hl & _ & Hi) end.

Section store.
Context `{Fresh : Admissible} `{GoRuntime} `{SqlTime}.

Lemma frame_NextAccessGrantRevision n : frame (NextAccessGrantRevision n).
Proof. intros db. unfold NextAccessGrantRevision. repeat case_match; try done; apply same_tables_setters. Qed.
Lemma frame_RevokeInteractive id : frame (RevokeInteractiveAccessGrants id).
Proof. unfold RevokeInteractiveAccessGrants. frame_tac. apply frame_NextAccessGrantRevision. Qed.
Lemma frame_close_tunnels due s r t c n : frame (close_tunnels due s r t c n).
Proof. intros db. unfold close_tunnels. repeat case_match; try done; apply same_tables_setters. Qed.
Lemma frame_RevokeActive ids r c n : frame (RevokeActiveForAllocationsTx ids r c n).
Proof. unfold RevokeActiveForAllocationsTx. frame_tac; apply frame_close_tunnels. Qed.
Lemma frame_deleteSecrets id : frame (deleteRunSecretReferences id).
Proof. unfold deleteRunSecretReferences. frame_tac. Qed.
Lemma frame_deleteAllocationSecrets id : frame (deleteAllocationRunSecretReferences id).
Proof. unfold deleteAllocationRunSecretReferences. frame_tac. Qed.
Lemma frame_Require id o i n : frame (RequireReconcileClaim id o i n).
Proof. unfold RequireReconcileClaim. frame_tac. Qed.
Lemma frame_Replace id s n : frame (ReplaceCapabilityConditions id s n).
Proof. unfold ReplaceCapabilityConditions. frame_tac. Qed.
Lemma frame_audit a b c d n : frame (audit a b c d n).
Proof.
  intros db. unfold audit, insertAdminAuditEvent. case_match; [done|]. apply same_tables_setters.
Qed.
Lemma frame_lockRetry id n : frame (lockLifecycleRetry id n).
Proof. unfold lockLifecycleRetry. frame_tac. Qed.
Lemma frame_loadRetry id n : frame (loadLifecycleRetry id n).
Proof. unfold loadLifecycleRetry. frame_tac. Qed.
Lemma frame_insertEnvironment e : frame (insert_environment e).
Proof. intros db. unfold insert_environment. repeat case_match; try done; apply same_tables_setters. Qed.

(** *** Moving one Allocation *)
Lemma view_Some db id l :
  view db id = Some l <->
  exists a r, db.(allocations) !! id = Some a /\ db.(runs) !! a.(a_RunID) = Some r /\
    l = life_of a r (non_nil (db.(allocation_reconcile_queue) !! id)).
Proof.
  unfold view. destruct (allocations db !! id) as [a|]; simpl; [|naive_solver].
  destruct (runs db !! a_RunID a) as [r|] eqn:E; simpl; [|naive_solver]. split; [intros [= <-]; eauto|].
  by intros (? & ? & [= <-] & ? & ->); simplify_eq.
Qed.

Lemma moves_one db db' id a a' r' :
  inv db -> db.(allocations) !! id = Some a ->
  db'.(allocations) = <[id := a']> db.(allocations) -> a'.(a_RunID) = a.(a_RunID) ->
  db'.(runs) = <[a.(a_RunID) := r']> db.(runs) ->
  (forall id', id' <> id ->
     non_nil (db'.(allocation_reconcile_queue) !! id') = non_nil (db.(allocation_reconcile_queue) !! id')) ->
  rtc (life_step (may_admit id)) (view db id) (Some (life_of a' r' (non_nil (db'.(allocation_reconcile_queue) !! id)))) ->
  moves db db'.
Proof.
  intros [[Ht Hr Hu] _] Ha Ea Erun Er Hq Hstep.
  assert (Hcase : forall i b, allocations db' !! i = Some b ->
    (i = id /\ b = a') \/ (i <> id /\ allocations db !! i = Some b /\ a_RunID b <> a_RunID a)).
  { intros i b. rewrite Ea. destruct (decide (i = id)) as [->|Hne].
    - rewrite lookup_insert_eq. intros [= <-]. by left.
    - rewrite lookup_insert_ne by done. intros Hb. right. split; [done|]. split; [done|].
      intros Heq. by apply Hne, (Hu _ _ b a). }
  split.
  - split.
    + intros i b Hb. destruct (Hcase _ _ Hb) as [[-> _]|(_ & Hb' & _)]; eauto.
    + intros i b Hb. rewrite Er. destruct (Hcase _ _ Hb) as [[-> ->]|(_ & Hb' & Hne)].
      * rewrite Erun, lookup_insert_eq. eauto.
      * rewrite lookup_insert_ne by done. eauto.
    + intros i j b c Hb Hc Heq.
      destruct (Hcase _ _ Hb) as [[-> ->]|(_ & Hb' & Hne)],
               (Hcase _ _ Hc) as [[-> ->]|(_ & Hc' & Hne')]; try done; try congruence. eauto.
  - intros i. destruct (decide (i = id)) as [->|Hne].
    + assert (view db' id = Some (life_of a' r' (non_nil (allocation_reconcile_queue db' !! id)))) as ->; [|done].
      apply view_Some. exists a', r'. by rewrite Ea, Er, Erun, !lookup_insert_eq.
    + assert (view db' i = view db i) as ->; [|done].
      unfold view. rewrite Ea, lookup_insert_ne by done.
      destruct (allocations db !! i) as [b|] eqn:Hb; [|done]. simpl.
      rewrite Er, lookup_insert_ne, Hq; [done..|]. intros Heq. by apply Hne, (Hu _ _ b a).
Qed.

(** Rewriting the queue; a pending teardown keeps its row. *)
Lemma moves_queue db q' :
  inv db ->
  (forall id a, db.(allocations) !! id = Some a -> a.(a_State) = ALS_RELEASING ->
     is_Some (db.(allocation_reconcile_queue) !! id) -> is_Some (q' !! id)) ->
  moves db (set_queue db q').
Proof.
  intros [[Ht Hr Hu] _] Hrel. destruct (proj2 (proj2 (set_frames db)) q') as (Ea & Er & Eq). split.
  - split; rewrite ?Ea, ?Er; [apply Ht|apply Hr|apply Hu].
  - intros id. unfold view. rewrite Ea, Er, Eq.
    destruct (allocations db !! id) as [a|] eqn:Ha; simpl; [|done].
    destruct (runs db !! a_RunID a) as [r|]; simpl; [|done].
    apply rtc_once, (life_queue _ (life_of a r _)). simpl. intros Hs Hq.
    destruct (allocation_reconcile_queue db !! id) as [q|] eqn:Hrow; [|done].
    destruct (Hrel _ _ Ha Hs) as [? ->]; [by rewrite Hrow|done].
Qed.

Lemma moves_update_queue db db' id g f n :
  inv db -> update_queue id g f db = (db', Ok n) -> moves db db'.
Proof.
  intros Hinv. unfold update_queue. repeat case_match; intros; simplify_eq; try by apply moves_refl.
  apply moves_queue; [done|]. intros i a _ _ Hq. destruct (decide (i = id)) as [->|];
    [rewrite lookup_insert_eq; eauto|by rewrite lookup_insert_ne].
Qed.

Lemma moves_delete_queue db db' id g n :
  inv db -> (forall a, db.(allocations) !! id = Some a -> a.(a_State) <> ALS_RELEASING) ->
  delete_queue id g db = (db', Ok n) -> moves db db'.
Proof.
  intros Hinv Hs. unfold delete_queue. repeat case_match; intros; simplify_eq; try by apply moves_refl.
  apply moves_queue; [done|]. intros i a Ha Hrel. destruct (decide (i = id)) as [->|];
    [by destruct (Hs _ Ha)|by rewrite lookup_delete_ne].
Qed.

Lemma moves_ScheduleReconcile db db' req now u :
  inv db -> ScheduleReconcile req now db = (db', Ok u) -> moves db db'.
Proof.
  intros Hinv. unfold ScheduleReconcile.
  destruct (allocations db !! _) as [a|]; [|done]. destruct (intent_accepts _ _); [|done]. cbn [negb].
  destruct (check_queue _); [|done]. intros [= <- <-].
  apply moves_queue; [done|]. intros i b _ _ Hq. destruct (decide (i = TrimSpace (sr_AllocationID req))) as [->|];
    [rewrite lookup_insert_eq; eauto|by rewrite lookup_insert_ne].
Qed.

(** *** Inversion of the row updates *)
Lemma update_allocation_Ok id g f db db' n :
  update_allocation id g f db = (db', Ok n) ->
  (exists a, db.(allocations) !! id = Some a /\ g a = true /\ n = 1 /\
     let a' := freeze_allocation_output_expiry a.(a_OutputExpiresAt) (f a) in
     check_alloc a' = true /\ db' = set_allocations db (<[id := a']> db.(allocations))) \/
  (db' = db /\ n = 0 /\ forall a, db.(allocations) !! id = Some a -> g a = false).
Proof.
  unfold update_allocation. destruct (allocations db !! id) as [a|] eqn:Ha; [|by intros [= <- <-]; right].
  destruct (g a) eqn:Hg; [|intros [= <- <-]; right; by repeat split; intros ? [= <-]].
  cbv zeta. destruct (check_alloc _) eqn:Hc; [|done]. intros [= <- <-]. left. eauto 10.
Qed.
Lemma update_run_Ok id g f db db' n :
  update_run id g f db = (db', Ok n) ->
  (exists r, db.(runs) !! id = Some r /\ g r = true /\ n = 1 /\
     check_run (f r) = true /\ db' = set_runs db (<[id := f r]> db.(runs))) \/
  (db' = db /\ n = 0 /\ forall r, db.(runs) !! id = Some r -> g r = false).
Proof.
  unfold update_run. destruct (runs db !! id) as [r|] eqn:Hr; [|by intros [= <- <-]; right].
  destruct (g r) eqn:Hg; [|intros [= <- <-]; right; by repeat split; intros ? [= <-]].
  destruct (check_run _) eqn:Hc; [|done]. intros [= <- <-]. left. eauto 10.
Qed.
Lemma frame_Ok {A} (m : Tx A) db db' r : frame m -> m db = (db', r) -> same_tables db db'.
Proof. intros Hf E. specialize (Hf db). by rewrite E in Hf. Qed.
Lemma ScheduleReconcile_Ok req now db db' u :
  ScheduleReconcile req now db = (db', Ok u) ->
  exists q, db' = set_queue db (<[TrimSpace req.(sr_AllocationID) := q]> db.(allocation_reconcile_queue)).
Proof.
  unfold ScheduleReconcile.
  destruct (allocations db !! _) as [a|]; [|done]. destruct (intent_accepts _ _); [|done]. cbn [negb].
  destruct (check_queue _); [|done]. intros [= <- <-]. eauto.
Qed.

Lemma freeze_identity e a :
  let a' := freeze_allocation_output_expiry e a in
  a'.(a_RunID) = a.(a_RunID) /\ a'.(a_NodeID) = a.(a_NodeID) /\ a'.(a_State) = a.(a_State) /\
  a'.(a_CPUMilli) = a.(a_CPUMilli) /\ a'.(a_MemoryBytes) = a.(a_MemoryBytes) /\
  a'.(a_EphemeralBytes) = a.(a_EphemeralBytes).
Proof. done. Qed.

(** What the two row updates of a lifecycle change leave. *)
Record pair_update (db db' : DB) (id : string) (a a' : AllocRow) (r r' : RunRow) : Prop := {
  pu_alloc : db.(allocations) !! id = Some a;
  pu_run : db.(runs) !! a.(a_RunID) = Some r;
  pu_allocs : db'.(allocations) = <[id := a']> db.(allocations);
  pu_runs : db'.(runs) = <[a.(a_RunID) := r']> db.(runs);
  pu_same : a'.(a_RunID) = a.(a_RunID) /\ a'.(a_NodeID) = a.(a_NodeID) /\
    a'.(a_CPUMilli) = a.(a_CPUMilli) /\ a'.(a_MemoryBytes) = a.(a_MemoryBytes) /\
    a'.(a_EphemeralBytes) = a.(a_EphemeralBytes);
  pu_version : r'.(r_Version) = r.(r_Version) + 1;
  pu_expiry : non_nil a'.(a_OutputExpiresAt) = IsCleanupState a'.(a_State) }.

Lemma pair_update_after db db1 db2 id a a' r r' :
  pair_update db db1 id a a' r r' ->
  db2.(allocations) = db1.(allocations) -> db2.(runs) = db1.(runs) -> pair_update db db2 id a a' r r'.
Proof. intros [] Ea Er. by split; rewrite ?Ea, ?Er. Qed.

Lemma view_pair db db' id a a' r r' :
  pair_update db db' id a a' r r' ->
  view db id = Some (life_of a r (non_nil (db.(allocation_reconcile_queue) !! id))).
Proof. intros []. apply view_Some; eauto. Qed.

Lemma moves_terminate db db' id a a' r r' :
  inv db -> pair_update db db' id a a' r r' ->
  present a.(a_State) -> a'.(a_State) = ALS_RELEASING -> IsTerminal r'.(r_Status) = true ->
  is_Some (db'.(allocation_reconcile_queue) !! id) ->
  (forall id', id' <> id ->
     non_nil (db'.(allocation_reconcile_queue) !! id') = non_nil (db.(allocation_reconcile_queue) !! id')) ->
  moves db db'.
Proof.
  intros Hinv Hp Hs Hs' Ht [q Hq] Hqs.
  pose proof (view_pair _ _ _ _ _ _ _ Hp) as Hview. pose proof (proj2 Hinv id) as Hsound.
  rewrite Hview in Hsound. apply sound_present in Hsound as [_ Hnt].
  destruct Hp as [Ha Hr Eas Ers (E1 & E2 & E3 & E4 & E5) Ev Ex].
  eapply (moves_one db db' id a a' r'); try done. rewrite Hview, Hq.
  apply rtc_once, life_terminate; simpl; try done; [by apply Hnt| |].
  - unfold same_identity, life_of; simpl. by rewrite E1, E2, E3, E4, E5.
  - rewrite Hs' in Ex. by destruct (a_OutputExpiresAt a').
Qed.

Lemma moves_observe db db' id a a' r r' :
  inv db -> pair_update db db' id a a' r r' ->
  present a.(a_State) -> present a'.(a_State) -> als_rank a.(a_State) <= als_rank a'.(a_State) ->
  IsTerminal r'.(r_Status) = false ->
  db'.(allocation_reconcile_queue) = db.(allocation_reconcile_queue) -> moves db db'.
Proof.
  intros Hinv Hp Hs Hs' Hrank Ht Hq.
  pose proof (view_pair _ _ _ _ _ _ _ Hp) as Hview. pose proof (proj2 Hinv id) as Hsound.
  rewrite Hview in Hsound. apply sound_present in Hsound as [_ Hnt].
  destruct Hp as [Ha Hr Eas Ers (E1 & E2 & E3 & E4 & E5) Ev Ex].
  eapply (moves_one db db' id a a' r'); rewrite ?Hq; try done. rewrite Hview.
  apply rtc_once, life_observe; simpl; try done; [by apply Hnt| |].
  - unfold same_identity, life_of; simpl. by rewrite E1, E2, E3, E4, E5.
  - rewrite (present_not_cleanup _ Hs') in Ex. by destruct (a_OutputExpiresAt a').
Qed.

Lemma inv_row db id a :
  inv db -> db.(allocations) !! id = Some a ->
  exists r, db.(runs) !! a.(a_RunID) = Some r /\
    IsTerminal r.(r_Status) = IsCleanupState a.(a_State) /\
    non_nil a.(a_OutputExpiresAt) = IsCleanupState a.(a_State) /\ stored_state a.(a_State) = true /\
    (a.(a_State) = ALS_RELEASING -> is_Some (db.(allocation_reconcile_queue) !! id)).
Proof.
  intros [Hwf Hs] Ha. destruct (wf_run _ Hwf _ _ Ha) as [r Hr]. exists r. split; [done|].
  specialize (Hs id). assert (view db id = Some _) as E by (apply view_Some; eauto).
  rewrite E in Hs. destruct Hs as (H1 & Hx & H2 & H3). simpl in *. split; [done|]. split; [done|]. split; [done|].
  intros Hrel. specialize (H3 Hrel). by destruct (allocation_reconcile_queue db !! id).
Qed.
Lemma inv_present db id a :
  inv db -> db.(allocations) !! id = Some a -> present a.(a_State) ->
  exists r, db.(runs) !! a.(a_RunID) = Some r /\ not_terminal r = true.
Proof.
  intros Hinv Ha Hp. destruct (inv_row _ _ _ Hinv Ha) as (r & Hr & Ht & _). exists r. split; [done|].
  unfold not_terminal. rewrite Ht. apply present_iff in Hp. by destruct Hp as [-> | [-> | ->]].
Qed.
Lemma not_cleanup_present s : stored_state s = true -> IsCleanupState s = false -> present s.
Proof. rewrite present_iff. destruct s; naive_solver. Qed.

Lemma freeze_expiry e a : let a' := freeze_allocation_output_expiry e a in
  non_nil a'.(a_OutputExpiresAt) = IsCleanupState a'.(a_State).
Proof. simpl. destruct (IsCleanupState _); [by destruct e|done]. Qed.

(** Update the allocation, then its run. *)
Lemma alloc_run_pair db db1 db2 id a g state now act n1 n2 (h : RunRow -> RunRow) :
  inv db -> db.(allocations) !! id = Some a -> g a = true -> present a.(a_State) ->
  update_allocation id g (fun a => alloc_set_state state now (act a) a) db = (db1, Ok n1) ->
  update_run a.(a_RunID) not_terminal h db1 = (db2, Ok n2) ->
  (forall r, (h r).(r_Version) = r.(r_Version) + 1) ->
  exists a' r, pair_update db db2 id a a' r (h r) /\ a'.(a_State) = state /\
    not_terminal r = true /\ n2 = 1 /\
    db2.(allocation_reconcile_queue) = db.(allocation_reconcile_queue).
Proof.
  intros Hinv Ha Hg Hp H1 H2 Hv.
  destruct (inv_present _ _ _ Hinv Ha Hp) as (r & Hr & Hnt).
  apply update_allocation_Ok in H1 as [(a0 & Ha0 & _ & _ & _ & ->)|(_ & _ & Hno)];
    [|by rewrite (Hno _ Ha) in Hg]. rewrite Ha in Ha0. injection Ha0 as <-.
  set (a' := freeze_allocation_output_expiry _ _) in *.
  destruct (proj1 (set_frames db) (<[id := a']> (allocations db))) as (Er & Eq & Ea).
  apply update_run_Ok in H2 as [(r0 & Hr0 & _ & -> & _ & ->)|(_ & _ & Hno)];
    [|by rewrite Er in Hno; rewrite (Hno _ Hr) in Hnt].
  rewrite Er, Hr in Hr0. injection Hr0 as <-.
  match goal with |- context [set_runs ?d ?m] => destruct (proj1 (proj2 (set_frames d)) m) as (Ea2 & Eq2 & Er2) end.
  exists a', r. split; [|by rewrite Eq2, Eq].
  split; rewrite ?Ea2, ?Er2, ?Ea, ?Er; try done. apply freeze_expiry.
Qed.

(** Update the run, then the allocation. *)
Lemma run_alloc_pair db db1 db2 id a state now act n1 n2 (h : RunRow -> RunRow) :
  inv db -> db.(allocations) !! id = Some a ->
  update_run a.(a_RunID) always h db = (db1, Ok n1) ->
  update_allocation id always (fun a => alloc_set_state state now (act a) a) db1 = (db2, Ok n2) ->
  (forall r, (h r).(r_Version) = r.(r_Version) + 1) ->
  exists a' r, pair_update db db2 id a a' r (h r) /\ a'.(a_State) = state /\
    db2.(allocation_reconcile_queue) = db.(allocation_reconcile_queue).
Proof.
  intros Hinv Ha H1 H2 Hv. destruct (wf_run _ (proj1 Hinv) _ _ Ha) as [r Hr].
  apply update_run_Ok in H1 as [(r0 & Hr0 & _ & _ & _ & ->)|(_ & _ & Hno)]; [|by specialize (Hno _ Hr)].
  rewrite Hr in Hr0. injection Hr0 as <-.
  destruct (proj1 (proj2 (set_frames db)) (<[a_RunID a := h r]> (runs db))) as (Ea & Eq & Er).
  apply update_allocation_Ok in H2 as [(a0 & Ha0 & _ & _ & _ & ->)|(_ & _ & Hno)];
    [|by rewrite Ea in Hno; specialize (Hno _ Ha)].
  rewrite Ea, Ha in Ha0. injection Ha0 as <-.
  set (a' := freeze_allocation_output_expiry _ _).
  match goal with |- context [set_allocations ?d ?m] => destruct (proj1 (set_frames d) m) as (Er2 & Eq2 & Ea2) end.
  exists a', r. split; [|by rewrite Eq2, Eq].
  split; rewrite ?Ea2, ?Er2, ?Ea, ?Er; try done. apply freeze_expiry.
Qed.

(** ** Every transaction moves by machine steps *)

Lemma queue_frames db1 db2 : same_tables db1 db2 ->
  db2.(allocation_reconcile_queue) = db1.(allocation_reconcile_queue) /\
  db2.(allocations) = db1.(allocations) /\ db2.(runs) = db1.(runs).
Proof. by intros (? & ? & ?). Qed.

(** *** Lifecycle reports *)
Definition locked_ok (db : DB) (locked : gmap string reportedAllocation) : Prop :=
  forall id ra, locked !! id = Some ra -> ra.(ra_allocationID) = id /\ TrimSpace id = id /\
    exists a, db.(allocations) !! id = Some a /\ a.(a_RunID) = ra.(ra_runID) /\
      a.(a_NodeID) = ra.(ra_nodeID) /\ a.(a_State) = ra.(ra_lifecycleState).

Lemma observed_status o code : lo_State o = ALS_STARTING \/ lo_State o = ALS_ACTIVE \/ lo_State o = ALS_STOPPED ->
  IsTerminal (RunStatusFromObservation (lo_State o) (lo_ExitCode o) code) = bool_decide (lo_State o = ALS_STOPPED).
Proof.
  intros [E|[E|E]]; rewrite E; [done..|]. simpl. by destruct (bool_decide _ && bool_decide _).
Qed.

Lemma terminate_Ok runID id now db db' u :
  TrimSpace id = id -> terminate_allocation runID id now db = (db', Ok u) ->
  db'.(allocations) = db.(allocations) /\ db'.(runs) = db.(runs) /\
  exists q, db'.(allocation_reconcile_queue) = <[id := q]> db.(allocation_reconcile_queue).
Proof.
  intros Hid Hx. unfold terminate_allocation in Hx. tx_inv.
  apply frame_Ok, queue_frames in Hm as (Eq1 & Ea1 & Er1); [|apply frame_deleteSecrets].
  apply frame_Ok, queue_frames in Hm0 as (Eq2 & Ea2 & Er2); [|apply frame_RevokeActive].
  apply frame_Ok, queue_frames in Hm1 as (Eq3 & Ea3 & Er3); [|apply frame_RevokeInteractive].
  apply ScheduleReconcile_Ok in Hx as [q ->]. simpl. rewrite Hid.
  match goal with |- context [set_queue ?d ?m] => destruct (proj2 (proj2 (set_frames d)) m) as (-> & -> & ->) end.
  rewrite Ea3, Ea2, Ea1, Er3, Er2, Er1, Eq3, Eq2, Eq1. eauto.
Qed.

Lemma report_one_moves nodeID now locked obs db db' locked' :
  inv db -> locked_ok db locked -> report_one nodeID now locked obs db = (db', Ok locked') ->
  moves db db' /\ locked_ok db' locked'.
Proof.
  intros Hinv Hl. unfold report_one.
  destruct (locked !! observation_id obs) as [ra|] eqn:Hra; [|intros [= <- <-]; split; [by apply moves_refl|done]].
  destruct obs as [o|]; [|intros [= <- <-]; split; [by apply moves_refl|done]].
  destruct (ValidateObservationBinding _ _) as [[]|]; [|done].
  destruct (AcceptsObservation _ _ _ _) eqn:Hacc; simpl; [|intros [= <- <-]; split; [by apply moves_refl|done]].
  destruct (runAllocationObservationMatches _ _ _ _ _ _); [intros [= <- <-]; split; [by apply moves_refl|done]|].
  intros Hx. tx_inv. destruct (Hl _ _ Hra) as (Hid & Htrim & a & Ha & Erun & Enode & Est).
  apply AcceptsObservation_forward in Hacc as (_ & Hp & Hobs & Hrank).
  set (id := observation_id (Some o)) in *.
  unfold persist_observation in Hm. tx_inv. rewrite Hid in Hm1. rewrite <- Erun in Hm2.
  assert (Hpa : present (a_State a)) by (unfold present; by rewrite Est).
  pose proof (observed_status o (lo_DiagnosticCode o) Hobs) as Hterm.
  eapply alloc_run_pair in Hm2 as (a' & r & Hpair & Est' & Hnt & _ & Eq); [|done|done|done|done|exact Hm1|done].
  assert (Hlocked : forall d, allocations d = <[id := a']> (allocations db) ->
    a_RunID a' = a_RunID a -> a_NodeID a' = a_NodeID a ->
    locked_ok d (<[id := mkReported (ra_allocationID ra) (ra_runID ra) (ra_nodeID ra)
      (if bool_decide (lo_State o = ALS_STOPPED) then ALS_RELEASING else lo_State o)
      (RunStatusFromObservation (lo_State o) (lo_ExitCode o) (lo_DiagnosticCode o))
      (lo_ExitCode o) (lo_DiagnosticCode o) (TrimSpace (lo_Message o))]> locked)).
  { intros d Ead E1 E2 i rb. rewrite Ead. destruct (decide (i = id)) as [->|Hne].
    - rewrite lookup_insert_eq. intros [= <-]. simpl. split; [done|]. split; [done|].
      exists a'. rewrite lookup_insert_eq, E1, E2, Erun, Enode. done.
    - rewrite !lookup_insert_ne by done. apply Hl. }
  destruct (pu_same _ _ _ _ _ _ _ Hpair) as (E1 & E2 & _).
  rewrite Hterm in Hm0. destruct (bool_decide (lo_State o = ALS_STOPPED)) eqn:Hstop; cbn [when_tx] in Hm0.
  - rewrite Hid in Hm0. apply terminate_Ok in Hm0 as (Ea & Er & q & Eq'); [|done].
    pose proof (pair_update_after _ _ _ _ _ _ _ _ Hpair Ea Er) as Hpair'.
    split; [|apply Hlocked; [apply Hpair'|done..]].
    eapply moves_terminate; try done.
    + rewrite Eq', Eq, lookup_insert_eq. eauto.
    + intros i Hne. by rewrite Eq', Eq, lookup_insert_ne.
  - tx_inv. split; [|apply Hlocked; [apply Hpair|done..]].
    assert (persisted_state (lo_State o) = lo_State o) as Eps
      by (destruct Hobs as [E|[E|E]]; rewrite E in *; done).
    eapply moves_observe; try done.
    + rewrite Est'. apply present_iff. apply bool_decide_eq_false in Hstop. tauto.
    + by rewrite Est', Est, <- Eps.
Qed.

Lemma report_all_moves nodeID now l : forall locked db db' u,
  inv db -> locked_ok db locked -> report_all nodeID now locked l db = (db', Ok u) -> moves db db'.
Proof.
  induction l as [|obs l IH]; intros locked db db' u Hinv Hl Hx; simpl in Hx; tx_inv; [by apply moves_refl|].
  destruct (report_one_moves _ _ _ _ _ _ _ Hinv Hl Hm) as [Hmv Hl'].
  eapply moves_trans; [done|]. eapply IH; [|done..]. by eapply moves_inv.
Qed.

Lemma lockReported_ok db ids :
  Forall (fun id => TrimSpace id = id) ids -> locked_ok db (lockReportedAllocations db ids).
Proof.
  intros Htrim id ra Hl. apply elem_of_list_to_map_2, list_elem_of_omap in Hl as (i & Hi & Hrow).
  rewrite Forall_forall in Htrim. unfold reported_row in Hrow.
  destruct (allocations db !! i) as [a|] eqn:Ha; simpl in Hrow; [|done].
  destruct (runs db !! a_RunID a) as [r|]; simpl in Hrow; [|done]. injection Hrow as <- <-.
  simpl. split; [done|]. split; [by apply Htrim|]. by exists a.
Qed.

Lemma plain_Revision n : plain (NextAccessGrantRevision n).
Proof. intros db db' e. unfold NextAccessGrantRevision. repeat case_match; naive_solver. Qed.
Lemma plain_RevokeInteractive id : plain (RevokeInteractiveAccessGrants id).
Proof. unfold RevokeInteractiveAccessGrants. plain_tac. apply plain_Revision. Qed.
Lemma plain_close_tunnels due s r t c n : plain (close_tunnels due s r t c n).
Proof. intros db db' e. unfold close_tunnels. repeat case_match; naive_solver. Qed.
Lemma plain_RevokeActive ids r c n : plain (RevokeActiveForAllocationsTx ids r c n).
Proof. unfold RevokeActiveForAllocationsTx. plain_tac; apply plain_close_tunnels. Qed.
Lemma plain_Schedule req n : plain (ScheduleReconcile req n).
Proof. intros db db' e. unfold ScheduleReconcile. repeat case_match; naive_solver. Qed.
Lemma plain_Require id o i n : plain (RequireReconcileClaim id o i n).
Proof. unfold RequireReconcileClaim. plain_tac. Qed.
Lemma plain_ScheduleClaimed req o n : plain (ScheduleClaimedReconcile req o n).
Proof. unfold ScheduleClaimedReconcile. plain_tac. Qed.
Lemma plain_deleteSecrets id : plain (deleteRunSecretReferences id).
Proof. apply plain_modify. Qed.
Lemma plain_deleteAllocationSecrets id : plain (deleteAllocationRunSecretReferences id).
Proof. apply plain_modify. Qed.
Lemma plain_terminate r id n : plain (terminate_allocation r id n).
Proof.
  apply plain_bind; [apply plain_deleteSecrets|intros _].
  apply plain_bind; [apply plain_RevokeActive|intros _].
  apply plain_bind; [apply plain_RevokeInteractive|intros _; apply plain_Schedule].
Qed.
#[local] Hint Resolve plain_Revision plain_RevokeInteractive plain_RevokeActive plain_Schedule plain_Require
  plain_ScheduleClaimed plain_deleteSecrets plain_deleteAllocationSecrets plain_terminate : plain.
Lemma ValidateObservationBinding_plain a b e :
  ValidateObservationBinding a b = Err e -> ShouldCommitError e = false.
Proof. unfold ValidateObservationBinding. case_match; [|done]. by intros [= <-]. Qed.
Lemma plain_report_one nodeID now locked obs : plain (report_one nodeID now locked obs).
Proof.
  unfold report_one. destruct (locked !! _); [|apply plain_ret]. destruct obs; [|apply plain_ret].
  destruct (ValidateObservationBinding _ _) as [[]|e] eqn:E.
  - unfold persist_observation. plain_tac.
  - apply plain_fail. simpl. by eapply ValidateObservationBinding_plain.
Qed.
Lemma plain_report_all nodeID now l : forall locked, plain (report_all nodeID now locked l).
Proof. induction l; intros; simpl; [apply plain_ret|]. apply plain_bind; [apply plain_report_one|done]. Qed.

(** A transaction whose successful runs move, and whose errors roll back. *)
Lemma withTx_moves {A} (m : Tx A) db :
  inv db -> plain m -> (forall db' a, m db = (db', Ok a) -> moves db db') -> moves db (fst (withTx m db)).
Proof.
  intros Hinv Hp Hm. destruct (withTx_plain m db Hp) as [(db' & a & E & ->)|(e & ->)]; simpl.
  - by eapply Hm.
  - by apply moves_refl.
Qed.
Lemma withTx_admin_moves {A} (m : Tx A) db :
  inv db -> (forall db' a, m db = (db', Ok a) -> moves db db') -> moves db (fst (withTx_admin m db)).
Proof.
  intros Hinv Hm. destruct (withTx_admin_cases m db) as [(db' & a & E & ->)|(e & ->)]; simpl.
  - by eapply Hm.
  - by apply moves_refl.
Qed.
Lemma frame_moves {A} (m : Tx A) db : inv db -> frame m -> moves db (fst (m db)).
Proof. intros. by apply moves_same_tables. Qed.
Lemma frame_withTx {A} (m : Tx A) : frame m -> frame (withTx m).
Proof.
  intros Hm db. specialize (Hm db). unfold withTx. destruct (m db) as [db' [a|e]]; [done|].
  simpl. by case_match.
Qed.
Lemma bind_moves {A B} (m : Tx A) (f : A -> Tx B) db :
  moves db (fst (m db)) -> (forall a d, inv d -> moves d (fst (f a d))) -> inv db ->
  moves db (fst ((x ← m; f x) db)).
Proof.
  intros Hm Hf Hinv. unfold mbind, tx_bind. destruct (m db) as [d [a|e]]; [|done].
  simpl in *. eapply moves_trans; [done|]. apply Hf. by eapply moves_inv.
Qed.
Lemma for_tx_moves {A} (body : A -> Tx ()) l : (forall x db, inv db -> moves db (fst (body x db))) ->
  forall db, inv db -> moves db (fst (for_tx body l db)).
Proof.
  intros Hb. induction l as [|x l IH]; intros db Hinv; simpl; [by apply moves_refl|].
  apply bind_moves; auto.
Qed.

Lemma allocationIDs_trimmed l : Forall (fun id => TrimSpace id = id) (allocationIDsFromRunObservations l).
Proof.
  apply Forall_forall. intros id. unfold allocationIDsFromRunObservations.
  rewrite elem_of_sort_slice, elem_of_elements, elem_of_list_to_set.
  rewrite list_elem_of_In, filter_In, in_map_iff. intros ((obs & <- & _) & _). apply TrimSpace_idempotent.
Qed.

Lemma BatchReport_moves nodeID l now db : inv db -> moves db (fst (BatchReportAllocationLifecycle nodeID l now db)).
Proof.
  intros Hinv. apply withTx_moves; [done|apply plain_bind; [apply plain_gets|intros; apply plain_report_all]|].
  intros db' [] Hx. tx_inv. eapply report_all_moves; [done| |done].
  apply lockReported_ok, allocationIDs_trimmed.
Qed.
Lemma ReconcileNodeInventory_moves snapshot now db : inv db -> moves db (fst (ReconcileNodeInventory snapshot now db)).
Proof.
  intros Hinv. unfold ReconcileNodeInventory. case_match; [by apply moves_refl|].
  apply bind_moves; [by apply moves_refl| |done]. intros expected d Hd.
  apply for_tx_moves; [|done]. intros. by apply BatchReport_moves.
Qed.
Lemma ReconcileNodeUnavailable_moves nodeID now db : inv db -> moves db (fst (ReconcileNodeUnavailable nodeID now db)).
Proof.
  intros Hinv. unfold ReconcileNodeUnavailable. case_match; [by apply moves_refl|].
  apply bind_moves; [by apply moves_refl| |done]. intros expected d Hd.
  apply for_tx_moves; [|done]. intros. by apply BatchReport_moves.
Qed.

(** *** The reconcile queue *)
Lemma ClaimDue_moves locked owner limit now ttl db :
  inv db -> moves db (fst (ClaimDueReconcileItems locked owner limit now ttl db)).
Proof.
  intros Hinv. unfold ClaimDueReconcileItems. repeat (case_match; try by apply moves_refl).
  all: apply moves_queue; [done|]; intros id a _ _ [q Hq]; rewrite map_lookup_imap, Hq; simpl; eauto.
Qed.

Lemma update_queue_moves id g f db : inv db -> moves db (fst (update_queue id g f db)).
Proof.
  intros Hinv. destruct (update_queue id g f db) as [db' [n|e]] eqn:E; [by eapply moves_update_queue|].
  revert E. unfold update_queue. repeat case_match; intros; simplify_eq; by apply moves_refl.
Qed.
Lemma wrap_moves {A} fmt (m : Tx A) db : moves db (fst (m db)) -> moves db (fst (wrap fmt m db)).
Proof. unfold wrap. by destruct (m db) as [? [?|?]]. Qed.

Lemma Renew_moves id owner intent now ttl db :
  inv db -> moves db (fst (RenewReconcileClaim id owner intent now ttl db)).
Proof.
  intros Hinv. unfold RenewReconcileClaim. case_match; [by apply moves_refl|].
  apply bind_moves; [by apply moves_refl| |done]. intros held d Hd.
  apply bind_moves; [by apply wrap_moves, update_queue_moves| |done]. intros n d' Hd'. by apply moves_refl.
Qed.
Lemma ScheduleClaimed_moves req owner now db :
  inv db -> moves db (fst (ScheduleClaimedReconcile req owner now db)).
Proof.
  intros Hinv. unfold ScheduleClaimedReconcile.
  apply bind_moves; [by apply moves_refl| |done]. intros held d Hd.
  apply bind_moves; [by apply wrap_moves, update_queue_moves| |done]. intros n d' Hd'. by apply moves_refl.
Qed.

Lemma update_queue_Ok id g f db db' n :
  update_queue id g f db = (db', Ok n) ->
  (exists q, db.(allocation_reconcile_queue) !! id = Some q /\ g q = true /\ n = 1 /\
     db' = set_queue db (<[id := f q]> db.(allocation_reconcile_queue))) \/
  (db' = db /\ n = 0 /\ forall q, db.(allocation_reconcile_queue) !! id = Some q -> g q = false).
Proof.
  unfold update_queue. destruct (allocation_reconcile_queue db !! id) as [q|] eqn:Hq;
    [|by intros [= <- <-]; right].
  destruct (g q) eqn:Hg; [|intros [= <- <-]; right; by repeat split; intros ? [= <-]].
  destruct (check_queue _); [|done]. intros [= <- <-]. left. eauto 10.
Qed.

Lemma ScheduleClaimed_true req owner now db db' :
  ScheduleClaimedReconcile req owner now db = (db', Ok true) ->
  let id := TrimSpace req.(sr_AllocationID) in
  claim_held db id (TrimSpace owner) req.(sr_Intent) (sql_time now) = true /\
  exists q, db' = set_queue db (<[id := q]> db.(allocation_reconcile_queue)).
Proof.
  intros Hx. unfold ScheduleClaimedReconcile in Hx. tx_inv.
  match goal with Hq : update_queue _ _ _ _ = _ |- _ =>
    apply update_queue_Ok in Hq as [(q & Hq & Hg & -> & ->)|(-> & -> & _)]; [eauto|done] end.
Qed.


(** *** Run mutations *)
Lemma insert_membership {A} (q : gmap string A) id x i :
  i <> id -> non_nil (<[id := x]> q !! i) = non_nil (q !! i).
Proof. intros. by rewrite lookup_insert_ne. Qed.


Lemma update_allocation_owner id g f db db' n :
  (forall a, a_RunID (f a) = a_RunID a) -> update_allocation id g f db = (db', Ok n) ->
  a_RunID <$> allocations db' !! id = a_RunID <$> allocations db !! id.
Proof.
  intros Hf Hx. apply update_allocation_Ok in Hx as [(a & Ha & _ & _ & _ & ->)|(-> & _ & _)]; [|done].
  match goal with |- context [set_allocations ?d ?m] => rewrite (proj2 (proj2 (proj1 (set_frames d) m))) end.
  rewrite lookup_insert_eq, Ha. simpl. by rewrite Hf.
Qed.

Lemma CreateFailed_moves allocationID owner message now db :
  inv db -> moves db (fst (MarkAllocationCreateFailed allocationID owner message now db)).
Proof.
  intros Hinv. apply withTx_moves; [done|plain_tac|]. intros db' [] Hx. tx_inv.
  set (id := TrimSpace allocationID) in *. claim_inv.
  match goal with Hs : ScheduleClaimedReconcile _ _ _ _ = _ |- _ => apply ScheduleClaimed_true in Hs as (Hheld & q' & ->) end.
  cbn [sr_AllocationID sr_Intent] in *. fold id in Hheld |- *.
  match goal with Hs : deleteAllocationRunSecretReferences _ _ = _ |- _ =>
    apply frame_Ok, queue_frames in Hs as (Eq & Ea & Er); [|apply frame_deleteAllocationSecrets] end.
  assert (Hp : present (a_State a)) by done. pose proof (present_not_cleanup _ Hp) as Hnc.
  destruct (decide (allocationID = id)) as [Eid|Hne].
  - clearbody id. subst allocationID. pose proof Hm2 as Hu.
    apply update_allocation_owner in Hu; [|done].
    rewrite Hu, Ha in Hm4. cbn in Hm4.
    eapply (alloc_run_pair _ _ _ _ _ (fun a => negb (IsCleanupState a.(a_State)))) in Hm4 as (a' & r & Hpair & Est & Hnt & _ & Eq0);
      [|done|done|cbn; by rewrite Hnc|done|exact Hm2|done].
    destruct (proj2 (proj2 (set_frames db6)) (<[id:=q']> (allocation_reconcile_queue db6))) as (Ea' & Er' & Eq').
    eapply moves_terminate;
      [done|eapply pair_update_after; [exact Hpair|by rewrite Ea', Ea|by rewrite Er', Er]|done..| |].
    + rewrite Eq', lookup_insert_eq. eauto.
    + intros i Hi. by rewrite Eq', lookup_insert_ne, Eq, Eq0.
  - assert (Hraw : allocations db !! allocationID = None).
    { destruct (allocations db !! allocationID) as [b|] eqn:Hb'; [|done].
      by apply (wf_trimmed _ (proj1 Hinv)) in Hb'. }
    apply update_allocation_Ok in Hm2 as [(? & ? & _)|(-> & _ & _)]; [congruence|].
    rewrite Hraw in Hm4. cbn in Hm4. tx_inv.
    apply claim_held_spec in Hheld as (? & a1 & _ & Ha1 & _ & _ & _ & Hint1).
    rewrite Ea, Ha in Ha1. injection Ha1 as <-. by rewrite Hintent in Hint1.
Qed.

Lemma allocation_of_run_Some db runID id a :
  allocation_of_run db runID = Some (id, a) -> db.(allocations) !! id = Some a /\ a.(a_RunID) = runID.
Proof.
  unfold allocation_of_run. intros Hh. apply head_Some_elem_of, list_elem_of_In, filter_In in Hh as [Hin E].
  apply list_elem_of_In, elem_of_map_to_list in Hin. by apply String.eqb_eq in E.
Qed.

Lemma CancelRun_moves runID now db : inv db -> moves db (fst (CancelRun runID now db)).
Proof.
  intros Hinv. apply withTx_moves; [done| |].
  { apply plain_bind; [apply plain_gets|]. intros row. destruct row as [[r allocationID]|]; plain_tac. }
  intros db' [] Hx. cbv zeta in Hx. tx_inv. set (id := TrimSpace runID) in *.
  destruct (runs db !! id) as [r|] eqn:Hr; simpl in Hx; [|done].
  destruct (allocation_of_run db id) as [[aid a]|] eqn:Hal; simpl in Hx; [|done].
  apply allocation_of_run_Some in Hal as [Ha Erun].
  destruct (not_terminal r) eqn:Hnt; cbn [when_tx] in Hx; tx_inv; [|by apply moves_refl].
  rewrite <- Erun in *.
  assert (Hp : present (a_State a)).
  { destruct (inv_row _ _ _ Hinv Ha) as (r0 & Hr0 & Ht & _ & Hst & _).
    rewrite Hr in Hr0. injection Hr0 as <-.
    apply not_cleanup_present; [done|]. rewrite <- Ht. unfold not_terminal in Hnt.
    by destruct (IsTerminal _). }
  eapply run_alloc_pair in Hm0 as (a' & r' & Hpair & Est & Eq0); [|done|done|exact Hm|done].
  apply frame_Ok, queue_frames in Hm1 as (Eq1 & Ea1 & Er1); [|apply frame_RevokeInteractive].
  apply frame_Ok, queue_frames in Hm2 as (Eq2 & Ea2 & Er2); [|apply frame_RevokeActive].
  apply frame_Ok, queue_frames in Hm3 as (Eq3 & Ea3 & Er3); [|apply frame_deleteSecrets].
  apply ScheduleReconcile_Ok in Hx as [q ->]. cbn [sr_AllocationID ScheduleDeleteRequest].
  rewrite (wf_trimmed _ (proj1 Hinv) _ _ Ha).
  destruct (proj2 (proj2 (set_frames db4)) (<[aid:=q]> (allocation_reconcile_queue db4))) as (Ea' & Er' & Eq').
  eapply moves_terminate;
    [done|eapply pair_update_after; [exact Hpair|by rewrite Ea', Ea3, Ea2, Ea1|by rewrite Er', Er3, Er2, Er1]
    |done..| |].
  - rewrite Eq', lookup_insert_eq. eauto.
  - intros i Hi. by rewrite Eq', lookup_insert_ne, Eq3, Eq2, Eq1, Eq0.
Qed.

Lemma LoadStart_moves allocationID db : inv db -> moves db (fst (LoadStartAllocation allocationID db)).
Proof. intros Hinv. apply frame_moves, frame_withTx; [done|]. frame_tac. Qed.

Lemma IssueGrant_moves allocationID purpose ttl now grantID tokenHash db :
  inv db -> moves db (fst (IssueAllocationAccessGrant allocationID purpose ttl now grantID tokenHash db)).
Proof.
  intros Hinv. apply frame_moves; [done|]. unfold IssueAllocationAccessGrant. apply frame_withTx.
  frame_tac. apply frame_NextAccessGrantRevision.
Qed.

Lemma BatchConditions_moves nodeID reports now db :
  inv db -> moves db (fst (BatchReportAllocationCapabilityConditions nodeID reports now db)).
Proof.
  intros Hinv. apply frame_moves; [done|]. apply frame_withTx.
  apply frame_for. intros x. frame_tac.
Qed.

(** *** Completions *)
Lemma release_queue_Ok id owner m db db' u :
  release_queue id owner m db = (db', Ok u) -> m db = (db', Ok 1).
Proof.
  unfold release_queue. intros Hx. tx_inv. apply Z.eqb_eq in Hb as ->. done.
Qed.
Lemma plain_release_queue id owner m : plain m -> plain (release_queue id owner m).
Proof. intros Hm. unfold release_queue. plain_tac. Qed.



(** A transaction that can fail on the contents of another table: its committed
    errors leave the lifecycle tables alone. *)
Definition quiet {A} (m : Tx A) : Prop := forall db db' e,
  m db = (db', Err e) -> ShouldCommitError e = true -> same_tables db db'.

Lemma quiet_plain {A} (m : Tx A) : plain m -> quiet m.
Proof. intros Hm db db' e Hx Hc. by rewrite (Hm _ _ _ Hx) in Hc. Qed.
Lemma quiet_frame {A B} (m : Tx A) (f : A -> Tx B) : frame m -> (forall a, quiet (f a)) -> quiet (x ← m; f x).
Proof.
  intros Hm Hf db db' e. unfold mbind, tx_bind. specialize (Hm db).
  destruct (m db) as [db1 [a|e1]]; simpl in Hm; intros Hx Hc.
  - eapply same_tables_trans; [done|by eapply Hf].
  - by simplify_eq.
Qed.
Lemma withTx_moves_quiet {A} (m : Tx A) db :
  inv db -> quiet m -> (forall db' a, m db = (db', Ok a) -> moves db db') -> moves db (fst (withTx m db)).
Proof.
  intros Hinv Herr Hok. unfold withTx. destruct (m db) as [db' [a|e]] eqn:E; simpl; [by eapply Hok|].
  destruct (ShouldCommitError e) eqn:Hc; simpl; [|by apply moves_refl].
  apply moves_same_tables; [done|by eapply Herr].
Qed.

Lemma CompleteStart_moves allocationID owner conditions now db :
  inv db -> moves db (fst (CompleteAllocationStart allocationID owner conditions now db)).
Proof.
  intros Hinv. unfold CompleteAllocationStart. apply withTx_moves_quiet; [done|..].
  - repeat (apply quiet_frame; [solve [apply frame_Require | frame_tac; apply frame_Replace]|intros ?]).
    apply quiet_plain, plain_release_queue. plain_tac.
  - intros db' [] Hx. tx_inv. claim_inv. apply release_queue_Ok, wrap_Ok in Hx.
    match goal with Hw : when_tx _ _ _ = _ |- _ => apply frame_Ok in Hw as Hs;
      [|apply frame_when, frame_Replace] end.
    pose proof (moves_same_tables _ _ Hinv Hs) as Hmv. eapply moves_trans; [exact Hmv|].
    eapply moves_delete_queue; [by eapply moves_inv| |exact Hx].
    intros b Hrow E. destruct Hs as (_ & Ea & _). rewrite Ea, Ha in Hrow. injection Hrow as <-.
    by rewrite E in Hintent.
Qed.

Lemma Acknowledgement_moves allocationID owner now db :
  inv db ->
  (forall a, db.(allocations) !! TrimSpace allocationID = Some a -> a.(a_State) <> ALS_RELEASING) ->
  moves db (fst (CompleteAllocationReleaseAcknowledgement allocationID owner now db)).
Proof.
  intros Hinv Hrel. unfold CompleteAllocationReleaseAcknowledgement. apply withTx_moves; [done|..].
  - apply plain_bind; [apply plain_Require|intros _; apply plain_release_queue; plain_tac].
  - intros db' [] Hx. tx_inv. apply release_queue_Ok in Hx. by eapply moves_delete_queue.
Qed.

(** The snapshot result of a Run in teardown. *)
Lemma moves_snapshot db db' id a g s now n :
  inv db -> db.(allocations) !! id = Some a -> IsCleanupState a.(a_State) = true ->
  update_run a.(a_RunID) g (run_set_snapshot s now) db = (db', Ok n) ->
  moves db db' /\ allocations db' = allocations db /\
  allocation_reconcile_queue db' = allocation_reconcile_queue db.
Proof.
  intros Hinv Ha Hc Hx.
  apply update_run_Ok in Hx as [(r & Hr & _ & _ & _ & ->)|(-> & _ & _)]; [|by split; [apply moves_refl|]].
  match goal with |- context [set_runs ?d ?m] => destruct (proj1 (proj2 (set_frames d)) m) as (Ea & Eq & Er) end.
  split; [|done].
  destruct (inv_row _ _ _ Hinv Ha) as (r0 & Hr0 & Ht & _). rewrite Hr in Hr0. injection Hr0 as <-.
  eapply (moves_one _ _ id a a (run_set_snapshot s now r)); try done.
  - by rewrite Ea, insert_id.
  - by intros; rewrite Eq.
  - rewrite Eq. assert (view db id = Some _) as -> by (apply view_Some; eauto).
    apply rtc_once, life_snapshot; try done. simpl. by rewrite Ht.
Qed.

Lemma SnapshotFailed_moves allocationID owner message now db :
  inv db -> moves db (fst (MarkRootfsSnapshotFailed allocationID owner message now db)).
Proof.
  intros Hinv. unfold MarkRootfsSnapshotFailed. apply withTx_moves; [done| |].
  { apply plain_bind; [apply plain_Require|intros _]. plain_tac. }
  intros db' [] Hx. tx_inv. claim_inv.
  match goal with Hu : match _ with _ => _ end _ = _ |- _ => rewrite Ha in Hu; simpl in Hu;
    eapply moves_snapshot in Hu as [Hmv _]; [exact Hmv|done..|] end.
  destruct (a_State a); done.
Qed.

(** The release of an Allocation in teardown. *)
Lemma moves_release db db' id a now act n :
  inv db -> db.(allocations) !! id = Some a -> a.(a_State) = ALS_RELEASING ->
  update_allocation id always (fun a => alloc_set_state ALS_RELEASED now (act a) a) db = (db', Ok n) ->
  moves db db' /\ (exists a', allocations db' !! id = Some a' /\ a_RunID a' = a_RunID a /\ a_State a' = ALS_RELEASED).
Proof.
  intros Hinv Ha Hs Hx.
  apply update_allocation_Ok in Hx as [(a0 & Ha0 & _ & _ & _ & ->)|(_ & _ & Hno)]; [|by specialize (Hno _ Ha)].
  rewrite Ha in Ha0. injection Ha0 as <-. set (a' := freeze_allocation_output_expiry _ _).
  match goal with |- context [set_allocations ?d ?m] => destruct (proj1 (set_frames d) m) as (Er & Eq & Ea) end.
  split; [|exists a'; by rewrite Ea, lookup_insert_eq].
  destruct (wf_run _ (proj1 Hinv) _ _ Ha) as [r Hr].
  eapply (moves_one _ _ id a a' r); try done.
  - by rewrite Er, insert_id.
  - by intros; rewrite Eq.
  - rewrite Eq. assert (view db id = Some _) as -> by (apply view_Some; eauto).
    apply rtc_once, life_release; try done.
    destruct (inv_row _ _ _ Hinv Ha) as (_ & _ & _ & Hx & _). rewrite Hs in Hx. simpl in *.
    by destruct (a_OutputExpiresAt a).
Qed.

Lemma publish_Ok NewSHA1 id runID r sn now db db' u :
  publish_snapshot NewSHA1 id runID r sn now db = (db', Ok u) ->
  exists db1 s n, same_tables db db1 /\ update_run runID always (run_set_snapshot s (sql_time now)) db1 = (db', Ok n).
Proof.
  unfold publish_snapshot. repeat (case_match; [done|]). cbv zeta. intros Hx. tx_inv.
  apply frame_Ok in Hm; [|apply frame_insertEnvironment]. eauto.
Qed.

Lemma moves_publish NewSHA1 db db' id a r sn now u :
  inv db -> db.(allocations) !! id = Some a -> IsCleanupState a.(a_State) = true ->
  publish_snapshot NewSHA1 id a.(a_RunID) r sn now db = (db', Ok u) ->
  moves db db' /\ allocations db' = allocations db.
Proof.
  intros Hinv Ha Hc Hx. apply publish_Ok in Hx as (db1 & s & n & Hs & Hx).
  pose proof (moves_same_tables _ _ Hinv Hs) as Hm. pose proof Hs as (_ & Ea & _).
  eapply moves_snapshot in Hx as (Hm' & Ea' & _); [|by eapply moves_inv|by rewrite Ea|done].
  split; [by eapply moves_trans|by rewrite Ea'].
Qed.

Lemma plain_publish NewSHA1 id runID r sn now : plain (publish_snapshot NewSHA1 id runID r sn now).
Proof.
  unfold publish_snapshot. plain_tac. intros db db' e. unfold insert_environment. repeat case_match; naive_solver.
Qed.

Lemma Release_moves NewSHA1 allocationID owner snapshot now db :
  inv db -> moves db (fst (CompleteAllocationRelease NewSHA1 allocationID owner snapshot now db)).
Proof.
  intros Hinv. unfold CompleteAllocationRelease. apply withTx_moves; [done| |].
  { apply plain_bind; [apply plain_gets|]. intros [[a r]|]; [|plain_tac].
    apply plain_bind; [apply plain_Require|intros _].
    repeat (apply plain_bind; [plain_tac|intros _]). cbv zeta.
    destruct snapshot; [apply plain_bind; [apply plain_publish|intros _]|destruct (_ && _ && _)]; plain_tac;
      apply plain_release_queue; plain_tac. }
  intros db' [] Hx. cbv zeta in Hx. tx_inv. set (id := TrimSpace allocationID) in *.
  destruct (allocations db !! id) as [a|] eqn:Ha; simpl in Hx; [|done].
  destruct (runs db !! a_RunID a) as [r|] eqn:Hr; simpl in Hx; [|done]. tx_inv. claim_inv.
  clear a0 q Hq Ha0 Howner Hlive Hintent.
  assert (Hrel : moves db db2 /\ exists a2, allocations db2 !! id = Some a2 /\ a_RunID a2 = a_RunID a /\
            a_State a2 = ALS_RELEASED).
  { destruct (bool_decide (a_State a = ALS_RELEASING)) eqn:Hs; cbn [when_tx] in Hm1; tx_inv.
    - apply bool_decide_eq_true in Hs. by eapply moves_release.
    - split; [by apply moves_refl|]. exists a. split; [done|]. split; [done|].
      apply bool_decide_eq_false in Hs. by destruct (a_State a). }
  destruct Hrel as (Hmv & a2 & Ha2 & Erun & Es2). pose proof (moves_inv _ _ Hinv Hmv) as Hinv2.
  assert (Hc2 : IsCleanupState (a_State a2) = true) by by rewrite Es2.
  rewrite <- Erun in Hx. eapply moves_trans; [exact Hmv|].
  destruct snapshot as [sn|]; [|destruct (_ && _ && _); [done|]]; tx_inv; apply release_queue_Ok, wrap_Ok in Hx.
  - eapply moves_publish in Hm as [Hmv3 _]; [|done..].
    eapply moves_trans; [exact Hmv3|]. eapply moves_update_queue; [by eapply moves_inv|exact Hx].
  - assert (Hm3 : moves db2 db0 /\ allocations db0 = allocations db2).
    { destruct (_ && _) in Hm; cbn [when_tx] in Hm; tx_inv; [|by split; [apply moves_refl|]].
      eapply moves_snapshot in Hm0 as (? & ? & _); done. }
    destruct Hm3 as [Hmv3 Ea3]. eapply moves_trans; [exact Hmv3|].
    eapply moves_delete_queue; [by eapply moves_inv| |exact Hx].
    intros b Hrow. rewrite Ea3, Ha2 in Hrow. injection Hrow as <-. by rewrite Es2.
Qed.

(** *** Operator transactions *)
Lemma lockRetry_Ok id now db db' item :
  lockLifecycleRetry id now db = (db', Ok item) -> db' = db /\ retry_item db (TrimSpace id) now = Some item.
Proof.
  unfold lockLifecycleRetry. intros Hx. tx_inv.
  destruct (retry_item db (TrimSpace id) now) as [i|] eqn:E; tx_inv. done.
Qed.
Lemma retry_item_Some db id now item :
  retry_item db id now = Some item ->
  item.(lr_AllocationID) = id /\ exists q a,
    db.(allocation_reconcile_queue) !! id = Some q /\ db.(allocations) !! id = Some a /\
    a.(a_RunID) = item.(lr_RunID) /\ a.(a_State) = item.(lr_LifecycleState).
Proof.
  unfold retry_item. destruct (allocation_reconcile_queue db !! id) as [q|]; simpl; [|done].
  destruct (allocations db !! id) as [a|]; simpl; [|done].
  destruct (runs db !! a_RunID a); simpl; [|done]. destruct (nodes db !! a_NodeID a); simpl; [|done].
  intros [= <-]. simpl. eauto 10.
Qed.

Lemma Force_moves req now eventID db :
  inv db -> moves db (fst (ForceAllocationLifecycleRetry req now eventID db)).
Proof.
  intros Hinv. unfold ForceAllocationLifecycleRetry. apply bind_moves; [by apply moves_refl| |done].
  intros [] d Hd. apply withTx_admin_moves; [done|]. intros db' item Hx. tx_inv.
  repeat match goal with
  | Hf : lockLifecycleRetry _ _ _ = _ |- _ => apply lockRetry_Ok in Hf as [-> _]
  | Hf : audit _ _ _ _ _ _ = _ |- _ => apply frame_Ok in Hf; [|apply frame_audit]
  | Hf : loadLifecycleRetry _ _ _ = _ |- _ => apply frame_Ok in Hf; [|apply frame_loadRetry]
  end.
  pose proof (moves_same_tables _ _ Hd Hm0) as Hmv. eapply moves_trans; [exact Hmv|].
  apply moves_inv in Hmv; [|done].
  pose proof (moves_update_queue _ _ _ _ _ _ Hmv Hm1) as Hmv2. eapply moves_trans; [exact Hmv2|].
  apply moves_same_tables; [by eapply moves_inv|done].
Qed.

Lemma Clear_moves req now eventID db :
  inv db -> moves db (fst (ClearAllocationLifecycleRetry req now eventID db)).
Proof.
  intros Hinv. unfold ClearAllocationLifecycleRetry. apply bind_moves; [by apply moves_refl| |done].
  intros [] d Hd. apply withTx_admin_moves; [done|]. intros db' item Hx. tx_inv.
  apply bool_decide_eq_true in Hb.
  repeat match goal with
  | Hf : lockLifecycleRetry _ _ _ = _ |- _ => apply lockRetry_Ok in Hf as [-> Hitem]
  | Hf : audit _ _ _ _ _ _ = _ |- _ => apply frame_Ok in Hf; [|apply frame_audit]
  | Hf : requireNoActiveAllocationCleanupState _ _ _ = _ |- _ => apply frame_Ok in Hf; [|frame_tac]
  | Hf : requireRunConvergedForClear _ _ = _ |- _ => apply frame_Ok in Hf; [|frame_tac]
  end.
  apply retry_item_Some in Hitem as (_ & q & a & _ & Ha & _ & Es).
  pose proof (same_tables_trans _ _ _ (same_tables_trans _ _ _ Hm1 Hm2) Hm3) as Hs.
  pose proof (moves_same_tables _ _ Hd Hs) as Hmv. eapply moves_trans; [exact Hmv|].
  unfold deleteLifecycleRetry in Hm4. tx_inv.
  eapply moves_delete_queue; [by eapply moves_inv| |eassumption].
  destruct Hs as (_ & Ea & _). intros b. rewrite Ea, Ha. intros [= <-]. by rewrite Es, Hb.
Qed.

Lemma failRun_moves item a message now db db' u :
  inv db -> db.(allocations) !! item.(lr_AllocationID) = Some a -> a.(a_RunID) = item.(lr_RunID) ->
  present a.(a_State) -> is_Some (db.(allocation_reconcile_queue) !! item.(lr_AllocationID)) ->
  failRunLifecycleRetry item message now db = (db', Ok u) -> moves db db'.
Proof.
  intros Hinv Ha Erun Hp [q Hq] Hx. unfold failRunLifecycleRetry in Hx. cbv zeta in Hx. tx_inv.
  rewrite <- Erun in *.
  eapply (alloc_run_pair _ _ _ _ _ (fun b => String.eqb b.(a_RunID) a.(a_RunID))) in Hm0
    as (a' & r & Hpair & Est & Hnt & _ & Eq0); [|done|done|apply String.eqb_refl|done|exact Hm|done].
  repeat match goal with
  | Hf : RevokeInteractiveAccessGrants _ _ = _ |- _ => apply frame_Ok, queue_frames in Hf as (Eq1 & Ea1 & Er1);
      [|apply frame_RevokeInteractive]
  | Hf : RevokeActiveForAllocationsTx _ _ _ _ _ = _ |- _ => apply frame_Ok, queue_frames in Hf as (Eq2 & Ea2 & Er2);
      [|apply frame_RevokeActive]
  | Hf : update_queue _ _ _ _ = _ |- _ => apply update_queue_Ok in Hf as [(q1 & Hq1 & _ & _ & ->)|(_ & _ & Hno)]
  end; [|rewrite Eq2, Eq1, Eq0 in Hno; by specialize (Hno _ Hq)].
  match goal with |- moves _ (set_queue ?d ?m) => destruct (proj2 (proj2 (set_frames d)) m) as (Ea' & Er' & Eq') end.
  eapply moves_terminate;
    [done|eapply pair_update_after; [exact Hpair|by rewrite Ea', Ea2, Ea1|by rewrite Er', Er2, Er1]|done..| |].
  - rewrite Eq', lookup_insert_eq. eauto.
  - intros i Hi. by rewrite Eq', lookup_insert_ne, Eq2, Eq1, Eq0.
Qed.

Lemma Fail_moves req now eventID db :
  inv db -> moves db (fst (FailAllocationLifecycleRetry req now eventID db)).
Proof.
  intros Hinv. unfold FailAllocationLifecycleRetry. apply bind_moves; [by apply moves_refl| |done].
  intros [] d Hd. apply withTx_admin_moves; [done|]. intros db' item Hx. tx_inv.
  repeat match goal with
  | Hf : lockLifecycleRetry _ _ _ = _ |- _ => apply lockRetry_Ok in Hf as [-> Hitem]
  | Hf : audit _ _ _ _ _ _ = _ |- _ => apply frame_Ok in Hf; [|apply frame_audit]
  | Hf : loadLifecycleRetry _ _ _ = _ |- _ => apply frame_Ok in Hf; [|apply frame_loadRetry]
  end.
  apply retry_item_Some in Hitem as (Eid & q & a & Hq & Ha & Erun & Es).
  pose proof (moves_same_tables _ _ Hd Hm2) as Hmv. eapply moves_trans; [exact Hmv|].
  apply moves_inv in Hmv; [|done]. pose proof Hm2 as (_ & Ea2 & Eq2).
  apply failRun_moves with (a := a) in Hm3; [|done|by rewrite Ea2, Eid|done| |by rewrite Eq2, Eid, Hq].
  - eapply moves_trans; [exact Hm3|]. apply moves_same_tables; [by eapply moves_inv|done].
  - unfold present. rewrite Es. by apply bool_decide_eq_true in Hb0.
Qed.
End store.

#[export] Hint Resolve plain_Revision plain_RevokeInteractive plain_RevokeActive plain_Schedule plain_Require
  plain_ScheduleClaimed plain_deleteSecrets plain_deleteAllocationSecrets plain_terminate : plain.
#[export] Hint Resolve frame_NextAccessGrantRevision frame_RevokeInteractive frame_RevokeActive frame_deleteSecrets
  frame_deleteAllocationSecrets frame_Require frame_Replace frame_audit frame_lockRetry frame_loadRetry
  frame_insertEnvironment : frame.

(** ** Transactions that respect a relation, whatever their outcome *)
Definition respects (R : relation DB) {A} (m : Tx A) : Prop := forall db, R db (fst (m db)).
Section respects.
Context {R : relation DB} `{!PreOrder R}.
Lemma respects_same {A} (m : Tx A) : (forall db, fst (m db) = db) -> respects R m.
Proof. intros Hm db. by rewrite Hm. Qed.
Lemma respects_ret {A} (a : A) : respects R (mret a).
Proof. by apply respects_same. Qed.
Lemma respects_fail {A} e : respects R (fail e : Tx A).
Proof. by apply respects_same. Qed.
Lemma respects_gets {A} (f : DB -> A) : respects R (gets f).
Proof. by apply respects_same. Qed.
Lemma respects_lift {A} (r : result A) : respects R (lift r).
Proof. by apply respects_same. Qed.
Lemma respects_guard b e : respects R (guard_tx b e).
Proof. apply respects_same. by destruct b. Qed.
Lemma respects_bind {A B} (m : Tx A) (f : A -> Tx B) : respects R m -> (forall a, respects R (f a)) -> respects R (x ← m; f x).
Proof.
  intros Hm Hf db. unfold mbind, tx_bind. specialize (Hm db). destruct (m db) as [d [a|e]]; [|done].
  simpl in Hm. etrans; [exact Hm|apply Hf].
Qed.
Lemma respects_when b m : respects R m -> respects R (when_tx b m).
Proof. destruct b; [done|]. intros _. apply respects_ret. Qed.
Lemma respects_wrap {A} fmt (m : Tx A) : respects R m -> respects R (wrap fmt m).
Proof. intros Hm db. specialize (Hm db). unfold wrap. by destruct (m db) as [d [a|e]]. Qed.
Lemma respects_for {A} (body : A -> Tx ()) l : (forall x, respects R (body x)) -> respects R (for_tx body l).
Proof. intros Hb. induction l; simpl; [apply respects_ret|]. by apply respects_bind. Qed.
Lemma respects_withTx {A} (m : Tx A) : respects R m -> respects R (withTx m).
Proof.
  intros Hm db. specialize (Hm db). unfold withTx. destruct (m db) as [d [a|e]]; [done|].
  simpl in *. by case_match.
Qed.
Lemma respects_withTx_admin {A} (m : Tx A) : respects R m -> respects R (withTx_admin m).
Proof. intros Hm db. specialize (Hm db). unfold withTx_admin. by destruct (m db) as [d [a|e]]. Qed.
Lemma respects_Ok {A} (m : Tx A) db db' r : respects R m -> m db = (db', r) -> R db db'.
Proof. intros Hm E. specialize (Hm db). by rewrite E in Hm. Qed.
End respects.
