(* ===== verification/Admission.v ===== *)
(** * Durable admission

    [postgres/resourceadmission] ([admission.go], [candidate_selection.go],
    [diagnostics.go], [quota_diagnostics.go], [quota_events.go]), the quota lock
    of [postgres/namespace/namespace.go] and [AdmitRun] of
    [postgres/run/run_admission.go]: the transaction that checks a namespace's
    quota, re-evaluates the preselected candidates under their row locks, binds a
    Run to the best node that still fits and records the charge.  Recorders of
    metrics are left out.  The clock the code reads again, the time spent waiting
    for locks and random identifiers are arguments. *)
From S2P Require Import Prelude Proto Resource Allocation Capability Node Placement Execution Store Reconcile RunStore.
From Stdlib Require Import SpecFloat.

(** ** [fmt]'s [%.3g] on a float64 *)
Definition trim_zeros (s : string) : string :=
  let fix drop (s : string) := match s with String "0" rest => drop rest | _ => s end in
  string_rev (drop (string_rev s)).
(** The decimal exponent [x] with [10^x <= num/den < 10^(x+1)], from a guess. *)
Fixpoint decimal_exponent (fuel : nat) (x : Z) (num den : Z) : Z :=
  match fuel with
  | O => x
  | S fuel =>
      if num * 10 ^ Z.max 0 (- x) <? den * 10 ^ Z.max 0 x then decimal_exponent fuel (x - 1) num den
      else if den * 10 ^ Z.max 0 (x + 1) <=? num * 10 ^ Z.max 0 (- (x + 1))
      then decimal_exponent fuel (x + 1) num den
      else x
  end.
Definition round_half_even (num den : Z) : Z :=
  let q := num / den in
  let r := num mod den in
  if 2 * r <? den then q else if den <? 2 * r then q + 1 else if Z.even q then q else q + 1.
Definition sign_str (s : bool) : string := if s then "-" else "".
Definition pad2 (z : Z) : string := (if z <? 10 then "0" else "") +:+ format_Z z.

(** [digits] holds three significant digits of a value below [10^(x+1)]. *)
Definition render_g3 (s : bool) (digits x : Z) : string :=
  let d := format_Z digits in
  let first := take_bytes 1 d in
  let frac := trim_zeros (drop_bytes 1 d) in
  let point := fun f => if String.eqb f "" then "" else "." +:+ f in
  sign_str s +:+
  (if (x <? -4) || (3 <=? x)
   then first +:+ point frac +:+ "e" +:+ (if x <? 0 then "-" else "+") +:+ pad2 (Z.abs x)
   else if x <? 0
   then "0." +:+ sconcat "" (repeat "0" (Z.to_nat (- x - 1))) +:+ trim_zeros d
   else take_bytes (Z.to_nat (x + 1)) d +:+ point (trim_zeros (drop_bytes (Z.to_nat (x + 1)) d))).
Definition format_g3 (f : float64) : string :=
  match f with
  | S754_zero s => sign_str s +:+ "0"
  | S754_infinity s => (if s then "-" else "+") +:+ "Inf"
  | S754_nan => "NaN"
  | S754_finite s m e =>
      let num := Zpos m * 2 ^ Z.max 0 e in
      let den := 2 ^ Z.max 0 (- e) in
      let x := decimal_exponent 700 0 num den in
      let digits := round_half_even (num * 10 ^ Z.max 0 (2 - x)) (den * 10 ^ Z.max 0 (x - 2)) in
      if 1000 <=? digits then render_g3 s 100 (x + 1) else render_g3 s digits x
  end.

Example format_g3_examples :
  map format_g3 [f64_of_Z 1; f64_of_Z 120; f64_of_Z 1999; f64_of_Z (10 ^ 15);
                 SFdiv 53 1024 (f64_of_Z 5) (f64_of_Z 4); SFdiv 53 1024 (f64_of_Z 2) (f64_of_Z 3);
                 SFdiv 53 1024 (f64_of_Z (-1)) (f64_of_Z 400); SFdiv 53 1024 (f64_of_Z 1) (f64_of_Z (10 ^ 6));
                 SFdiv 53 1024 (f64_of_Z 9996) (f64_of_Z 1000)]
  = ["1"; "120"; "2e+03"; "1e+15"; "1.25"; "0.667"; "-0.0025"; "1e-06"; "10"].
Proof. vm_compute. reflexivity. Qed.

(** ** Namespaces (kernel/environment/rules.go, postgres/namespace) *)
Definition DefaultNamespace : string := "default".
Definition NormalizeNamespace (namespace : string) : string :=
  let namespace := TrimSpace namespace in
  if String.eqb namespace "" then DefaultNamespace else namespace.

Definition LockQuotaRows (namespace : string) : Tx string := fun db =>
  let normalized := NormalizeNamespace namespace in
  match db.(namespaces) !! normalized, db.(namespace_resource_quotas) !! normalized with
  | Some None, Some _ => (db, Ok normalized)
  | _, _ => (db, Err (Status NotFound "namespace %q not found" [AStr normalized]))
  end.
Definition LockQuotaPolicy (namespace : string) : Tx NamespaceQuotaPolicy :=
  normalized ← LockQuotaRows namespace;
  quota ← gets (fun db => db.(namespace_resource_quotas) !! normalized);
  match quota with
  | Some q => mret q
  | None => fail (Wrapf "load namespace quota policy: %w" [] no_rows)
  end.

(** ** Charges

    [COALESCE(SUM(..), 0)]; a sum that does not fit in an int64 fails to scan. *)
Definition charge (a : AllocRow) : Claim := mkClaim a.(a_CPUMilli) a.(a_MemoryBytes) a.(a_EphemeralBytes).
Definition add_claim (c d : Claim) : Claim :=
  mkClaim (c.(CPUMilli) + d.(CPUMilli)) (c.(MemoryBytes) + d.(MemoryBytes))
    (c.(EphemeralStorageBytes) + d.(EphemeralStorageBytes)).
Definition sum_claims (l : list Claim) : Claim := foldr add_claim empty_claim l.
Definition claim_scans (c : Claim) : bool :=
  let ok z := (MinInt64 <=? z) && (z <=? MaxInt64) in
  ok c.(CPUMilli) && ok c.(MemoryBytes) && ok c.(EphemeralStorageBytes).
Definition not_released (a : AllocRow) : bool := negb (bool_decide (a.(a_State) = ALS_RELEASED)).

Definition rows_where (p : AllocRow -> bool) (db : DB) : list (string * AllocRow) :=
  List.filter (fun kv : string * AllocRow => p kv.2) (map_to_list db.(allocations)).
Definition charges_where (p : AllocRow -> bool) (db : DB) : Claim :=
  sum_claims (map (fun kv => charge kv.2) (rows_where p db)).

Definition in_namespace (db : DB) (namespace : string) (a : AllocRow) : bool :=
  match db.(runs) !! a.(a_RunID) with
  | Some r => String.eqb r.(r_Namespace) namespace && not_released a
  | None => false
  end.
Definition namespace_charges (db : DB) (namespace : string) : Claim :=
  charges_where (in_namespace db namespace) db.
Definition activeNamespaceAllocationUsage (namespace : string) : Tx Claim := fun db =>
  let used := namespace_charges db namespace in
  if claim_scans used then (db, Ok used)
  else (db, Err (Wrapf "sum namespace allocation charges: %w" [] (Sentinel "numeric out of range"))).

Definition on_node (nodeID : string) (a : AllocRow) : bool :=
  String.eqb a.(a_NodeID) nodeID && not_released a.
Definition node_charges (db : DB) (nodeID : string) : Claim := charges_where (on_node nodeID) db.
Definition charged_ids (db : DB) (nodeID : string) : list string :=
  sort_slice string_lt (map fst (rows_where (on_node nodeID) db)).

(** ** Candidates under lock (candidate_selection.go) *)
Definition candidateNodeIDs (candidates : list (option Candidate)) : list string :=
  sort_slice string_lt (elements (list_to_set (List.filter (fun id => negb (String.eqb id ""))
    (map (fun c => TrimSpace c.(c_Record).(nr_NodeID)) (omap (fun c => c) candidates))) : gset string)).

(** The scanned record carries the row's key. *)
Definition scan_record (nodeID : string) (n : NodeRecord) : NodeRecord :=
  mkNodeRecord nodeID n.(nr_NodeTarget) n.(nr_Summary) n.(nr_Lifecycle) n.(nr_AdmittedAt)
    n.(nr_LastHeartbeatAt) n.(nr_RetiredAt) n.(nr_RetiredReason).
Definition lockCandidateNodes (candidates : list (option Candidate)) (db : DB) : gmap string NodeRecord :=
  list_to_map (omap (fun id => (fun n => (id, scan_record id n)) <$> (db.(nodes) !! id))
                 (candidateNodeIDs candidates)).

Record nodeAllocationUsage := mkUsage { resources : Claim; allocationIDs : list string }.
#[export] Instance zero_usage : Zero nodeAllocationUsage := mkUsage empty_claim [].

(** [GROUP BY node_id]: a node without charges has no entry. *)
Definition node_usage (db : DB) (nodeID : string) : option nodeAllocationUsage :=
  match charged_ids db nodeID with
  | [] => None
  | ids => Some (mkUsage (node_charges db nodeID) ids)
  end.
Definition activeCandidateAllocationUsage (locked : gmap string NodeRecord) :
    Tx (gmap string nodeAllocationUsage) := fun db =>
  let usage := map_imap (fun id _ => node_usage db id) locked in
  if forallb (fun kv : string * nodeAllocationUsage => claim_scans kv.2.(resources)) (map_to_list usage)
  then (db, Ok usage)
  else (db, Err (Wrapf "scan placement candidate allocation charges: %w" [] (Sentinel "numeric out of range"))).

Definition allocatableFromSummary (summary : option NodeSummary) : option ResourceQuantity :=
  match (deref summary).(ns_Allocatable) with
  | Some q => Some q
  | None => match (deref summary).(ns_Capacity) with
            | Some q => Some q
            | None => Some (mkResourceQuantity 0 0 0)
            end
  end.

Definition refreshPlacementCandidate (candidate : Candidate) (record : NodeRecord) (charged : Claim)
    (chargedAllocationIDs : list string) (now : time) : Candidate :=
  let e := CloneEvaluation candidate.(c_Evaluation) in
  let r := GetRank e in
  mkCandidate record
    (Some (mkEvaluation record.(nr_NodeID) e.(e_State) e.(e_RejectionReasons)
       (HeartbeatAgeSecs record.(nr_LastHeartbeatAt) now) e.(e_SummaryAgeSecs) e.(e_Pools) e.(e_Locality)
       (Some (mkRank r.(rk_MountedMatch) r.(rk_RetainedRootfsCount) r.(rk_RetainedEnvironmentCount)
          r.(rk_NydusDaemonAlive) r.(rk_ChunkDBRecentAccessAgeSecs) r.(rk_PeerHealthyCount)
          r.(rk_PeerHintedCount) r.(rk_IdlePoolReady)
          (CalculateRuntimeSlotOccupancy record.(nr_Summary) chargedAllocationIDs).(ro_Occupied)
          charged.(CPUMilli) charged.(MemoryBytes) charged.(EphemeralStorageBytes)))))
    candidate.(c_BaseRequest) candidate.(c_Request).

(** ** Rejection diagnostics (diagnostics.go) *)
Record runtimeSlotEvaluation := mkSlotEvaluation {
  se_Charged : Z; se_Active : Z; se_PoolUsing : Z; se_Occupied : Z;
  se_Capacity : Z; se_Available : Z; se_Fits : bool; se_Known : bool }.
Record admissionRejectionDetail := mkDetail {
  ad_NodeID : string; ad_CPU : option ResourceEvaluation; ad_Memory : option ResourceEvaluation;
  ad_EphemeralStorage : option ResourceEvaluation; ad_CPUOvercommitRatio : float64;
  ad_RuntimeSlots : option runtimeSlotEvaluation }.
Record admissionRejectionDiagnostics := mkDiagnostics {
  di_limit : Z; di_details : list admissionRejectionDetail; di_omitted : Z;
  di_rejectedCPU : bool; di_rejectedMemory : bool; di_rejectedEphemeralStorage : bool;
  di_rejectedSlots : bool }.
Definition newAdmissionRejectionDiagnostics (limit : Z) : admissionRejectionDiagnostics :=
  mkDiagnostics limit [] 0 false false false false.

Definition evaluateRuntimeSlots (summary : option NodeSummary) (chargedAllocationIDs : list string) :
    runtimeSlotEvaluation :=
  let '(capacity, known) := RuntimeSlotCapacity summary in
  let o := CalculateRuntimeSlotOccupancy summary chargedAllocationIDs in
  mkSlotEvaluation o.(ro_Charged) o.(ro_Active) o.(ro_PoolUsing) o.(ro_Occupied) capacity
    (Z.max 0 (capacity - o.(ro_Occupied))) (known && (o.(ro_Occupied) <? capacity)) known.

Definition lacking (e : ResourceEvaluation) : bool := (0 <? e.(re_Requested)) && negb e.(re_Fits).
Definition when_lacking (e : ResourceEvaluation) : option ResourceEvaluation :=
  if lacking e then Some e else None.
Definition buildAdmissionRejectionDetail (nodeID : string) (policy : AdmissionPolicy) (e : FitEvaluation) :
    admissionRejectionDetail :=
  mkDetail nodeID (when_lacking e.(fit_CPU)) (when_lacking e.(fit_Memory))
    (when_lacking e.(fit_EphemeralStorage)) (NormalizeAdmissionPolicy policy).(CPUOvercommitRatio) None.

Definition AddCandidate (d : admissionRejectionDiagnostics) (nodeID : string) (policy : AdmissionPolicy)
    (e : FitEvaluation) (s : runtimeSlotEvaluation) : admissionRejectionDiagnostics :=
  let lackingSlots := s.(se_Known) && negb s.(se_Fits) in
  let full := d.(di_limit) <=? Z.of_nat (length d.(di_details)) in
  let base := buildAdmissionRejectionDetail nodeID policy e in
  let detail := mkDetail base.(ad_NodeID) base.(ad_CPU) base.(ad_Memory) base.(ad_EphemeralStorage)
                  base.(ad_CPUOvercommitRatio) (if lackingSlots then Some s else None) in
  mkDiagnostics d.(di_limit)
    (if full then d.(di_details) else d.(di_details) ++ [detail])
    (if full then d.(di_omitted) + 1 else d.(di_omitted))
    (d.(di_rejectedCPU) || lacking e.(fit_CPU)) (d.(di_rejectedMemory) || lacking e.(fit_Memory))
    (d.(di_rejectedEphemeralStorage) || lacking e.(fit_EphemeralStorage))
    (d.(di_rejectedSlots) || lackingSlots).

Definition field (name : string) (z : Z) : string := name +:+ "=" +:+ format_Z z.
Definition resource_message (name unit : string) (e : ResourceEvaluation) : string :=
  name +:+ " " +:+ sconcat " "
    [field ("requested_" +:+ unit) e.(re_Requested); field ("used_" +:+ unit) e.(re_Used);
     field ("effective_allocatable_" +:+ unit) e.(re_EffectiveAllocatable);
     field ("available_" +:+ unit) e.(re_Available)].
Definition detail_Message (d : admissionRejectionDetail) : string :=
  sconcat " "
    (["node_id=" +:+ d.(ad_NodeID)]
     ++ (match d.(ad_CPU) with
         | Some e => [resource_message "cpu" "milli" e +:+ " overcommit_ratio=" +:+ format_g3 d.(ad_CPUOvercommitRatio)]
         | None => [] end)
     ++ (match d.(ad_Memory) with Some e => [resource_message "memory" "bytes" e] | None => [] end)
     ++ (match d.(ad_EphemeralStorage) with Some e => [resource_message "ephemeral_storage" "bytes" e] | None => [] end)
     ++ (match d.(ad_RuntimeSlots) with
         | Some s => [sconcat " "
             ["runtime_slots requested=1"; field "charged" s.(se_Charged); field "active" s.(se_Active);
              field "pool_using" s.(se_PoolUsing); field "occupied" s.(se_Occupied);
              field "capacity" s.(se_Capacity); field "available" s.(se_Available)]]
         | None => [] end)).
Definition diagnostics_Message (d : admissionRejectionDiagnostics) : string :=
  "no node has remaining resource capacity"
  +:+ (if (0 <? length d.(di_details))%nat
       then ": " +:+ sconcat "; " (map detail_Message d.(di_details)) else "")
  +:+ (if 0 <? d.(di_omitted) then "; " +:+ field "omitted_rejections" d.(di_omitted) else "").
Definition rejectedResources (d : admissionRejectionDiagnostics) : list string :=
  when d.(di_rejectedCPU) "cpu" ++ when d.(di_rejectedMemory) "memory"
  ++ when d.(di_rejectedEphemeralStorage) "ephemeral_storage" ++ when d.(di_rejectedSlots) "runtime_slots".
(** By key order. *)
Definition diagnostics_Metadata (d : admissionRejectionDiagnostics) : list (string * string) :=
  [("diagnostic_code", AdmissionDiagnosticCode_string AdmissionDiagnosticNodeCapacity)]
  ++ (if 0 <? d.(di_omitted) then [("omitted_rejections", format_Z d.(di_omitted))] else [])
  ++ [("rejection_count", format_Z (Z.of_nat (length d.(di_details)) + d.(di_omitted)))]
  ++ (if (0 <? length (rejectedResources d))%nat then [("resources", sconcat "," (rejectedResources d))] else []).
Definition admissionRejectionError (d : admissionRejectionDiagnostics) : error :=
  StatusInfo ResourceExhausted (diagnostics_Message d)
    (AdmissionRejectionReason_string AdmissionRejectionNodeCapacity) AdmissionErrorDomain
    (diagnostics_Metadata d).

(** ** Quota diagnostics and events (quota_diagnostics.go, quota_events.go) *)
Definition quota_lacking (e : QuotaResourceEvaluation) : bool := (0 <? e.(qre_Requested)) && negb e.(qre_Fits).
Definition quotaResourceMessage (resource unit : string) (e : QuotaResourceEvaluation) : string :=
  resource +:+ " " +:+ sconcat " "
    [field ("requested_" +:+ unit) e.(qre_Requested); field ("used_" +:+ unit) e.(qre_Used);
     field ("limit_" +:+ unit) (deref e.(qre_Limit)); field ("available_" +:+ unit) (deref e.(qre_Available))].
Definition quotaRejectionMessage (namespace : string) (e : QuotaEvaluation) : string :=
  sconcat " "
    (["namespace quota exceeded: namespace=" +:+ namespace]
     ++ when (quota_lacking e.(qe_CPU)) (quotaResourceMessage "cpu" "milli" e.(qe_CPU))
     ++ when (quota_lacking e.(qe_Memory)) (quotaResourceMessage "memory" "bytes" e.(qe_Memory))
     ++ when (quota_lacking e.(qe_EphemeralStorage))
          (quotaResourceMessage "ephemeral_storage" "bytes" e.(qe_EphemeralStorage))).
Definition addQuotaResourceMetadata (resource unit : string) (e : QuotaResourceEvaluation) :
    list (string * string) :=
  [(resource +:+ "_available", format_Z (deref e.(qre_Available)));
   (resource +:+ "_limit", format_Z (deref e.(qre_Limit)));
   (resource +:+ "_requested", format_Z e.(qre_Requested));
   (resource +:+ "_unit", unit);
   (resource +:+ "_used", format_Z e.(qre_Used))].
Definition quotaRejectionMetadata (namespace : string) (e : QuotaEvaluation) : list (string * string) :=
  let lack := when (quota_lacking e.(qe_CPU)) "cpu" ++ when (quota_lacking e.(qe_Memory)) "memory"
              ++ when (quota_lacking e.(qe_EphemeralStorage)) "ephemeral_storage" in
  (if quota_lacking e.(qe_CPU) then addQuotaResourceMetadata "cpu" "milli" e.(qe_CPU) else [])
  ++ [("diagnostic_code", AdmissionDiagnosticCode_string AdmissionDiagnosticNamespaceQuotaExceeded)]
  ++ (if quota_lacking e.(qe_EphemeralStorage)
      then addQuotaResourceMetadata "ephemeral_storage" "bytes" e.(qe_EphemeralStorage) else [])
  ++ (if quota_lacking e.(qe_Memory) then addQuotaResourceMetadata "memory" "bytes" e.(qe_Memory) else [])
  ++ [("namespace", namespace)]
  ++ (if (0 <? length lack)%nat then [("resources", sconcat "," lack)] else []).
Definition quotaRejectionError (namespace : string) (e : QuotaEvaluation) : error :=
  StatusInfo ResourceExhausted (quotaRejectionMessage namespace e)
    (AdmissionRejectionReason_string AdmissionRejectionNamespaceQuotaExceeded) AdmissionErrorDomain
    (quotaRejectionMetadata namespace e).

(** The CHECK rules of [namespace_quota_events]. *)
Definition check_quota_part (e : QuotaResourceEvaluation) : bool :=
  (0 <=? e.(qre_Requested)) && (0 <=? e.(qre_Used))
  && from_option (Z.leb 0) true e.(qre_Limit) && from_option (Z.leb 0) true e.(qre_Available).
Definition check_quota_event (e : QuotaEvent) : bool :=
  match e.(qe_Reason) with QuotaEventReasonExceeded => false | _ => true end
  && not_blank e.(qe_EnvironmentID)
  && check_quota_part e.(qe_Evaluation).(qe_CPU) && check_quota_part e.(qe_Evaluation).(qe_Memory)
  && check_quota_part e.(qe_Evaluation).(qe_EphemeralStorage).

Definition insertQuotaAdmissionRejectedEvent `{SqlTime} (eventID namespace environmentID : string)
    (e : QuotaEvaluation) (createdAt wall : time) : Tx () := fun db =>
  let namespace := NormalizeNamespace namespace in
  let id := "quotaevt-" +:+ eventID in
  let row := mkQuotaEvent id namespace environmentID (QuotaEventReasonForEvaluation e) e
               (sql_time (if IsZero createdAt then wall else createdAt)) in
  if negb (check_quota_event row)
  then (db, Err (Wrapf "insert namespace quota event: %w" [] check_violation))
  else if existsb (fun o => String.eqb o.(qe_ID) id) db.(namespace_quota_events)
  then (db, Err (Wrapf "insert namespace quota event: %w" [] unique_violation))
  else match db.(namespaces) !! namespace with
       | None => (db, Err (Wrapf "insert namespace quota event: %w" [] foreign_key_violation))
       | Some _ => (set_quota_events db (db.(namespace_quota_events) ++ [row]), Ok ())
       end.

(** ** Admission (admission.go) *)
Definition maxAdmissionRejectionDetails : Z := 5.

(** The [Evaluator] interface of the placement kernel. *)
Definition Evaluator : Type := option NodeRecord -> option Request -> time -> option Evaluation.
Record AdmissionService := mkAdmission { ad_policy : AdmissionPolicy; ad_placement : option Evaluator }.
Definition NewAdmission (policy : AdmissionPolicy) (evaluator : option Evaluator) : AdmissionService :=
  mkAdmission (NormalizeAdmissionPolicy policy) evaluator.
Record AdmissionDecision := mkDecision {
  dec_Record : NodeRecord; dec_Evaluation : option Evaluation; dec_Request : option Request;
  dec_CapabilityRequirements : list CapabilityRequirement }.

#[export] Instance zero_Request : Zero Request :=
  mkRequest "" RT_UNSPECIFIED MT_UNSPECIFIED 0 false 0 false 0 0 0 "" "" false false [] [] ∅.

(** What the loop over the candidates accumulates. *)
Record admit_state := mkAdmitState {
  as_diagnostics : admissionRejectionDiagnostics;
  as_rejections : list Evaluation;
  as_rejectionRequest : option Request;
  as_evaluated : Z;
  as_selected : option Candidate }.
Definition admit_start : admit_state :=
  mkAdmitState (newAdmissionRejectionDiagnostics maxAdmissionRejectionDetails) [] None 0 None.

Definition reject_eligibility (s : admit_state) (e : option Evaluation) (request : option Request) : admit_state :=
  match e with
  | None => s
  | Some e =>
      mkAdmitState s.(as_diagnostics) (s.(as_rejections) ++ [e])
        (match s.(as_rejectionRequest) with None => request | r => r end)
        s.(as_evaluated) s.(as_selected)
  end.

Section admission.
Context `{GoRuntime} `{SqlTime}.
Context (ToASCII : string -> result string).

(** One iteration of the loop. *)
Definition admit_step (policy : AdmissionPolicy) (evaluate : Evaluator) (locked : gmap string NodeRecord)
    (usage : gmap string nodeAllocationUsage) (requested : Claim) (now : time)
    (s : admit_state) (candidate : option Candidate) : admit_state :=
  match candidate with
  | None => s
  | Some candidate =>
      let record := locked !! candidate.(c_Record).(nr_NodeID) in
      match record with
      | None => s
      | Some rec =>
          if negb (Active record) then s
          else
            let baseRequest := match candidate.(c_BaseRequest) with
                               | None => candidate.(c_Request) | r => r end in
            if is_nil baseRequest then s
            else
              match ResolveRequestForNode baseRequest rec.(nr_Summary) now with
              | (_, Some _) => reject_eligibility s (evaluate record baseRequest now) baseRequest
              | (freshRequest, None) =>
                  let freshEvaluation := evaluate record freshRequest now in
                  if negb (bool_decide ((deref freshEvaluation).(e_State) = CandidateStateEligible))
                  then reject_eligibility s freshEvaluation freshRequest
                  else
                    let used := deref (usage !! rec.(nr_NodeID)) in
                    let fit := EvaluateFit policy (allocatableFromSummary rec.(nr_Summary)) used.(resources) requested in
                    let slots := evaluateRuntimeSlots rec.(nr_Summary) used.(allocationIDs) in
                    let refreshed :=
                      refreshPlacementCandidate (mkCandidate rec freshEvaluation baseRequest freshRequest) rec
                        used.(resources) used.(allocationIDs) now in
                    if negb (FitEvaluation_Fits fit) || negb slots.(se_Fits)
                    then mkAdmitState (AddCandidate s.(as_diagnostics) rec.(nr_NodeID) policy fit slots)
                           s.(as_rejections) s.(as_rejectionRequest) (s.(as_evaluated) + 1) s.(as_selected)
                    else mkAdmitState s.(as_diagnostics) s.(as_rejections) s.(as_rejectionRequest)
                           (s.(as_evaluated) + 1)
                           (if is_nil s.(as_selected) || CandidateLess (Some refreshed) s.(as_selected)
                            then Some refreshed else s.(as_selected))
              end
      end
  end.

Definition lockedAdmissionEligibilityError (evaluated : Z) (request : option Request) (rejected : list Evaluation) :
    option error :=
  if (0 <? evaluated) || (length rejected =? 0)%nat then None
  else Some (NoEligibleNodeError (deref request) rejected).

Record AdmitCandidateRequest := mkAdmitRequest {
  ar_Namespace : string; ar_EnvironmentID : string; ar_Candidates : list (option Candidate);
  ar_Config : option ExecutionConfig; ar_Now : time }.

(** [elapsed] is the time spent before the node rows were locked. *)
Definition AdmitCandidate (a : AdmissionService) (req : AdmitCandidateRequest) (elapsed : Z) (eventID : string)
    (wall : time) : Tx AdmissionDecision :=
  let namespace := NormalizeNamespace req.(ar_Namespace) in
  match a.(ad_placement) with
  | None => fail (Errorf "placement evaluator is required for durable admission" [])
  | Some evaluate =>
      let requested := QuantityToClaim
        (r ← (NormalizeConfig ToASCII req.(ar_Config)).(ec_Resources); r.(rs_Requests)) in
      quota ← LockQuotaPolicy namespace;
      namespaceUsed ← activeNamespaceAllocationUsage namespace;
      let quotaEvaluation := Quota_EvaluateFit quota namespaceUsed requested in
      if negb (QuotaEvaluation_Fits quotaEvaluation)
      then
        _ ← insertQuotaAdmissionRejectedEvent eventID namespace req.(ar_EnvironmentID) quotaEvaluation
              req.(ar_Now) wall;
        fail (Committed (quotaRejectionError namespace quotaEvaluation))
      else
        locked ← gets (lockCandidateNodes req.(ar_Candidates));
        usage ← activeCandidateAllocationUsage locked;
        let lockedEvaluationTime := Add req.(ar_Now) elapsed in
        let s := fold_left (admit_step a.(ad_policy) evaluate locked usage requested lockedEvaluationTime)
                   req.(ar_Candidates) admit_start in
        match s.(as_selected) with
        | Some selected =>
            requirements ← lift (wrap_err "resolve capability requirements: %w" []
              (ResolveRequirements (deref selected.(c_Record).(nr_Summary)).(ns_CapabilitySnapshot)
                 (map Some (deref selected.(c_Request)).(rq_CapabilityRequirements)) lockedEvaluationTime));
            mret (mkDecision selected.(c_Record) selected.(c_Evaluation) selected.(c_Request) requirements)
        | None =>
            match lockedAdmissionEligibilityError s.(as_evaluated) s.(as_rejectionRequest) s.(as_rejections) with
            | Some rejection => fail rejection
            | None => fail (admissionRejectionError s.(as_diagnostics))
            end
        end
  end.

(** ** Runs (run_admission.go) *)
Record AdmitRunParams := mkAdmitRunParams {
  ap_Namespace : string; ap_EnvironmentID : string; ap_Config : option ExecutionConfig;
  ap_Labels : gmap string string; ap_Candidates : list (option Candidate) }.

Definition insert_run (runID : string) (r : RunRow) : Tx () := fun db =>
  if negb (check_run r) then (db, Err (Wrapf "insert run: %w" [] check_violation))
  else match db.(runs) !! runID, db.(namespaces) !! r.(r_Namespace) with
       | Some _, _ => (db, Err (Wrapf "insert run: %w" [] unique_violation))
       | None, None => (db, Err (Wrapf "insert run: %w" [] foreign_key_violation))
       | None, Some _ => (set_runs db (<[runID := r]> db.(runs)), Ok ())
       end.
Definition insert_allocation (allocationID : string) (a : AllocRow) : Tx () := fun db =>
  let a := freeze_allocation_output_expiry None a in
  if negb (check_alloc a) then (db, Err (Wrapf "insert allocation: %w" [] check_violation))
  else if non_nil (db.(allocations) !! allocationID) || non_nil (allocation_of_run db a.(a_RunID))
  then (db, Err (Wrapf "insert allocation: %w" [] unique_violation))
  else match db.(runs) !! a.(a_RunID), db.(nodes) !! a.(a_NodeID) with
       | Some _, Some _ => (set_allocations db (<[allocationID := a]> db.(allocations)), Ok ())
       | _, _ => (db, Err (Wrapf "insert allocation: %w" [] foreign_key_violation))
       end.

(** The statements after admission: the Run, its secret references, its
    Allocation with its requirements, and the first reconcile. *)
Definition bind_run (params : AdmitRunParams) (env : Environment) (selected : AdmissionDecision) (now : time)
    (runID allocationID : string) : Tx (string * string) :=
  let namespace := NormalizeNamespace params.(ap_Namespace) in
  let config := NormalizeConfig ToASCII params.(ap_Config) in
  let snapshot := if non_nil config.(ec_RootfsSnapshot)
                  then mkSnapshotResult RSS_PENDING "" "" None "" "" "" "" else no_snapshot in
  let run := mkRun namespace params.(ap_EnvironmentID) RUN_PLACED config env.(env_Spec)
               (deref env.(env_ResolvedSpec)) params.(ap_Labels) 1 (sql_time now) (sql_time now)
               None WDC_UNSPECIFIED "" snapshot in
  _ ← insert_run runID run;
  _ ← insertRunSecretReferences runID namespace (requiredRunSecretIDs config env.(env_Spec));
  let requests := QuantityToClaim (r ← config.(ec_Resources); r.(rs_Requests)) in
  _ ← insert_allocation allocationID
        (mkAlloc runID selected.(dec_Record).(nr_NodeID) ALS_BOUND requests.(CPUMilli)
           requests.(MemoryBytes) requests.(EphemeralStorageBytes) (sql_time now) (sql_time now) None None);
  _ ← InsertCapabilityRequirements allocationID (map Some selected.(dec_CapabilityRequirements));
  _ ← ScheduleReconcile (mkSchedule allocationID EnsurePresent now "" false) now;
  mret (runID, allocationID).

Definition AdmitRun (svc : AdmissionService) (params : AdmitRunParams) (now : time)
    (runUUID allocationUUID : string) (elapsed : Z) (eventID : string) (wall : time) : Tx (string * string) :=
  if (length params.(ap_Candidates) =? 0)%nat then fail (Status FailedPrecondition "no eligible node" [])
  else withTx (
    environment ← gets (fun db => db.(environments) !! params.(ap_EnvironmentID));
    match environment with
    | None => fail (Status NotFound "environment %q not found" [AStr params.(ap_EnvironmentID)])
    | Some env =>
        let namespace := NormalizeNamespace params.(ap_Namespace) in
        _ ← guard_tx (String.eqb env.(env_Namespace) namespace)
              (Status InvalidArgument "run namespace %q does not own environment %q"
                 [AStr namespace; AStr params.(ap_EnvironmentID)]);
        selected ← AdmitCandidate svc
          (mkAdmitRequest namespace params.(ap_EnvironmentID) params.(ap_Candidates) params.(ap_Config) now)
          elapsed eventID wall;
        bind_run params env selected now ("run-" +:+ runUUID) ("alloc-" +:+ allocationUUID)
    end).
End admission.
