(* ===== verification/AdmissionFacts.v ===== *)
(** * Facts about durable admission

    Admission charges a node and a namespace within their limits, binds to the
    least candidate that still fits, commits a rejection only as a quota event,
    and starts an Allocation's lifecycle ([life_admit]). *)
From S2P Require Import Prelude Proto Resource Allocation Capability CapabilityFacts Node Placement PlacementFacts NetworkPolicy Execution Store Reconcile RunStore StoreFacts Admission.

(** ** Errors that roll back *)
Definition uncommitted {A} (r : result A) : Prop :=
  match r with Ok _ => True | Err e => ShouldCommitError e = false end.

Lemma uncommitted_bind {A B} (m : result A) (f : A -> result B) :
  uncommitted m -> (forall a, uncommitted (f a)) -> uncommitted (x ← m; f x).
Proof. destruct m; simpl; auto. Qed.
Lemma uncommitted_foldM {A S} (body : S -> A -> result S) l :
  (forall s x, uncommitted (body s x)) -> forall s, uncommitted (foldM body s l).
Proof.
  intros Hb. induction l as [|x l IH]; intros s; simpl; [done|]. by apply uncommitted_bind.
Qed.
Lemma uncommitted_for_each {A} (body : nat -> A -> result ()) l :
  (forall i x, uncommitted (body i x)) -> uncommitted (for_each body l).
Proof.
  intros Hb. unfold for_each. generalize 0%nat. induction l as [|x l IH]; intros i; simpl; [done|].
  by apply uncommitted_bind.
Qed.
Lemma uncommitted_wrap {A} fmt args (r : result A) : uncommitted r -> uncommitted (wrap_err fmt args r).
Proof. by destruct r. Qed.
Lemma plain_lift {A} (r : result A) : uncommitted r -> plain (lift r).
Proof. intros Hr db db' e [= <- ->]. exact Hr. Qed.

Ltac uncommitted_tac :=
  repeat first
    [ match goal with |- forall _, _ => intro end
    | done
    | apply uncommitted_bind
    | apply uncommitted_foldM
    | apply uncommitted_for_each
    | apply uncommitted_wrap
    | case_match ].

Section admission.
Context `{GoRuntime} `{SqlTime}.
Context (ToASCII : string -> result string).

Lemma uncommitted_ValidateExtension e : uncommitted (ValidateExtension e).
Proof. unfold ValidateExtension. uncommitted_tac. Qed.
Lemma uncommitted_KeyID k : uncommitted (KeyID k).
Proof. unfold KeyID. uncommitted_tac; apply uncommitted_ValidateExtension. Qed.
Lemma uncommitted_ValidateRequirements l : uncommitted (ValidateRequirements l).
Proof.
  unfold ValidateRequirements, ValidateRequirementKeys, ValidateRequirementKeys_step.
  uncommitted_tac; apply uncommitted_KeyID.
Qed.

(** ** What an admission transaction touches *)
Lemma frame_LockQuotaPolicy n : frame (LockQuotaPolicy n).
Proof.
  unfold LockQuotaPolicy. apply frame_bind; [|intros; frame_tac].
  intros db. unfold LockQuotaRows. by repeat case_match.
Qed.
Lemma frame_namespaceUsage n : frame (activeNamespaceAllocationUsage n).
Proof. intros db. unfold activeNamespaceAllocationUsage. by case_match. Qed.
Lemma frame_candidateUsage l : frame (activeCandidateAllocationUsage l).
Proof. intros db. unfold activeCandidateAllocationUsage. by case_match. Qed.
Lemma frame_quotaEvent a b c d e f : frame (insertQuotaAdmissionRejectedEvent a b c d e f).
Proof.
  intros db. unfold insertQuotaAdmissionRejectedEvent. repeat case_match; try done; apply same_tables_setters.
Qed.
Lemma frame_AdmitCandidate svc req elapsed eventID wall : frame (AdmitCandidate ToASCII svc req elapsed eventID wall).
Proof.
  unfold AdmitCandidate. destruct (ad_placement svc); [|apply frame_fail]. cbv zeta.
  repeat first [apply frame_LockQuotaPolicy | apply frame_namespaceUsage | apply frame_candidateUsage
    | apply frame_quotaEvent | apply frame_bind | apply frame_gets | apply frame_lift | apply frame_ret
    | apply frame_fail | intro | case_match].
Qed.

Lemma plain_insert_run id r : plain (insert_run id r).
Proof. intros db db' e. unfold insert_run. repeat case_match; naive_solver. Qed.
Lemma plain_insert_allocation id r : plain (insert_allocation id r).
Proof. intros db db' e. unfold insert_allocation. repeat case_match; naive_solver. Qed.
Lemma plain_for {A} (body : A -> Tx ()) l : (forall x, plain (body x)) -> plain (for_tx body l).
Proof. intros Hb. induction l; simpl; [apply plain_ret|]. by apply plain_bind. Qed.
Lemma plain_insertSecrets r n l : plain (insertRunSecretReferences r n l).
Proof. apply plain_for. intros x db db' e. destruct (bool_decide _); naive_solver. Qed.
Lemma plain_InsertRequirements id l : plain (InsertCapabilityRequirements id l).
Proof.
  apply plain_bind; [apply plain_lift, uncommitted_wrap, uncommitted_ValidateRequirements|intros _].
  apply plain_for. intros x db db' e. destruct x as [r|]; [|done].
  cbv zeta. destruct (negb _); [by intros [= <- <-]|]. destruct (_ !! _); [by intros [= <- <-]|done].
Qed.
Lemma frame_insertSecrets r n l : frame (insertRunSecretReferences r n l).
Proof. apply frame_for. intros x db. destruct (bool_decide _); [apply same_tables_setters|done]. Qed.
Lemma frame_InsertRequirements id l : frame (InsertCapabilityRequirements id l).
Proof.
  apply frame_bind; [apply frame_lift|intros _]. apply frame_for. intros x db.
  destruct x as [r|]; [|done]. cbv zeta. destruct (negb _); [done|]. destruct (_ !! _); [done|].
  apply same_tables_setters.
Qed.

Lemma plain_bind_run params env selected now runID allocationID :
  plain (bind_run ToASCII params env selected now runID allocationID).
Proof.
  unfold bind_run. cbv zeta.
  repeat (apply plain_bind; [first [apply plain_insert_run | apply plain_insertSecrets | apply plain_insert_allocation
    | apply plain_InsertRequirements | apply plain_Schedule]|intros _]). apply plain_ret.
Qed.

(** ** Admission moves the machine *)
Lemma wf_fresh db runID allocID r a :
  wf db -> TrimSpace allocID = allocID -> db.(allocations) !! allocID = None -> db.(runs) !! runID = None ->
  a.(a_RunID) = runID ->
  wf (set_allocations (set_runs db (<[runID := r]> db.(runs))) (<[allocID := a]> db.(allocations))).
Proof.
  intros [Ht Hr Hu] Htrim Hna Hnr Erun. split.
  - intros id b. destruct db; simpl in *. rewrite lookup_insert_Some. intros [[<- _]|[_ Hb]]; eauto.
  - intros id b. destruct db; simpl in *. rewrite lookup_insert_Some. intros [[<- <-]|[_ Hb]].
    + rewrite Erun, lookup_insert_eq. eauto.
    + destruct (decide (runID = a_RunID b)) as [->|]; [rewrite lookup_insert_eq; eauto|].
      rewrite lookup_insert_ne by done. eauto.
  - assert (Hno : forall id b, allocations db !! id = Some b -> a_RunID b <> runID).
    { intros id b Hb E. apply Hr in Hb as [? Hb]. rewrite E in Hb. congruence. }
    intros id id' b b'. destruct db; simpl in *. rewrite !lookup_insert_Some.
    intros [[<- <-]|[_ Hb]] [[<- <-]|[_ Hb']] E; [done|..|by eauto].
    + exfalso. eapply Hno; [exact Hb'|congruence].
    + exfalso. eapply Hno; [exact Hb|congruence].
Qed.

Lemma insert_run_Ok id r db db' u :
  insert_run id r db = (db', Ok u) ->
  db.(runs) !! id = None /\ db' = set_runs db (<[id := r]> db.(runs)).
Proof.
  unfold insert_run. destruct (negb _); [done|]. destruct (runs db !! id); [done|].
  destruct (namespaces db !! _); [|done]. by intros [= <- <-].
Qed.
Lemma insert_allocation_Ok id a db db' u :
  insert_allocation id a db = (db', Ok u) ->
  let a' := freeze_allocation_output_expiry None a in
  db.(allocations) !! id = None /\ allocation_of_run db a.(a_RunID) = None /\
  is_Some (db.(nodes) !! a.(a_NodeID)) /\ check_alloc a' = true /\
  db' = set_allocations db (<[id := a']> db.(allocations)).
Proof.
  unfold insert_allocation. cbv zeta. destruct (check_alloc _) eqn:Hc; [|done]. cbn [negb].
  destruct (allocations db !! id) eqn:Ha; [done|]. cbn [non_nil is_nil negb orb].
  cbn [a_RunID a_NodeID freeze_allocation_output_expiry].
  destruct (allocation_of_run db (a_RunID a)) eqn:Hr; [done|]. cbn [non_nil is_nil negb].
  destruct (runs db !! a_RunID a); [|done]. destruct (nodes db !! a_NodeID a); [|done].
  intros [= <- <-]. eauto 10.
Qed.

(** The rows a successful [bind_run] leaves. *)
Lemma bind_run_Ok params env selected now runID allocID db db' out :
  bind_run ToASCII params env selected now runID allocID db = (db', Ok out) ->
  let requested := QuantityToClaim
    (r ← (NormalizeConfig ToASCII params.(ap_Config)).(ec_Resources); r.(rs_Requests)) in
  exists r a q,
    db.(runs) !! runID = None /\ db.(allocations) !! allocID = None /\
    db'.(runs) = <[runID := r]> db.(runs) /\ db'.(allocations) = <[allocID := a]> db.(allocations) /\
    db'.(allocation_reconcile_queue) = <[TrimSpace allocID := q]> db.(allocation_reconcile_queue) /\
    a.(a_RunID) = runID /\ a.(a_NodeID) = selected.(dec_Record).(nr_NodeID) /\ a.(a_State) = ALS_BOUND /\
    a.(a_OutputExpiresAt) = None /\ charge a = requested /\
    r.(r_Namespace) = NormalizeNamespace params.(ap_Namespace) /\ r.(r_Status) = RUN_PLACED /\
    r.(r_ExitCode) = None /\ r.(r_Version) = 1 /\ out = (runID, allocID).
Proof.
  unfold bind_run. cbv zeta. intros Hx. tx_inv.
  apply insert_run_Ok in Hm as [Hr ->].
  apply frame_Ok, queue_frames in Hm0 as (Eq1 & Ea1 & Er1); [|apply frame_insertSecrets].
  apply insert_allocation_Ok in Hm1 as (Ha & _ & _ & _ & ->).
  apply frame_Ok, queue_frames in Hm2 as (Eq2 & Ea2 & Er2); [|apply frame_InsertRequirements].
  apply ScheduleReconcile_Ok in Hm3 as [q ->]. cbn [sr_AllocationID].
  eexists _, _, q.
  rewrite Ea1 in Ha.
  repeat match goal with
  | |- context [set_queue ?d ?m] => destruct (proj2 (proj2 (set_frames d)) m) as (-> & -> & ->)
  end.
  rewrite Ea2, Er2, Eq2.
  repeat match goal with
  | |- context [set_allocations ?d ?m] => destruct (proj1 (set_frames d) m) as (-> & -> & ->)
  end.
  rewrite Ea1, Er1, Eq1.
  match type of Ha with context [set_runs ?d ?m] => rewrite (proj1 (proj1 (proj2 (set_frames d)) m)) in Ha end.
  match goal with |- context [set_runs ?d ?m] => destruct (proj1 (proj2 (set_frames d)) m) as (-> & -> & ->) end.
  repeat split; try done.
Qed.

Lemma bind_run_moves `{Fresh : Admissible} params env selected now runID allocID db db' out :
  inv db -> TrimSpace allocID = allocID -> may_admit allocID ->
  bind_run ToASCII params env selected now runID allocID db = (db', Ok out) -> moves db db'.
Proof.
  intros [Hwf Hs] Htrim Had Hx. apply bind_run_Ok in Hx as (r & a & q & Hr & Ha & Er & Ea & Eq & Erun & _ & Est & Eexp
    & _ & _ & Ests & Eex & Ev & _).
  rewrite Htrim in Eq.
  pose proof (wf_fresh db runID allocID r a Hwf Htrim Ha Hr Erun) as Hwf'.
  split.
  - destruct Hwf' as [H1 H2 H3]. destruct db; simpl in *. split; rewrite ?Ea, ?Er; done.
  - intros id. destruct (decide (id = allocID)) as [->|Hne].
    + assert (view db allocID = None) as -> by (unfold view; by rewrite Ha).
      assert (view db' allocID = Some (life_of a r true)) as ->.
      { unfold view. by rewrite Ea, lookup_insert_eq; simpl; rewrite Er, Erun, lookup_insert_eq, Eq, lookup_insert_eq. }
      apply rtc_once, life_admit; done.
    + assert (view db' id = view db id) as ->; [|done].
      unfold view. rewrite Ea, lookup_insert_ne by done.
      destruct (allocations db !! id) as [b|] eqn:Hb; [|done]. simpl.
      destruct (wf_run _ Hwf _ _ Hb) as [rb Hrb].
      by rewrite Er, Eq, !lookup_insert_ne by congruence.
Qed.

Lemma AdmitRun_moves `{Fresh : Admissible} svc params now runUUID allocUUID elapsed eventID wall db :
  inv db -> TrimSpace ("alloc-" +:+ allocUUID) = "alloc-" +:+ allocUUID -> may_admit ("alloc-" +:+ allocUUID) ->
  moves db (fst (AdmitRun ToASCII svc params now runUUID allocUUID elapsed eventID wall db)).
Proof.
  intros Hinv Htrim Had. unfold AdmitRun. destruct (_ =? 0)%nat; [by apply moves_refl|].
  apply withTx_moves_quiet; [done|..].
  - apply quiet_frame; [apply frame_gets|]. intros [env|]; [|apply quiet_plain; plain_tac]. cbv zeta.
    apply quiet_frame; [apply frame_guard|intros _]. apply quiet_frame; [apply frame_AdmitCandidate|intros d].
    apply quiet_plain, plain_bind_run.
  - intros db' out Hx. tx_inv. destruct (environments db !! _) as [env|] eqn:Henv; [|done]. tx_inv.
    apply frame_Ok in Hm0; [|apply frame_AdmitCandidate].
    pose proof (moves_same_tables _ _ Hinv Hm0) as Hmv. eapply moves_trans; [exact Hmv|].
    eapply bind_run_moves; [by eapply moves_inv|done|done|exact Hx].
Qed.

(** ** Charges *)
Lemma add_claim_comm a b : add_claim a b = add_claim b a.
Proof. unfold add_claim. f_equal; lia. Qed.
Lemma add_claim_assoc a b c : add_claim a (add_claim b c) = add_claim (add_claim a b) c.
Proof. unfold add_claim. simpl. f_equal; lia. Qed.
Lemma sum_claims_perm l l' : l ≡ₚ l' -> sum_claims l = sum_claims l'.
Proof.
  induction 1; simpl; [done|congruence| |congruence].
  rewrite !add_claim_assoc. f_equal. apply add_claim_comm.
Qed.

Lemma filter_ext_in {A} (f g : A -> bool) l : (forall x, x ∈ l -> f x = g x) -> List.filter f l = List.filter g l.
Proof. intros Hfg. apply List.filter_ext_in. intros x Hx. apply Hfg. by apply list_elem_of_In. Qed.
Lemma filter_perm {A} (f : A -> bool) l l' : l ≡ₚ l' -> List.filter f l ≡ₚ List.filter f l'.
Proof.
  induction 1; simpl; [done|case_match; by rewrite ?IHPermutation|repeat case_match; try done; apply perm_swap|by etrans].
Qed.

(** A new Allocation adds exactly its charge. *)
Lemma charges_where_insert p p' db db' id a :
  db'.(allocations) = <[id := a]> db.(allocations) -> db.(allocations) !! id = None -> p' a = true ->
  (forall i b, db.(allocations) !! i = Some b -> p' b = p b) ->
  charges_where p' db' = add_claim (charge a) (charges_where p db).
Proof.
  intros Ea Hno Ha Hp. unfold charges_where, rows_where. rewrite Ea.
  transitivity (sum_claims (map (fun kv : string * AllocRow => charge kv.2)
    (List.filter (fun kv : string * AllocRow => p' kv.2) ((id, a) :: map_to_list (allocations db))))).
  { apply sum_claims_perm. apply Permutation_map, filter_perm, map_to_list_insert, Hno. }
  simpl. rewrite Ha. simpl. do 3 f_equal. apply filter_ext_in.
  intros [i b] Hin. apply elem_of_map_to_list in Hin. by eapply Hp.
Qed.

Definition rows_ok (db : DB) : Prop :=
  forall id a, db.(allocations) !! id = Some a -> check_alloc a = true.
Lemma charge_nonneg a : check_alloc a = true -> claim_nonneg (charge a).
Proof.
  unfold check_alloc, claim_nonneg, charge.
  rewrite !andb_true_iff, Z.ltb_lt, !Z.leb_le. intros ((((_ & ?) & ?) & ?) & _). simpl. split; [|split]; lia.
Qed.
Lemma charges_nonneg p db : rows_ok db -> claim_nonneg (charges_where p db).
Proof.
  intros Hok. unfold charges_where, rows_where.
  assert (Hall : forall kv, kv ∈ List.filter (fun kv : string * AllocRow => p kv.2) (map_to_list (allocations db)) ->
    claim_nonneg (charge kv.2)).
  { intros [id a]. rewrite list_elem_of_In, filter_In, <- list_elem_of_In, elem_of_map_to_list.
    intros [Ha _]. by eapply charge_nonneg, Hok. }
  induction (List.filter _ _) as [|kv l IH]; simpl; [done|].
  destruct (Hall kv) as (? & ? & ?); [left|]. destruct IH as (? & ? & ?); [intros; apply Hall; by right|].
  unfold claim_nonneg, add_claim in *. simpl in *. lia.
Qed.
Lemma claim_scans_wf c : claim_scans c = true <-> claim_wf c.
Proof. unfold claim_scans, claim_wf, int64. rewrite !andb_true_iff, !Z.leb_le. tauto. Qed.

Lemma charged_ids_nil db nodeID : charged_ids db nodeID = [] -> node_charges db nodeID = empty_claim.
Proof.
  unfold charged_ids, node_charges, charges_where. intros E.
  destruct (rows_where (on_node nodeID) db) as [|kv l] eqn:El; [done|]. exfalso.
  assert (Hin : kv.1 ∈ sort_slice string_lt (map fst (kv :: l))) by (apply elem_of_sort_slice; left).
  rewrite E in Hin. by apply not_elem_of_nil in Hin.
Qed.
Lemma node_usage_deref db nodeID :
  deref (node_usage db nodeID) = mkUsage (node_charges db nodeID) (charged_ids db nodeID).
Proof.
  unfold node_usage. destruct (charged_ids db nodeID) eqn:E; [|done].
  by rewrite (charged_ids_nil _ _ E).
Qed.

(** ** Selection

    What the transaction may bind to: the candidate as the database now shows
    its node, when the node is active, its re-evaluation is eligible and the
    request still fits beside every charge, with a slot to spare. *)
Definition admissible (policy : AdmissionPolicy) (evaluate : Evaluator) (db : DB) (requested : Claim) (now : time)
    (c : Candidate) : option Candidate :=
  let id := c.(c_Record).(nr_NodeID) in
  n ← db.(nodes) !! id;
  base ← (match c.(c_BaseRequest) with None => c.(c_Request) | r => r end);
  let rec := scan_record id n in
  match ResolveRequestForNode (Some base) rec.(nr_Summary) now with
  | (_, Some _) => None
  | (request, None) =>
      let e := evaluate (Some rec) request now in
      let used := node_charges db id in
      let ids := charged_ids db id in
      if String.eqb (TrimSpace id) id && negb (String.eqb id "") && Active (Some rec)
         && bool_decide ((deref e).(e_State) = CandidateStateEligible)
         && AdmissionPolicy_Fits policy (allocatableFromSummary rec.(nr_Summary)) used requested
         && (evaluateRuntimeSlots rec.(nr_Summary) ids).(se_Fits)
      then Some (refreshPlacementCandidate (mkCandidate rec e (Some base) request) rec used ids now)
      else None
  end.

Lemma candidateNodeIDs_elem candidates id :
  id ∈ candidateNodeIDs candidates <->
  id <> "" /\ exists c, Some c ∈ candidates /\ TrimSpace c.(c_Record).(nr_NodeID) = id.
Proof.
  unfold candidateNodeIDs. rewrite elem_of_sort_slice, elem_of_elements, elem_of_list_to_set.
  rewrite list_elem_of_In, filter_In, negb_true_iff, String.eqb_neq, <- list_elem_of_In, list_elem_of_fmap.
  setoid_rewrite list_elem_of_omap. naive_solver.
Qed.
Lemma candidateNodeIDs_nodup candidates : NoDup (candidateNodeIDs candidates).
Proof. unfold candidateNodeIDs. rewrite sort_slice_perm. apply NoDup_elements. Qed.

Lemma lockCandidateNodes_lookup candidates db id r :
  lockCandidateNodes candidates db !! id = Some r <->
  id ∈ candidateNodeIDs candidates /\ exists n, db.(nodes) !! id = Some n /\ r = scan_record id n.
Proof.
  unfold lockCandidateNodes.
  set (f := fun id => (fun n => (id, scan_record id n)) <$> (nodes db !! id)).
  assert (Hf : forall i j x, f i = Some (j, x) -> i = j).
  { unfold f. intros i j x. destruct (nodes db !! i); simpl; [|done]. by intros [= <- <-]. }
  rewrite <- elem_of_list_to_map.
  - rewrite list_elem_of_omap. split.
    + intros (i & Hi & E). pose proof (Hf _ _ _ E) as ->. unfold f in E.
      destruct (nodes db !! id) as [n|]; simpl in E; [|done]. injection E as <-. eauto.
    + intros (Hi & n & Hn & ->). exists id. split; [done|]. unfold f. by rewrite Hn.
  - pose proof (candidateNodeIDs_nodup candidates) as Hnd.
    induction Hnd as [|i l Hi Hnd IH]; simpl; [constructor|].
    destruct (f i) as [[j x]|] eqn:E; simpl; [|done]. pose proof (Hf _ _ _ E) as <-.
    constructor; [|done]. rewrite list_elem_of_fmap. intros ([k y] & -> & Hin).
    apply list_elem_of_omap in Hin as (k' & Hk & E'). by pose proof (Hf _ _ _ E') as <-.
Qed.

Lemma locked_candidate candidates db c :
  Some c ∈ candidates ->
  lockCandidateNodes candidates db !! c.(c_Record).(nr_NodeID) =
  (if String.eqb (TrimSpace c.(c_Record).(nr_NodeID)) c.(c_Record).(nr_NodeID)
      && negb (String.eqb c.(c_Record).(nr_NodeID) "")
   then scan_record c.(c_Record).(nr_NodeID) <$> (db.(nodes) !! c.(c_Record).(nr_NodeID)) else None).
Proof.
  intros Hc. set (id := nr_NodeID (c_Record c)). apply option_eq. intros r.
  rewrite lockCandidateNodes_lookup, candidateNodeIDs_elem.
  destruct (String.eqb_spec (TrimSpace id) id) as [Et|Et]; simpl.
  - destruct (String.eqb_spec id "") as [E0|E0]; simpl; [naive_solver|].
    rewrite fmap_Some. naive_solver.
  - split; [|done]. intros ((_ & c' & _ & E) & _). exfalso. apply Et. by rewrite <- E, TrimSpace_idempotent.
Qed.

Definition better (selected : option Candidate) (r : option Candidate) : option Candidate :=
  match r with
  | None => selected
  | Some r => if is_nil selected || CandidateLess (Some r) selected then Some r else selected
  end.

Section loop.
Context (policy : AdmissionPolicy) (evaluate : Evaluator) (candidates : list (option Candidate)) (db : DB).
Context (requested : Claim) (now : time).
Let locked := lockCandidateNodes candidates db.
Let usage := map_imap (fun id _ => node_usage db id) locked.

Lemma usage_deref id r :
  locked !! id = Some r -> deref (usage !! id) = mkUsage (node_charges db id) (charged_ids db id).
Proof. intros Hl. unfold usage. rewrite map_lookup_imap, Hl. simpl. apply node_usage_deref. Qed.

Lemma reject_selected s e q : (reject_eligibility s e q).(as_selected) = s.(as_selected).
Proof. by destruct e. Qed.

Lemma admit_step_selected s c :
  Some c ∈ candidates ->
  (admit_step policy evaluate locked usage requested now s (Some c)).(as_selected)
  = better s.(as_selected) (admissible policy evaluate db requested now c).
Proof.
  intros Hc. unfold admit_step, admissible. cbv zeta.
  pose proof (locked_candidate candidates db c Hc) as Hl. fold locked in Hl.
  set (id := nr_NodeID (c_Record c)) in *.
  destruct (nodes db !! id) as [n|] eqn:Hn; cbn [mbind option_bind fmap option_fmap option_map] in *.
  2:{ assert (locked !! id = None) as -> by (rewrite Hl; by case_match). done. }
  destruct (String.eqb (TrimSpace id) id && negb (String.eqb id "")) eqn:Hid.
  2:{ rewrite Hl. destruct (match c_BaseRequest c with Some _ => _ | None => _ end); cbn [mbind option_bind]; [|done].
      by destruct (ResolveRequestForNode _ _ _) as [? [|]]. }
  rewrite Hl. pose proof (usage_deref _ _ Hl) as Hu.
  cbn [nr_NodeID scan_record nr_Summary]. rewrite Hu. cbn [resources allocationIDs andb].
  destruct (Active (Some (scan_record id n))); cbn [negb andb].
  2:{ destruct (match c_BaseRequest c with Some _ => _ | None => _ end); cbn [mbind option_bind]; [|done].
      by destruct (ResolveRequestForNode _ _ _) as [? [|]]. }
  destruct (match c_BaseRequest c with Some _ => _ | None => _ end) as [base|]; cbn [mbind option_bind is_nil]; [|done].
  destruct (ResolveRequestForNode (Some base) (nr_Summary n) now) as [request [err|]]; [apply reject_selected|].
  destruct (bool_decide _); cbn [negb andb]; [|apply reject_selected].
  unfold AdmissionPolicy_Fits.
  destruct (FitEvaluation_Fits _); cbn [negb orb andb]; [|done].
  by destruct (se_Fits _).
Qed.

Lemma admit_fold_selected l : forall s, (forall c, Some c ∈ l -> Some c ∈ candidates) ->
  (fold_left (admit_step policy evaluate locked usage requested now) l s).(as_selected)
  = fold_left better (map (admissible policy evaluate db requested now) (omap (fun c => c) l)) s.(as_selected).
Proof.
  induction l as [|[c|] l IH]; intros s Hl; cbn [fold_left omap list_omap map]; [done|..].
  - rewrite IH by (intros; apply Hl; by right).
    pose proof (admit_step_selected s c (Hl c ltac:(left))) as E. by rewrite E.
  - rewrite IH; [done|]. intros. apply Hl. by right.
Qed.
End loop.

(** The fold keeps the first least of the admissible candidates. *)
Definition keyed (r : Candidate) : Prop := exists e, r.(c_Evaluation) = Some e.
Lemma CandidateLess_eval a b ea eb :
  a.(c_Evaluation) = Some ea -> b.(c_Evaluation) = Some eb ->
  CandidateLess (Some a) (Some b) = eval_less ea eb.
Proof. intros Ha Hb. unfold CandidateLess. by rewrite Ha, Hb. Qed.

Lemma CandidateLess_trans a b c : keyed a -> keyed b -> keyed c ->
  CandidateLess (Some a) (Some b) = false -> CandidateLess (Some b) (Some c) = false ->
  CandidateLess (Some a) (Some c) = false.
Proof.
  intros [ea Ha] [eb Hb] [ec Hc]. erewrite !CandidateLess_eval by done. apply (sw_trans _ eval_less_strict_weak).
Qed.
Lemma CandidateLess_asym a b : keyed a -> keyed b ->
  CandidateLess (Some a) (Some b) = true -> CandidateLess (Some b) (Some a) = false.
Proof.
  intros [ea Ha] [eb Hb]. erewrite !CandidateLess_eval by done. apply (sw_asym _ eval_less_strict_weak).
Qed.
Lemma CandidateLess_irrefl a : keyed a -> CandidateLess (Some a) (Some a) = false.
Proof. intros Ha. destruct (CandidateLess (Some a) (Some a)) eqn:E; [|done]. by rewrite <- E, (CandidateLess_asym a a). Qed.

Lemma better_step s0 r : keyed r -> (forall x, s0 = Some x -> keyed x) ->
  exists m, better s0 (Some r) = Some m /\ keyed m /\ (m = r \/ s0 = Some m) /\
    CandidateLess (Some r) (Some m) = false /\ (forall x, s0 = Some x -> CandidateLess (Some x) (Some m) = false).
Proof.
  intros Hr Hs. unfold better. destruct s0 as [x|]; cbn [is_nil orb].
  - pose proof (Hs x eq_refl) as Hx. destruct (CandidateLess (Some r) (Some x)) eqn:E.
    + exists r. repeat split; [done|by left|by apply CandidateLess_irrefl|].
      intros y [= <-]. by apply CandidateLess_asym.
    + exists x. repeat split; [done|by right|done|]. intros y [= <-]. by apply CandidateLess_irrefl.
  - exists r. repeat split; [done|by left|by apply CandidateLess_irrefl|done].
Qed.

Lemma better_least l : forall s0,
  (forall r, Some r ∈ l -> keyed r) -> (forall x, s0 = Some x -> keyed x) ->
  match fold_left better l s0 with
  | None => s0 = None /\ forall r, Some r ∉ l
  | Some s => keyed s /\ (s0 = Some s \/ Some s ∈ l) /\
      (forall r, s0 = Some r -> CandidateLess (Some r) (Some s) = false) /\
      (forall r, Some r ∈ l -> CandidateLess (Some r) (Some s) = false)
  end.
Proof.
  induction l as [|o l IH]; intros s0 Hl Hs; cbn [fold_left].
  - destruct s0 as [s|]; [|split; [done|intros r; apply not_elem_of_nil]].
    repeat split; [by apply Hs|by left| |by intros r ?%not_elem_of_nil].
    intros r [= <-]. by apply CandidateLess_irrefl, Hs.
  - assert (Hl' : forall r, Some r ∈ l -> keyed r) by (intros; apply Hl; by right).
    destruct o as [r|].
    + destruct (better_step s0 r (Hl r ltac:(left)) Hs) as (m & -> & Hm & Horig & Hrm & Hsm).
      assert (Hs' : forall x, Some m = Some x -> keyed x) by (by intros ? [= <-]).
      specialize (IH (Some m) Hl' Hs').
      destruct (fold_left better l (Some m)) as [s|]; [|by destruct IH].
      destruct IH as (Hk & Hin & Hms & Hall). specialize (Hms m eq_refl).
      repeat split; [done|..].
      * destruct Hin as [[= <-]|Hin]; [|right; by right].
        destruct Horig as [->|?]; [right; left|by left].
      * intros x Hx. eapply (CandidateLess_trans x m s); eauto.
      * intros x [[= <-]|Hx]%elem_of_cons; [|eauto].
        eapply (CandidateLess_trans x m s); eauto. apply Hl. left.
    + cbn [better]. specialize (IH s0 Hl' Hs). destruct (fold_left better l s0) as [s|].
      * destruct IH as (Hk & Hin & Hms & Hall). repeat split; [done|set_solver|done|].
        intros x [?|Hx]%elem_of_cons; [done|eauto].
      * destruct IH as [-> Hno]. split; [done|]. intros x [?|Hx]%elem_of_cons; [done|by eapply Hno].
Qed.

Lemma admissible_keyed policy evaluate db requested now c r :
  admissible policy evaluate db requested now c = Some r -> keyed r.
Proof.
  unfold admissible. cbv zeta. destruct (nodes db !! _); cbn [mbind option_bind]; [|done].
  destruct (match c_BaseRequest c with Some _ => _ | None => _ end); cbn [mbind option_bind]; [|done].
  destruct (ResolveRequestForNode _ _ _) as [? [|]]; [done|]. case_match; [|done].
  intros [= <-]. by eexists.
Qed.

Definition requested_claim (config : option ExecutionConfig) : Claim :=
  QuantityToClaim (r ← (NormalizeConfig ToASCII config).(ec_Resources); r.(rs_Requests)).

(** The decisive reads of an admission. *)
Record admission_reads (req : AdmitCandidateRequest) (db : DB) (quota : NamespaceQuotaPolicy) : Prop := {
  rd_namespace : db.(namespaces) !! NormalizeNamespace req.(ar_Namespace) = Some None;
  rd_quota : db.(namespace_resource_quotas) !! NormalizeNamespace req.(ar_Namespace) = Some quota;
  rd_usage : claim_wf (namespace_charges db (NormalizeNamespace req.(ar_Namespace))) }.

Lemma NormalizeNamespace_idem n : NormalizeNamespace (NormalizeNamespace n) = NormalizeNamespace n.
Proof.
  unfold NormalizeNamespace. cbv zeta. destruct (String.eqb_spec (TrimSpace n) "") as [E|E]; [by vm_compute|].
  rewrite TrimSpace_idempotent. by apply String.eqb_neq in E as ->.
Qed.

Lemma LockQuotaPolicy_Ok n db db' q :
  LockQuotaPolicy n db = (db', Ok q) ->
  db' = db /\ db.(namespaces) !! NormalizeNamespace n = Some None /\
  db.(namespace_resource_quotas) !! NormalizeNamespace n = Some q.
Proof.
  unfold LockQuotaPolicy, LockQuotaRows. intros Hx. tx_inv.
  destruct (namespaces db !! NormalizeNamespace n) as [[|]|] eqn:En; [done| |done].
  destruct (namespace_resource_quotas db !! NormalizeNamespace n) as [q0|] eqn:Eq; [|done].
  injection Hm as <- <-. rewrite Eq in Hx. tx_inv. done.
Qed.

Lemma namespaceUsage_Ok n db db' c :
  activeNamespaceAllocationUsage n db = (db', Ok c) ->
  db' = db /\ c = namespace_charges db n /\ claim_wf c.
Proof.
  unfold activeNamespaceAllocationUsage. cbv zeta. destruct (claim_scans _) eqn:E; [|done].
  intros [= <- <-]. by apply claim_scans_wf in E.
Qed.
Lemma empty_claim_wf : claim_wf empty_claim.
Proof. unfold claim_wf, int64, MinInt64, MaxInt64. simpl. lia. Qed.
Lemma candidateUsage_Ok locked db db' u :
  activeCandidateAllocationUsage locked db = (db', Ok u) ->
  db' = db /\ u = map_imap (fun id _ => node_usage db id) locked /\
  forall id r, locked !! id = Some r -> claim_wf (node_charges db id).
Proof.
  unfold activeCandidateAllocationUsage. cbv zeta. destruct (forallb _ _) eqn:E; [|done].
  intros [= <- <-]. split; [done|]. split; [done|]. intros id r Hl.
  destruct (node_usage db id) as [v|] eqn:Hv.
  - rewrite forallb_forall in E. specialize (E (id, v)). apply claim_scans_wf.
    pose proof (node_usage_deref db id) as Hd. rewrite Hv in Hd. simpl in Hd.
    replace (node_charges db id) with (resources v) by by rewrite Hd.
    apply E, list_elem_of_In, elem_of_map_to_list. by rewrite map_lookup_imap, Hl.
  - unfold node_usage in Hv. destruct (charged_ids db id) eqn:Hc; [|done].
    rewrite (charged_ids_nil _ _ Hc). apply empty_claim_wf.
Qed.

Lemma AdmitCandidate_inv svc req elapsed eventID wall db db' d :
  AdmitCandidate ToASCII svc req elapsed eventID wall db = (db', Ok d) ->
  let requested := requested_claim req.(ar_Config) in
  let now := Add req.(ar_Now) elapsed in
  db' = db /\ exists evaluate quota s,
    svc.(ad_placement) = Some evaluate /\ admission_reads req db quota /\
    Quota_Fits quota (namespace_charges db (NormalizeNamespace req.(ar_Namespace))) requested = true /\
    fold_left better (map (admissible svc.(ad_policy) evaluate db requested now)
                        (omap (fun c => c) req.(ar_Candidates))) None = Some s /\
    d.(dec_Record) = s.(c_Record) /\ d.(dec_Evaluation) = s.(c_Evaluation) /\ d.(dec_Request) = s.(c_Request) /\
    ResolveRequirements (deref s.(c_Record).(nr_Summary)).(ns_CapabilitySnapshot)
      (map Some (deref s.(c_Request)).(rq_CapabilityRequirements)) now = Ok d.(dec_CapabilityRequirements) /\
    (forall id, id ∈ candidateNodeIDs req.(ar_Candidates) -> is_Some (db.(nodes) !! id) ->
       claim_wf (node_charges db id)).
Proof.
  unfold AdmitCandidate. cbv zeta. destruct (ad_placement svc) as [evaluate|] eqn:Hev; [|done].
  intros Hx. tx_inv. apply LockQuotaPolicy_Ok in Hm as (-> & Hns & Hq). rewrite NormalizeNamespace_idem in *.
  apply namespaceUsage_Ok in Hm0 as (-> & -> & Hwf). fold (requested_claim (ar_Config req)) in Hx.
  destruct (QuotaEvaluation_Fits _) eqn:Hfits; cbn [negb] in Hx; tx_inv.
  apply candidateUsage_Ok in Hm0 as (-> & -> & Hnode).
  rewrite admit_fold_selected in Hx by done. cbn [as_selected admit_start] in Hx.
  destruct (fold_left better _ None) as [s|] eqn:Hs.
  2:{ by destruct (lockedAdmissionEligibilityError _ _ _). }
  tx_inv. split; [done|]. exists evaluate, x, s.
  split; [done|]. split; [by split|]. do 5 (split; [done|]). split.
  - destruct (ResolveRequirements _ _ _) eqn:E; simpl in Hl; [|done]. by injection Hl as <-.
  - intros id Hin [n Hn]. eapply Hnode. apply lockCandidateNodes_lookup. eauto.
Qed.

(** *** Properties *)

(** The node a decision binds to, as the database holds it. *)
Lemma admissible_spec policy evaluate db requested now c r :
  admissible policy evaluate db requested now c = Some r ->
  let id := c.(c_Record).(nr_NodeID) in
  exists n, db.(nodes) !! id = Some n /\ TrimSpace id = id /\ id <> "" /\
    r.(c_Record) = scan_record id n /\ n.(nr_Lifecycle) = LifecycleActive /\
    AdmissionPolicy_Fits policy (allocatableFromSummary n.(nr_Summary)) (node_charges db id) requested = true /\
    (evaluateRuntimeSlots n.(nr_Summary) (charged_ids db id)).(se_Fits) = true.
Proof.
  unfold admissible. cbv zeta. set (id := nr_NodeID (c_Record c)).
  destruct (nodes db !! id) as [n|] eqn:Hn; cbn [mbind option_bind]; [|done].
  destruct (match c_BaseRequest c with Some _ => _ | None => _ end); cbn [mbind option_bind]; [|done].
  destruct (ResolveRequestForNode _ _ _) as [? [|]]; [done|].
  destruct (_ && _) eqn:E; [|done]. intros [= <-]. b2p. exists n.
  unfold Active in *. cbn [nr_Lifecycle scan_record] in *.
  repeat match goal with Hb : String.eqb _ _ = true |- _ => apply String.eqb_eq in Hb
    | Hb : String.eqb _ _ = false |- _ => apply String.eqb_neq in Hb end.
  by repeat (split; [done|]).
Qed.

Lemma least_admissible policy evaluate db requested now candidates s :
  fold_left better (map (admissible policy evaluate db requested now) (omap (fun c => c) candidates)) None = Some s ->
  exists c, Some c ∈ candidates /\ admissible policy evaluate db requested now c = Some s /\
    forall c' s', Some c' ∈ candidates -> admissible policy evaluate db requested now c' = Some s' ->
      CandidateLess (Some s') (Some s) = false.
Proof.
  intros Hs.
  assert (Hin : forall r, Some r ∈ map (admissible policy evaluate db requested now) (omap (fun c => c) candidates) <->
    exists c, Some c ∈ candidates /\ admissible policy evaluate db requested now c = Some r).
  { intros r. rewrite list_elem_of_fmap. setoid_rewrite list_elem_of_omap. naive_solver. }
  pose proof (better_least (map (admissible policy evaluate db requested now) (omap (fun c => c) candidates)) None) as Hb.
  rewrite Hs in Hb. destruct Hb as (_ & [?|Hsel] & _ & Hleast); [|done|done|].
  { intros r (c & _ & Hc)%Hin. by eapply admissible_keyed. }
  apply Hin in Hsel as (c & Hc & Hadm). exists c. split; [done|]. split; [done|].
  intros c' s' Hc' Hadm'. apply Hleast, Hin. eauto.
Qed.

(** C5: an admission that succeeds changes nothing yet and decides soundly: the
    namespace exists and its quota admits the request beside everything charged
    to it; the chosen node is one of the candidates, active, eligible when
    re-evaluated under its lock, with the request fitting beside its charges
    and a runtime slot to spare; no other candidate that would do as well
    precedes it in the placement order; and every capability the node-specific
    request needs has been resolved against the locked summary. *)
Theorem AdmitCandidate_sound svc req elapsed eventID wall db db' d :
  AdmitCandidate ToASCII svc req elapsed eventID wall db = (db', Ok d) ->
  let requested := requested_claim req.(ar_Config) in
  let now := Add req.(ar_Now) elapsed in
  let namespace := NormalizeNamespace req.(ar_Namespace) in
  db' = db /\ exists evaluate quota s c,
    svc.(ad_placement) = Some evaluate /\
    db.(namespaces) !! namespace = Some None /\ db.(namespace_resource_quotas) !! namespace = Some quota /\
    Quota_Fits quota (namespace_charges db namespace) requested = true /\
    Some c ∈ req.(ar_Candidates) /\ admissible svc.(ad_policy) evaluate db requested now c = Some s /\
    (forall c' s', Some c' ∈ req.(ar_Candidates) ->
       admissible svc.(ad_policy) evaluate db requested now c' = Some s' ->
       CandidateLess (Some s') (Some s) = false) /\
    d.(dec_Record) = s.(c_Record) /\ d.(dec_Evaluation) = s.(c_Evaluation) /\ d.(dec_Request) = s.(c_Request) /\
    ResolveRequirements (deref s.(c_Record).(nr_Summary)).(ns_CapabilitySnapshot)
      (map Some (deref s.(c_Request)).(rq_CapabilityRequirements)) now = Ok d.(dec_CapabilityRequirements).
Proof.
  cbv zeta. intros Hx.
  apply AdmitCandidate_inv in Hx as (-> & evaluate & quota & s & Hev & [Hns Hq _] & Hfit & Hs & E1 & E2 & E3 & Hr & _).
  apply least_admissible in Hs as (c & Hc & Hadm & Hleast).
  split; [done|]. exists evaluate, quota, s, c. by repeat (split; [done|]).
Qed.

(** A candidate that would do, and that the placement order prefers to every
    other that would do. *)
Definition preferred (policy : AdmissionPolicy) (evaluate : Evaluator) (db : DB) (requested : Claim) (now : time)
    (candidates : list (option Candidate)) (s : Candidate) : Prop :=
  (exists c, Some c ∈ candidates /\ admissible policy evaluate db requested now c = Some s) /\
  forall c' s', Some c' ∈ candidates -> admissible policy evaluate db requested now c' = Some s' ->
    s' = s \/ CandidateLess (Some s) (Some s') = true.

(** C38: an expired observation refuses the Run, whether or not the Run needs the
    capability.  Take the candidate that placement prefers: active, eligible when
    re-evaluated under its lock, the request fitting beside its charges and a
    runtime slot to spare.  If its snapshot still publishes as available any
    observation that is no longer valid, then no decision is reached, whatever
    the other candidates are. *)
Theorem stale_observation_blocks_admission svc req elapsed eventID wall db evaluate s snapshot t o :
  let now := Add req.(ar_Now) elapsed in
  svc.(ad_placement) = Some evaluate ->
  preferred svc.(ad_policy) evaluate db (requested_claim req.(ar_Config)) now req.(ar_Candidates) s ->
  (deref s.(c_Record).(nr_Summary)).(ns_CapabilitySnapshot) = Some snapshot -> snapshot.(snap_CollectedAt) = Some t ->
  Some o ∈ snapshot.(snap_Observations) -> o.(obs_State) = CS_AVAILABLE -> observationValid (Some o) now = false ->
  forall db' d, AdmitCandidate ToASCII svc req elapsed eventID wall db <> (db', Ok d).
Proof.
  intros now Hev [(c & Hc & Hadm) Hpref] Hsn Ht Ho Hav Hinv db' d Hx.
  apply AdmitCandidate_inv in Hx as (-> & ev & quota & s' & Hev' & _ & _ & Hs & _ & _ & _ & Hr & _).
  rewrite Hev in Hev'. injection Hev' as <-. apply least_admissible in Hs as (c' & Hc' & Hadm' & Hleast).
  destruct (Hpref _ _ Hc' Hadm') as [-> |Hless]; [|by rewrite (Hleast _ _ Hc Hadm) in Hless].
  fold now in Hr. unfold ResolveRequirements in Hr. rewrite Hsn in Hr.
  destruct (ValidateRequirementKeys _) as [[]|e]; [|discriminate Hr]. cbn [mbind result_bind] in Hr.
  destruct (ValidateSnapshot (Some snapshot) now) as [[]|e] eqn:Hvs; [|discriminate Hr].
  apply (ValidateSnapshot_iff _ t) in Hvs as (_ & _ & _ & byKey & Hby & Hall); [|done].
  assert (Hid : exists id, byKey !! id = Some o).
  { pose proof (proj1 (observationsByKey_coherent _) (ex_intro _ _ Hby)) as Hco.
    destruct (co_defined _ Hco _ Ho) as (o' & [= <-] & Hd). destruct (defined_KeyID _ Hd) as [id Hid].
    exists id. by apply (observationsByKey_spec _ _ Hby). }
  destruct Hid as [id Hid]. destruct (Hall _ _ Hid) as [_ Hok]. destruct (Hok Hav) as [Hv _]. congruence.
Qed.

(** Every positively requested resource stays within its limit. *)
Definition within (total requested limit : Z) : Prop := 0 < requested -> total <= limit.
Definition claim_within (total requested limit : Claim) : Prop :=
  within total.(CPUMilli) requested.(CPUMilli) limit.(CPUMilli) /\
  within total.(MemoryBytes) requested.(MemoryBytes) limit.(MemoryBytes) /\
  within total.(EphemeralStorageBytes) requested.(EphemeralStorageBytes) limit.(EphemeralStorageBytes).
Definition quota_within (total requested : Claim) (q : NamespaceQuotaPolicy) : Prop :=
  from_option (within total.(CPUMilli) requested.(CPUMilli)) True q.(CPUMilliLimit) /\
  from_option (within total.(MemoryBytes) requested.(MemoryBytes)) True q.(MemoryBytesLimit) /\
  from_option (within total.(EphemeralStorageBytes) requested.(EphemeralStorageBytes)) True
    q.(EphemeralStorageBytesLimit).
Definition quota_wf (q : NamespaceQuotaPolicy) : Prop :=
  from_option int64 True q.(CPUMilliLimit) /\ from_option int64 True q.(MemoryBytesLimit) /\
  from_option int64 True q.(EphemeralStorageBytesLimit).

(** Column and message values are 64-bit integers; the schema's CHECK rules hold. *)
Record db_typed (db : DB) : Prop := {
  ty_rows : rows_ok db;
  ty_nodes id n : db.(nodes) !! id = Some n -> quantity_wf (allocatableFromSummary n.(nr_Summary));
  ty_quotas ns q : db.(namespace_resource_quotas) !! ns = Some q -> quota_wf q }.

Lemma AdmitRun_inv svc params now runUUID allocUUID elapsed eventID wall db db' out :
  AdmitRun ToASCII svc params now runUUID allocUUID elapsed eventID wall db = (db', Ok out) ->
  exists env d,
    db.(environments) !! params.(ap_EnvironmentID) = Some env /\
    env.(env_Namespace) = NormalizeNamespace params.(ap_Namespace) /\
    AdmitCandidate ToASCII svc
      (mkAdmitRequest (NormalizeNamespace params.(ap_Namespace)) params.(ap_EnvironmentID)
         params.(ap_Candidates) params.(ap_Config) now) elapsed eventID wall db = (db, Ok d) /\
    bind_run ToASCII params env d now ("run-" +:+ runUUID) ("alloc-" +:+ allocUUID) db = (db', Ok out).
Proof.
  unfold AdmitRun. destruct (_ =? 0)%nat; [done|]. intros Hx.
  apply withTx_Ok in Hx.
  cbv zeta in Hx. tx_inv. destruct (environments db !! _) as [env|] eqn:Henv; [|done]. tx_inv.
  pose proof (AdmitCandidate_inv _ _ _ _ _ _ _ _ Hm0) as [-> _].
  exists env, x0. apply String.eqb_eq in Hb. done.
Qed.

Lemma claim_fits_within used requested limit :
  claim_fits used requested limit -> claim_within (add_claim requested used) requested limit.
Proof. unfold claim_fits, fits_exactly, claim_within, within, add_claim. simpl. lia. Qed.

Lemma Quota_parts q used requested :
  claim_nonneg used -> claim_wf used -> claim_wf requested -> quota_wf q ->
  Quota_Fits q used requested = true ->
  from_option (fits_exactly used.(CPUMilli) requested.(CPUMilli)) True q.(CPUMilliLimit) /\
  from_option (fits_exactly used.(MemoryBytes) requested.(MemoryBytes)) True q.(MemoryBytesLimit) /\
  from_option (fits_exactly used.(EphemeralStorageBytes) requested.(EphemeralStorageBytes)) True
    q.(EphemeralStorageBytesLimit).
Proof.
  intros (Hu1 & Hu2 & Hu3) (Hw1 & Hw2 & Hw3) (Hr1 & Hr2 & Hr3) (H1 & H2 & H3).
  unfold Quota_Fits, QuotaEvaluation_Fits, Quota_EvaluateFit, evaluateQuotaResource.
  destruct q as [[l1|] [l2|] [l3|]]; simpl in *; rewrite ?andb_true_iff; rewrite ?negb_exceeds_spec by done; tauto.
Qed.
Lemma quota_fits_within q used requested :
  claim_nonneg used -> claim_wf used -> claim_wf requested -> quota_wf q ->
  Quota_Fits q used requested = true -> quota_within (add_claim requested used) requested q.
Proof.
  intros Hn Hw Hr (H1 & H2 & H3) Hf. apply Quota_parts in Hf as (F1 & F2 & F3); [|done..].
  destruct q as [q1 q2 q3]. unfold quota_within, within, fits_exactly in *. simpl in *.
  repeat split; [destruct q1|destruct q2|destruct q3]; simpl in *; lia.
Qed.
Lemma node_fits_within p q used requested :
  (forall g, int64 (f64_to_int64_oob g)) -> quantity_wf q -> claim_nonneg used -> claim_wf used ->
  claim_wf requested -> AdmissionPolicy_Fits p q used requested = true ->
  claim_within (add_claim requested used) requested (EffectiveAllocatable p q).
Proof.
  intros Hoob Hq (Hu1 & Hu2 & Hu3) (Hw1 & Hw2 & Hw3) (Hr1 & Hr2 & Hr3).
  destruct (EffectiveAllocatable_wf p q Hoob Hq) as (He1 & He2 & He3).
  unfold AdmissionPolicy_Fits, FitEvaluation_Fits, EvaluateFit, evaluateResource.
  cbn [fit_CPU fit_Memory fit_EphemeralStorage re_Fits].
  rewrite !andb_true_iff, !negb_exceeds_spec by done. intros [[? ?] ?]. by apply claim_fits_within.
Qed.

(** C4: a Run that is admitted stays within its limits: its Allocation is new,
    bound to an active node and charged exactly what the normalized
    configuration requests; after the charge, everything charged to the node
    fits its effective allocatable and everything charged to the namespace fits
    its quota, in each resource the Run requests. *)
Theorem AdmitRun_within_limits svc params now runUUID allocUUID elapsed eventID wall db db' runID allocID :
  inv db -> db_typed db -> (forall g, int64 (f64_to_int64_oob g)) ->
  claim_wf (requested_claim params.(ap_Config)) ->
  AdmitRun ToASCII svc params now runUUID allocUUID elapsed eventID wall db = (db', Ok (runID, allocID)) ->
  let requested := requested_claim params.(ap_Config) in
  let namespace := NormalizeNamespace params.(ap_Namespace) in
  exists a n quota,
    db.(allocations) !! allocID = None /\ db'.(allocations) = <[allocID := a]> db.(allocations) /\
    a.(a_RunID) = runID /\ a.(a_State) = ALS_BOUND /\ charge a = requested /\
    db.(nodes) !! a.(a_NodeID) = Some n /\ n.(nr_Lifecycle) = LifecycleActive /\
    node_charges db' a.(a_NodeID) = add_claim requested (node_charges db a.(a_NodeID)) /\
    claim_within (node_charges db' a.(a_NodeID)) requested
      (EffectiveAllocatable svc.(ad_policy) (allocatableFromSummary n.(nr_Summary))) /\
    db.(namespace_resource_quotas) !! namespace = Some quota /\
    namespace_charges db' namespace = add_claim requested (namespace_charges db namespace) /\
    quota_within (namespace_charges db' namespace) requested quota.
Proof.
  intros Hinv [Hrows Hnodes Hquotas] Hoob Hreq Hx. cbv zeta.
  apply AdmitRun_inv in Hx as (env & d & _ & _ & Hadm & Hbind).
  apply AdmitCandidate_inv in Hadm as (_ & evaluate & quota & s & _ & [Hns Hq Hused] & Hfit & Hs & Erec & _ & _ & _ & Hwf).
  cbn [ar_Config ar_Namespace ar_Now ar_Candidates] in *. rewrite NormalizeNamespace_idem in *.
  apply least_admissible in Hs as (c & Hc & Hadm & _).
  apply admissible_spec in Hadm as (n & Hn & Htrim & Hne & Ec & Hact & Hcap & _).
  apply bind_run_Ok in Hbind as (r & a & q & Hr & Ha & Er & Ea & _ & Erun & Enode & Est & _ & Echarge & Ens
    & _ & _ & _ & [= -> ->]).
  fold (requested_claim (ap_Config params)) in Echarge.
  rewrite Erec, Ec in Enode. cbn [nr_NodeID scan_record] in Enode. set (id := nr_NodeID (c_Record c)) in *.
  assert (Hnode : node_charges db' id = add_claim (requested_claim (ap_Config params)) (node_charges db id)).
  { rewrite <- Echarge. eapply charges_where_insert; [exact Ea|exact Ha| |done].
    unfold on_node, not_released. by rewrite Enode, String.eqb_refl, Est. }
  assert (Hspace : namespace_charges db' (NormalizeNamespace (ap_Namespace params)) =
    add_claim (requested_claim (ap_Config params)) (namespace_charges db (NormalizeNamespace (ap_Namespace params)))).
  { rewrite <- Echarge. eapply charges_where_insert; [exact Ea|exact Ha|..].
    - unfold in_namespace, not_released. by rewrite Er, Erun, lookup_insert_eq, Ens, String.eqb_refl, Est.
    - intros i b Hb. unfold in_namespace. rewrite Er, lookup_insert_ne; [done|].
      destruct (wf_run _ (proj1 Hinv) _ _ Hb). congruence. }
  assert (Hwfn : claim_wf (node_charges db id)).
  { apply Hwf; [|by rewrite Hn]. apply candidateNodeIDs_elem. eauto. }
  exists a, n, quota. rewrite Enode, Hnode, Hspace. repeat (split; [done|]). split.
  { apply node_fits_within; try done; [by eapply Hnodes|by apply charges_nonneg]. }
  split; [done|]. split; [done|].
  apply quota_fits_within; try done; [by apply charges_nonneg|by eapply Hquotas].
Qed.

Lemma check_quota_part_ok used requested limit :
  0 <= used -> int64 used -> 0 <= requested -> from_option (Z.leb 0) true limit = true ->
  from_option int64 True limit -> check_quota_part (evaluateQuotaResource used requested limit) = true.
Proof.
  intros Hu Hu' Hr Hl Hw. unfold check_quota_part, evaluateQuotaResource.
  destruct limit as [l|]; simpl in *; [|rewrite !andb_true_iff, !Z.leb_le; auto].
  rewrite !andb_true_iff, !Z.leb_le. apply Z.leb_le in Hl. repeat split; try lia.
  unfold availableResource. destruct (l <=? 0) eqn:E1; [done|]. destruct (l <=? used) eqn:E2; [done|]. simpl.
  rewrite wrap64_id; [lia|]. unfold int64, MinInt64, MaxInt64 in *. lia.
Qed.

(** The limits a quota row can hold. *)
Definition quota_nonneg (q : NamespaceQuotaPolicy) : Prop :=
  from_option (Z.leb 0) true q.(CPUMilliLimit) = true /\ from_option (Z.leb 0) true q.(MemoryBytesLimit) = true /\
  from_option (Z.leb 0) true q.(EphemeralStorageBytesLimit) = true.

Lemma AdmitCandidate_over_quota svc req elapsed eventID wall db quota :
  let namespace := NormalizeNamespace req.(ar_Namespace) in
  let evaluation := Quota_EvaluateFit quota (namespace_charges db namespace) (requested_claim req.(ar_Config)) in
  let event := mkQuotaEvent ("quotaevt-" +:+ eventID) namespace req.(ar_EnvironmentID)
    (QuotaEventReasonForEvaluation evaluation) evaluation (sql_time (if IsZero req.(ar_Now) then wall else req.(ar_Now))) in
  svc.(ad_placement) <> None ->
  db.(namespaces) !! namespace = Some None -> db.(namespace_resource_quotas) !! namespace = Some quota ->
  claim_wf (namespace_charges db namespace) -> QuotaEvaluation_Fits evaluation = false ->
  check_quota_event event = true ->
  existsb (fun o => String.eqb o.(qe_ID) event.(qe_ID)) db.(namespace_quota_events) = false ->
  AdmitCandidate ToASCII svc req elapsed eventID wall db
  = (set_quota_events db (db.(namespace_quota_events) ++ [event]),
     Err (Committed (quotaRejectionError namespace evaluation))).
Proof.
  intros namespace evaluation event Hp Hns Hq Hwf Hfit Hcheck Hfresh. unfold AdmitCandidate. cbv zeta.
  destruct (ad_placement svc) as [evaluate|]; [clear Hp|done]. fold namespace.
  assert (NormalizeNamespace namespace = namespace) as Hidem by apply NormalizeNamespace_idem.
  unfold LockQuotaPolicy, LockQuotaRows, activeNamespaceAllocationUsage, mbind, tx_bind, gets, mret, tx_ret.
  cbv zeta. rewrite Hidem, Hns, Hq. cbn beta iota. rewrite Hq. cbn beta iota.
  apply claim_scans_wf in Hwf. rewrite Hwf.
  fold (mbind (M := option) (fun r : ResourceSpec => rs_Requests r)
    (ec_Resources (NormalizeConfig ToASCII (ar_Config req)))).
  change (QuotaEvaluation_Fits _) with (QuotaEvaluation_Fits evaluation). rewrite Hfit. cbn [negb].
  unfold insertQuotaAdmissionRejectedEvent. cbv zeta. rewrite Hidem.
  fold (requested_claim (ar_Config req)). fold evaluation. fold event.
  cbn [qe_ID event] in Hfresh. by rewrite Hcheck, Hfresh, Hns.
Qed.

(** C34: a Run beyond its namespace's quota is refused with ResourceExhausted,
    and the only trace the transaction leaves is one quota event that records
    the evaluation it was refused on: the event's own constraints never make
    the refusal roll back. *)
Theorem quota_rejection_commits_event svc params now runUUID allocUUID elapsed eventID wall db env quota :
  let namespace := NormalizeNamespace params.(ap_Namespace) in
  let requested := requested_claim params.(ap_Config) in
  let used := namespace_charges db namespace in
  params.(ap_Candidates) <> [] -> svc.(ad_placement) <> None ->
  db.(environments) !! params.(ap_EnvironmentID) = Some env -> env.(env_Namespace) = namespace ->
  db.(namespaces) !! namespace = Some None -> db.(namespace_resource_quotas) !! namespace = Some quota ->
  rows_ok db -> claim_wf used -> claim_nonneg requested -> quota_wf quota -> quota_nonneg quota ->
  not_blank params.(ap_EnvironmentID) = true ->
  existsb (fun o => String.eqb o.(qe_ID) ("quotaevt-" +:+ eventID)) db.(namespace_quota_events) = false ->
  Quota_Fits quota used requested = false ->
  exists event e,
    AdmitRun ToASCII svc params now runUUID allocUUID elapsed eventID wall db
      = (set_quota_events db (db.(namespace_quota_events) ++ [event]), Err e) /\
    status_code e = ResourceExhausted /\ event.(qe_Namespace) = namespace /\
    event.(qe_EnvironmentID) = params.(ap_EnvironmentID) /\
    event.(qe_Evaluation) = Quota_EvaluateFit quota used requested /\
    event.(qe_Reason) <> QuotaEventReasonExceeded.
Proof.
  intros namespace requested used Hc Hp Henv Hown Hns Hq Hrows Hwf (Hr1 & Hr2 & Hr3) (Hw1 & Hw2 & Hw3)
    (Hl1 & Hl2 & Hl3) Hblank Hfresh Hfit.
  pose proof (charges_nonneg (in_namespace db namespace) db Hrows) as (Hu1 & Hu2 & Hu3).
  pose proof (quota_rejection_reason_concrete _ _ _ Hfit) as Hreason.
  assert (Hcheck : check_quota_event (mkQuotaEvent ("quotaevt-" +:+ eventID) namespace params.(ap_EnvironmentID)
    (QuotaEventReasonForEvaluation (Quota_EvaluateFit quota used requested)) (Quota_EvaluateFit quota used requested)
    (sql_time (if IsZero now then wall else now))) = true).
  { unfold check_quota_event. cbn [qe_Reason qe_EnvironmentID qe_Evaluation Quota_EvaluateFit qe_CPU qe_Memory qe_EphemeralStorage].
    destruct Hwf as (? & ? & ?).
    rewrite Hblank, !check_quota_part_ok by done. by destruct (QuotaEventReasonForEvaluation _). }
  eexists. exists (Committed (quotaRejectionError namespace (Quota_EvaluateFit quota used requested))).
  split.
  - unfold AdmitRun. destruct (ap_Candidates params) as [|c l] eqn:Ec; [done|]. rewrite <- Ec in *. clear Hc.
    replace (length (ap_Candidates params) =? 0)%nat with false by by rewrite Ec.
    unfold withTx, mbind, tx_bind, gets. cbv zeta. fold namespace.
    rewrite Henv, Hown, String.eqb_refl. cbn [guard_tx mret tx_ret].
    assert (NormalizeNamespace namespace = namespace) as Hidem by apply NormalizeNamespace_idem.
    rewrite (AdmitCandidate_over_quota svc _ elapsed eventID wall db quota);
      cbn [ar_Namespace ar_Config ar_EnvironmentID ar_Now]; rewrite ?Hidem; done.
  - cbn [qe_Namespace qe_EnvironmentID qe_Evaluation qe_Reason ar_Namespace ar_Config ar_EnvironmentID].
    rewrite ?NormalizeNamespace_idem. done.
Qed.
End admission.

(** ** Concrete instances *)
Definition ex_empty : DB := mkDB ∅ ∅ ∅ ∅ ∅ ∅ 0 [] ∅ ∅ ∅ ∅ ∅ ∅ ∅ ∅ [] [] ∅.
Definition ex_db (quota : NamespaceQuotaPolicy) : DB :=
  mkDB ∅ ∅ ∅ ∅ ∅ ∅ 0 [] ∅ ∅ {["n1" := ex_record "n1" 0; "n2" := ex_record "n2" 1]} {["default" := None]}
    {["default" := quota]} {["env-1" := ex_environment]} ∅ ∅ [] [] ∅.
Definition ex_run_config : ExecutionConfig :=
  mkConfig ["sh"] ∅ "/"
    (Some (mkResourceSpec (Some (mkResourceQuantity 500 2048 0)) (Some (mkResourceQuantity 0 2048 0))))
    (Some (mkNetworkSpec NETWORK_MODE_DEFAULT None)) [] ∅ [] [] [] [] None.
Definition ex_service : AdmissionService :=
  NewAdmission (mkPolicy (f64_of_Z 1)) (Some (@Evaluate amd64 ex_engine)).
Definition ex_candidates : list (option Candidate) :=
  match @SelectCandidates amd64 ex_registry ex_engine ex_request ex_now with
  | Ok l => map Some l | Err _ => [] end.
Definition ex_params : AdmitRunParams := mkAdmitRunParams "" "env-1" (Some ex_run_config) ∅ ex_candidates.
Definition ex_admit (quota : NamespaceQuotaPolicy) :=
  @AdmitRun amd64 microseconds Ok ex_service ex_params ex_now "r1" "a1" 5 "q1" ex_now (ex_db quota).
Definition no_quota : NamespaceQuotaPolicy := mkQuota None None None.

Lemma inv_no_allocations db : db.(allocations) = ∅ -> inv db.
Proof.
  intros E. split; [split|]; intros *; rewrite ?E, ?lookup_empty; try done.
  unfold view. by rewrite E, lookup_empty.
Qed.

Lemma ex_db_typed : @db_typed (ex_db no_quota).
Proof.
  split.
  - intros id a. simpl. by rewrite lookup_empty.
  - intros id n. simpl. rewrite !lookup_insert_Some, lookup_singleton_Some.
    intros [[_ <-]|[_ [_ <-]]]; vm_compute; repeat split; done.
  - intros ns q. simpl. rewrite lookup_singleton_Some. by intros [_ <-].
Qed.

Definition ex_request_admit : AdmitCandidateRequest :=
  mkAdmitRequest "default" "env-1" ex_candidates (Some ex_run_config) ex_now.
Definition ex_admit_candidate (db : DB) :=
  @AdmitCandidate amd64 microseconds Ok ex_service ex_request_admit 5 "q1" ex_now db.

Lemma AdmitCandidate_sound_witness :
  exists quota s, (ex_db no_quota).(namespace_resource_quotas) !! "default" = Some quota /\
    Quota_Fits quota (namespace_charges (ex_db no_quota) "default") (@requested_claim amd64 Ok (Some ex_run_config)) = true /\
    (forall c' s', Some c' ∈ ex_candidates ->
       @admissible amd64 ex_service.(ad_policy) (@Evaluate amd64 ex_engine) (ex_db no_quota)
         (@requested_claim amd64 Ok (Some ex_run_config)) (Add ex_now 5) c' = Some s' ->
       CandidateLess (Some s') (Some s) = false) /\
    s.(c_Record).(nr_NodeID) = "n2".
Proof.
  destruct (ex_admit_candidate (ex_db no_quota)) as [db' [d|e]] eqn:E; [|vm_compute in E; discriminate E].
  assert (Hn : match ex_admit_candidate (ex_db no_quota) with
               | (_, Ok d) => d.(dec_Record).(nr_NodeID) | _ => "" end = "n2") by (vm_compute; reflexivity).
  rewrite E in Hn.
  destruct (@AdmitCandidate_sound amd64 microseconds Ok _ _ _ _ _ _ _ _ E)
    as (_ & evaluate & quota & s & c & Hev & _ & Hq & Hfit & _ & _ & Hleast & Hrec & _).
  injection Hev as <-. exists quota, s. split; [exact Hq|]. split; [exact Hfit|]. split; [exact Hleast|].
  rewrite <- Hrec. exact Hn.
Defined.

Lemma AdmitRun_within_limits_witness :
  exists a, (ex_admit no_quota).1.(allocations) !! "alloc-a1" = Some a /\
    node_charges (ex_admit no_quota).1 a.(a_NodeID)
    = add_claim (@requested_claim amd64 Ok (Some ex_run_config)) (node_charges (ex_db no_quota) a.(a_NodeID)).
Proof.
  destruct (ex_admit no_quota) as [db' [out|e]] eqn:E; [|vm_compute in E; discriminate E].
  assert (Hout : out = ("run-r1", "alloc-a1")).
  { assert (Ho : (ex_admit no_quota).2 = Ok ("run-r1", "alloc-a1")) by (vm_compute; reflexivity).
    rewrite E in Ho. by injection Ho. }
  subst out.
  destruct (@AdmitRun_within_limits amd64 microseconds Ok ex_service ex_params ex_now "r1" "a1" 5 "q1" ex_now
    (ex_db no_quota) db' "run-r1" "alloc-a1") as (a & n & quota & _ & Ha & _ & _ & _ & _ & _ & Hnode & _).
  - by apply inv_no_allocations.
  - apply ex_db_typed.
  - intros g. vm_compute. split; discriminate.
  - vm_compute. repeat split; discriminate.
  - exact E.
  - exists a. cbn [fst]. rewrite Ha, lookup_insert_eq. split; [reflexivity|exact Hnode].
Defined.

Lemma quota_rejection_commits_event_witness :
  exists event e, ex_admit (mkQuota (Some 400) None None)
    = (set_quota_events (ex_db (mkQuota (Some 400) None None)) [event], Err e) /\
    status_code e = ResourceExhausted.
Proof.
  destruct (@quota_rejection_commits_event amd64 microseconds Ok ex_service ex_params ex_now "r1" "a1" 5 "q1" ex_now
    (ex_db (mkQuota (Some 400) None None)) ex_environment (mkQuota (Some 400) None None))
    as (event & e & Hx & Hc & _).
  - vm_compute. discriminate.
  - discriminate.
  - vm_compute. reflexivity.
  - vm_compute. reflexivity.
  - vm_compute. reflexivity.
  - vm_compute. reflexivity.
  - intros id a. simpl. by rewrite lookup_empty.
  - vm_compute. repeat split; discriminate.
  - vm_compute. repeat split; discriminate.
  - vm_compute. repeat split; discriminate.
  - vm_compute. repeat split.
  - vm_compute. reflexivity.
  - vm_compute. reflexivity.
  - vm_compute. reflexivity.
  - exists event, e. split; [exact Hx|exact Hc].
Defined.

(** *** An expired observation the Run does not need

    Node [n2] still lists an expired bpfnet observation as available. *)
Definition ex_stale_summary : NodeSummary :=
  let s := ex_summary 1 in
  mkNodeSummary s.(ns_NodeInstanceID) s.(ns_Sequence) s.(ns_CollectedAt) s.(ns_Pools) s.(ns_Components)
    s.(ns_Locality) s.(ns_NodeState) s.(ns_Labels)
    (Some (mkSnapshot ex_snapshot.(snap_CollectedAt)
       (Some (ex_obs PC_NETWORK_BPFNET CP_NETWORK_HEALTH (Some (mkTimestamp 1004 0)) None)
          :: ex_snapshot.(snap_Observations))))
    s.(ns_Capacity) s.(ns_Allocatable) s.(ns_MemoryBudget).
Definition ex_stale_record : NodeRecord :=
  mkNodeRecord "n2" "n2:9000" (Some ex_stale_summary) LifecycleActive (900 * Second) (1004 * Second) zero_time "".
Definition ex_stale_db : DB :=
  mkDB ∅ ∅ ∅ ∅ ∅ ∅ 0 [] ∅ ∅ {["n1" := ex_record "n1" 0; "n2" := ex_stale_record]} {["default" := None]}
    {["default" := no_quota]} {["env-1" := ex_environment]} ∅ ∅ [] [] ∅.

(** [n2] is preferred in that store; [n1] alone is admitted. *)
Definition ex_admissible (c : Candidate) : option Candidate :=
  @admissible amd64 ex_service.(ad_policy) (@Evaluate amd64 ex_engine) ex_stale_db
    (@requested_claim amd64 Ok (Some ex_run_config)) (Add ex_now 5) c.
Definition is_stale (s : Candidate) : bool :=
  match (deref s.(c_Record).(nr_Summary)).(ns_CapabilitySnapshot) with
  | Some snapshot =>
      match snapshot.(snap_CollectedAt), snapshot.(snap_Observations) with
      | Some _, Some o :: _ => bool_decide (o.(obs_State) = CS_AVAILABLE) && negb (@observationValid amd64 (Some o) (Add ex_now 5))
      | _, _ => false
      end
  | None => false
  end.
Lemma ex_stale_choice :
  match ex_candidates with
  | [Some c; Some c'] =>
      match ex_admissible c, ex_admissible c' with
      | Some s, Some s' => is_stale s && CandidateLess (Some s) (Some s') &&
          is_Ok (@AdmitCandidate amd64 microseconds Ok ex_service
                   (mkAdmitRequest "default" "env-1" [Some c'] (Some ex_run_config) ex_now) 5 "q1" ex_now ex_stale_db).2
      | _, _ => false
      end
  | _ => false
  end = true.
Proof. vm_compute. reflexivity. Qed.
Lemma ex_stale_preferred :
  exists c c' s snapshot o, ex_candidates = [Some c; Some c'] /\
    @preferred amd64 ex_service.(ad_policy) (@Evaluate amd64 ex_engine) ex_stale_db
      (@requested_claim amd64 Ok (Some ex_run_config)) (Add ex_now 5) ex_candidates s /\
    (deref s.(c_Record).(nr_Summary)).(ns_CapabilitySnapshot) = Some snapshot /\ is_Some snapshot.(snap_CollectedAt) /\
    Some o ∈ snapshot.(snap_Observations) /\ o.(obs_State) = CS_AVAILABLE /\
    @observationValid amd64 (Some o) (Add ex_now 5) = false /\
    is_Ok (@AdmitCandidate amd64 microseconds Ok ex_service
             (mkAdmitRequest "default" "env-1" [Some c'] (Some ex_run_config) ex_now) 5 "q1" ex_now ex_stale_db).2 = true.
Proof.
  pose proof ex_stale_choice as Hc. destruct ex_candidates as [|[c|] [|[c'|] [|? ?]]]; try discriminate Hc.
  destruct (ex_admissible c) as [s|] eqn:Es; [|discriminate Hc]. destruct (ex_admissible c') as [s'|] eqn:Es'; [|discriminate Hc].
  apply andb_true_iff in Hc as [[Hst Hless]%andb_true_iff Hok]. unfold is_stale in Hst.
  destruct (ns_CapabilitySnapshot _) as [snapshot|] eqn:Esn; [|discriminate Hst].
  destruct (snap_CollectedAt snapshot) as [t|] eqn:Et; [|discriminate Hst].
  destruct (snap_Observations snapshot) as [|[o|] obs] eqn:Eo; [discriminate Hst| |discriminate Hst].
  apply andb_true_iff in Hst as [Ha%bool_decide_eq_true Hv%negb_true_iff].
  exists c, c', s, snapshot, o. split; [reflexivity|]. split.
  - split; [exists c; split; [left|exact Es]|]. intros d r [[= ->]|[[= ->]|[]%elem_of_nil]%elem_of_cons]%elem_of_cons Hr.
    + left. unfold ex_admissible in Es. congruence.
    + right. unfold ex_admissible in Es'. congruence.
  - split; [exact Esn|]. rewrite Et, Eo. split; [eexists; reflexivity|]. split; [left|]. split; [exact Ha|].
    split; [exact Hv|exact Hok].
Qed.
Lemma stale_observation_blocks_admission_witness :
  is_Ok (ex_admit_candidate ex_stale_db).2 = false.
Proof.
  destruct ex_stale_preferred as (c & c' & s & snapshot & o & _ & Hp & Hs & [t Ht] & Ho & Ha & Hv & _).
  pose proof (@stale_observation_blocks_admission amd64 microseconds Ok ex_service ex_request_admit 5 "q1" ex_now ex_stale_db
           (@Evaluate amd64 ex_engine) s snapshot t o) as H.
  cbn [ar_Now ar_Config ar_Candidates ex_request_admit] in H.
  destruct (ex_admit_candidate ex_stale_db) as [db' [d|e]] eqn:E; [|reflexivity].
  exfalso. exact (H eq_refl Hp Hs Ht Ho Ha Hv db' d E).
Defined.
