(* ===== verification/Retention.v ===== *)
(** * Retention

    [kernel/retention] ([config.go], [result.go], [controller.go]) and
    [postgres/retention] ([store.go], [terminal_runs.go], [access_grants.go],
    [quota_events.go], [events.go]): the periodic deletion of old events, dead
    grants and finished Runs with everything that belongs to them. *)
From S2P Require Import Prelude Proto Resource Allocation Node Execution Store Reconcile.

Module retention.

(** ** Configuration (config.go) *)
Record Config := mkRetention {
  Enabled : bool; Interval : Z; BatchSize : Z; TunnelEventsTTL : Z; TunnelEventsKeep : Z;
  QuotaEventsTTL : Z; TerminalRunsTTL : Z; AccessGrantsTTL : Z }.

Definition DefaultInterval : Z := 10 * Minute.
Definition DefaultBatchSize : Z := 500.
Definition DefaultTunnelEventsTTL : Z := 7 * 24 * Hour.
Definition DefaultTunnelEventsKeep : Z := 100.
Definition DefaultQuotaEventsTTL : Z := 7 * 24 * Hour.
Definition DefaultTerminalRunsTTL : Z := 7 * 24 * Hour.
Definition DefaultAccessGrantsTTL : Z := 24 * Hour.

Definition DefaultConfig : Config :=
  mkRetention true DefaultInterval DefaultBatchSize DefaultTunnelEventsTTL DefaultTunnelEventsKeep
    DefaultQuotaEventsTTL DefaultTerminalRunsTTL DefaultAccessGrantsTTL.

Definition positive_or (value fallback : Z) : Z := if value <=? 0 then fallback else value.
Definition NormalizeConfig (cfg : Config) : Config :=
  mkRetention cfg.(Enabled)
    (positive_or cfg.(Interval) DefaultInterval)
    (positive_or cfg.(BatchSize) DefaultBatchSize)
    (positive_or cfg.(TunnelEventsTTL) DefaultTunnelEventsTTL)
    (if cfg.(TunnelEventsKeep) <? 0 then DefaultTunnelEventsKeep else cfg.(TunnelEventsKeep))
    (positive_or cfg.(QuotaEventsTTL) DefaultQuotaEventsTTL)
    (positive_or cfg.(TerminalRunsTTL) DefaultTerminalRunsTTL)
    (positive_or cfg.(AccessGrantsTTL) DefaultAccessGrantsTTL).

(** ** Result (result.go); the duration of a cleanup is not modelled *)
Record Result := mkResult {
  TunnelEventsDeleted : Z; QuotaEventsDeleted : Z; TerminalRunsDeleted : Z; AccessGrantsDeleted : Z;
  EnrollmentReceiptsDeleted : Z; Skipped : bool }.
Definition TotalDeleted (r : Result) : Z :=
  wrap64 (r.(TunnelEventsDeleted) + r.(QuotaEventsDeleted) + r.(TerminalRunsDeleted)
          + r.(AccessGrantsDeleted) + r.(EnrollmentReceiptsDeleted)).

(** [LIMIT n] of a query ordered by [less]. *)
Definition limited {A} (less : A -> A -> bool) (n : Z) (rows : list A) : list A :=
  take (Z.to_nat n) (sort_slice less rows).
(** [ORDER BY t, id]. *)
Definition oldest_first (a b : time * string) : bool :=
  (a.1 <? b.1) || ((a.1 =? b.1) && string_lt a.2 b.2).

(** ** Tunnel events (events.go)

    The position in the list stands for the serial key [event_id]. *)
Definition indexed (l : list TunnelEvent) : list (nat * TunnelEvent) := imap pair l.
Definition newer (a b : nat * TunnelEvent) : bool :=
  (b.2.(te_CreatedAt) <? a.2.(te_CreatedAt))
  || ((a.2.(te_CreatedAt) =? b.2.(te_CreatedAt)) && (b.1 <? a.1)%nat).
Definition event_rank (l : list TunnelEvent) (e : nat * TunnelEvent) : Z :=
  1 + Z.of_nat (length (List.filter
        (fun e' => String.eqb e'.2.(te_SessionID) e.2.(te_SessionID) && newer e' e) (indexed l))).
Definition doomed_events (l : list TunnelEvent) (cutoff : time) (keep batchSize : Z) : list nat :=
  take (Z.to_nat batchSize)
    (map fst (List.filter (fun e => (keep <? event_rank l e) && (e.2.(te_CreatedAt) <? cutoff)) (indexed l))).
Definition deleteTunnelEvents (cutoff : time) (keep batchSize : Z) : Tx Z := fun db =>
  let l := db.(tunnel_session_events) in
  let doomed := doomed_events l cutoff keep batchSize in
  (set_tunnels db db.(tunnel_sessions) db.(tunnel_sessions_revision)
     (map snd (List.filter (fun e => negb (bool_decide (e.1 ∈ doomed))) (indexed l))),
   Ok (Z.of_nat (length doomed))).

(** ** Quota events (quota_events.go) *)
Definition deleteQuotaEvents (cutoff : time) (batchSize : Z) : Tx Z := fun db =>
  let doomed := map snd (limited oldest_first batchSize
    (map (fun e => (e.(qe_CreatedAt), e.(qe_ID)))
       (List.filter (fun e => e.(qe_CreatedAt) <? cutoff) db.(namespace_quota_events)))) in
  let gone := fun e => bool_decide (e.(qe_ID) ∈ doomed) in
  (set_quota_events db (List.filter (fun e => negb (gone e)) db.(namespace_quota_events)),
   Ok (Z.of_nat (length (List.filter gone db.(namespace_quota_events))))).

(** ** Terminal Runs (terminal_runs.go) *)
Definition retains_access (db : DB) (id : string) (now : time) : bool :=
  existsb (fun kv : string * GrantRow =>
    String.eqb kv.2.(g_AllocationID) id && negb kv.2.(g_Revoked) && (now <=? kv.2.(g_ExpiresAt)))
    (map_to_list db.(allocation_access_grants))
  || existsb (fun kv : string * TunnelRow => String.eqb kv.2.(t_AllocationID) id && active_tunnel kv.2)
       (map_to_list db.(tunnel_sessions)).
Definition output_expired (a : AllocRow) (now : time) : bool :=
  match a.(a_OutputExpiresAt) with None => true | Some t => t <=? now end.
Definition expendable (db : DB) (cutoff now : time) (id : string) (a : AllocRow) (r : RunRow) : bool :=
  (r.(r_UpdatedAt) <? cutoff) && bool_decide (a.(a_State) = ALS_RELEASED) && output_expired a now
  && IsTerminal r.(r_Status) && is_nil (db.(allocation_reconcile_queue) !! id)
  && negb (retains_access db id now).
Definition terminal_row (db : DB) (cutoff now : time) (kv : string * AllocRow) : option (time * string) :=
  r ← db.(runs) !! kv.2.(a_RunID);
  if expendable db cutoff now kv.1 kv.2 r then Some (r.(r_UpdatedAt), kv.2.(a_RunID)) else None.
Definition candidateTerminalRuns (db : DB) (cutoff now : time) (batchSize : Z) : list string :=
  map snd (limited oldest_first batchSize (omap (terminal_row db cutoff now) (map_to_list db.(allocations)))).

(** [DELETE FROM runs] with the [ON DELETE CASCADE] rules below it. *)
Definition without {A} (p : string -> A -> bool) (m : gmap string A) : gmap string A :=
  filter (fun kv : string * A => p kv.1 kv.2 = false) m.
Definition run_gone (ids : list string) (id : string) : bool := bool_decide (id ∈ ids).
Definition alloc_gone (ids : list string) (db : DB) (id : string) : bool :=
  match db.(allocations) !! id with Some a => run_gone ids a.(a_RunID) | None => false end.
Definition session_gone (ids : list string) (db : DB) (id : string) : bool :=
  match db.(tunnel_sessions) !! id with Some t => alloc_gone ids db t.(t_AllocationID) | None => false end.
Definition delete_runs (ids : list string) (db : DB) : DB :=
  let alloc_gone := alloc_gone ids db in
  let session_gone := session_gone ids db in
  let db := set_tunnels db (without (fun _ t => alloc_gone t.(t_AllocationID)) db.(tunnel_sessions))
              db.(tunnel_sessions_revision)
              (List.filter (fun e => negb (session_gone e.(te_SessionID))) db.(tunnel_session_events)) in
  let db := set_grants db (without (fun _ g => alloc_gone g.(g_AllocationID)) db.(allocation_access_grants)) in
  let db := set_queue db (without (fun id _ => alloc_gone id) db.(allocation_reconcile_queue)) in
  let db := set_requirements db
              (filter (fun kv : (string * string) * CapabilityRequirement => alloc_gone kv.1.1 = false)
                 db.(allocation_capability_requirements)) in
  let db := set_conditions db (without (fun id _ => alloc_gone id) db.(allocation_capability_conditions)) in
  let db := set_run_secrets db
              (filter (fun rs : string * string => run_gone ids rs.1 = false) db.(run_secret_references)) in
  let db := set_allocations db (without (fun _ a => run_gone ids a.(a_RunID)) db.(allocations)) in
  set_runs db (without (fun id _ => run_gone ids id) db.(runs)).

Definition deleteTerminalRuns (cutoff now : time) (batchSize : Z) : Tx Z :=
  runIDs ← gets (fun db => candidateTerminalRuns db cutoff now batchSize);
  if (length runIDs =? 0)%nat then mret 0
  else
    n ← gets (fun db => Z.of_nat (size (filter (fun kv : string * RunRow => kv.1 ∈ runIDs) db.(runs))));
    _ ← modify (delete_runs runIDs);
    mret n.

(** ** Access grants (access_grants.go) *)
Definition dead_grant (cutoff now : time) (g : GrantRow) : bool :=
  (g.(g_CreatedAt) <? cutoff) && (g.(g_Revoked) || (g.(g_ExpiresAt) <? now)).
Definition deleteExpiredAccessGrants (cutoff now : time) (batchSize : Z) : Tx Z := fun db =>
  let doomed := map snd (limited oldest_first batchSize
    (map (fun kv : string * GrantRow => (kv.2.(g_CreatedAt), kv.1))
       (List.filter (fun kv => dead_grant cutoff now kv.2) (map_to_list db.(allocation_access_grants))))) in
  (set_grants db (without (fun id _ => bool_decide (id ∈ doomed)) db.(allocation_access_grants)),
   Ok (Z.of_nat (length doomed))).

(** ** Cleanup (store.go) *)
Definition EnrollmentLifetime : Z := Hour.
Definition receipt_row (db : DB) (clock : time) (id : string) : option (time * string) :=
  n ← db.(nodes) !! id;
  if Add n.(nr_AdmittedAt) (EnrollmentLifetime / Second * Second) <=? clock
  then Some (n.(nr_AdmittedAt), id) else None.
Definition deleteEnrollmentReceipts (clock : time) (batchSize : Z) : Tx Z := fun db =>
  let doomed := map snd (limited oldest_first batchSize
                  (omap (receipt_row db clock) (elements db.(node_enrollment_receipts)))) in
  (set_enrollments db (filter (fun id => id ∉ doomed) db.(node_enrollment_receipts)),
   Ok (Z.of_nat (length doomed))).

Section store.
Context `{SqlTime}.

(** [locked] is the answer of [pg_try_advisory_xact_lock], [clock] the
    database's [clock_timestamp()]. *)
Definition Cleanup (cfg : Config) (now : time) (locked : bool) (clock : time) : Tx Result :=
  let cfg := NormalizeConfig cfg in
  let cutoff := fun ttl => sql_time (Add now (- ttl)) in
  withTx_admin (
    if negb locked then mret (mkResult 0 0 0 0 0 true)
    else
      tunnelEvents ← deleteTunnelEvents (cutoff cfg.(TunnelEventsTTL)) cfg.(TunnelEventsKeep) cfg.(BatchSize);
      quotaEvents ← deleteQuotaEvents (cutoff cfg.(QuotaEventsTTL)) cfg.(BatchSize);
      terminalRuns ← deleteTerminalRuns (cutoff cfg.(TerminalRunsTTL)) (sql_time now) cfg.(BatchSize);
      accessGrants ← deleteExpiredAccessGrants (cutoff cfg.(AccessGrantsTTL)) (sql_time now) cfg.(BatchSize);
      receipts ← deleteEnrollmentReceipts clock cfg.(BatchSize);
      mret (mkResult tunnelEvents quotaEvents terminalRuns accessGrants receipts false)).

(** [Controller.Cleanup] (controller.go), on a controller that exists. *)
Definition Controller_Cleanup (store : bool) (cfg : Config) (now : time) (locked : bool) (clock : time) : Tx Result :=
  let cfg := NormalizeConfig cfg in
  if negb store || negb cfg.(Enabled) then mret (mkResult 0 0 0 0 0 true)
  else Cleanup cfg now locked clock.
End store.
End retention.
