(* ===== verification/RetentionFacts.v ===== *)
(** * Facts about retention

    Retention deletes only finished Runs, with everything that belongs to them,
    in bounded batches; it never revokes live access, and it eventually leaves
    no expendable Run. *)
From S2P Require Import Prelude Proto Resource Allocation Node Execution Store Reconcile RunStore StoreFacts Retention.
Import retention.

(** ** Limits *)
Section limited.
Context {A : Type} (less : A -> A -> bool).

Lemma limited_elem n l x : x ∈ limited less n l -> x ∈ l.
Proof.
  unfold limited. intros Hx. apply (elem_of_sort_slice less).
  rewrite <- (take_drop (Z.to_nat n)). apply elem_of_app. by left.
Qed.
Lemma limited_length n l : (length (limited less n l) <= Z.to_nat n)%nat.
Proof. unfold limited. rewrite length_take. lia. Qed.
Lemma limited_all n l x : (length (limited less n l) < Z.to_nat n)%nat -> x ∈ l -> x ∈ limited less n l.
Proof.
  unfold limited. rewrite length_take. intros Hn Hx.
  rewrite take_ge by lia. by apply elem_of_sort_slice.
Qed.
End limited.

(** ** The cascade *)
Lemma without_lookup {A} (p : string -> A -> bool) m k :
  without p m !! k = (x ← m !! k; if p k x then None else Some x).
Proof.
  unfold without. rewrite map_lookup_filter. destruct (m !! k) as [x|]; [|done]. simpl.
  case_guard; case_match; simpl in *; congruence.
Qed.

Record deleted (ids : list string) (db db' : DB) : Prop := {
  d_runs : db'.(runs) = without (fun id _ => run_gone ids id) db.(runs);
  d_allocations : db'.(allocations) = without (fun _ a => run_gone ids a.(a_RunID)) db.(allocations);
  d_queue : db'.(allocation_reconcile_queue) = without (fun id _ => alloc_gone ids db id) db.(allocation_reconcile_queue);
  d_grants : db'.(allocation_access_grants) =
    without (fun _ g => alloc_gone ids db g.(g_AllocationID)) db.(allocation_access_grants);
  d_tunnels : db'.(tunnel_sessions) = without (fun _ t => alloc_gone ids db t.(t_AllocationID)) db.(tunnel_sessions) }.
Lemma delete_runs_deleted ids db : deleted ids db (delete_runs ids db).
Proof. by destruct db. Qed.

Lemma without_false {A} (p : string -> A -> bool) m : (forall k x, p k x = false) -> without p m = m.
Proof.
  intros Hp. apply map_eq. intros k. rewrite without_lookup.
  destruct (m !! k) as [x|]; [|done]. simpl. by rewrite Hp.
Qed.
Lemma deleted_nil db : deleted [] db db.
Proof.
  assert (Hg : forall id, run_gone [] id = false) by (intros; by apply bool_decide_eq_false_2, not_elem_of_nil).
  assert (Ha : forall id, alloc_gone [] db id = false) by (intros; unfold alloc_gone; case_match; auto).
  split; symmetry; apply without_false; intros; auto.
Qed.

Lemma expendable_spec db cutoff now id a r : expendable db cutoff now id a r = true <->
  r.(r_UpdatedAt) < cutoff /\ a.(a_State) = ALS_RELEASED /\ output_expired a now = true /\
  IsTerminal r.(r_Status) = true /\ db.(allocation_reconcile_queue) !! id = None /\
  retains_access db id now = false.
Proof.
  unfold expendable. rewrite !andb_true_iff, bool_decide_eq_true, Z.ltb_lt, negb_true_iff.
  destruct (allocation_reconcile_queue db !! id); simpl; naive_solver.
Qed.

Lemma terminal_row_spec db cutoff now kv x : terminal_row db cutoff now kv = Some x <->
  exists r, db.(runs) !! kv.2.(a_RunID) = Some r /\ expendable db cutoff now kv.1 kv.2 r = true /\
    x = (r.(r_UpdatedAt), kv.2.(a_RunID)).
Proof.
  unfold terminal_row. destruct (runs db !! _) as [r|]; cbn [mbind option_bind].
  - destruct (expendable _ _ _ _ _ _) eqn:E; split.
    + intros [= <-]. eauto.
    + by intros (? & [= <-] & _ & ->).
    + done.
    + intros (? & [= <-] & ? & _). congruence.
  - split; [done|]. by intros (? & ? & _).
Qed.

(** A candidate is the Run of an expendable Allocation. *)
Definition finished (db : DB) (cutoff now : time) (rid : string) : Prop :=
  exists id a r, db.(allocations) !! id = Some a /\ a.(a_RunID) = rid /\ db.(runs) !! rid = Some r /\
    expendable db cutoff now id a r = true.
Lemma finished_row db cutoff now rid : finished db cutoff now rid <->
  exists t, (t, rid) ∈ omap (terminal_row db cutoff now) (map_to_list db.(allocations)).
Proof.
  unfold finished. setoid_rewrite list_elem_of_omap. setoid_rewrite terminal_row_spec. split.
  - intros (id & a & r & Ha & <- & Hr & He). exists (r_UpdatedAt r), (id, a).
    split; [by apply elem_of_map_to_list|]. eauto.
  - intros (t & [id a] & Hin & r & Hr & He & [= -> ->]). apply elem_of_map_to_list in Hin. eauto 10.
Qed.
Lemma candidates_finished db cutoff now n rid : rid ∈ candidateTerminalRuns db cutoff now n -> finished db cutoff now rid.
Proof.
  unfold candidateTerminalRuns. rewrite finished_row, list_elem_of_fmap. intros ([t x] & -> & Hx).
  exists t. by eapply limited_elem.
Qed.
Lemma candidates_length db cutoff now n : (length (candidateTerminalRuns db cutoff now n) <= Z.to_nat n)%nat.
Proof. unfold candidateTerminalRuns. rewrite length_map. apply limited_length. Qed.
Lemma candidates_all db cutoff now n rid :
  (length (candidateTerminalRuns db cutoff now n) < Z.to_nat n)%nat -> finished db cutoff now rid ->
  rid ∈ candidateTerminalRuns db cutoff now n.
Proof.
  unfold candidateTerminalRuns. rewrite length_map, finished_row, list_elem_of_fmap. intros Hn [t Ht].
  exists (t, rid). split; [done|]. by apply limited_all.
Qed.

(** ** How many Runs go *)
Lemma NoDup_omap_snd {A B C} (f : A -> option (B * C)) l :
  NoDup l -> (forall x y b b' c, x ∈ l -> y ∈ l -> f x = Some (b, c) -> f y = Some (b', c) -> x = y) ->
  NoDup (map snd (omap f l)).
Proof.
  induction 1 as [|x l Hx Hl IH]; intros Hinj; simpl; [apply NoDup_nil_2|].
  assert (IH' : NoDup (map snd (omap f l))).
  { apply IH. intros y z b b' c Hy Hz. apply Hinj; by apply list_elem_of_further. }
  destruct (f x) as [[b c]|] eqn:E; simpl; [|done]. apply NoDup_cons_2; [|done].
  rewrite list_elem_of_fmap. intros ([b' c'] & -> & Hin). apply list_elem_of_omap in Hin as (y & Hy & E').
  simpl in E. assert (x = y) as <-; [|done].
  eapply Hinj; [by apply list_elem_of_here|by apply list_elem_of_further|done|done].
Qed.
Lemma limited_NoDup {A B} (less : B * A -> B * A -> bool) n l :
  NoDup (map snd l) -> NoDup (map snd (limited less n l)).
Proof.
  intros Hl. assert (Hs : NoDup (map snd (sort_slice less l))).
  { eapply NoDup_Permutation_proper; [|exact Hl]. apply fmap_Permutation, sort_slice_perm. }
  unfold limited. rewrite <- (take_drop (Z.to_nat n) (sort_slice less l)), map_app in Hs.
  by apply NoDup_app in Hs as [? _].
Qed.
Lemma candidates_NoDup db cutoff now n : wf db -> NoDup (candidateTerminalRuns db cutoff now n).
Proof.
  intros Hwf. apply limited_NoDup, NoDup_omap_snd; [apply NoDup_map_to_list|].
  intros [i a] [j b] t t' rid Hi Hj Ei Ej. apply elem_of_map_to_list in Hi, Hj.
  apply terminal_row_spec in Ei as (? & _ & _ & [= -> ->]). apply terminal_row_spec in Ej as (? & _ & _ & [= -> E]).
  assert (i = j) as <- by (by eapply wf_unique). congruence.
Qed.

Lemma rows_affected {A} (ids : list string) (m : gmap string A) :
  NoDup ids -> (forall id, id ∈ ids -> is_Some (m !! id)) ->
  size (filter (fun kv : string * A => kv.1 ∈ ids) m) = length ids.
Proof.
  intros Hn Hm. rewrite <- size_dom, <- (size_list_to_set (C := gset string) ids) by done. f_equal.
  apply set_eq. intros id. rewrite elem_of_list_to_set, elem_of_dom. split.
  - intros [x Hx]. by apply map_lookup_filter_Some in Hx as [_ Hx].
  - intros Hid. destruct (Hm _ Hid) as [x Hx]. exists x. by apply map_lookup_filter_Some.
Qed.

(** ** The deletion of terminal Runs *)
Lemma deleteTerminalRuns_Ok cutoff now n db db' k :
  wf db -> deleteTerminalRuns cutoff now n db = (db', Ok k) ->
  let ids := candidateTerminalRuns db cutoff now n in
  deleted ids db db' /\ k = Z.of_nat (length ids).
Proof.
  intros Hwf Hx ids. unfold deleteTerminalRuns in Hx. tx_inv. fold ids in Hx.
  assert (Hsome : forall rid, rid ∈ ids -> is_Some (runs db !! rid)).
  { intros rid Hr. apply candidates_finished in Hr as (? & ? & ? & _ & _ & ? & _). eauto. }
  destruct (length ids =? 0)%nat eqn:E; tx_inv.
  - apply Nat.eqb_eq in E. destruct ids as [|? ?]; [|done]. split; [apply deleted_nil|done].
  - match goal with Hm : modify _ _ = _ |- _ => unfold modify in Hm; injection Hm as <- end.
    rewrite rows_affected by (done || by apply candidates_NoDup). split; [apply delete_runs_deleted|done].
Qed.

Lemma view_deleted fresh cutoff now n db db' id :
  inv db -> deleted (candidateTerminalRuns db cutoff now n) db db' -> rtc (life_step fresh) (view db id) (view db' id).
Proof.
  intros [Hwf _] Hd. unfold view. rewrite (d_allocations _ _ _ Hd), without_lookup.
  destruct (allocations db !! id) as [a|] eqn:Ha; [|done]. simpl.
  destruct (runs db !! a_RunID a) as [r|] eqn:Hr; [|by destruct (wf_run _ Hwf _ _ Ha); congruence].
  destruct (run_gone _ (a_RunID a)) eqn:Eg; simpl.
  - apply bool_decide_eq_true in Eg. apply candidates_finished in Eg as (id' & a' & r' & Ha' & Er & Hr' & He).
    assert (id' = id) as -> by (by eapply wf_unique). simplify_eq.
    apply expendable_spec in He as (_ & Es & _ & _ & Eq & _).
    apply rtc_once, life_delete; simpl; [done|by rewrite Eq].
  - rewrite (d_runs _ _ _ Hd), without_lookup, Hr, (d_queue _ _ _ Hd), without_lookup. simpl. rewrite Eg. simpl.
    replace (alloc_gone _ db id) with false by (unfold alloc_gone; by rewrite Ha).
    by destruct (allocation_reconcile_queue db !! id).
Qed.
Lemma deleted_wf ids db db' : wf db -> deleted ids db db' -> wf db'.
Proof.
  intros [Ht Hr Hu] Hd.
  assert (Hsub : forall id a, allocations db' !! id = Some a ->
    allocations db !! id = Some a /\ run_gone ids (a_RunID a) = false).
  { intros id a. rewrite (d_allocations _ _ _ Hd), without_lookup.
    destruct (allocations db !! id) as [a0|]; simpl; [|done]. case_match; naive_solver. }
  split.
  - intros id a Ha. apply Hsub in Ha as [Ha _]. by eapply Ht.
  - intros id a Ha. apply Hsub in Ha as [Ha Eg]. destruct (Hr _ _ Ha) as [r Er].
    exists r. by rewrite (d_runs _ _ _ Hd), without_lookup, Er; simpl; rewrite Eg.
  - intros id id' a a' Ha Ha'. apply Hsub in Ha as [Ha _], Ha' as [Ha' _]. by eapply Hu.
Qed.
Lemma deleteTerminalRuns_moves `{Fresh : Admissible} cutoff now n db db' k :
  inv db -> deleteTerminalRuns cutoff now n db = (db', Ok k) -> moves db db'.
Proof.
  intros Hinv Hx. destruct Hinv as [Hwf Hs] eqn:E. apply deleteTerminalRuns_Ok in Hx as [Hd _]; [|done].
  split; [by eapply deleted_wf|]. intros id. by eapply view_deleted.
Qed.

Lemma frame_events c k n : frame (deleteTunnelEvents c k n).
Proof. intros db. apply same_tables_setters. Qed.
Lemma frame_quota c n : frame (deleteQuotaEvents c n).
Proof. intros db. apply same_tables_setters. Qed.
Lemma frame_grants c t n : frame (deleteExpiredAccessGrants c t n).
Proof. intros db. apply same_tables_setters. Qed.
Lemma frame_receipts c n : frame (deleteEnrollmentReceipts c n).
Proof. intros db. apply same_tables_setters. Qed.

(** ** Cleanup

    What makes a Run expendable, in terms of the store. *)
Record finished_run (db : DB) (cutoff now : time) (rid id : string) (a : AllocRow) (r : RunRow) : Prop := {
  fr_alloc : db.(allocations) !! id = Some a;
  fr_owner : a.(a_RunID) = rid;
  fr_run : db.(runs) !! rid = Some r;
  fr_terminal : IsTerminal r.(r_Status) = true;
  fr_old : r.(r_UpdatedAt) < cutoff;
  fr_released : a.(a_State) = ALS_RELEASED;
  fr_output t : a.(a_OutputExpiresAt) = Some t -> t <= now;
  fr_queue : db.(allocation_reconcile_queue) !! id = None;
  fr_grants gid g : db.(allocation_access_grants) !! gid = Some g -> g.(g_AllocationID) = id ->
    g.(g_Revoked) = true \/ g.(g_ExpiresAt) < now;
  fr_tunnels sid t : db.(tunnel_sessions) !! sid = Some t -> t.(t_AllocationID) = id -> active_tunnel t = false }.

Lemma retains_access_false db id now : retains_access db id now = false <->
  (forall gid g, db.(allocation_access_grants) !! gid = Some g -> g.(g_AllocationID) = id ->
     g.(g_Revoked) = true \/ g.(g_ExpiresAt) < now) /\
  (forall sid t, db.(tunnel_sessions) !! sid = Some t -> t.(t_AllocationID) = id -> active_tunnel t = false).
Proof.
  unfold retains_access. rewrite orb_false_iff. f_equiv.
  - rewrite <- not_true_iff_false, existsb_exists. split.
    + intros Hn gid g Hg <-. destruct (g_Revoked g) eqn:Er; [by left|right].
      destruct (Z.ltb_spec (g_ExpiresAt g) now) as [|Hle]; [done|]. destruct Hn. exists (gid, g).
      split; [by apply list_elem_of_In, elem_of_map_to_list|]. simpl. rewrite String.eqb_refl, Er. by apply Z.leb_le.
    + intros Hg ([gid g] & Hin & Hb). apply list_elem_of_In, elem_of_map_to_list in Hin. simpl in Hb.
      rewrite !andb_true_iff, String.eqb_eq, negb_true_iff, Z.leb_le in Hb. destruct Hb as [[E Er] Hle].
      destruct (Hg _ _ Hin E); [congruence|lia].
  - rewrite <- not_true_iff_false, existsb_exists. split.
    + intros Hn sid t Ht <-. destruct (active_tunnel t) eqn:Ea; [|done]. destruct Hn. exists (sid, t).
      split; [by apply list_elem_of_In, elem_of_map_to_list|]. simpl. by rewrite String.eqb_refl, Ea.
    + intros Ht ([sid t] & Hin & Hb). apply list_elem_of_In, elem_of_map_to_list in Hin. simpl in Hb.
      rewrite andb_true_iff, String.eqb_eq in Hb. destruct Hb as [E Ea]. rewrite (Ht _ _ Hin E) in Ea. done.
Qed.

Lemma finished_iff db cutoff now rid :
  finished db cutoff now rid <-> exists id a r, finished_run db cutoff now rid id a r.
Proof.
  unfold finished, output_expired. do 3 (apply exist_proper; intro). rewrite expendable_spec, retains_access_false.
  unfold output_expired. split.
  - intros (? & ? & ? & ? & ? & Ho & ? & ? & ? & ?). split; auto. intros t Et. rewrite Et in Ho. by apply Z.leb_le.
  - intros [? ? ? ? ? ? Ho ? ? ?]. repeat split; auto. case_match; [|done]. by apply Z.leb_le, Ho.
Qed.

(** The tables that decide what retention may delete. *)
Definition same_core (db db' : DB) : Prop :=
  same_tables db db' /\ db'.(allocation_access_grants) = db.(allocation_access_grants) /\
  db'.(tunnel_sessions) = db.(tunnel_sessions).
Lemma same_core_trans db1 db2 db3 : same_core db1 db2 -> same_core db2 db3 -> same_core db1 db3.
Proof. intros (? & Eg & Et) (? & Eg' & Et'). split; [by eapply same_tables_trans|]. by rewrite Eg', Et'. Qed.
Lemma core_events c k n db db' x : deleteTunnelEvents c k n db = (db', Ok x) -> same_core db db'.
Proof. intros [= <- _]. by destruct db. Qed.
Lemma core_quota c n db db' x : deleteQuotaEvents c n db = (db', Ok x) -> same_core db db'.
Proof. intros [= <- _]. by destruct db. Qed.
Lemma core_receipts c n db db' x : deleteEnrollmentReceipts c n db = (db', Ok x) -> same_core db db'.
Proof. intros [= <- _]. by destruct db. Qed.

Lemma deleted_core ids db1 db db' : same_core db1 db -> deleted ids db db' -> deleted ids db1 db'.
Proof.
  intros ((Er & Ea & Eq) & Eg & Et) [H1 H2 H3 H4 H5]. unfold alloc_gone in *. rewrite ?Er, ?Ea, ?Eq, ?Eg, ?Et in *.
  by split.
Qed.
Lemma finished_core db1 db cutoff now rid : same_core db1 db -> finished db cutoff now rid <-> finished db1 cutoff now rid.
Proof.
  intros ((Er & Ea & Eq) & Eg & Et). unfold finished, expendable, retains_access.
  by rewrite Er, Ea, Eq, Eg, Et.
Qed.

(** What a grant deletion removes. *)
Lemma deleteGrants_Ok cutoff now n db db' k : deleteExpiredAccessGrants cutoff now n db = (db', Ok k) ->
  same_tables db db' /\ db'.(tunnel_sessions) = db.(tunnel_sessions) /\
  forall gid g, db.(allocation_access_grants) !! gid = Some g ->
    db'.(allocation_access_grants) !! gid = Some g \/
    db'.(allocation_access_grants) !! gid = None /\ dead_grant cutoff now g = true.
Proof.
  unfold deleteExpiredAccessGrants. set (doomed := map snd _). intros [= <- _].
  split; [apply same_tables_setters|]. split; [by destruct db|]. intros gid g Hg.
  replace (allocation_access_grants (set_grants _ _)) with
    (without (fun id (_ : GrantRow) => bool_decide (id ∈ doomed)) (allocation_access_grants db)) by by destruct db.
  rewrite without_lookup, Hg. simpl. case_bool_decide as Hd; [right|by left]. split; [done|].
  apply list_elem_of_fmap in Hd as ([t gid'] & -> & Hd). apply limited_elem in Hd.
  apply list_elem_of_fmap in Hd as ([i g'] & E & Hd). apply list_elem_of_In, filter_In in Hd as [Hd Hdead].
  apply list_elem_of_In, elem_of_map_to_list in Hd. simpl in *. congruence.
Qed.

Lemma candidates_core db1 db cutoff now n : same_core db1 db ->
  candidateTerminalRuns db cutoff now n = candidateTerminalRuns db1 cutoff now n.
Proof.
  intros ((Er & Ea & Eq) & Eg & Et). unfold candidateTerminalRuns, terminal_row, expendable, retains_access.
  by rewrite Er, Ea, Eq, Eg, Et.
Qed.

(** ** Retention only deletes *)
Record thinner (db db' : DB) : Prop := {
  th_allocations id a : db'.(allocations) !! id = Some a -> db.(allocations) !! id = Some a;
  th_grants id g : db'.(allocation_access_grants) !! id = Some g -> db.(allocation_access_grants) !! id = Some g;
  th_tunnels id t : db'.(tunnel_sessions) !! id = Some t -> db.(tunnel_sessions) !! id = Some t;
  th_revision : db'.(tunnel_sessions_revision) = db.(tunnel_sessions_revision);
  th_cursors : db'.(node_access_grant_cursors) = db.(node_access_grant_cursors) }.
#[export] Instance thinner_preorder : PreOrder thinner.
Proof. split; [by intros db; split|]. intros a b c [? ? ? ? ?] [? ? ? ? ?]. split; auto; congruence. Qed.
Section thinner.
Context `{SqlTime}.
Lemma without_sub {A} (p : string -> A -> bool) m i x : without p m !! i = Some x -> m !! i = Some x.
Proof. unfold without. by intros [? _]%map_lookup_filter_Some. Qed.
Lemma thinner_delete_runs ids db : thinner db (delete_runs ids db).
Proof. destruct db. split; intros *; try done; apply without_sub. Qed.
Lemma thinner_Cleanup enabled cfg now locked clock : respects thinner (Controller_Cleanup enabled cfg now locked clock).
Proof.
  unfold Controller_Cleanup, Cleanup. cbv zeta. case_match; [apply respects_ret|]. apply respects_withTx_admin.
  case_match; [apply respects_ret|].
  apply respects_bind; [intros db; split; destruct db; done|intros ?].
  apply respects_bind; [intros db; split; destruct db; done|intros ?].
  apply respects_bind.
  { unfold deleteTerminalRuns. apply respects_bind; [apply respects_gets|intros ids]. case_match; [apply respects_ret|].
    apply respects_bind; [apply respects_gets|intros n]. apply respects_bind; [|intros; apply respects_ret].
    intros db. apply thinner_delete_runs. }
  intros ?. apply respects_bind; [|intros ?].
  { intros db. split; intros *; destruct db; try done. apply without_sub. }
  apply respects_bind; [|intros; apply respects_ret]. intros db. split; destruct db; done.
Qed.
End thinner.

Section cleanup.
Context `{SqlTime}.

(** A cleanup, statement by statement: the deletion of terminal Runs, then that
    of dead grants, between statements that do not touch their tables. *)
Lemma Cleanup_parts `{Fresh : Admissible} cfg now clock db db' res :
  inv db -> Cleanup cfg now true clock db = (db', Ok res) ->
  let c := NormalizeConfig cfg in let cutoff ttl := sql_time (Add now (- ttl)) in
  let ids := candidateTerminalRuns db (cutoff c.(TerminalRunsTTL)) (sql_time now) c.(BatchSize) in
  exists db1 db2, deleted ids db db1 /\ moves db db1 /\
    same_tables db1 db2 /\ db2.(tunnel_sessions) = db1.(tunnel_sessions) /\
    (forall gid g, db1.(allocation_access_grants) !! gid = Some g ->
       db2.(allocation_access_grants) !! gid = Some g \/
       db2.(allocation_access_grants) !! gid = None /\
       dead_grant (cutoff c.(AccessGrantsTTL)) (sql_time now) g = true) /\
    same_core db2 db' /\ res.(TerminalRunsDeleted) = Z.of_nat (length ids).
Proof.
  intros Hinv Hx c cutoff ids. apply withTx_admin_Ok in Hx. simpl in Hx. tx_inv.
  repeat match goal with
  | E : deleteTunnelEvents _ _ _ _ = _ |- _ => apply core_events in E
  | E : deleteQuotaEvents _ _ _ = _ |- _ => apply core_quota in E
  | E : deleteEnrollmentReceipts _ _ _ = _ |- _ => apply core_receipts in E
  | E : deleteExpiredAccessGrants _ _ _ _ = _ |- _ => apply deleteGrants_Ok in E as (Ht & Es & Hg)
  end.
  rename select (deleteTerminalRuns _ _ _ _ = _) into Hruns.
  assert (Hc : same_core db db1) by (by eapply same_core_trans).
  pose proof (moves_same_tables _ _ Hinv (proj1 Hc)) as Hmv.
  pose proof (moves_inv _ _ Hinv Hmv) as Hinv1.
  pose proof (deleteTerminalRuns_moves _ _ _ _ _ _ Hinv1 Hruns) as Hmv1.
  apply deleteTerminalRuns_Ok in Hruns as [Hd ->]; [|apply Hinv1].
  rewrite (candidates_core db) in Hd by done. rewrite (candidates_core db) by done.
  exists db2, db3. split; [by eapply deleted_core|]. split; [by eapply moves_trans|]. done.
Qed.

Lemma Cleanup_moves `{Fresh : Admissible} cfg now locked clock db : inv db -> moves db (fst (Cleanup cfg now locked clock db)).
Proof.
  intros Hinv. destruct (Cleanup cfg now locked clock db) as [db' [res|e]] eqn:E; simpl.
  - destruct locked.
    + apply Cleanup_parts in E as (db1 & db2 & _ & Hmv & Ht & _ & _ & [Ht' _] & _); [|done].
      eapply moves_trans; [exact Hmv|]. apply moves_same_tables; [by eapply moves_inv|].
      by eapply same_tables_trans.
    + apply withTx_admin_Ok in E. injection E as <- _. by apply moves_refl.
  - unfold Cleanup, withTx_admin in E. case_match. case_match; simplify_eq. by apply moves_refl.
Qed.

Lemma gone_in ids rid : run_gone ids rid = true <-> rid ∈ ids.
Proof. apply bool_decide_eq_true. Qed.

(** What a cleanup takes from an Allocation goes with its finished Run. *)
Lemma alloc_gone_finished db cutoff now k id :
  inv db -> alloc_gone (candidateTerminalRuns db cutoff now k) db id = true ->
  exists rid a r, finished_run db cutoff now rid id a r.
Proof.
  intros Hinv Hid. unfold alloc_gone in Hid. destruct (allocations db !! id) as [a|] eqn:Ha; [|done].
  apply gone_in, candidates_finished, finished_iff in Hid as (id' & a' & r & Hf).
  assert (id' = id) as -> by (eapply wf_unique; [apply Hinv|apply (fr_alloc _ _ _ _ _ _ _ Hf)|exact Ha|apply (fr_owner _ _ _ _ _ _ _ Hf)]).
  eauto.
Qed.
Lemma Cleanup_live_grant cfg now clock db db' res gid g :
  inv db -> Cleanup cfg now true clock db = (db', Ok res) -> db.(allocation_access_grants) !! gid = Some g ->
  g.(g_Revoked) = false -> sql_time now <= g.(g_ExpiresAt) -> db'.(allocation_access_grants) !! gid = Some g.
Proof.
  intros Hinv Hx Hgid Hrev Hexp.
  destruct (Cleanup_parts (Fresh := fun _ => False) cfg now _ _ _ _ Hinv Hx) as (db1 & db2 & Hd & _ & _ & _ & Hg & (_ & Eg' & _) & _).
  assert (H1 : allocation_access_grants db1 !! gid = Some g).
  { rewrite (d_grants _ _ _ Hd), without_lookup, Hgid. simpl. destruct (alloc_gone _ db (g_AllocationID g)) eqn:E; [|done].
    apply alloc_gone_finished in E as (rid & a & r & Hf); [|done].
    destruct (fr_grants _ _ _ _ _ _ _ Hf _ _ Hgid eq_refl); [congruence|lia]. }
  rewrite Eg'. destruct (Hg _ _ H1) as [?|[_ Hdead]]; [done|]. unfold dead_grant in Hdead.
  rewrite Hrev, andb_true_iff in Hdead. destruct Hdead as [_ ?%Z.ltb_lt]. lia.
Qed.
Lemma Cleanup_session cfg now clock db db' res sid t :
  inv db -> Cleanup cfg now true clock db = (db', Ok res) -> db.(tunnel_sessions) !! sid = Some t ->
  db'.(tunnel_sessions) !! sid = Some t \/
  db'.(tunnel_sessions) !! sid = None /\ exists rid a r,
    finished_run db (sql_time (Add now (- (NormalizeConfig cfg).(TerminalRunsTTL)))) (sql_time now) rid t.(t_AllocationID) a r.
Proof.
  intros Hinv Hx Hsid.
  destruct (Cleanup_parts (Fresh := fun _ => False) cfg now _ _ _ _ Hinv Hx) as (db1 & db2 & Hd & _ & _ & Es & _ & (_ & _ & Es') & _).
  rewrite Es', Es, (d_tunnels _ _ _ Hd), without_lookup, Hsid. simpl.
  destruct (alloc_gone _ db (t_AllocationID t)) eqn:E; [right|by left]. split; [done|]. by apply alloc_gone_finished in E.
Qed.

(** The same of the controller, whatever its outcome. *)
Lemma NormalizeConfig_idem cfg : NormalizeConfig (NormalizeConfig cfg) = NormalizeConfig cfg.
Proof.
  assert (Hp : forall v d, 0 < d -> positive_or (positive_or v d) d = positive_or v d).
  { intros v d Hd. unfold positive_or. destruct (v <=? 0) eqn:E; [|by rewrite E]. by destruct (d <=? 0). }
  unfold NormalizeConfig. simpl. rewrite !Hp by done. f_equal.
  by destruct (TunnelEventsKeep cfg <? 0) eqn:E; [|rewrite E].
Qed.
Lemma Controller_Cleanup_cases store cfg now locked clock db :
  fst (Controller_Cleanup store cfg now locked clock db) = db \/
  exists db' res, Cleanup (NormalizeConfig cfg) now true clock db = (db', Ok res) /\
    fst (Controller_Cleanup store cfg now locked clock db) = db'.
Proof.
  unfold Controller_Cleanup. case_match; [by left|].
  destruct (Cleanup (NormalizeConfig cfg) now locked clock db) as [db' [res|e]] eqn:E; simpl.
  - destruct locked; [right; eauto|]. apply withTx_admin_Ok in E. injection E as <- _. by left.
  - left. unfold Cleanup, withTx_admin in E. case_match. case_match; by simplify_eq.
Qed.
Lemma Controller_grant store cfg now locked clock db gid g :
  inv db -> db.(allocation_access_grants) !! gid = Some g ->
  let db' := fst (Controller_Cleanup store cfg now locked clock db) in
  db'.(allocation_access_grants) !! gid = Some g \/
  db'.(allocation_access_grants) !! gid = None /\ (g.(g_Revoked) = true \/ g.(g_ExpiresAt) < sql_time now).
Proof.
  intros Hinv Hg. cbv zeta. pose proof (th_grants _ _ (thinner_Cleanup store cfg now locked clock db) gid) as Hth.
  destruct (Controller_Cleanup_cases store cfg now locked clock db) as [-> |(db' & res & Hx & E)]; [by left|].
  rewrite E in *. pose proof (Cleanup_live_grant _ _ _ _ _ _ _ _ Hinv Hx Hg) as Hlive.
  destruct (allocation_access_grants db' !! gid) as [g'|] eqn:Hg'; [left; by rewrite (Hth _ eq_refl) in Hg|right].
  split; [done|]. destruct (g_Revoked g) eqn:Er; [by left|right]. apply Z.nle_gt. intros Hle. by specialize (Hlive eq_refl Hle).
Qed.
Lemma Controller_session store cfg now locked clock db sid t :
  inv db -> db.(tunnel_sessions) !! sid = Some t ->
  let db' := fst (Controller_Cleanup store cfg now locked clock db) in
  db'.(tunnel_sessions) !! sid = Some t \/
  db'.(tunnel_sessions) !! sid = None /\ exists rid a r,
    finished_run db (sql_time (Add now (- (NormalizeConfig cfg).(TerminalRunsTTL)))) (sql_time now) rid t.(t_AllocationID) a r.
Proof.
  intros Hinv Ht. cbv zeta. destruct (Controller_Cleanup_cases store cfg now locked clock db) as [-> |(db' & res & Hx & ->)]; [by left|].
  rewrite <- (NormalizeConfig_idem cfg). by eapply Cleanup_session.
Qed.

(** A surviving finished Run was finished before, because cleanup takes no live
    access and no queue entry from an Allocation it keeps. *)
Lemma finished_before ids cutoff now c' db db1 db2 rid :
  deleted ids db db1 -> same_tables db1 db2 -> db2.(tunnel_sessions) = db1.(tunnel_sessions) ->
  (forall gid g, db1.(allocation_access_grants) !! gid = Some g ->
     db2.(allocation_access_grants) !! gid = Some g \/
     db2.(allocation_access_grants) !! gid = None /\ dead_grant c' now g = true) ->
  finished db2 cutoff now rid -> finished db cutoff now rid /\ rid ∉ ids.
Proof.
  intros Hd (Er & Ea & Eq) Et Hg Hf.
  apply finished_iff in Hf as (id & a & r & [Ha Ho Hr Hterm Hold Hrel Hout Hq Hgr Htun]).
  rewrite Ea, (d_allocations _ _ _ Hd), without_lookup in Ha.
  destruct (allocations db !! id) as [a'|] eqn:Ha'; [|done]. simpl in Ha.
  destruct (run_gone ids (a_RunID a')) eqn:Eg; [done|]. injection Ha as ->. subst rid.
  assert (Hag : alloc_gone ids db id = false) by (unfold alloc_gone; by rewrite Ha').
  rewrite Er, (d_runs _ _ _ Hd), without_lookup in Hr.
  destruct (runs db !! a_RunID a) as [r'|] eqn:Hr'; simpl in Hr; rewrite ?Eg in Hr; simplify_eq.
  split; [|by rewrite <- gone_in, Eg]. apply finished_iff. exists id, a, r. split; try done.
  - rewrite Eq, (d_queue _ _ _ Hd), without_lookup in Hq. destruct (allocation_reconcile_queue db !! id); [|done]. simpl in Hq. rewrite Hag in Hq. done.
  - intros gid g Hgid Eid. assert (H1 : allocation_access_grants db1 !! gid = Some g).
    { rewrite (d_grants _ _ _ Hd), without_lookup, Hgid. simpl. by rewrite Eid, Hag. }
    destruct (Hg _ _ H1) as [?|[_ Hdead]]; [by eapply Hgr|]. unfold dead_grant in Hdead.
    rewrite andb_true_iff, orb_true_iff, Z.ltb_lt in Hdead. by destruct Hdead as [_ [?|?%Z.ltb_lt]]; [left|right].
  - intros sid t Hsid Eid. apply (Htun sid t); [|done].
    rewrite Et, (d_tunnels _ _ _ Hd), without_lookup, Hsid. simpl. by rewrite Eid, Hag.
Qed.

(** C24: a cleanup deletes only what is finished.  A Run it deletes is terminal
    and old, its Allocation is released, unqueued, past its output deadline and
    without a live grant or tunnel; every other Run and its Allocation stay as
    they are, and no Allocation outlives its Run.  No live grant and no active
    tunnel of any Allocation is removed, at most one batch of Runs goes, and when
    the batch is not filled no expendable Run is left. *)
Theorem Cleanup_safe cfg now clock db db' res :
  inv db -> Cleanup cfg now true clock db = (db', Ok res) ->
  let c := NormalizeConfig cfg in
  let cutoff := sql_time (Add now (- c.(TerminalRunsTTL))) in
  (forall rid r, db.(runs) !! rid = Some r ->
     db'.(runs) !! rid = Some r \/
     db'.(runs) !! rid = None /\ exists id a, finished_run db cutoff (sql_time now) rid id a r) /\
  (forall id a, db'.(allocations) !! id = Some a <->
     db.(allocations) !! id = Some a /\ is_Some (db'.(runs) !! a.(a_RunID))) /\
  (forall gid g, db.(allocation_access_grants) !! gid = Some g ->
     g.(g_Revoked) = false -> sql_time now <= g.(g_ExpiresAt) -> db'.(allocation_access_grants) !! gid = Some g) /\
  (forall sid t, db.(tunnel_sessions) !! sid = Some t -> active_tunnel t = true ->
     db'.(tunnel_sessions) !! sid = Some t) /\
  0 <= res.(TerminalRunsDeleted) <= c.(BatchSize) /\
  (res.(TerminalRunsDeleted) < c.(BatchSize) -> forall rid id a r,
     ~ finished_run db' cutoff (sql_time now) rid id a r).
Proof.
  intros Hinv Hx c cutoff.
  destruct (Cleanup_parts (Fresh := fun _ => False) cfg now _ _ _ _ Hinv Hx) as (db1 & db2 & Hd & _ & Ht & Es & Hg & Hcore & ->).
  set (ids := candidateTerminalRuns _ _ _ _) in *.
  pose proof Hcore as (Ht' & Eg' & Es'). pose proof (same_tables_trans _ _ _ Ht Ht') as (Er & Ea & Eq).
  assert (Hfin : forall rid, rid ∈ ids -> finished db cutoff (sql_time now) rid)
    by (intros rid; apply candidates_finished).
  split; [|split; [|split; [|split; [|split]]]].
  - intros rid r Hr. rewrite Er, (d_runs _ _ _ Hd), without_lookup, Hr. simpl.
    destruct (run_gone ids rid) eqn:E; [right|by left]. split; [done|].
    apply gone_in, Hfin, finished_iff in E as (id & a & r' & Hf). exists id, a.
    pose proof (fr_run _ _ _ _ _ _ _ Hf). by simplify_eq.
  - intros id a. rewrite Ea, Er, (d_allocations _ _ _ Hd), (d_runs _ _ _ Hd), !without_lookup.
    destruct (allocations db !! id) as [a'|] eqn:Ha; simpl; [|naive_solver].
    destruct (wf_run _ (proj1 Hinv) _ _ Ha) as [r Hr].
    destruct (run_gone ids (a_RunID a')) eqn:E; (split; [|intros [[= ->] Hs]]).
    + done.
    + rewrite Hr in Hs. simpl in Hs. rewrite E in Hs. by destruct Hs.
    + intros [= ->]. split; [done|]. rewrite Hr. simpl. rewrite E. eauto.
    + done.
  - intros gid g Hgid Hrev Hexp. by eapply Cleanup_live_grant.
  - intros sid t Hsid Hact. destruct (Cleanup_session _ _ _ _ _ _ _ _ Hinv Hx Hsid) as [?|(_ & rid & a & r & Hf)]; [done|].
    by rewrite (fr_tunnels _ _ _ _ _ _ _ Hf _ _ Hsid eq_refl) in Hact.
  - pose proof (candidates_length db cutoff (sql_time now) c.(BatchSize)) as Hl. change (candidateTerminalRuns _ _ _ _) with ids in Hl.
    assert (Hb : 0 < BatchSize c) by (simpl; unfold positive_or, DefaultBatchSize; case_match; lia).
    split; [apply Nat2Z.is_nonneg|]. rewrite <- (Z2Nat.id (BatchSize c)) by lia. by apply inj_le.
  - intros Hlt rid id a r Hf.
    assert (Hf' : finished db' cutoff (sql_time now) rid) by (apply finished_iff; eauto).
    rewrite (finished_core db2) in Hf' by done.
    eapply finished_before in Hf' as [Hf' Hni]; [|exact Hd|exact Ht|exact Es|exact Hg].
    apply Hni, candidates_all; [|done]. change (candidateTerminalRuns _ _ _ _) with ids.
    apply Nat2Z.inj_lt. rewrite Z2Nat.id; [exact Hlt|]. etrans; [apply Nat2Z.is_nonneg|apply Z.lt_le_incl, Hlt].
Qed.
End cleanup.

(** ** Examples: two finished Runs of different age and an active one *)
Definition ex_run (status : RunStatus) (updated : time) : RunRow :=
  mkRun "default" "env-1" status zero zero zero ∅ 3 0 updated None WDC_UNSPECIFIED "" no_snapshot.
Definition ex_alloc (runID : string) (state : AllocationLifecycleState) (expires : option time) : AllocRow :=
  mkAlloc runID "n1" state 500 1024 0 0 0 None expires.
Definition ex_grant (allocationID : string) (expires : time) : GrantRow :=
  mkGrant allocationID "n1" PURPOSE_RUN_OUTPUT expires 1 false "hash" 0.
Definition ex_retained : DB :=
  mkDB {["run-1" := ex_run RUN_SUCCEEDED (1 * Hour); "run-2" := ex_run RUN_FAILED (300 * Hour);
         "run-3" := ex_run RUN_RUNNING (1 * Hour)]}
    {["alloc-1" := ex_alloc "run-1" ALS_RELEASED (Some (2 * Hour));
      "alloc-2" := ex_alloc "run-2" ALS_RELEASED (Some (301 * Hour));
      "alloc-3" := ex_alloc "run-3" ALS_ACTIVE None]}
    ∅ {["g1" := ex_grant "alloc-1" (2 * Hour); "g2" := ex_grant "alloc-3" (1000 * Hour)]} ∅ ∅ 0 [] ∅
    {[("run-1", "secret-1"); ("run-3", "secret-1")]} ∅ ∅ ∅ ∅ ∅ ∅ [] [] ∅.
Definition ex_cleanup : DB * result Result :=
  @Cleanup microseconds DefaultConfig (400 * Hour) true (400 * Hour) ex_retained.

Lemma Cleanup_safe_witness :
  inv ex_retained /\
  ex_cleanup.2 = Ok (mkResult 0 0 1 0 0 false) /\
  (forall rid r, ex_retained.(runs) !! rid = Some r ->
     ex_cleanup.1.(runs) !! rid = Some r \/
     ex_cleanup.1.(runs) !! rid = None /\
     exists id a, finished_run ex_retained (232 * Hour) (400 * Hour) rid id a r) /\
  ex_cleanup.1.(runs) !! "run-1" = None /\ is_Some (ex_cleanup.1.(runs) !! "run-2").
Proof.
  assert (Hinv : inv ex_retained) by (apply inv_check_ok; vm_compute; reflexivity).
  split; [exact Hinv|]. split; [vm_compute; reflexivity|]. split.
  - exact (proj1 (@Cleanup_safe microseconds DefaultConfig (400 * Hour) (400 * Hour) ex_retained ex_cleanup.1
      (mkResult 0 0 1 0 0 false) Hinv ltac:(vm_compute; reflexivity))).
  - split; [vm_compute; reflexivity|]. eexists. vm_compute. reflexivity.
Defined.
