(* ===== verification/Tunnel.v ===== *)
(** * Tunnel sessions

    [postgres/tunnel] ([create.go], [allocation_lookup.go], [ports.go],
    [renew.go], [expiry.go], [revision.go], [ttl.go], [session_scan.go],
    [status.go], [status_node_report.go], [events.go], [peer.go],
    [peer_event.go], [query.go], [relay_registry.go]): the store that binds a
    tunnel to an Allocation, lets its two peers in, and publishes changes to the
    node under a revision.  SHA-256, the cipher of the node token and every
    random draw are arguments; the principals table is not modelled. *)
From S2P Require Import Prelude Proto Resource Allocation Capability Node Execution Store Reconcile RunStore.

Module tunnel.

(** ** Kernel: setup errors (kernel/tunnel/diagnostics.go) *)
Definition SetupErrorDomain : string := "axern.control.tunnel".
Definition SetupAllocationInactive : string := "ALLOCATION_INACTIVE".
Definition SetupRelayUnavailable : string := "TUNNEL_RELAY_UNAVAILABLE".
Definition SetupError (code : codes) (reason message : string) : error :=
  StatusInfo code message reason SetupErrorDomain [].

(** ** Limits (store.go, ttl.go, events.go) *)
Definition defaultSessionTTL : Z := 30 * Minute.
Definition minSessionTTL : Z := Minute.
Definition maxSessionTTL : Z := 24 * Hour.
Definition autoPortMin : Z := 20000.
Definition autoPortMax : Z := 59999.
Definition normalizeTTL (ttl : Z) : Z :=
  if ttl <=? 0 then defaultSessionTTL
  else if ttl <? minSessionTTL then minSessionTTL
  else if maxSessionTTL <? ttl then maxSessionTTL
  else ttl.

Definition defaultEventLimit : Z := 50.
Definition maxEventLimit : Z := 500.
Definition normalizeEventLimit (limit : Z) : Z :=
  if limit <=? 0 then defaultEventLimit else if maxEventLimit <? limit then maxEventLimit else limit.

(** ** Relay registry (relay_registry.go) *)
Record Relay := mkRelay {
  rl_ID : string; rl_ClientTarget : string; rl_NodeTarget : string; rl_Weight : Z; rl_Drain : bool }.

(** [strconv.Atoi] and [strconv.ParseBool]. *)
Definition digit (c : ascii) : option Z :=
  let n := Z.of_N (N_of_ascii c) - 48 in if (0 <=? n) && (n <=? 9) then Some n else None.
Fixpoint digits (acc : Z) (s : string) : option Z :=
  match s with
  | "" => Some acc
  | String c rest => d ← digit c; digits (10 * acc + d) rest
  end.
Definition Atoi (s : string) : option Z :=
  let '(sign, body) := match s with
    | String "-" rest => (-1, rest)
    | String "+" rest => (1, rest)
    | _ => (1, s)
    end in
  if String.eqb body "" then None
  else
    n ← digits 0 body;
    let v := sign * n in
    if (MinInt64 <=? v) && (v <=? MaxInt64) then Some v else None.
Definition ParseBool (s : string) : option bool :=
  if bool_decide (s ∈ ["1"; "t"; "T"; "true"; "TRUE"; "True"]) then Some true
  else if bool_decide (s ∈ ["0"; "f"; "F"; "false"; "FALSE"; "False"]) then Some false
  else None.

Definition normalizeRelays (relays : list Relay) : list Relay :=
  List.filter (fun r => negb (String.eqb r.(rl_ID) "" || String.eqb r.(rl_ClientTarget) ""
                              || String.eqb r.(rl_NodeTarget) "" || (r.(rl_Weight) <=? 0)))
    (map (fun r => mkRelay (TrimSpace r.(rl_ID)) (TrimSpace r.(rl_ClientTarget)) (TrimSpace r.(rl_NodeTarget))
                     r.(rl_Weight) r.(rl_Drain)) relays).

Definition parse_relay (part : string) (seen : gset string) : result Relay :=
  match Split "," part with
  | [id; client; node; weight; drain] =>
      let id := TrimSpace id in
      let client := TrimSpace client in
      let node := TrimSpace node in
      if String.eqb id "" || String.eqb client "" || String.eqb node ""
      then Err (Errorf "relay id, client_target, and node_target are required" [])
      else if bool_decide (id ∈ seen) then Err (Errorf "duplicate tunnel relay id %q" [AStr id])
      else
        match Atoi (TrimSpace weight) with
        | Some w =>
            if w <=? 0 then Err (Errorf "relay %q weight must be > 0" [AStr id])
            else
              match ParseBool (TrimSpace drain) with
              | Some d => Ok (mkRelay id client node w d)
              | None => Err (Errorf "relay %q drain must be true or false" [AStr id])
              end
        | None => Err (Errorf "relay %q weight must be > 0" [AStr id])
        end
  | _ => Err (Errorf "relay %q must be id,client_target,node_target,weight,drain" [AStr part])
  end.
Fixpoint parse_relays (parts : list string) (seen : gset string) : result (list Relay) :=
  match parts with
  | [] => Ok []
  | part :: rest =>
      let part := TrimSpace part in
      if String.eqb part "" then parse_relays rest seen
      else
        relay ← parse_relay part seen;
        relays ← parse_relays rest ({[relay.(rl_ID)]} ∪ seen);
        Ok (relay :: relays)
  end.
Definition ParseRelays (spec : string) : result (list Relay) :=
  let spec := TrimSpace spec in
  if String.eqb spec "" then Err (Errorf "tunnel relay registry is required" [])
  else relays ← parse_relays (Split ";" spec) ∅; Ok (normalizeRelays relays).

(** FNV-1a on [uint32]; the remainder by [uint32(total)] panics on zero. *)
Fixpoint fnv1a (h : Z) (s : string) : Z :=
  match s with
  | "" => h
  | String c rest => fnv1a ((Z.lxor h (Z.of_N (N_of_ascii c)) * 16777619) mod 2 ^ 32) rest
  end.
Definition stableSlot (seed : string) (total : Z) : option Z :=
  let divisor := total mod 2 ^ 32 in
  if divisor =? 0 then None else Some (fnv1a 2166136261 seed mod divisor).

Definition total_weight (relays : list Relay) : Z :=
  fold_left (fun total r => if r.(rl_Drain) then total else wrap64 (total + r.(rl_Weight))) relays 0.
Fixpoint pick_relay (slot : Z) (relays : list Relay) : result Relay :=
  match relays with
  | [] => Err (Errorf "select tunnel relay" [])
  | r :: rest =>
      if r.(rl_Drain) then pick_relay slot rest
      else if slot <? r.(rl_Weight) then Ok r
      else pick_relay (slot - r.(rl_Weight)) rest
  end.
(** [None] is the panic of [stableSlot]. *)
Definition selectRelay (relays : list Relay) (seed : string) : option (result Relay) :=
  if (length relays =? 0)%nat then Some (Err (Errorf "tunnel relay registry is empty" []))
  else
    let total := total_weight relays in
    if total <=? 0 then Some (Err (Errorf "no non-draining tunnel relays are available" []))
    else slot ← stableSlot seed total; Some (pick_relay slot relays).

(** ** Sessions (session_scan.go) *)
Record TunnelSession := mkSession {
  s_SessionID : string; s_AllocationID : string; s_Namespace : string; s_CreatorPrincipalID : string;
  s_RemotePort : Z; s_RelayID : string; s_ClientEdgeTarget : string; s_Status : TunnelStatus;
  s_Reason : string; s_BoundAddr : string; s_CreatedAt : time; s_UpdatedAt : time; s_ExpiresAt : time;
  s_ReadyAt : option time; s_LastPeerEventAt : option time; s_BytesIn : Z; s_BytesOut : Z }.
Record sessionInternal := mkInternal {
  i_nodeID : string; i_clientTokenHash : string; i_nodeTokenCipher : string; i_nodeTokenHash : string;
  i_nodeEdgeTarget : string }.

(** The two scalar subqueries read the owning Allocation and its Run; their
    NULL does not scan into a string. *)
Definition scanSession (db : DB) (sessionID : string) (t : TunnelRow) : result (TunnelSession * sessionInternal) :=
  match (a ← db.(allocations) !! t.(t_AllocationID); r ← db.(runs) !! a.(a_RunID); Some (a, r)) with
  | Some (a, r) =>
      Ok (mkSession sessionID t.(t_AllocationID) r.(r_Namespace) t.(t_CreatorPrincipalID) t.(t_RemotePort)
            t.(t_RelayID) t.(t_ClientEdgeTarget) t.(t_Status) t.(t_Reason) t.(t_BoundAddr) t.(t_CreatedAt)
            t.(t_UpdatedAt) t.(t_ExpiresAt) t.(t_ReadyAt) t.(t_LastPeerEventAt) t.(t_BytesIn) t.(t_BytesOut),
          mkInternal a.(a_NodeID) t.(t_ClientTokenHash) t.(t_NodeTokenEncrypted) t.(t_NodeTokenHash)
            t.(t_NodeEdgeTarget))
  | None => Err (Sentinel "cannot scan NULL into *string")
  end.

Definition terminal (s : TunnelStatus) : bool :=
  match s with TUNNEL_REVOKED | TUNNEL_EXPIRED | TUNNEL_FAILED => true | _ => false end.

(** CHECK constraints of [tunnel_sessions]. *)
Definition ordered (low : time) (t : option time) : bool := match t with None => true | Some t => low <=? t end.
Definition check_tunnel (t : TunnelRow) : bool :=
  (0 <? t.(t_RemotePort)) && (t.(t_RemotePort) <=? 65535) && (t.(t_CreatedAt) <? t.(t_ExpiresAt))
  && (t.(t_CreatedAt) <=? t.(t_UpdatedAt)) && ordered t.(t_CreatedAt) t.(t_ReadyAt)
  && ordered t.(t_CreatedAt) t.(t_LastPeerEventAt)
  && (0 <=? t.(t_BytesIn)) && (t.(t_BytesIn) <=? MaxInt64) && (0 <=? t.(t_BytesOut)) && (t.(t_BytesOut) <=? MaxInt64)
  && (0 <? t.(t_Revision)) && not_blank t.(t_ClientTokenHash) && not_blank t.(t_NodeTokenHash).
Definition same_binding (t u : TunnelRow) : bool :=
  active_tunnel t && active_tunnel u && String.eqb t.(t_AllocationID) u.(t_AllocationID)
  && (t.(t_RemotePort) =? u.(t_RemotePort)).

(** ** Revision (revision.go) *)
Definition nextRevision : Tx Z := fun db =>
  let revision := db.(tunnel_sessions_revision) + 1 in
  if revision <=? MaxInt64
  then (set_tunnels db db.(tunnel_sessions) revision db.(tunnel_session_events), Ok revision)
  else (db, Err (Wrapf "advance tunnel revision: %w" [] check_violation)).
Definition currentRevision (db : DB) : Z := db.(tunnel_sessions_revision).

(** ** Events (events.go) *)
Definition insertEventTx (e : TunnelEvent) : Tx () := fun db =>
  let sessionID := TrimSpace e.(te_SessionID) in
  if String.eqb sessionID "" then (db, Ok ())
  else match db.(tunnel_sessions) !! sessionID with
  | None => (db, Err foreign_key_violation)
  | Some _ =>
      if (0 <=? e.(te_BytesIn)) && (0 <=? e.(te_BytesOut))
      then (set_tunnels db db.(tunnel_sessions) db.(tunnel_sessions_revision)
              (db.(tunnel_session_events)
               ++ [mkTunnelEvent sessionID e.(te_Type) e.(te_Status) e.(te_ReasonCode) (TrimSpace e.(te_Reason))
                     (TrimSpace e.(te_BoundAddr)) (TrimSpace e.(te_RelayID)) e.(te_PeerKind) e.(te_BytesIn)
                     e.(te_BytesOut) e.(te_CreatedAt)]), Ok ())
      else (db, Err check_violation)
  end.
Definition nodeStatusReasonCode (s : TunnelStatus) : TunnelReasonCode :=
  match s with
  | TUNNEL_RUNNING => TRC_NODE_RUNNING
  | TUNNEL_DEGRADED => TRC_NODE_DEGRADED
  | TUNNEL_FAILED => TRC_NODE_FAILED
  | _ => TRC_UNSPECIFIED
  end.

(** ** Remote ports (ports.go) *)
Definition used_ports (db : DB) (allocationID : string) : gset Z :=
  list_to_set (map (fun kv : string * TunnelRow => kv.2.(t_RemotePort))
    (List.filter (fun kv => String.eqb kv.2.(t_AllocationID) allocationID && active_tunnel kv.2)
       (map_to_list db.(tunnel_sessions)))).
Definition free_port (used : gset Z) (port : Z) : bool := negb (bool_decide (port ∈ used)).
Fixpoint ports (first : Z) (n : nat) : list Z :=
  match n with O => [] | S n => first :: ports (first + 1) n end.
Definition all_ports : list Z := ports autoPortMin (Z.to_nat (autoPortMax - autoPortMin + 1)).
(** [draws] are the answers of [randomUint32]; at most 128 are used. *)
Definition allocateRemotePort (db : DB) (allocationID : string) (draws : list Z) : result Z :=
  let used := used_ports db allocationID in
  let span := autoPortMax - autoPortMin + 1 in
  match List.find (free_port used) (map (fun d => autoPortMin + d mod span) (take 128 draws)) with
  | Some port => Ok port
  | None =>
      match List.find (free_port used) all_ports with
      | Some port => Ok port
      | None => Err (Status ResourceExhausted "no automatic tunnel remote ports are available for this allocation" [])
      end
  end.

(** ** Statements *)
Definition insert_tunnel (sessionID : string) (t : TunnelRow) : Tx () := fun db =>
  if negb (check_tunnel t) then (db, Err check_violation)
  else if non_nil (db.(tunnel_sessions) !! sessionID)
          || existsb (fun kv : string * TunnelRow => same_binding t kv.2) (map_to_list db.(tunnel_sessions))
       then (db, Err unique_violation)
  else if is_nil (db.(allocations) !! t.(t_AllocationID)) then (db, Err foreign_key_violation)
  else (set_tunnels db (<[sessionID := t]> db.(tunnel_sessions)) db.(tunnel_sessions_revision)
          db.(tunnel_session_events), Ok ()).
(** [UPDATE .. WHERE session_id = id AND guard RETURNING]: none of the modelled
    updates makes a session active, so the unique index cannot be violated. *)
Definition update_tunnel (sessionID : string) (guard : TunnelRow -> bool) (f : TunnelRow -> TunnelRow) :
    Tx TunnelRow := fun db =>
  match db.(tunnel_sessions) !! sessionID with
  | Some t =>
      if negb (guard t) then (db, Err no_rows)
      else if check_tunnel (f t)
           then (set_tunnels db (<[sessionID := f t]> db.(tunnel_sessions)) db.(tunnel_sessions_revision)
                   db.(tunnel_session_events), Ok (f t))
           else (db, Err check_violation)
  | None => (db, Err no_rows)
  end.
Definition tunnel_set_expiry (expires updated : time) (t : TunnelRow) : TunnelRow :=
  mkTunnel t.(t_AllocationID) t.(t_CreatorPrincipalID) t.(t_RemotePort) t.(t_NodeEdgeTarget) t.(t_RelayID)
    t.(t_ClientEdgeTarget) t.(t_Status) t.(t_Reason) t.(t_BoundAddr) t.(t_ClientTokenHash)
    t.(t_NodeTokenEncrypted) t.(t_NodeTokenHash) t.(t_Revision) t.(t_CreatedAt) updated expires t.(t_ReadyAt)
    t.(t_LastPeerEventAt) t.(t_BytesIn) t.(t_BytesOut).
Definition tunnel_set_ready (ready : option time) (t : TunnelRow) : TunnelRow :=
  mkTunnel t.(t_AllocationID) t.(t_CreatorPrincipalID) t.(t_RemotePort) t.(t_NodeEdgeTarget) t.(t_RelayID)
    t.(t_ClientEdgeTarget) t.(t_Status) t.(t_Reason) t.(t_BoundAddr) t.(t_ClientTokenHash)
    t.(t_NodeTokenEncrypted) t.(t_NodeTokenHash) t.(t_Revision) t.(t_CreatedAt) t.(t_UpdatedAt) t.(t_ExpiresAt)
    ready t.(t_LastPeerEventAt) t.(t_BytesIn) t.(t_BytesOut).
Definition tunnel_add_bytes (now : time) (bytesIn bytesOut : Z) (t : TunnelRow) : TunnelRow :=
  mkTunnel t.(t_AllocationID) t.(t_CreatorPrincipalID) t.(t_RemotePort) t.(t_NodeEdgeTarget) t.(t_RelayID)
    t.(t_ClientEdgeTarget) t.(t_Status) t.(t_Reason) t.(t_BoundAddr) t.(t_ClientTokenHash)
    t.(t_NodeTokenEncrypted) t.(t_NodeTokenHash) t.(t_Revision) t.(t_CreatedAt) t.(t_UpdatedAt) t.(t_ExpiresAt)
    t.(t_ReadyAt) (Some now) (t.(t_BytesIn) + bytesIn) (t.(t_BytesOut) + bytesOut).
(** [COALESCE(NULLIF(new, ''), old)]. *)
Definition nonempty_or (new old : string) : string := if String.eqb new "" then old else new.
Definition bound_to (db : DB) (nodeID : string) (t : TunnelRow) : bool :=
  match db.(allocations) !! t.(t_AllocationID) with
  | Some a => String.eqb a.(a_NodeID) nodeID
  | None => false
  end.
Definition event (sessionID : string) (type : TunnelEventType) (status : TunnelStatus) (code : TunnelReasonCode)
    (reason boundAddr : string) (now : time) : TunnelEvent :=
  mkTunnelEvent sessionID type status code reason boundAddr "" PEER_UNSPECIFIED 0 0 now.

Definition not_found : error := Status NotFound "tunnel session not found" [].
Definition node_inactive : error := Status PermissionDenied "Node identity is not active" [].

Section store.
Context `{SqlTime}.
Context (sha256_hex : string -> string) (encryptNodeToken : string -> string)
  (decryptNodeToken : string -> result string).

(** [hashToken] (token.go). *)
Definition hashToken (token : string) : string := sha256_hex (TrimSpace token).

(** ** Expiry (expiry.go) *)
Definition due (now : time) (t : TunnelRow) : bool := (t.(t_ExpiresAt) <=? now) && active_tunnel t.
Definition expireDue (now : time) : Tx () :=
  close_tunnels (due (sql_time now)) TUNNEL_EXPIRED "expired" TET_EXPIRED TRC_SESSION_EXPIRED (sql_time now).

(** ** Creation (create.go, allocation_lookup.go) *)
Definition requireActiveNode (nodeID : string) : Tx () := fun db =>
  match db.(nodes) !! nodeID with
  | None => (db, Err no_rows)
  | Some n => if node_active n then (db, Ok ()) else (db, Err node_inactive)
  end.
Definition lookupAllocation (allocationID : string) : Tx (AllocRow * RunRow) :=
  row ← gets (fun db => a ← db.(allocations) !! allocationID; r ← db.(runs) !! a.(a_RunID); Some (a, r));
  match row with
  | None => fail (Status NotFound "allocation not found" [])
  | Some (a, r) => _ ← requireActiveNode a.(a_NodeID); mret (a, r)
  end.

Record CreateParams := mkCreate {
  cp_AllocationID : string; cp_RemotePort : option Z; cp_TTL : Z; cp_Now : time }.
Record CreateResult := mkCreated { cr_Session : TunnelSession; cr_ClientToken : string }.

Definition unique_is_taken (e : error) : error :=
  if match e with Sentinel name => String.eqb name "unique_violation" | _ => false end
  then Status AlreadyExists "active tunnel session already binds this allocation remote_port" []
  else Wrapf "insert tunnel session: %w" [] e.
Definition on_error {A} (f : error -> error) (m : Tx A) : Tx A := fun db =>
  match m db with
  | (db', Err e) => (db', Err (f e))
  | r => r
  end.

(** [principal] is the authenticated actor, if any; [sessionID], the tokens and
    [draws] are what the code draws at random. *)
Definition Create (relays : list Relay) (params : CreateParams) (principal : option string)
    (draws : list Z) (sessionID clientToken nodeToken : string) : Tx CreateResult :=
  let allocationID := TrimSpace params.(cp_AllocationID) in
  let now := params.(cp_Now) in
  let expiresAt := Add now (normalizeTTL params.(cp_TTL)) in
  _ ← guard_tx (negb (String.eqb allocationID "")) (Status InvalidArgument "allocation_id is required" []);
  _ ← guard_tx (match params.(cp_RemotePort) with None => true | Some p => (0 <? p) && (p <=? 65535) end)
        (Status InvalidArgument "remote_port must be in 1..65535 when set" []);
  withTx_admin (
    _ ← expireDue now;
    alloc ← lookupAllocation allocationID;
    let '(a, r) := alloc in
    _ ← guard_tx (bool_decide (a.(a_State) = ALS_ACTIVE))
          (SetupError FailedPrecondition SetupAllocationInactive "allocation is not active");
    _ ← guard_tx (match principal with Some p => negb (String.eqb (TrimSpace p) "") | None => false end)
          (Status Unauthenticated "authenticated principal is required" []);
    remotePort ← match params.(cp_RemotePort) with
                 | Some p => mret p
                 | None => fun db => (db, allocateRemotePort db allocationID draws)
                 end;
    match selectRelay relays sessionID with
    | None => fail (Sentinel "panic: integer divide by zero")
    | Some (Err e) =>
        fail (SetupError FailedPrecondition SetupRelayUnavailable
                (match e with Errorf text _ => text | _ => "" end))
    | Some (Ok relay) =>
        revision ← nextRevision;
        let t := mkTunnel allocationID (deref principal) remotePort relay.(rl_NodeTarget) relay.(rl_ID)
                   relay.(rl_ClientTarget) TUNNEL_PENDING "" "" (hashToken clientToken)
                   (encryptNodeToken nodeToken) (hashToken nodeToken) revision (sql_time now) (sql_time now)
                   (sql_time expiresAt) None None 0 0 in
        _ ← on_error unique_is_taken (insert_tunnel sessionID t);
        _ ← wrap "insert tunnel created event: %w"
              (insertEventTx (event sessionID TET_CREATED TUNNEL_PENDING TRC_SESSION_CREATED "" "" (sql_time now)));
        mret (mkCreated
                (mkSession sessionID allocationID r.(r_Namespace) (deref principal) remotePort relay.(rl_ID)
                   relay.(rl_ClientTarget) TUNNEL_PENDING "" "" now now expiresAt None None 0 0)
                clientToken)
    end).

(** ** Reading a session for update *)
Definition lock_session (sessionID : string) (guard : DB -> TunnelRow -> bool) :
    Tx (TunnelSession * sessionInternal) := fun db =>
  match db.(tunnel_sessions) !! sessionID with
  | Some t => if guard db t then (db, scanSession db sessionID t) else (db, Err not_found)
  | None => (db, Err not_found)
  end.
Definition any_node (_ : DB) (_ : TunnelRow) : bool := true.
Definition returning (sessionID : string) (m : Tx TunnelRow) : Tx TunnelSession :=
  t ← m;
  db ← gets id;
  s ← lift (scanSession db sessionID t);
  mret s.1.

(** ** Renewal (renew.go) *)
Definition Renew (sessionID clientToken : string) (ttl : Z) (now : time) : Tx TunnelSession :=
  let sessionID := TrimSpace sessionID in
  let clientToken := TrimSpace clientToken in
  let expiresAt := Add now (normalizeTTL ttl) in
  _ ← guard_tx (negb (String.eqb sessionID "")) (Status InvalidArgument "session_id is required" []);
  _ ← guard_tx (negb (String.eqb clientToken "")) (Status InvalidArgument "client_token is required" []);
  withTx_admin (
    _ ← expireDue now;
    current ← lock_session sessionID any_node;
    _ ← requireActiveNode current.2.(i_nodeID);
    _ ← guard_tx (negb (terminal current.1.(s_Status))) (Status FailedPrecondition "tunnel session is terminal" []);
    _ ← guard_tx (String.eqb (hashToken clientToken) current.2.(i_clientTokenHash))
          (Status PermissionDenied "invalid tunnel client token" []);
    session ← returning sessionID (update_tunnel sessionID always (fun t =>
                tunnel_set_expiry (Z.max t.(t_ExpiresAt) (sql_time expiresAt)) (Z.max t.(t_UpdatedAt) (sql_time now)) t));
    _ ← insertEventTx (event session.(s_SessionID) TET_RENEWED session.(s_Status) TRC_SESSION_RENEWED "" ""
                         (sql_time now));
    mret session).

(** ** Status (status.go, status_node_report.go) *)
Definition updateStatus (sessionID : string) (status : TunnelStatus) (reason boundAddr : string) (now : time) :
    Tx TunnelSession :=
  let sessionID := TrimSpace sessionID in
  _ ← guard_tx (negb (String.eqb sessionID "")) (Status InvalidArgument "session_id is required" []);
  withTx_admin (
    _ ← expireDue now;
    current ← lock_session sessionID any_node;
    if terminal current.1.(s_Status) then mret current.1
    else
      revision ← nextRevision;
      session ← returning sessionID (update_tunnel current.1.(s_SessionID) always (fun t =>
                  tunnel_set_status status (TrimSpace reason) (nonempty_or (TrimSpace boundAddr) t.(t_BoundAddr))
                    revision (sql_time now) t));
      let '(type, code) := if bool_decide (status = TUNNEL_REVOKED) then (TET_REVOKED, TRC_MANUAL_REVOKE)
                           else (TET_NODE_STATUS, nodeStatusReasonCode status) in
      _ ← insertEventTx (event session.(s_SessionID) type session.(s_Status) code session.(s_Reason)
                           session.(s_BoundAddr) (sql_time now));
      mret session).
Definition Revoke (sessionID reason : string) (now : time) : Tx TunnelSession :=
  updateStatus sessionID TUNNEL_REVOKED reason "" now.

Definition reportNodeStatus (nodeID sessionID : string) (status : TunnelStatus) (reason boundAddr : string)
    (now : time) : Tx TunnelSession :=
  let id := TrimSpace sessionID in
  let node := TrimSpace nodeID in
  withTx_admin (
    _ ← expireDue now;
    current ← lock_session id (fun db t => bound_to db node t);
    if terminal current.1.(s_Status) then mret current.1
    else
      owned ← gets (fun db t => bound_to db node t);
      session ←
        (if bool_decide (status = TUNNEL_FAILED)
         then
           revision ← nextRevision;
           returning id (update_tunnel id owned (fun t =>
             tunnel_set_status status (TrimSpace reason) (nonempty_or (TrimSpace boundAddr) t.(t_BoundAddr))
               revision (sql_time now) t))
         else
           returning id (update_tunnel id owned (fun t =>
             tunnel_set_ready
               (if bool_decide (status = TUNNEL_RUNNING) && is_nil t.(t_ReadyAt)
                then Some (sql_time now) else t.(t_ReadyAt))
               (tunnel_set_status status (TrimSpace reason) (nonempty_or (TrimSpace boundAddr) t.(t_BoundAddr))
                  t.(t_Revision) (sql_time now) t))));
      _ ← insertEventTx (event session.(s_SessionID) TET_NODE_STATUS session.(s_Status)
                           (nodeStatusReasonCode session.(s_Status)) session.(s_Reason) session.(s_BoundAddr)
                           (sql_time now));
      mret session).
Definition ReportStatus (nodeID sessionID : string) (status : TunnelStatus) (reason boundAddr : string)
    (now : time) : Tx TunnelSession :=
  _ ← guard_tx (bool_decide (status ∈ [TUNNEL_RUNNING; TUNNEL_DEGRADED; TUNNEL_FAILED]))
        (Status InvalidArgument "status must be running, degraded, or failed" []);
  _ ← guard_tx (negb (String.eqb (TrimSpace nodeID) "")) (Status InvalidArgument "node_id is required" []);
  reportNodeStatus nodeID sessionID status reason boundAddr now.

(** ** Queries (query.go)

    [expireDue] runs in a transaction of its own: it is kept when a later step
    fails. *)
Definition getWithTokens (sessionID : string) (now : time) : Tx (TunnelSession * sessionInternal) :=
  _ ← guard_tx (negb (String.eqb sessionID "")) (Status InvalidArgument "session_id is required" []);
  _ ← wrap "expire tunnel sessions before get: %w" (expireDue now);
  lock_session sessionID any_node.
Definition Get (sessionID : string) (now : time) : Tx TunnelSession :=
  s ← getWithTokens (TrimSpace sessionID) now; mret s.1.
Definition ResolveRelayTarget (sessionID : string) (now : time) : Tx string :=
  s ← getWithTokens (TrimSpace sessionID) now;
  _ ← guard_tx (negb (terminal s.1.(s_Status))) (Status PermissionDenied "tunnel session is not active" []);
  _ ← guard_tx (negb (String.eqb (TrimSpace s.2.(i_nodeEdgeTarget)) ""))
        (Status Unavailable "tunnel relay target is not ready" []);
  mret s.2.(i_nodeEdgeTarget).

Definition nextNodeExpiry (db : DB) (nodeID : string) : option time :=
  match map (fun kv : string * TunnelRow => kv.2.(t_ExpiresAt))
          (sort_slice (fun a b : string * TunnelRow => a.2.(t_ExpiresAt) <? b.2.(t_ExpiresAt))
             (List.filter (fun kv => bound_to db nodeID kv.2 && active_tunnel kv.2)
                (map_to_list db.(tunnel_sessions)))) with
  | [] => None
  | t :: _ => Some t
  end.

Record NodeTunnelSession := mkNodeSession { n_Session : TunnelSession; n_NodeToken : string; n_NodeEdgeTarget : string }.
Definition node_session (db : DB) (kv : string * TunnelRow) : result NodeTunnelSession :=
  s ← scanSession db kv.1 kv.2;
  token ← decryptNodeToken s.2.(i_nodeTokenCipher);
  Ok (mkNodeSession s.1 token s.2.(i_nodeEdgeTarget)).
Definition node_rows (db : DB) (nodeID : string) (afterRevision revision : Z) : list (string * TunnelRow) :=
  sort_slice (fun a b : string * TunnelRow => a.2.(t_Revision) <? b.2.(t_Revision))
    (List.filter (fun kv => bound_to db nodeID kv.2 && (afterRevision <? kv.2.(t_Revision))
                            && (kv.2.(t_Revision) <=? revision))
       (map_to_list db.(tunnel_sessions))).
Fixpoint scan_all {A B} (f : A -> result B) (l : list A) : result (list B) :=
  match l with
  | [] => Ok []
  | x :: rest => y ← f x; ys ← scan_all f rest; Ok (y :: ys)
  end.
(** The high-water mark is read before the rows: [marked] is the store then. *)
Definition loadNodeSessions (marked db : DB) (nodeID : string) (afterRevision : Z) :
    result (list NodeTunnelSession * Z) :=
  let revision := currentRevision marked in
  sessions ← scan_all (node_session db) (node_rows db nodeID afterRevision revision);
  Ok (sessions, revision).

(** One turn of the loop of [WatchNode]: a new revision is delivered, otherwise
    the stream waits for a change or until the next session of the node
    expires. *)
Inductive watch_turn :=
| Deliver (sessions : list NodeTunnelSession) (revision : Z)
| Wait (until : option time).
Definition WatchNode_turn (nodeID : string) (afterRevision : Z) (currentTime : time) : Tx watch_turn :=
  _ ← expireDue currentTime;
  db ← gets id;
  loaded ← lift (loadNodeSessions db db (TrimSpace nodeID) afterRevision);
  if afterRevision <? loaded.2 then mret (Deliver loaded.1 loaded.2)
  else mret (Wait (nextNodeExpiry db (TrimSpace nodeID))).

Definition created_later (a b : string * TunnelRow) : bool := b.2.(t_CreatedAt) <? a.2.(t_CreatedAt).
Definition in_namespace (db : DB) (namespace : string) (t : TunnelRow) : bool :=
  match (a ← db.(allocations) !! t.(t_AllocationID); db.(runs) !! a.(a_RunID)) with
  | Some r => String.eqb r.(r_Namespace) namespace
  | None => false
  end.
Definition List (namespace allocationID : string) (includeTerminal : bool) (now : time) : Tx (list TunnelSession) :=
  _ ← wrap "expire tunnel sessions before list: %w" (expireDue now);
  db ← gets id;
  let namespace := TrimSpace namespace in
  let allocationID := TrimSpace allocationID in
  let rows := sort_slice created_later
    (List.filter (fun kv : string * TunnelRow =>
       (String.eqb namespace "" || in_namespace db namespace kv.2)
       && (String.eqb allocationID "" || String.eqb kv.2.(t_AllocationID) allocationID)
       && (includeTerminal || negb (terminal kv.2.(t_Status)))) (map_to_list db.(tunnel_sessions))) in
  sessions ← lift (scan_all (fun kv => scanSession db kv.1 kv.2) rows);
  mret (map fst sessions).

(** [ListEvents] (events.go): the newest first. *)
Definition ListEvents (sessionID : string) (limit : Z) (now : time) : Tx (list TunnelEvent) :=
  let sessionID := TrimSpace sessionID in
  _ ← guard_tx (negb (String.eqb sessionID "")) (Status InvalidArgument "session_id is required" []);
  _ ← expireDue now;
  db ← gets id;
  _ ← guard_tx (non_nil (db.(tunnel_sessions) !! sessionID)) not_found;
  mret (take (Z.to_nat (normalizeEventLimit limit))
          (rev (List.filter (fun e => String.eqb e.(te_SessionID) sessionID) db.(tunnel_session_events)))).

(** ** Peers (peer.go, peer_event.go) *)
Definition ValidatePeer (sessionID : string) (kind : TunnelPeerKind) (token : string) (now : time) : Tx TunnelSession :=
  s ← getWithTokens (TrimSpace sessionID) now;
  active ← gets (fun db => match db.(nodes) !! s.2.(i_nodeID) with Some n => node_active n | None => false end);
  _ ← guard_tx active node_inactive;
  _ ← guard_tx (negb (terminal s.1.(s_Status))) (Status PermissionDenied "tunnel session is not active" []);
  _ ← guard_tx (now <? s.1.(s_ExpiresAt)) (Status PermissionDenied "tunnel session is expired" []);
  let got := hashToken (TrimSpace token) in
  match kind with
  | PEER_CLIENT =>
      _ ← guard_tx (String.eqb got s.2.(i_clientTokenHash))
            (Status PermissionDenied "invalid tunnel client token" []);
      mret s.1
  | PEER_NODE =>
      _ ← guard_tx (String.eqb got s.2.(i_nodeTokenHash))
            (Status PermissionDenied "invalid tunnel node token" []);
      mret s.1
  | _ => fail (Status InvalidArgument "peer_kind is required" [])
  end.

Record PeerEventParams := mkPeerEvent {
  pe_SessionID : string; pe_RelayID : string; pe_PeerKind : TunnelPeerKind; pe_EventType : TunnelEventType;
  pe_ReasonCode : TunnelReasonCode; pe_Reason : string; pe_BytesIn : Z; pe_BytesOut : Z; pe_PeerToken : string }.
Definition peer_token_error (kind : TunnelPeerKind) (got : string) (i : sessionInternal) : option error :=
  match kind with
  | PEER_CLIENT =>
      if String.eqb got i.(i_clientTokenHash) then None
      else Some (Status PermissionDenied "invalid tunnel client token" [])
  | PEER_NODE =>
      if String.eqb got i.(i_nodeTokenHash) then None
      else Some (Status PermissionDenied "invalid tunnel node token" [])
  | _ =>
      if String.eqb got i.(i_clientTokenHash) || String.eqb got i.(i_nodeTokenHash) then None
      else Some (Status PermissionDenied "invalid tunnel peer token" [])
  end.
Definition ReportPeerEvent (params : PeerEventParams) (now : time) : Tx TunnelSession :=
  let sessionID := TrimSpace params.(pe_SessionID) in
  _ ← guard_tx (negb (String.eqb sessionID "")) (Status InvalidArgument "session_id is required" []);
  withTx_admin (
    _ ← expireDue now;
    current ← lock_session sessionID any_node;
    _ ← guard_tx (String.eqb params.(pe_RelayID) "" || String.eqb current.1.(s_RelayID) ""
                  || String.eqb params.(pe_RelayID) current.1.(s_RelayID))
          (Status PermissionDenied "tunnel peer event relay_id does not match session" []);
    _ ← match peer_token_error params.(pe_PeerKind) (hashToken params.(pe_PeerToken)) current.2 with
        | Some e => fail e
        | None => mret ()
        end;
    session ← returning sessionID (update_tunnel sessionID always
                (tunnel_add_bytes (sql_time now) params.(pe_BytesIn) params.(pe_BytesOut)));
    _ ← insertEventTx (mkTunnelEvent sessionID params.(pe_EventType) session.(s_Status) params.(pe_ReasonCode)
                         params.(pe_Reason) session.(s_BoundAddr)
                         (firstNonEmpty [params.(pe_RelayID); session.(s_RelayID)]) params.(pe_PeerKind)
                         params.(pe_BytesIn) params.(pe_BytesOut) (sql_time now));
    mret session).
End store.
End tunnel.
