(* ===== verification/TunnelFacts.v ===== *)
(** * Facts about tunnel sessions

    How a session may evolve ([row_le], [tunnel_le]), that every transaction of
    the tunnel store and every revocation by the run store respects it, and what
    follows for the watching node, the two peers, the port allocator and the
    relay selection. *)
From S2P Require Import Prelude Proto Resource Allocation Capability Node Execution Store Reconcile RunStore StoreFacts Tunnel.
Import tunnel.

(** ** The life of a session *)
Definition same_binding_of (t t' : TunnelRow) : Prop :=
  t'.(t_AllocationID) = t.(t_AllocationID) /\ t'.(t_CreatorPrincipalID) = t.(t_CreatorPrincipalID) /\
  t'.(t_RemotePort) = t.(t_RemotePort) /\ t'.(t_NodeEdgeTarget) = t.(t_NodeEdgeTarget) /\
  t'.(t_RelayID) = t.(t_RelayID) /\ t'.(t_ClientEdgeTarget) = t.(t_ClientEdgeTarget) /\
  t'.(t_ClientTokenHash) = t.(t_ClientTokenHash) /\ t'.(t_NodeTokenHash) = t.(t_NodeTokenHash) /\
  t'.(t_NodeTokenEncrypted) = t.(t_NodeTokenEncrypted) /\ t'.(t_CreatedAt) = t.(t_CreatedAt).

(** From one store state to a later one: the binding is fixed, the revision, the
    deadline and the byte counts never go back, a closed session keeps its
    outcome, and closing publishes a revision beyond [mark], the revision of the
    earlier state. *)
Record row_le (mark : Z) (t t' : TunnelRow) : Prop := {
  rl_binding : same_binding_of t t';
  rl_revision : t.(t_Revision) <= t'.(t_Revision);
  rl_expires : t.(t_ExpiresAt) <= t'.(t_ExpiresAt);
  rl_bytes : t.(t_BytesIn) <= t'.(t_BytesIn) /\ t.(t_BytesOut) <= t'.(t_BytesOut);
  rl_closed : active_tunnel t = false ->
    t'.(t_Status) = t.(t_Status) /\ t'.(t_Reason) = t.(t_Reason) /\ t'.(t_Revision) = t.(t_Revision) /\
    t'.(t_ExpiresAt) = t.(t_ExpiresAt);
  rl_closing : active_tunnel t = true -> active_tunnel t' = false -> mark < t'.(t_Revision) }.

Record tunnel_le (db db' : DB) : Prop := {
  tl_revision : db.(tunnel_sessions_revision) <= db'.(tunnel_sessions_revision);
  tl_session sid t : db.(tunnel_sessions) !! sid = Some t ->
    exists t', db'.(tunnel_sessions) !! sid = Some t' /\ row_le db.(tunnel_sessions_revision) t t';
  tl_new sid t' : db.(tunnel_sessions) !! sid = None -> db'.(tunnel_sessions) !! sid = Some t' ->
    db.(tunnel_sessions_revision) < t'.(t_Revision) }.

Record tunnel_inv (db : DB) : Prop := {
  ti_check sid t : db.(tunnel_sessions) !! sid = Some t -> check_tunnel t = true;
  ti_revision sid t : db.(tunnel_sessions) !! sid = Some t -> t.(t_Revision) <= db.(tunnel_sessions_revision);
  ti_unique sid sid' t t' : db.(tunnel_sessions) !! sid = Some t -> db.(tunnel_sessions) !! sid' = Some t' ->
    active_tunnel t = true -> active_tunnel t' = true -> t.(t_AllocationID) = t'.(t_AllocationID) ->
    t.(t_RemotePort) = t'.(t_RemotePort) -> sid = sid' }.
Definition tun_moves (db db' : DB) : Prop := tunnel_inv db' /\ tunnel_le db db'.

Lemma row_le_refl mark t : row_le mark t t.
Proof. split; [by repeat split|lia..|by repeat split|congruence]. Qed.
Lemma row_le_trans mark mark' t1 t2 t3 : mark <= mark' -> row_le mark t1 t2 -> row_le mark' t2 t3 -> row_le mark t1 t3.
Proof.
  intros Hm [(B1&B2&B3&B4&B5&B6&B7&B8&B9&B10) R1 X1 [Y1 Z1] C1 G1] [(B1'&B2'&B3'&B4'&B5'&B6'&B7'&B8'&B9'&B10') R2 X2 [Y2 Z2] C2 G2].
  split; [|lia..| |].
  - repeat split; congruence.
  - intros Ha. destruct (C1 Ha) as (Es & Er & Ev & Ee).
    assert (Ha2 : active_tunnel t2 = false) by (unfold active_tunnel in *; by rewrite Es).
    destruct (C2 Ha2) as (? & ? & ? & ?). repeat split; congruence.
  - intros Ha Ha3. destruct (active_tunnel t2) eqn:E; [specialize (G2 eq_refl Ha3); lia|].
    specialize (G1 Ha eq_refl). lia.
Qed.
Lemma tunnel_le_refl db : tunnel_le db db.
Proof. split; [done| |]; [intros sid t Ht; exists t; split; [done|apply row_le_refl]|]. intros; congruence. Qed.
Lemma tunnel_le_trans db1 db2 db3 : tunnel_le db1 db2 -> tunnel_le db2 db3 -> tunnel_le db1 db3.
Proof.
  intros [R1 S1 N1] [R2 S2 N2]. split; [lia| |].
  - intros sid t Ht. destruct (S1 _ _ Ht) as (t2 & Ht2 & L1). destruct (S2 _ _ Ht2) as (t3 & Ht3 & L2).
    exists t3. split; [done|]. by eapply row_le_trans.
  - intros sid t' Hn Ht'. destruct (tunnel_sessions db2 !! sid) as [t2|] eqn:E.
    + destruct (S2 _ _ E) as (t3 & Ht3 & L2). simplify_eq. pose proof (rl_revision _ _ _ L2). specialize (N1 _ _ Hn E). lia.
    + specialize (N2 _ _ E Ht'). lia.
Qed.
Lemma tun_moves_refl db : tunnel_inv db -> tun_moves db db.
Proof. split; [done|apply tunnel_le_refl]. Qed.
Lemma tun_moves_trans db1 db2 db3 : tun_moves db1 db2 -> tun_moves db2 db3 -> tun_moves db1 db3.
Proof. intros [_ L1] [I2 L2]. split; [done|]. by eapply tunnel_le_trans. Qed.

Definition same_tunnels (db db' : DB) : Prop :=
  db'.(tunnel_sessions) = db.(tunnel_sessions) /\ db'.(tunnel_sessions_revision) = db.(tunnel_sessions_revision).
Lemma tun_moves_same db db' : tunnel_inv db -> same_tunnels db db' -> tun_moves db db'.
Proof.
  intros [C R U] [Es Er]. split.
  - split; rewrite ?Es, ?Er; [apply C|apply R|apply U].
  - split; rewrite ?Es, ?Er; [done| |intros; congruence].
    intros sid t Ht. exists t. split; [done|apply row_le_refl].
Qed.

Lemma check_tunnel_spec t : check_tunnel t = true <->
  0 < t.(t_RemotePort) <= 65535 /\ t.(t_CreatedAt) < t.(t_ExpiresAt) /\ t.(t_CreatedAt) <= t.(t_UpdatedAt) /\
  ordered t.(t_CreatedAt) t.(t_ReadyAt) = true /\ ordered t.(t_CreatedAt) t.(t_LastPeerEventAt) = true /\
  0 <= t.(t_BytesIn) <= MaxInt64 /\ 0 <= t.(t_BytesOut) <= MaxInt64 /\ 0 < t.(t_Revision) /\
  not_blank t.(t_ClientTokenHash) = true /\ not_blank t.(t_NodeTokenHash) = true.
Proof. unfold check_tunnel. rewrite !andb_true_iff, !Z.ltb_lt, !Z.leb_le. tauto. Qed.

(** One row changes. *)
Lemma tun_update db db' sid t t' :
  tunnel_inv db -> db.(tunnel_sessions) !! sid = Some t ->
  db'.(tunnel_sessions) = <[sid := t']> db.(tunnel_sessions) ->
  db.(tunnel_sessions_revision) <= db'.(tunnel_sessions_revision) ->
  check_tunnel t' = true -> t'.(t_Revision) <= db'.(tunnel_sessions_revision) ->
  row_le db.(tunnel_sessions_revision) t t' -> tun_moves db db'.
Proof.
  intros [C R U] Ht Es Hr Hc Hrev Hle.
  assert (Hact : active_tunnel t' = true -> active_tunnel t = true).
  { intros Ha. destruct (active_tunnel t) eqn:E; [done|]. destruct (rl_closed _ _ _ Hle E) as [Est _].
    unfold active_tunnel in *. rewrite Est in Ha. congruence. }
  destruct (rl_binding _ _ _ Hle) as (Ea & _ & Ep & _). split; [split|split].
  - intros sid0 t0. rewrite Es, lookup_insert_Some. intros [[_ <-]|[_ ?]]; [done|by eapply C].
  - intros sid0 t0. rewrite Es, lookup_insert_Some. intros [[_ <-]|[_ H0]]; [done|]. specialize (R _ _ H0). lia.
  - intros s1 s2 t1 t2. rewrite Es, !lookup_insert_Some. intros [[<- <-]|[? H1]] [[<- <-]|[? H2]] A1 A2 E1 E2; [done|..].
    + apply (U sid s2 t t2); auto; congruence.
    + apply (U s1 sid t1 t); auto; congruence.
    + by eapply (U s1 s2).
  - done.
  - intros sid0 t0 H0. rewrite Es. destruct (decide (sid0 = sid)) as [->|Hne].
    + rewrite lookup_insert_eq. simplify_eq. eauto.
    + rewrite lookup_insert_ne by done. exists t0. split; [done|apply row_le_refl].
  - intros sid0 t0 H0. rewrite Es, lookup_insert_Some. intros [[<- _]|[_ ?]]; congruence.
Qed.

(** A new row under a new revision. *)
Lemma tun_insert db db' sid t :
  tunnel_inv db -> db.(tunnel_sessions) !! sid = None ->
  db'.(tunnel_sessions) = <[sid := t]> db.(tunnel_sessions) ->
  check_tunnel t = true -> db.(tunnel_sessions_revision) < t.(t_Revision) <= db'.(tunnel_sessions_revision) ->
  (forall sid' t', db.(tunnel_sessions) !! sid' = Some t' -> same_binding t t' = false) ->
  active_tunnel t = true -> tun_moves db db'.
Proof.
  intros [C R U] Hn Es Hc Hrev Hfree Hact.
  assert (Hb : forall sid' t', tunnel_sessions db !! sid' = Some t' -> active_tunnel t' = true ->
    t_AllocationID t = t_AllocationID t' -> t_RemotePort t = t_RemotePort t' -> False).
  { intros sid' t' H' A' E1 E2. specialize (Hfree _ _ H'). unfold same_binding in Hfree.
    by rewrite Hact, A', E1, E2, String.eqb_refl, Z.eqb_refl in Hfree. }
  split; [split|split].
  - intros sid0 t0. rewrite Es, lookup_insert_Some. intros [[_ <-]|[_ ?]]; [done|by eapply C].
  - intros sid0 t0. rewrite Es, lookup_insert_Some. intros [[_ <-]|[_ H0]]; [lia|]. specialize (R _ _ H0). lia.
  - intros s1 s2 t1 t2. rewrite Es, !lookup_insert_Some. intros [[<- <-]|[? H1]] [[<- <-]|[? H2]] A1 A2 E1 E2; [done|..].
    + by destruct (Hb _ _ H2).
    + by destruct (Hb _ _ H1).
    + by eapply (U s1 s2).
  - lia.
  - intros sid0 t0 H0. rewrite Es, lookup_insert_ne by congruence. exists t0. split; [done|apply row_le_refl].
  - intros sid0 t0 H0. rewrite Es, lookup_insert_Some. intros [[<- <-]|[_ ?]]; [lia|congruence].
Qed.

(** *** Statements that close sessions *)
Definition closing (s : TunnelStatus) : bool :=
  match s with TUNNEL_REVOKED | TUNNEL_EXPIRED | TUNNEL_FAILED => true | _ => false end.
Lemma closing_inactive t s r b v n : closing s = true -> active_tunnel (tunnel_set_status s r b v n t) = false.
Proof. by destruct s. Qed.
Lemma set_status_le mark s r b v n t : active_tunnel t = true -> t.(t_Revision) <= v ->
  (closing s = true -> mark < v) -> row_le mark t (tunnel_set_status s r b v n t).
Proof.
  intros Ha Hv Hm. split; simpl; [by repeat split|done|lia|lia|congruence|].
  intros _ Hc. apply Hm. by destruct s.
Qed.
Lemma set_status_check s r b v n t : check_tunnel t = true -> 0 < v -> t.(t_CreatedAt) <= n ->
  check_tunnel (tunnel_set_status s r b v n t) = true.
Proof. rewrite !check_tunnel_spec. simpl. tauto. Qed.

(** Every row changes at once. *)
Lemma tun_map db db' f :
  tunnel_inv db -> db'.(tunnel_sessions) = f <$> db.(tunnel_sessions) ->
  db.(tunnel_sessions_revision) <= db'.(tunnel_sessions_revision) ->
  (forall sid t, db.(tunnel_sessions) !! sid = Some t ->
     row_le db.(tunnel_sessions_revision) t (f t) /\ check_tunnel (f t) = true /\
     (f t).(t_Revision) <= db'.(tunnel_sessions_revision)) ->
  (forall t, active_tunnel (f t) = true -> active_tunnel t = true /\ f t = t) ->
  tun_moves db db'.
Proof.
  intros [C R U] Es Er Hf Hact.
  assert (Hinv' : forall sid t', tunnel_sessions db' !! sid = Some t' ->
    exists t, tunnel_sessions db !! sid = Some t /\ t' = f t).
  { intros sid t'. rewrite Es, lookup_fmap. destruct (_ !! sid) as [t|]; simpl; [|done]. intros [= <-]. eauto. }
  split; [split|split].
  - intros sid t' (t & Ht & ->)%Hinv'. by apply (Hf sid).
  - intros sid t' (t & Ht & ->)%Hinv'. by apply (Hf sid).
  - intros s1 s2 t1 t2 (u1 & H1 & ->)%Hinv' (u2 & H2 & ->)%Hinv' [A1 ->]%Hact [A2 ->]%Hact. by apply (U s1 s2).
  - done.
  - intros sid t Ht. exists (f t). rewrite Es, lookup_fmap, Ht. split; [done|]. by apply (Hf sid).
  - intros sid t' Hno (t & Ht & _)%Hinv'. congruence.
Qed.

Lemma close_tunnels_moves due s r ty c n db :
  closing s = true -> (forall t, due t = true -> active_tunnel t = true) ->
  tunnel_inv db -> tun_moves db (fst (close_tunnels due s r ty c n db)).
Proof.
  intros Hs Hdue Hinv. pose proof Hinv as [C R _]. unfold close_tunnels.
  set (rows := sort_slice _ _). destruct (length rows =? 0)%nat; [by apply tun_moves_refl|].
  destruct (_ && _) eqn:Ec; [|by apply tun_moves_refl]. rewrite andb_true_iff, forallb_forall in Ec.
  destruct Ec as [Hcre _].
  assert (Hn : forall sid t, tunnel_sessions db !! sid = Some t -> due t = true -> t_CreatedAt t <= n).
  { intros sid t Ht Hd. specialize (Hcre (sid, t)). apply Z.leb_le, Hcre, list_elem_of_In.
    apply elem_of_sort_slice, list_elem_of_In, filter_In. split; [|done]. by apply list_elem_of_In, elem_of_map_to_list. }
  clear Hcre. set (v := tunnel_sessions_revision db + 1) in *.
  set (f := fun t => if due t then tunnel_set_status s r t.(t_BoundAddr) v n t else t).
  apply (tun_map _ _ f); [done|by destruct db|subst v; destruct db; simpl; lia| |].
  - intros sid t Ht.
    match goal with |- context [_ <= tunnel_sessions_revision ?d] =>
      replace (tunnel_sessions_revision d) with v by (by destruct db) end.
    unfold f. specialize (R _ _ Ht). pose proof (C _ _ Ht) as Hc. destruct (due t) eqn:Ed.
    + pose proof (proj1 (check_tunnel_spec t) Hc) as (_&_&_&_&_&_&_&Hpos&_).
      split; [apply set_status_le; [by apply Hdue|lia|lia]|]. split; [|simpl; lia].
      apply set_status_check; [done|lia|by eapply Hn].
    + split; [apply row_le_refl|]. split; [done|lia].
  - intros t. unfold f. destruct (due t); [|done]. by rewrite closing_inactive.
Qed.

(** ** Transactions that respect the life of sessions *)
Definition tun {A} (m : Tx A) : Prop := forall db, tunnel_inv db -> tun_moves db (fst (m db)).

Lemma tun_bind {A B} (m : Tx A) (f : A -> Tx B) : tun m -> (forall a, tun (f a)) -> tun (x ← m; f x).
Proof.
  intros Hm Hf db Hi. unfold mbind, tx_bind. specialize (Hm db Hi). destruct (m db) as [d [a|e]]; [|done].
  simpl in Hm. eapply tun_moves_trans; [done|]. apply Hf, Hm.
Qed.
Lemma tun_same {A} (m : Tx A) : (forall db, same_tunnels db (fst (m db))) -> tun m.
Proof. intros Hm db Hi. by apply tun_moves_same. Qed.
Lemma tun_ret {A} (a : A) : tun (mret a).
Proof. by apply tun_same. Qed.
Lemma tun_fail {A} e : tun (fail e : Tx A).
Proof. by apply tun_same. Qed.
Lemma tun_gets {A} (f : DB -> A) : tun (gets f).
Proof. by apply tun_same. Qed.
Lemma tun_lift {A} (r : result A) : tun (lift r).
Proof. by apply tun_same. Qed.
Lemma tun_guard b e : tun (guard_tx b e).
Proof. apply tun_same. by destruct b. Qed.
Lemma tun_when b m : tun m -> tun (when_tx b m).
Proof. destruct b; [done|]. intros _. apply tun_ret. Qed.
Lemma tun_wrap {A} fmt (m : Tx A) : tun m -> tun (wrap fmt m).
Proof. intros Hm db Hi. specialize (Hm db Hi). unfold wrap. by destruct (m db) as [d [a|e]]. Qed.
Lemma tun_for {A} (body : A -> Tx ()) l : (forall x, tun (body x)) -> tun (for_tx body l).
Proof. intros Hb. induction l; simpl; [apply tun_ret|]. by apply tun_bind. Qed.
Lemma tun_withTx {A} (m : Tx A) : tun m -> tun (withTx m).
Proof.
  intros Hm db Hi. specialize (Hm db Hi). unfold withTx. destruct (m db) as [d [a|e]]; [done|].
  simpl in *. case_match; [done|by apply tun_moves_refl].
Qed.
Lemma tun_withTx_admin {A} (m : Tx A) : tun m -> tun (withTx_admin m).
Proof.
  intros Hm db Hi. specialize (Hm db Hi). unfold withTx_admin. destruct (m db) as [d [a|e]]; [done|].
  by apply tun_moves_refl.
Qed.
(** A transaction that rolls back on error needs only its successes. *)
Lemma tun_withTx_admin_Ok {A} (m : Tx A) :
  (forall db db' a, tunnel_inv db -> m db = (db', Ok a) -> tun_moves db db') -> tun (withTx_admin m).
Proof.
  intros Hm db Hi. unfold withTx_admin. destruct (m db) as [d [a|e]] eqn:E; [by eapply Hm|].
  by apply tun_moves_refl.
Qed.
Lemma tun_modify f : (forall db, same_tunnels db (f db)) -> tun (modify f).
Proof. intros. by apply tun_same. Qed.

(** ** The statements of the tunnel store *)
Lemma set_tunnels_fields db x v ev :
  (set_tunnels db x v ev).(tunnel_sessions) = x /\ (set_tunnels db x v ev).(tunnel_sessions_revision) = v.
Proof. by destruct db. Qed.

Lemma insertEvent_same e db : same_tunnels db (fst (insertEventTx e db)).
Proof. unfold insertEventTx. repeat case_match; try done; by destruct db. Qed.
Lemma tun_insertEvent e : tun (insertEventTx e).
Proof. apply tun_same, insertEvent_same. Qed.
Lemma tun_requireActiveNode n : tun (requireActiveNode n).
Proof. apply tun_same. intros db. unfold requireActiveNode. by repeat case_match. Qed.
Lemma tun_lookupAllocation id : tun (lookupAllocation id).
Proof.
  apply tun_bind; [apply tun_gets|]. intros [[a r]|]; [|apply tun_fail].
  apply tun_bind; [apply tun_requireActiveNode|intros; apply tun_ret].
Qed.
Lemma tun_lock_session id g : tun (lock_session id g).
Proof. apply tun_same. intros db. unfold lock_session. by repeat case_match. Qed.
Lemma tun_close due s r ty c n :
  closing s = true -> (forall t, due t = true -> active_tunnel t = true) -> tun (close_tunnels due s r ty c n).
Proof. intros Hs Hd db Hi. by apply close_tunnels_moves. Qed.

Lemma nextRevision_Ok db db' v : nextRevision db = (db', Ok v) ->
  v = db.(tunnel_sessions_revision) + 1 /\ db'.(tunnel_sessions) = db.(tunnel_sessions) /\
  db'.(tunnel_sessions_revision) = v.
Proof.
  unfold nextRevision. case_match; [|done]. intros [= <- <-].
  split; [done|]. split; apply set_tunnels_fields.
Qed.
Lemma update_tunnel_Ok id g f db db' t' : update_tunnel id g f db = (db', Ok t') ->
  exists t, db.(tunnel_sessions) !! id = Some t /\ g t = true /\ t' = f t /\ check_tunnel (f t) = true /\
    db'.(tunnel_sessions) = <[id := f t]> db.(tunnel_sessions) /\
    db'.(tunnel_sessions_revision) = db.(tunnel_sessions_revision).
Proof.
  unfold update_tunnel. destruct (tunnel_sessions db !! id) as [t|] eqn:Ht; [|done].
  destruct (g t) eqn:Eg; simpl; [|done]. destruct (check_tunnel (f t)) eqn:Ec; [|done]. intros [= <- <-].
  exists t. split_and!; try done; apply set_tunnels_fields.
Qed.
Lemma lock_session_Ok id g db db' s : lock_session id g db = (db', Ok s) ->
  db' = db /\ exists t, db.(tunnel_sessions) !! id = Some t /\ g db t = true /\ scanSession db id t = Ok s.
Proof.
  unfold lock_session. destruct (tunnel_sessions db !! id) as [t|] eqn:Ht; [|done].
  destruct (g db t) eqn:Eg; [|done]. intros [= <- Hs]. eauto.
Qed.
Lemma scanSession_Ok db id t s : scanSession db id t = Ok s ->
  exists a r, db.(allocations) !! t.(t_AllocationID) = Some a /\ db.(runs) !! a.(a_RunID) = Some r /\
    s = (mkSession id t.(t_AllocationID) r.(r_Namespace) t.(t_CreatorPrincipalID) t.(t_RemotePort)
            t.(t_RelayID) t.(t_ClientEdgeTarget) t.(t_Status) t.(t_Reason) t.(t_BoundAddr) t.(t_CreatedAt)
            t.(t_UpdatedAt) t.(t_ExpiresAt) t.(t_ReadyAt) t.(t_LastPeerEventAt) t.(t_BytesIn) t.(t_BytesOut),
          mkInternal a.(a_NodeID) t.(t_ClientTokenHash) t.(t_NodeTokenEncrypted) t.(t_NodeTokenHash)
            t.(t_NodeEdgeTarget)).
Proof.
  unfold scanSession. destruct (allocations db !! _) as [a|]; simpl; [|done].
  destruct (runs db !! _) as [r|] eqn:Hr; simpl; [|done]. intros [= <-]. eauto.
Qed.
Lemma returning_Ok id m db db' s : returning id m db = (db', Ok s) ->
  exists t i, m db = (db', Ok t) /\ scanSession db' id t = Ok (s, i).
Proof.
  unfold returning. intros Hx. tx_inv. destruct x1 as [s' i]. simpl in *. subst. eauto.
Qed.

Lemma insertEvent_bytes e db db' u : insertEventTx e db = (db', Ok u) ->
  TrimSpace e.(te_SessionID) <> "" -> 0 <= e.(te_BytesIn) /\ 0 <= e.(te_BytesOut).
Proof.
  unfold insertEventTx. intros Hx Hne. case_match eqn:E; [by apply String.eqb_eq in E|]. clear E.
  case_match; [|done]. case_match eqn:E; [|done]. by rewrite andb_true_iff, !Z.leb_le in E.
Qed.
(** Close the sessions that are due, then run the rest from there. *)
Ltac tun_inv :=
  repeat first
    [ progress tx_inv
    | match goal with
      | E : lock_session _ _ _ = (_, Ok _) |- _ =>
          let t := fresh "t" in let Ht := fresh "Ht" in let Hg := fresh "Hguard" in let Hs := fresh "Hscan" in
          apply lock_session_Ok in E as (-> & t & Ht & Hg & Hs)
      | E : returning _ _ _ = (_, Ok _) |- _ =>
          let u := fresh "u" in let i := fresh "i" in let Hr := fresh "Hret" in
          apply returning_Ok in E as (u & i & E & Hr)
      | E : scanSession _ _ _ = Ok _ |- _ =>
          let a := fresh "a" in let r := fresh "r" in
          apply scanSession_Ok in E as (a & r & ? & ? & E); try injection E as -> ->; try subst
      | E : insertEventTx ?e ?d = (?d', Ok _) |- _ =>
          let H := fresh "Hev" in let B := fresh "Hbytes" in
          pose proof (insertEvent_same e d) as H; rewrite E in H; pose proof (insertEvent_bytes _ _ _ _ E) as B; clear E; simpl in H, B
      end ].
Lemma tun_Ok {A} (m : Tx A) db db' r : tun m -> tunnel_inv db -> m db = (db', r) -> tun_moves db db'.
Proof. intros Hm Hi E. specialize (Hm db Hi). by rewrite E in Hm. Qed.

Section store.
Context `{SqlTime}.
Context (sha256_hex encryptNodeToken : string -> string) (decryptNodeToken : string -> result string).

Lemma tun_expireDue now : tun (expireDue now).
Proof. apply tun_close; [done|]. intros t. unfold due. by intros [_ ?]%andb_true_iff. Qed.

Lemma requireActiveNode_Ok n db db' u : requireActiveNode n db = (db', Ok u) ->
  db' = db /\ exists r, db.(nodes) !! n = Some r /\ node_active r = true.
Proof. unfold requireActiveNode. repeat case_match; try done. intros [= <- _]. eauto. Qed.

Lemma set_expiry_le mark e n t : active_tunnel t = true -> t.(t_ExpiresAt) <= e ->
  row_le mark t (tunnel_set_expiry e n t).
Proof. intros Ha He. split; simpl; [by repeat split|lia..|lia|congruence|]. unfold active_tunnel in *. simpl. congruence. Qed.
Lemma terminal_active t : terminal t.(t_Status) = negb (active_tunnel t).
Proof. unfold active_tunnel. by destruct (t_Status t). Qed.


(** A row update below the current revision, then an event. *)
Lemma tun_row db db1 db2 id t t' :
  tunnel_inv db -> db.(tunnel_sessions) !! id = Some t ->
  db1.(tunnel_sessions) = <[id := t']> db.(tunnel_sessions) -> check_tunnel t' = true ->
  db.(tunnel_sessions_revision) <= db1.(tunnel_sessions_revision) ->
  t'.(t_Revision) <= db1.(tunnel_sessions_revision) ->
  row_le db.(tunnel_sessions_revision) t t' -> same_tunnels db1 db2 -> tun_moves db db2.
Proof.
  intros Hi Ht Es Hc Hr Hr' Hle Hsame.
  assert (Hm : tun_moves db db1) by (by eapply tun_update).
  eapply tun_moves_trans; [exact Hm|]. apply tun_moves_same; [apply Hm|done].
Qed.

Ltac tun_start :=
  apply tun_withTx_admin_Ok; intros db db' s Hi Hx; tun_inv;
  match goal with E : expireDue _ _ = (_, Ok _) |- _ =>
    let Hm := fresh "Hexp" in
    pose proof (tun_Ok _ _ _ _ (tun_expireDue _) Hi E) as Hm; clear E;
    eapply tun_moves_trans; [exact Hm|]; apply proj1 in Hm end;
  repeat match goal with
  | E : requireActiveNode _ _ = (_, Ok _) |- _ => apply requireActiveNode_Ok in E as [-> _]
  end.

Lemma tun_Renew id token ttl now : tun (Renew sha256_hex id token ttl now).
Proof.
  unfold Renew. apply tun_bind; [apply tun_guard|intros _]. apply tun_bind; [apply tun_guard|intros _].
  tun_start.
  match goal with E : update_tunnel _ _ _ _ = _ |- _ => apply update_tunnel_Ok in E as (t0 & Ht0 & _ & -> & Hc & Es & Er) end.
  simplify_eq. simpl in *. rewrite terminal_active, negb_involutive in Hb0.
  pose proof (ti_revision _ Hexp _ _ Ht). eapply tun_row; [done|exact Ht|exact Es|done|lia|simpl; lia| |done].
  apply set_expiry_le; [done|lia].
Qed.


Ltac update_inv :=
  match goal with E : update_tunnel _ _ _ _ = _ |- _ =>
    let Hc := fresh "Hc" in let Es := fresh "Es" in let Er := fresh "Er" in let Hg := fresh "Hg" in
    apply update_tunnel_Ok in E as (? & ? & Hg & -> & Hc & Es & Er) end;
  try match goal with E : nextRevision _ = (_, Ok _) |- _ =>
    let Es' := fresh "Es'" in let Er' := fresh "Er'" in
    apply nextRevision_Ok in E as (-> & Es' & Er'); rewrite ?Es', ?Er' in * end;
  simplify_eq; simpl in *.

Lemma tun_updateStatus id status reason addr now : closing status = true ->
  tun (updateStatus id status reason addr now).
Proof.
  intros Hcl. unfold updateStatus. apply tun_bind; [apply tun_guard|intros _]. tun_start.
  simpl in Hx. rewrite terminal_active in Hx. destruct (active_tunnel t) eqn:Ha; simpl in Hx; tun_inv;
    [|by apply tun_moves_refl].
  destruct (bool_decide (status = TUNNEL_REVOKED)); tun_inv; update_inv;
    pose proof (ti_revision _ Hexp _ _ Ht);
    (eapply tun_row; [done|exact Ht|exact Es|done|lia|simpl; lia|apply set_status_le; [done|lia|lia]|done]).
Qed.

Lemma set_ready_le mark s r b v n ready t : closing s = false -> active_tunnel t = true -> t.(t_Revision) <= v ->
  row_le mark t (tunnel_set_ready ready (tunnel_set_status s r b v n t)).
Proof.
  intros Hs Ha Hv. split; simpl; [by repeat split|done|lia|lia|congruence|].
  intros _. unfold active_tunnel. simpl. by destruct s.
Qed.
Lemma tun_ReportStatus nodeID id status reason addr now : tun (ReportStatus nodeID id status reason addr now).
Proof.
  unfold ReportStatus. destruct (bool_decide (status ∈ _)) eqn:Hst; [|intros db Hi; by apply tun_moves_refl].
  apply tun_bind; [apply tun_guard|intros _]. apply tun_bind; [apply tun_guard|intros _].
  unfold reportNodeStatus. tun_start.
  simpl in Hx. rewrite terminal_active in Hx. destruct (active_tunnel t) eqn:Ha; simpl in Hx; tun_inv;
    [|by apply tun_moves_refl].
  destruct (bool_decide (status = TUNNEL_FAILED)) eqn:Hf; tun_inv; update_inv;
    pose proof (ti_revision _ Hexp _ _ Ht).
  - eapply tun_row; [done|exact Ht|exact Es|done|lia|simpl; lia|apply set_status_le; [done|lia|lia]|done].
  - eapply tun_row; [done|exact Ht|exact Es|done|lia|simpl; lia|apply set_ready_le; [|done|lia]|done].
    apply bool_decide_eq_true in Hst. apply bool_decide_eq_false in Hf.
    rewrite !elem_of_cons, elem_of_nil in Hst. destruct Hst as [->|[->|[->|[]]]]; done.
Qed.

Lemma add_bytes_le mark n i o t : 0 <= i -> 0 <= o -> row_le mark t (tunnel_add_bytes n i o t).
Proof.
  intros Hi Ho. split; simpl; [by repeat split|done|done|lia|by repeat split|].
  unfold active_tunnel. simpl. congruence.
Qed.
Lemma tun_ReportPeerEvent params now : tun (ReportPeerEvent sha256_hex params now).
Proof.
  unfold ReportPeerEvent. set (id := TrimSpace _).
  destruct (negb (String.eqb id "")) eqn:Hid; [|intros db Hi; by apply tun_moves_refl].
  apply tun_bind; [apply tun_guard|intros _]. tun_start.
  destruct Hbytes as [Hin Hout].
  { subst id. rewrite TrimSpace_idempotent. intros E. by rewrite E in Hid. }
  match goal with E : match peer_token_error ?k ?g ?i with _ => _ end _ = _ |- _ =>
    destruct (peer_token_error k g i); tun_inv end.
  update_inv. pose proof (ti_revision _ Hexp _ _ Ht).
  eapply tun_row; [done|exact Ht|exact Es|done|lia|simpl; lia|by apply add_bytes_le|done].
Qed.

Lemma tun_getWithTokens id now : tun (getWithTokens id now).
Proof.
  unfold getWithTokens. apply tun_bind; [apply tun_guard|intros _].
  apply tun_bind; [apply tun_wrap, tun_expireDue|intros _]. apply tun_lock_session.
Qed.

Lemma insert_tunnel_Ok id t db db' u : insert_tunnel id t db = (db', Ok u) ->
  check_tunnel t = true /\ db.(tunnel_sessions) !! id = None /\
  (forall sid t', db.(tunnel_sessions) !! sid = Some t' -> same_binding t t' = false) /\
  db'.(tunnel_sessions) = <[id := t]> db.(tunnel_sessions) /\
  db'.(tunnel_sessions_revision) = db.(tunnel_sessions_revision).
Proof.
  unfold insert_tunnel. destruct (check_tunnel t); simpl; [|done].
  destruct (tunnel_sessions db !! id) eqn:Hid; simpl; [done|].
  destruct (existsb _ _) eqn:He; [done|]. case_match; [done|]. intros [= <- _].
  split; [done|]. split; [done|]. split; [|apply set_tunnels_fields].
  intros sid t' Ht. destruct (same_binding t t') eqn:Eb; [|done]. apply not_true_iff_false in He. destruct He.
  apply existsb_exists. exists (sid, t'). split; [by apply list_elem_of_In, elem_of_map_to_list|done].
Qed.
Lemma on_error_Ok {A} f (m : Tx A) db db' a : on_error f m db = (db', Ok a) -> m db = (db', Ok a).
Proof. unfold on_error. by destruct (m db) as [d [b|e]]. Qed.
Lemma lookupAllocation_Ok id db db' x : lookupAllocation id db = (db', Ok x) ->
  db' = db /\ db.(allocations) !! id = Some x.1 /\ db.(runs) !! x.1.(a_RunID) = Some x.2 /\
  exists n, db.(nodes) !! x.1.(a_NodeID) = Some n /\ node_active n = true.
Proof.
  unfold lookupAllocation. intros Hx. apply bind_tx_Ok in Hx as (d & row & Hg & Hx). apply gets_Ok in Hg as [-> ->].
  destruct (allocations db !! id) as [a|] eqn:Ha; cbn [mbind option_bind] in Hx; [|done].
  destruct (runs db !! a_RunID a) as [r|] eqn:Hr; cbn [mbind option_bind] in Hx; [|done]. tun_inv.
  match goal with E : requireActiveNode _ _ = _ |- _ => apply requireActiveNode_Ok in E as [-> ?] end. eauto.
Qed.


(** The row [Create] inserts. *)
Definition created_row (params : CreateParams) (principal : string) (port : Z) (relay : Relay)
    (ct nt : string) (revision : Z) : TunnelRow :=
  mkTunnel (TrimSpace params.(cp_AllocationID)) principal port relay.(rl_NodeTarget) relay.(rl_ID)
    relay.(rl_ClientTarget) TUNNEL_PENDING "" "" (hashToken sha256_hex ct) (encryptNodeToken nt)
    (hashToken sha256_hex nt) revision (sql_time params.(cp_Now)) (sql_time params.(cp_Now))
    (sql_time (Add params.(cp_Now) (normalizeTTL params.(cp_TTL)))) None None 0 0.

Lemma Create_Ok relays params principal draws sid ct nt db db' res :
  Create sha256_hex encryptNodeToken relays params principal draws sid ct nt db = (db', Ok res) ->
  exists db0 a r n relay p port,
    let t := created_row params p port relay ct nt (db0.(tunnel_sessions_revision) + 1) in
    expireDue params.(cp_Now) db = (db0, Ok ()) /\
    (db0.(allocations) !! TrimSpace params.(cp_AllocationID) = Some a /\ a.(a_State) = ALS_ACTIVE) /\
    db0.(runs) !! a.(a_RunID) = Some r /\
    (db0.(nodes) !! a.(a_NodeID) = Some n /\ node_active n = true) /\
    (principal = Some p /\ TrimSpace p <> "") /\
    selectRelay relays sid = Some (Ok relay) /\
    match params.(cp_RemotePort) with
    | Some q => port = q
    | None => allocateRemotePort db0 (TrimSpace params.(cp_AllocationID)) draws = Ok port
    end /\
    check_tunnel t = true /\ db0.(tunnel_sessions) !! sid = None /\
    (forall sid' t', db0.(tunnel_sessions) !! sid' = Some t' -> same_binding t t' = false) /\
    db'.(tunnel_sessions) = <[sid := t]> db0.(tunnel_sessions) /\
    db'.(tunnel_sessions_revision) = db0.(tunnel_sessions_revision) + 1.
Proof.
  unfold Create. intros Hx. tun_inv. apply withTx_admin_Ok in Hx. tun_inv.
  match goal with E : lookupAllocation _ _ = (_, Ok ?y) |- _ =>
    apply lookupAllocation_Ok in E as (-> & Ha & Hr & n & Hn & Hact); destruct y as [a r] end.
  simpl in Ha, Hr, Hn. tun_inv.
  destruct principal as [p|]; [|done]. destruct (selectRelay relays sid) as [[relay|e]|] eqn:Hrel; tun_inv.
  assert (db3 = db0 /\ match params.(cp_RemotePort) with
    | Some q => x4 = q
    | None => allocateRemotePort db0 (TrimSpace params.(cp_AllocationID)) draws = Ok x4 end) as [-> Hport].
  { destruct (cp_RemotePort params); [|by injection Hm2 as <- ->]. by injection Hm2 as <- <-. }
  apply nextRevision_Ok in Hm0 as (-> & Es1 & Er1). apply on_error_Ok, insert_tunnel_Ok in Hm1 as (Hc & Hn1 & Hu & Es2 & Er2).
  destruct Hev as [Es3 Er3]. rewrite Es1 in *. exists db0, a, r, n, relay, p, x4. simpl. destruct x1.
  assert (TrimSpace p <> "") by (intros E; by rewrite E in Hb1). apply bool_decide_eq_true in Hb2.
  split_and!; try done; [by rewrite Es3, Es2|by rewrite Er3, Er2].
Qed.

Lemma withTx_admin_Err {A} (m : Tx A) db db' e : withTx_admin m db = (db', Err e) -> db' = db.
Proof. unfold withTx_admin. destruct (m db) as [d [a|e']]; congruence. Qed.
Lemma tun_Create relays params principal draws sid ct nt :
  tun (Create sha256_hex encryptNodeToken relays params principal draws sid ct nt).
Proof.
  intros db Hi. destruct (Create _ _ _ _ _ _ _ _ _ db) as [db' [res|e]] eqn:E; simpl.
  - apply Create_Ok in E as (d & a & r & n & relay & p & port & Hexp & _ & _ & _ & _ & _ & _ & Hc & Hn & Hu & Es & Er).
    pose proof (tun_Ok _ _ _ _ (tun_expireDue _) Hi Hexp) as Hm. eapply tun_moves_trans; [exact Hm|].
    eapply tun_insert; [apply Hm|exact Hn|exact Es|exact Hc|simpl; lia|exact Hu|done].
  - assert (db' = db) as ->; [|by apply tun_moves_refl]. unfold Create in E.
    destruct (negb _); [|by injection E as <-].
    destruct (match params.(cp_RemotePort) with None => true | Some q => _ end); [|by injection E as <-].
    by apply withTx_admin_Err in E.
Qed.
End store.

(** ** Every tunnel transaction *)
Section transactions.
Context `{SqlTime}.
Context (sha256_hex encryptNodeToken : string -> string) (decryptNodeToken : string -> result string).

Inductive tunnel_step (db : DB) : DB -> Prop :=
| step_Create relays params principal draws sid ct nt :
    tunnel_step db (fst (Create sha256_hex encryptNodeToken relays params principal draws sid ct nt db))
| step_Renew id token ttl now : tunnel_step db (fst (Renew sha256_hex id token ttl now db))
| step_Revoke id reason now : tunnel_step db (fst (Revoke id reason now db))
| step_ReportStatus nodeID id status reason addr now :
    tunnel_step db (fst (ReportStatus nodeID id status reason addr now db))
| step_ReportPeerEvent params now : tunnel_step db (fst (ReportPeerEvent sha256_hex params now db))
| step_ReconcileExpired now : tunnel_step db (fst (expireDue now db))
| step_Get id now : tunnel_step db (fst (getWithTokens id now db))
| step_ValidatePeer id kind token now : tunnel_step db (fst (ValidatePeer sha256_hex id kind token now db))
| step_List namespace allocationID all now : tunnel_step db (fst (tunnel.List namespace allocationID all now db))
| step_ListEvents id limit now : tunnel_step db (fst (ListEvents id limit now db))
| step_ResolveRelayTarget id now : tunnel_step db (fst (ResolveRelayTarget id now db))
| step_WatchNode nodeID after now : tunnel_step db (fst (WatchNode_turn decryptNodeToken nodeID after now db)).

Ltac tun_tac :=
  repeat first
    [ match goal with |- forall _, _ => intro end
    | apply tun_ret | apply tun_fail | apply tun_gets | apply tun_lift | apply tun_guard
    | apply tun_getWithTokens | apply tun_expireDue
    | apply tun_bind | apply tun_wrap | case_match ].
Lemma tunnel_step_moves db db' : tunnel_inv db -> tunnel_step db db' -> tun_moves db db'.
Proof.
  intros Hi [].
  - by apply tun_Create.
  - by apply tun_Renew.
  - by apply tun_updateStatus.
  - by apply tun_ReportStatus.
  - by apply tun_ReportPeerEvent.
  - by apply tun_expireDue.
  - by apply tun_getWithTokens.
  - assert (Ht : tun (ValidatePeer sha256_hex id kind token now)) by (unfold ValidatePeer; tun_tac). by apply Ht.
  - assert (Ht : tun (tunnel.List namespace allocationID all now)) by (unfold tunnel.List; tun_tac). by apply Ht.
  - assert (Ht : tun (ListEvents id limit now)) by (unfold ListEvents; tun_tac). by apply Ht.
  - assert (Ht : tun (ResolveRelayTarget id now)) by (unfold ResolveRelayTarget; tun_tac). by apply Ht.
  - assert (Ht : tun (WatchNode_turn decryptNodeToken nodeID after now)) by (unfold WatchNode_turn; tun_tac). by apply Ht.
Qed.
Lemma tunnel_steps_moves db db' : tunnel_inv db -> rtc tunnel_step db db' -> tun_moves db db'.
Proof.
  intros Hi Hs. induction Hs as [db|db d db' Hs _ IH]; [by apply tun_moves_refl|].
  pose proof (tunnel_step_moves _ _ Hi Hs) as Hm. eapply tun_moves_trans; [exact Hm|]. apply IH, Hm.
Qed.

(** ** The watching node (query.go) *)
Lemma scan_all_Ok {A B} (f : A -> result B) l ys : scan_all f l = Ok ys ->
  (forall x, x ∈ l -> exists y, y ∈ ys /\ f x = Ok y) /\ (forall y, y ∈ ys -> exists x, x ∈ l /\ f x = Ok y).
Proof.
  revert ys. induction l as [|x l IH]; simpl; intros ys Hx.
  - injection Hx as <-. split; intros ? ?%elem_of_nil; done.
  - destruct (f x) as [y|e] eqn:E; simpl in Hx; [|done]. destruct (scan_all f l) as [ys'|e] eqn:E'; simpl in Hx; [|done].
    injection Hx as <-. destruct (IH _ eq_refl) as [H1 H2]. split.
    + intros z [->|Hz]%elem_of_cons; [exists y; split; [by apply list_elem_of_here|done]|].
      destruct (H1 _ Hz) as (w & Hw & Ew). exists w. split; [by apply list_elem_of_further|done].
    + intros z [->|Hz]%elem_of_cons; [exists x; split; [by apply list_elem_of_here|done]|].
      destruct (H2 _ Hz) as (w & Hw & Ew). exists w. split; [by apply list_elem_of_further|done].
Qed.
Lemma node_rows_elem db nodeID after mark sid t : (sid, t) ∈ node_rows db nodeID after mark <->
  db.(tunnel_sessions) !! sid = Some t /\ bound_to db nodeID t = true /\ after < t.(t_Revision) <= mark.
Proof.
  unfold node_rows. rewrite elem_of_sort_slice, list_elem_of_In, filter_In, <- list_elem_of_In, elem_of_map_to_list.
  simpl. rewrite !andb_true_iff, Z.ltb_lt, Z.leb_le. tauto.
Qed.
Lemma node_session_Ok db sid t n : node_session decryptNodeToken db (sid, t) = Ok n ->
  n.(n_Session).(s_SessionID) = sid /\ n.(n_Session).(s_Status) = t.(t_Status) /\
  decryptNodeToken t.(t_NodeTokenEncrypted) = Ok n.(n_NodeToken).
Proof.
  unfold node_session. simpl. destruct (scanSession db sid t) as [s|e] eqn:E; simpl; [|done].
  apply scanSession_Ok in E as (a & r & _ & _ & ->). simpl.
  destruct (decryptNodeToken _); simpl; [|done]. by intros [= <-].
Qed.

(** What a watching node relies on, while rows may also be deleted: a row found
    later is the row known before, moved on, or one published since. *)
Record news (db db' : DB) : Prop := {
  nw_revision : db.(tunnel_sessions_revision) <= db'.(tunnel_sessions_revision);
  nw_session sid t' : db'.(tunnel_sessions) !! sid = Some t' ->
    (exists t, db.(tunnel_sessions) !! sid = Some t /\ row_le db.(tunnel_sessions_revision) t t') \/
    db.(tunnel_sessions_revision) < t'.(t_Revision) }.
#[export] Instance news_preorder : PreOrder news.
Proof.
  split.
  - intros db. split; [done|]. intros sid t Ht. left. exists t. split; [done|apply row_le_refl].
  - intros a b c [R1 S1] [R2 S2]. split; [lia|]. intros sid t Ht.
    destruct (S2 _ _ Ht) as [(t2 & Ht2 & L2)|?]; [|right; lia]. pose proof (rl_revision _ _ _ L2).
    destruct (S1 _ _ Ht2) as [(t1 & Ht1 & L1)|?]; [left|right; lia]. exists t1. split; [done|]. by eapply row_le_trans.
Qed.
Lemma tunnel_le_news db db' : tunnel_le db db' -> news db db'.
Proof.
  intros [R S N]. split; [done|]. intros sid t' Ht'. destruct (tunnel_sessions db !! sid) as [t|] eqn:E.
  - left. destruct (S _ _ E) as (t2 & Ht2 & L). exists t. split; [done|congruence].
  - right. by apply (N sid).
Qed.

(** The rows between two marks: the store [db0] of the last mark, [db1] of the
    next one and [db2] of the rows. *)
Lemma load_complete db0 db1 db2 nodeID sessions mark :
  news db0 db1 -> news db1 db2 ->
  loadNodeSessions decryptNodeToken db1 db2 nodeID db0.(tunnel_sessions_revision) = Ok (sessions, mark) ->
  (forall n, n ∈ sessions -> exists t, db2.(tunnel_sessions) !! n.(n_Session).(s_SessionID) = Some t /\
     bound_to db2 nodeID t = true /\ n.(n_Session).(s_Status) = t.(t_Status)) /\
  (forall sid t0 t2, db0.(tunnel_sessions) !! sid = Some t0 -> active_tunnel t0 = true ->
     db2.(tunnel_sessions) !! sid = Some t2 -> active_tunnel t2 = false -> bound_to db2 nodeID t2 = true ->
     (exists n, n ∈ sessions /\ n.(n_Session).(s_SessionID) = sid /\ n.(n_Session).(s_Status) = t2.(t_Status)) \/
     mark < t2.(t_Revision)) /\
  db0.(tunnel_sessions_revision) <= mark.
Proof.
  intros L01 L12 Hl. unfold loadNodeSessions, currentRevision in Hl.
  destruct (scan_all _ _) as [l|e] eqn:E; simpl in Hl; [|done]. injection Hl as <- <-.
  apply scan_all_Ok in E as [Hin Hout].
  pose proof (transitivity L01 L12) as L02. split; [|split; [|apply L01]].
  - intros n Hn. destruct (Hout _ Hn) as ([sid t] & Hrow & Ho). apply node_rows_elem in Hrow as (Ht & Hb & _).
    apply node_session_Ok in Ho as (-> & -> & _). eauto.
  - intros sid t0 t2 Ht0 Ha0 Ht2 Ha2 Hb.
    assert (Hnew : tunnel_sessions_revision db0 < t_Revision t2).
    { destruct (nw_session _ _ L02 _ _ Ht2) as [(t0' & Ht0' & Hle)|?]; [|done]. simplify_eq.
      by apply (rl_closing _ _ _ Hle). }
    destruct (Z.lt_ge_cases (tunnel_sessions_revision db1) (t_Revision t2)) as [?|Hge]; [by right|left].
    destruct (Hin (sid, t2)) as (n & Hn & Ho); [apply node_rows_elem; split_and!; [done|done|lia|lia]|].
    apply node_session_Ok in Ho as (E1 & E2 & _). eauto.
Qed.

(** ** Peers *)

(** C27: a peer is let into a tunnel only with the secret of its own side, while
    the session is open and before its deadline, and while the node that runs the
    Allocation is active. *)
Theorem ValidatePeer_sound id kind token now db db' s :
  ValidatePeer sha256_hex id kind token now db = (db', Ok s) ->
  exists t a n, db'.(tunnel_sessions) !! TrimSpace id = Some t /\ s.(s_SessionID) = TrimSpace id /\
    active_tunnel t = true /\ now < t.(t_ExpiresAt) /\
    db'.(allocations) !! t.(t_AllocationID) = Some a /\ db'.(nodes) !! a.(a_NodeID) = Some n /\ node_active n = true /\
    match kind with
    | PEER_CLIENT => sha256_hex (TrimSpace token) = t.(t_ClientTokenHash)
    | PEER_NODE => sha256_hex (TrimSpace token) = t.(t_NodeTokenHash)
    | _ => False
    end.
Proof.
  unfold ValidatePeer, getWithTokens. intros Hx. tun_inv. simpl in *.
  destruct (nodes db6 !! a_NodeID a) as [n|] eqn:Hn; [|done]. apply Z.ltb_lt in Hb.
  rewrite terminal_active, negb_involutive in Hb0.
  unfold hashToken in Hx. rewrite TrimSpace_idempotent in Hx.
  destruct kind; tun_inv; (exists t, a, n; split_and!; [done..|by apply String.eqb_eq]).
Qed.

(** ** Remote ports (ports.go) *)
Lemma used_ports_elem db allocationID port : port ∈ used_ports db allocationID <->
  exists sid t, db.(tunnel_sessions) !! sid = Some t /\ t.(t_AllocationID) = allocationID /\
    active_tunnel t = true /\ t.(t_RemotePort) = port.
Proof.
  unfold used_ports. rewrite elem_of_list_to_set, list_elem_of_fmap. setoid_rewrite list_elem_of_In.
  setoid_rewrite filter_In. setoid_rewrite <- list_elem_of_In. split.
  - intros ([sid t] & -> & Hin & Hb). apply elem_of_map_to_list in Hin. simpl in *.
    rewrite andb_true_iff, String.eqb_eq in Hb. destruct Hb. eauto 10.
  - intros (sid & t & Ht & Ea & Hact & Ep). exists (sid, t). split; [done|].
    split; [by apply elem_of_map_to_list|]. simpl. by rewrite Ea, String.eqb_refl, Hact.
Qed.
Lemma ports_elem port first n : port ∈ ports first n <-> first <= port < first + Z.of_nat n.
Proof.
  revert first. induction n as [|n IH]; simpl; intros first; [rewrite elem_of_nil; lia|].
  rewrite elem_of_cons, IH. lia.
Qed.
Lemma all_ports_elem port : port ∈ all_ports <-> autoPortMin <= port <= autoPortMax.
Proof. unfold all_ports. rewrite ports_elem. unfold autoPortMin, autoPortMax. rewrite Z2Nat.id; lia. Qed.

(** C28: automatic port selection always terminates with an answer: a port of
    the automatic range that no active session of the Allocation uses, or, exactly
    when all forty thousand are in use, ResourceExhausted. *)
Theorem allocateRemotePort_spec db allocationID draws :
  (exists port, allocateRemotePort db allocationID draws = Ok port /\ autoPortMin <= port <= autoPortMax /\
     forall sid t, db.(tunnel_sessions) !! sid = Some t -> t.(t_AllocationID) = allocationID ->
       active_tunnel t = true -> t.(t_RemotePort) <> port) \/
  (exists e, allocateRemotePort db allocationID draws = Err e /\ status_code e = ResourceExhausted /\
     forall port, autoPortMin <= port <= autoPortMax ->
       exists sid t, db.(tunnel_sessions) !! sid = Some t /\ t.(t_AllocationID) = allocationID /\
         active_tunnel t = true /\ t.(t_RemotePort) = port).
Proof.
  assert (Hfree : forall port, free_port (used_ports db allocationID) port = true ->
    forall sid t, db.(tunnel_sessions) !! sid = Some t -> t.(t_AllocationID) = allocationID ->
      active_tunnel t = true -> t.(t_RemotePort) <> port).
  { intros port Hp sid t Ht Ea Hact Ep. unfold free_port in Hp. apply negb_true_iff, bool_decide_eq_false in Hp.
    apply Hp, used_ports_elem. eauto 10. }
  unfold allocateRemotePort. destruct (List.find _ (map _ _)) as [port|] eqn:E1.
  { left. exists port. apply find_some in E1 as [Hin Hp]. split; [done|]. split; [|by apply Hfree].
    apply in_map_iff in Hin as (d & <- & _). unfold autoPortMin, autoPortMax.
    pose proof (Z.mod_pos_bound d (59999 - 20000 + 1)). lia. }
  destruct (List.find _ all_ports) as [port|] eqn:E2.
  { left. exists port. apply find_some in E2 as [Hin Hp]. split; [done|]. split; [|by apply Hfree].
    by apply all_ports_elem, list_elem_of_In. }
  right. eexists. split; [done|]. split; [done|]. intros port Hp.
  apply used_ports_elem. assert (Hf : free_port (used_ports db allocationID) port = false).
  { eapply find_none; [exact E2|]. by apply list_elem_of_In, all_ports_elem. }
  unfold free_port in Hf. by apply negb_false_iff, bool_decide_eq_true in Hf.
Qed.
End transactions.

(** ** Relays (relay_registry.go) *)
Definition live (r : Relay) : Z := if r.(rl_Drain) then 0 else r.(rl_Weight).
Fixpoint live_weight (relays : list Relay) : Z :=
  match relays with [] => 0 | r :: rest => live r + live_weight rest end.
Definition positive_weights (relays : list Relay) : Prop := forall r, r ∈ relays -> 0 < r.(rl_Weight).

Lemma live_weight_nonneg relays : positive_weights relays -> 0 <= live_weight relays.
Proof.
  induction relays as [|r relays IH]; simpl; intros Hp; [lia|].
  assert (0 < rl_Weight r) by (apply Hp, list_elem_of_here).
  assert (0 <= live_weight relays) by (apply IH; intros x Hx; by apply Hp, list_elem_of_further).
  unfold live. destruct (rl_Drain r); lia.
Qed.
Lemma total_weight_from acc relays : positive_weights relays -> 0 <= acc -> acc + live_weight relays <= MaxInt64 ->
  fold_left (fun total r => if r.(rl_Drain) then total else wrap64 (total + r.(rl_Weight))) relays acc
  = acc + live_weight relays.
Proof.
  revert acc. induction relays as [|r relays IH]; simpl; intros acc Hp H0 Hm; [lia|].
  assert (Hr : 0 < rl_Weight r) by (apply Hp, list_elem_of_here).
  assert (Hp' : positive_weights relays) by (intros x Hx; by apply Hp, list_elem_of_further).
  pose proof (live_weight_nonneg _ Hp'). unfold live in *. destruct (rl_Drain r).
  - rewrite IH; [lia|done|lia|lia].
  - rewrite wrap64_id by (unfold int64, MaxInt64, MinInt64 in *; lia). rewrite IH; [lia|done|lia|lia].
Qed.
Lemma total_weight_eq relays : positive_weights relays -> live_weight relays <= MaxInt64 ->
  total_weight relays = live_weight relays.
Proof. intros. unfold total_weight. by rewrite total_weight_from by (done || lia). Qed.
Lemma pick_relay_spec slot relays : positive_weights relays -> 0 <= slot < live_weight relays ->
  exists pre r post, relays = pre ++ r :: post /\ pick_relay slot relays = Ok r /\ r.(rl_Drain) = false /\
    live_weight pre <= slot < live_weight pre + r.(rl_Weight).
Proof.
  revert slot. induction relays as [|r relays IH]; simpl; intros slot Hp Hs; [lia|].
  assert (Hp' : positive_weights relays) by (intros x Hx; by apply Hp, list_elem_of_further).
  unfold live in *. destruct (rl_Drain r) eqn:Ed.
  - destruct (IH slot Hp') as (pre & x & post & -> & Hx & Hd & Hr); [lia|].
    exists (r :: pre), x, post. simpl. unfold live. rewrite Ed. split_and!; [done..|lia|lia].
  - destruct (Z.ltb_spec slot (rl_Weight r)).
    + exists [], r, relays. simpl. split_and!; [done..|lia|lia].
    + destruct (IH (slot - rl_Weight r) Hp') as (pre & x & post & -> & Hx & Hd & Hr); [lia|].
      exists (r :: pre), x, post. simpl. unfold live. rewrite Ed. split_and!; [done..|lia|lia].
Qed.

(** While the weights of the relays that are not draining add up to less
    than 2^32, relay selection never fails when one of them exists: the chosen
    relay is one of the registry, is not draining, and owns the slice of the
    weight line the session's stable slot falls in. *)
Theorem selectRelay_spec relays seed :
  positive_weights relays -> 0 < live_weight relays < 2 ^ 32 ->
  exists pre r post slot, relays = pre ++ r :: post /\ selectRelay relays seed = Some (Ok r) /\
    r.(rl_Drain) = false /\ stableSlot seed (live_weight relays) = Some slot /\
    live_weight pre <= slot < live_weight pre + r.(rl_Weight).
Proof.
  intros Hp Hw. assert (Hmod : live_weight relays mod 2 ^ 32 = live_weight relays) by (apply Z.mod_small; lia).
  set (slot := fnv1a 2166136261 seed mod live_weight relays).
  assert (Hslot : stableSlot seed (live_weight relays) = Some slot).
  { unfold stableSlot. rewrite Hmod. by destruct (Z.eqb_spec (live_weight relays) 0); [lia|]. }
  destruct (pick_relay_spec slot relays Hp) as (pre & r & post & E & Hpick & Hd & Hr); [apply Z.mod_pos_bound; lia|].
  exists pre, r, post, slot. split_and!; try done; try lia. unfold selectRelay.
  rewrite total_weight_eq by (done || (unfold MaxInt64; lia)).
  destruct (Nat.eqb_spec (length relays) 0) as [E0|_]; [by rewrite E, length_app in E0; simpl in E0; lia|].
  destruct (Z.leb_spec (live_weight relays) 0); [lia|]. rewrite Hslot. simpl. by rewrite Hpick.
Qed.

Definition ex_relays : list Relay :=
  [mkRelay "a" "c:1" "n:1" (2 ^ 31) false; mkRelay "b" "c:2" "n:2" (2 ^ 31) false].
(** [ParseRelays] accepts registries whose weights add up to 2^32, which
    is zero on [uint32]: with such a registry relay selection panics with a
    division by zero, whatever the session, and with it every creation. *)
Theorem selectRelay_panics :
  ParseRelays "a,c:1,n:1,2147483648,false;b,c:2,n:2,2147483648,false" = Ok ex_relays /\ forall seed, selectRelay ex_relays seed = None.
Proof. split; [vm_compute; reflexivity|]. intros seed. reflexivity. Qed.
Lemma selectRelay_spec_witness :
  exists pre r post slot, [mkRelay "a" "c" "n" 3 true; mkRelay "b" "c" "n" 2 false] = pre ++ r :: post /\
    selectRelay [mkRelay "a" "c" "n" 3 true; mkRelay "b" "c" "n" 2 false] "s-1" = Some (Ok r) /\
    r.(rl_Drain) = false /\ stableSlot "s-1" 2 = Some slot /\ live_weight pre <= slot < live_weight pre + r.(rl_Weight).
Proof.
  apply (selectRelay_spec [mkRelay "a" "c" "n" 3 true; mkRelay "b" "c" "n" 2 false] "s-1").
  - intros r [->|[->|[]%elem_of_nil]%elem_of_cons]%elem_of_cons; reflexivity.
  - split; reflexivity.
Defined.

(** ** Examples: one session, opened and revoked *)
Definition pair_ok (p q : string * TunnelRow) : bool := negb (same_binding p.2 q.2) || String.eqb p.1 q.1.
Definition tunnel_inv_check (db : DB) : bool :=
  let l := map_to_list db.(tunnel_sessions) in
  forallb (fun p => check_tunnel p.2 && (p.2.(t_Revision) <=? db.(tunnel_sessions_revision))
                    && forallb (pair_ok p) l) l.
Lemma tunnel_inv_check_ok db : tunnel_inv_check db = true -> tunnel_inv db.
Proof.
  unfold tunnel_inv_check. rewrite forallb_forall. intros Hf.
  assert (Hl : forall sid t, tunnel_sessions db !! sid = Some t -> In (sid, t) (map_to_list (tunnel_sessions db)))
    by (intros sid t Ht; by apply list_elem_of_In, elem_of_map_to_list).
  split.
  - intros sid t Ht%Hl%Hf. rewrite !andb_true_iff in Ht. apply Ht.
  - intros sid t Ht%Hl%Hf. rewrite !andb_true_iff, Z.leb_le in Ht. apply Ht.
  - intros s1 s2 t1 t2 H1%Hl%Hf H2%Hl A1 A2 Ea Ep. rewrite !andb_true_iff, forallb_forall in H1.
    destruct H1 as [_ H1]. specialize (H1 _ H2). unfold pair_ok, same_binding in H1. simpl in H1.
    rewrite A1, A2, Ea, Ep, String.eqb_refl, Z.eqb_refl in H1. by apply String.eqb_eq in H1.
Qed.

Definition ex_hash (s : string) : string := "sha256:" +:+ s.
Definition ex_decrypt (s : string) : result string := Ok s.
Definition ex_relay : Relay := mkRelay "relay-1" "c:1" "n:1" 1 false.
Definition ex_bound : DB :=
  mkDB {["run-1" := mkRun "default" "env-1" RUN_RUNNING zero zero zero ∅ 3 0 0 None WDC_UNSPECIFIED "" no_snapshot]}
    {["alloc-1" := mkAlloc "run-1" "n1" ALS_ACTIVE 500 1024 0 0 0 (Some 0) None]}
    ∅ ∅ ∅ ∅ 0 [] ∅ ∅ {["n1" := mkNodeRecord "n1" "n1:9000" None LifecycleActive 0 0 0 ""]}
    ∅ ∅ ∅ ∅ ∅ [] [] ∅.
Definition ex_create (db : DB) : DB * result CreateResult :=
  @Create microseconds ex_hash id [ex_relay] (mkCreate "alloc-1" None 0 Second) (Some "user-1") [7] "s-1" "ct" "nt" db.
Definition ex_open : DB := (ex_create ex_bound).1.
Definition ex_closed : DB := (@Revoke microseconds "s-1" "done" (2 * Second) ex_open).1.

Lemma ValidatePeer_sound_witness :
  exists t a n, ex_open.(tunnel_sessions) !! "s-1" = Some t /\ active_tunnel t = true /\ 2 * Second < t.(t_ExpiresAt) /\
    ex_open.(allocations) !! t.(t_AllocationID) = Some a /\ ex_open.(nodes) !! a.(a_NodeID) = Some n /\
    node_active n = true /\ ex_hash (TrimSpace "ct") = t.(t_ClientTokenHash).
Proof.
  destruct (@ValidatePeer microseconds ex_hash "s-1" PEER_CLIENT "ct" (2 * Second) ex_open) as [db' [s|e]] eqn:E;
    [|vm_compute in E; discriminate].
  destruct (@ValidatePeer_sound microseconds ex_hash "s-1" PEER_CLIENT "ct" (2 * Second) ex_open db' s E)
    as (t & a & n & Ht & _ & Ha & He & Hal & Hn & Hact & Htok).
  assert (db' = ex_open) as -> by (vm_compute in E |- *; congruence).
  exists t, a, n. repeat split; assumption.
Defined.
