(* ===== verification/Claims.v ===== *)
(** * Facts about reconcile claims

    What one claim round takes ([ClaimDue_spec]): due, unclaimed rows, at most a
    limit of them, in round-robin order of the nodes; that a live claim excludes
    every other owner ([claims_exclusive]); and that a worker that lost its claim
    changes nothing ([lost_claim_changes_nothing]). *)
From S2P Require Import Prelude Proto Resource Allocation Capability Node Execution Store Reconcile RunStore StoreFacts.

(** ** The order of a round *)
Lemma due_less_strict_weak : strict_weak due_less.
Proof.
  split; unfold due_less.
  - intros a b. destruct (Z.ltb_spec (d_NextRunAt a) (d_NextRunAt b)); simpl.
    + intros _. destruct (Z.ltb_spec (d_NextRunAt b) (d_NextRunAt a)); [lia|].
      by destruct (Z.eqb_spec (d_NextRunAt b) (d_NextRunAt a)); [lia|].
    + destruct (Z.eqb_spec (d_NextRunAt a) (d_NextRunAt b)) as [->|]; [|done]. simpl.
      rewrite Z.ltb_irrefl, Z.eqb_refl. apply string_lt_asym.
  - intros a b c. rewrite !orb_false_iff, !Z.ltb_ge, !andb_false_iff, !Z.eqb_neq.
    intros [H1 H2] [H3 H4]. split; [lia|].
    destruct (Z.eq_dec (d_NextRunAt a) (d_NextRunAt c)); [right|by left].
    destruct H2 as [?|H2], H4 as [?|H4]; [lia..|]. by eapply (sw_trans _ string_lt_strict_weak).
Qed.
Lemma claim_less_strict_weak rows : strict_weak (claim_less rows).
Proof.
  split; unfold claim_less.
  - intros a b. destruct (Nat.ltb_spec (node_rank rows a) (node_rank rows b)); cbn [orb andb].
    + intros _. destruct (Nat.ltb_spec (node_rank rows b) (node_rank rows a)); [lia|].
      by destruct (Nat.eqb_spec (node_rank rows b) (node_rank rows a)); [lia|].
    + destruct (Nat.eqb_spec (node_rank rows a) (node_rank rows b)) as [->|]; [|done]. cbn [orb andb].
      rewrite Nat.ltb_irrefl, Nat.eqb_refl. apply (sw_asym _ due_less_strict_weak).
  - intros a b c. rewrite !orb_false_iff, !Nat.ltb_ge, !andb_false_iff, !Nat.eqb_neq.
    intros [H1 H2] [H3 H4]. split; [lia|].
    destruct (Nat.eq_dec (node_rank rows a) (node_rank rows c)); [right|by left].
    destruct H2 as [?|H2], H4 as [?|H4]; [lia..|]. by eapply (sw_trans _ due_less_strict_weak).
Qed.

(** ** The rows of a round *)
Lemma due_rows_elem db now row : row ∈ due_rows db now <->
  exists q a r n, db.(allocation_reconcile_queue) !! row.(d_ID) = Some q /\
    db.(allocations) !! row.(d_ID) = Some a /\ db.(runs) !! a.(a_RunID) = Some r /\
    db.(nodes) !! a.(a_NodeID) = Some n /\ row.(d_NodeID) = a.(a_NodeID) /\
    row.(d_NextRunAt) = q.(q_NextRunAt) /\ q.(q_NextRunAt) <= now /\ live_claim q now = false.
Proof.
  unfold due_rows. rewrite list_elem_of_omap. split.
  - intros ([id q] & Hin & Hrow). apply elem_of_map_to_list in Hin.
    destruct (allocations db !! id) as [a|] eqn:Ha; simpl in Hrow; [|done].
    destruct (runs db !! a_RunID a) as [r|] eqn:Hr; simpl in Hrow; [|done].
    destruct (nodes db !! a_NodeID a) as [n|] eqn:Hn; simpl in Hrow; [|done].
    destruct (_ && _) eqn:Ed; [|done]. injection Hrow as <-. rewrite andb_true_iff, Z.leb_le, negb_true_iff in Ed.
    simpl. destruct Ed. eauto 12.
  - intros (q & a & r & n & Hq & Ha & Hr & Hn & En & Et & Hle & Hl). exists (row.(d_ID), q).
    rewrite elem_of_map_to_list, Ha. simpl. rewrite Hr. simpl. rewrite Hn. simpl.
    apply Z.leb_le in Hle. rewrite Hle, Hl. destruct row; simpl in *. by subst.
Qed.
Lemma due_rows_NoDup db now : NoDup (map d_ID (due_rows db now)).
Proof.
  unfold due_rows. pose proof (NoDup_fst_map_to_list (allocation_reconcile_queue db)) as Hn. revert Hn.
  change (fst <$> ?l) with (map fst l). induction (map_to_list _) as [|[id q] l IH]; simpl; [constructor|].
  rewrite NoDup_cons. intros [Hni Hn].
  destruct (allocations db !! id) as [a|]; simpl; [|auto]. destruct (runs db !! a_RunID a); simpl; [|auto].
  destruct (nodes db !! a_NodeID a); simpl; [|auto]. destruct (_ && _); simpl; [|auto].
  constructor; [|auto]. intros Hin. apply Hni. apply list_elem_of_fmap in Hin as (row & E & Hin).
  apply list_elem_of_omap in Hin as ([id' q'] & Hin & Hrow). apply list_elem_of_fmap.
  exists (id', q'). split; [|done]. simpl. rewrite E.
  destruct (allocations db !! id') as [a'|]; simpl in Hrow; [|done].
  destruct (runs db !! a_RunID a'); simpl in Hrow; [|done]. destruct (nodes db !! a_NodeID a'); simpl in Hrow; [|done].
  destruct (_ && _); [|done]. by injection Hrow as <-.
Qed.

Section claims.
Context `{GoRuntime} `{SqlTime}.

(** The unlocked rows of a round, in its order. *)
Definition open_rows (db : DB) (locked : gset string) (now : time) : list due_row :=
  List.filter (fun row => negb (bool_decide (row.(d_ID) ∈ locked)))
    (sort_slice (claim_less (due_rows db now)) (due_rows db now)).
Lemma claim_candidates_eq db locked limit now :
  claim_candidates db locked limit now = map d_ID (take (Z.to_nat limit) (open_rows db locked now)).
Proof. done. Qed.
Lemma open_rows_elem db locked now row :
  row ∈ open_rows db locked now <-> row ∈ due_rows db now /\ row.(d_ID) ∉ locked.
Proof.
  unfold open_rows. rewrite list_elem_of_In, filter_In, <- list_elem_of_In, elem_of_sort_slice.
  by rewrite negb_true_iff, bool_decide_eq_false.
Qed.
Lemma open_rows_sorted db locked now :
  StronglySorted (not_after (claim_less (due_rows db now))) (open_rows db locked now).
Proof.
  unfold open_rows. pose proof (sort_slice_sorted _ (claim_less_strict_weak (due_rows db now)) (due_rows db now)) as Hs.
  induction Hs as [|row l Hs IH Hf]; simpl; [constructor|]. destruct (negb _); [|done].
  constructor; [done|]. rewrite Forall_forall in *. intros x Hx. apply Hf.
  by apply list_elem_of_In, filter_In in Hx as [?%list_elem_of_In _].
Qed.
Lemma NoDup_filter_map {A B} (f : A -> B) (p : A -> bool) l : NoDup (map f l) -> NoDup (map f (List.filter p l)).
Proof.
  induction l as [|x l IH]; simpl; [done|]. rewrite NoDup_cons. intros [Hx Hl].
  destruct (p x); simpl; [|by apply IH]. constructor; [|by apply IH].
  rewrite list_elem_of_fmap. intros (y & E & Hy). apply Hx, list_elem_of_fmap. exists y.
  split; [done|]. by apply list_elem_of_In, filter_In in Hy as [?%list_elem_of_In _].
Qed.
Lemma open_rows_NoDup db locked now : NoDup (map d_ID (open_rows db locked now)).
Proof. apply NoDup_filter_map. rewrite sort_slice_perm. apply due_rows_NoDup. Qed.
Lemma elem_of_take_list {A} n (l : list A) x : x ∈ take n l -> x ∈ l.
Proof. intros Hx. rewrite <- (take_drop n l). apply elem_of_app. by left. Qed.
Lemma sorted_take {A} (R : A -> A -> Prop) n l x y :
  StronglySorted R l -> x ∈ take n l -> y ∈ l -> y ∉ take n l -> R x y.
Proof.
  intros Hs. revert n. induction Hs as [|z l Hs IH Hf]; intros [|n]; simpl; [by intros ?%elem_of_nil..|].
  rewrite !elem_of_cons. intros [->|Hx] Hy Hn; (destruct Hy as [->|Hy]; [by destruct Hn; left|]).
  - by rewrite Forall_forall in Hf; apply Hf.
  - apply (IH n); auto.
Qed.

Lemma scan_item_Ok db owner id item : scan_item db owner id = Ok item ->
  item.(ri_AllocationID) = id /\ item.(ri_ClaimOwner) = owner /\
  exists a, db.(allocations) !! id = Some a /\ item.(ri_LifecycleState) = a.(a_State).
Proof.
  unfold scan_item. destruct (allocation_reconcile_queue db !! id) as [q|]; simpl; [|done].
  destruct (allocations db !! id) as [a|]; simpl; [|done]. destruct (runs db !! _) as [r|]; simpl; [|done].
  destruct (nodes db !! _) as [n|]; simpl; [|done]. intros Hx. apply bind_Ok in Hx as (ref & _ & Hx).
  injection Hx as <-. simpl. eauto.
Qed.
Lemma scan_items_Ok db owner ids : forall out items,
  foldM (fun out id => item ← scan_item db owner id; Ok (out ++ [item])) out ids = Ok items ->
  exists new, items = out ++ new /\ map ri_AllocationID new = ids /\
    Forall (fun item => scan_item db owner item.(ri_AllocationID) = Ok item) new.
Proof.
  induction ids as [|id ids IH]; simpl; intros out items Hx.
  - injection Hx as <-. exists []. by rewrite app_nil_r.
  - apply bind_Ok in Hx as (out' & Hid & Hx). apply bind_Ok in Hid as (item & Hs & E). injection E as <-.
    destruct (IH _ _ Hx) as (new & -> & <- & Hf). exists (item :: new).
    pose proof (scan_item_Ok _ _ _ _ Hs) as [E _]. rewrite <- app_assoc. simpl. rewrite E.
    split_and!; [done..|]. constructor; [by rewrite E|done].
Qed.

Definition round_limit (limit : Z) : Z := if limit <=? 0 then DefaultReconcileLimit else limit.
Lemma ClaimDue_Ok locked owner limit now ttl db db' items :
  ClaimDueReconcileItems locked owner limit now ttl db = (db', Ok items) ->
  let ids := claim_candidates db locked (round_limit limit) (sql_time now) in
  let claimed := claim_row (TrimSpace owner) (sql_time (Add now ttl)) (sql_time now) in
  TrimSpace owner <> "" /\ 0 < ttl /\ map ri_AllocationID items ≡ₚ ids /\
  Forall (fun item => scan_item db (TrimSpace owner) item.(ri_AllocationID) = Ok item) items /\
  db' = set_queue db (map_imap (fun id q => Some (if bool_decide (id ∈ ids) then claimed q else q))
                        db.(allocation_reconcile_queue)).
Proof.
  unfold ClaimDueReconcileItems, round_limit. cbv zeta. destruct (String.eqb_spec (TrimSpace owner) ""); [done|].
  destruct (Z.leb_spec ttl 0); [done|]. destruct (forallb _ _); [|done].
  intros [= <- Hi]. apply scan_items_Ok in Hi as (new & -> & E & Hf). simpl.
  split_and!; [done|done| |done|done]. rewrite E. apply sort_slice_perm.
Qed.

(** C19: one claim round.  It takes at most the limit of items, each due,
    claimed by nobody and not locked by another round, and marks exactly those
    with the owner and the deadline of the claim; when it takes fewer than the
    limit nothing due is left; and it is fair to the nodes: what it leaves ranks
    no lower among the due items of its own node than what it takes. *)
Theorem ClaimDue_spec locked owner limit now ttl db db' items :
  ClaimDueReconcileItems locked owner limit now ttl db = (db', Ok items) ->
  let ids := map ri_AllocationID items in
  let rows := due_rows db (sql_time now) in
  NoDup ids /\ Z.of_nat (length items) <= round_limit limit /\
  (forall item, item ∈ items -> item.(ri_ClaimOwner) = TrimSpace owner /\
     exists q, db.(allocation_reconcile_queue) !! item.(ri_AllocationID) = Some q /\
       q.(q_NextRunAt) <= sql_time now /\ live_claim q (sql_time now) = false /\
       item.(ri_AllocationID) ∉ locked /\
       db'.(allocation_reconcile_queue) !! item.(ri_AllocationID) =
         Some (claim_row (TrimSpace owner) (sql_time (Add now ttl)) (sql_time now) q)) /\
  (forall id, id ∉ ids -> db'.(allocation_reconcile_queue) !! id = db.(allocation_reconcile_queue) !! id) /\
  (forall y, y ∈ rows -> y.(d_ID) ∉ locked -> y.(d_ID) ∉ ids ->
     Z.of_nat (length items) = round_limit limit /\
     forall x, x ∈ rows -> x.(d_ID) ∈ ids -> (node_rank rows x <= node_rank rows y)%nat).
Proof.
  intros Hx ids rows. apply ClaimDue_Ok in Hx as (_ & _ & Hp & Hf & ->). fold ids in Hp.
  set (cand := claim_candidates _ _ _ _) in *. set (open := open_rows db locked (sql_time now)) in *.
  assert (Ec : cand = map d_ID (take (Z.to_nat (round_limit limit)) open)) by done.
  assert (Hlen : length items = length (take (Z.to_nat (round_limit limit)) open)).
  { rewrite <- (length_map ri_AllocationID). fold ids. rewrite Hp, Ec. apply length_map. }
  assert (Hlim : 0 < round_limit limit) by (unfold round_limit, DefaultReconcileLimit; case_match; lia).
  destruct (proj2 (proj2 (set_frames db))
    (map_imap (fun id q => Some (if bool_decide (id ∈ cand)
       then claim_row (TrimSpace owner) (sql_time (Add now ttl)) (sql_time now) q else q))
       (allocation_reconcile_queue db))) as (_ & _ & ->).
  setoid_rewrite map_lookup_imap. split; [|split; [|split; [|split]]].
  - rewrite Hp, Ec. rewrite <- firstn_map. eapply sublist_NoDup; [apply open_rows_NoDup|apply sublist_take].
  - rewrite Hlen, length_take. lia.
  - intros item Hi. assert (Hid : item.(ri_AllocationID) ∈ cand) by (rewrite <- Hp; by apply list_elem_of_fmap_2).
    rewrite Forall_forall in Hf. destruct (scan_item_Ok _ _ _ _ (Hf _ Hi)) as (_ & Eo & _). split; [done|].
    pose proof Hid as Hc. rewrite Ec in Hid. apply list_elem_of_fmap in Hid as (x & E & Hin).
    apply elem_of_take_list in Hin as Hx.
    apply open_rows_elem in Hx as [Hx Hl]. apply due_rows_elem in Hx as (q & a & r & n & Hq & _ & _ & _ & _ & _ & Hle & Hlive).
    exists q. rewrite E, Hq. simpl. rewrite <- E, bool_decide_eq_true_2 by done. by rewrite E.
  - intros id Hid. rewrite Hp in Hid. destruct (allocation_reconcile_queue db !! id); simpl; [|done].
    by rewrite bool_decide_eq_false_2.
  - intros y Hy Hl Hn. assert (Hyo : y ∈ open) by (by apply open_rows_elem).
    assert (Hyt : y ∉ take (Z.to_nat (round_limit limit)) open)
      by (intros Hin; apply Hn; rewrite Hp, Ec; by apply list_elem_of_fmap_2).
    split.
    + rewrite Hlen, length_take. destruct (Nat.lt_ge_cases (length open) (Z.to_nat (round_limit limit))); [|lia].
      destruct Hyt. by rewrite take_ge by lia.
    + intros x Hx Hxi. assert (Hxo : x ∈ take (Z.to_nat (round_limit limit)) open).
      { pose proof Hxi as Hxc. rewrite Hp, Ec in Hxi. apply list_elem_of_fmap in Hxi as (x' & E & Hin).
        assert (x = x') as ->; [|done]. eapply (NoDup_map_inj d_ID); [apply due_rows_NoDup|done| |done].
        by apply elem_of_take_list, open_rows_elem in Hin as [? _]. }
      pose proof (sorted_take _ _ _ _ _ (open_rows_sorted _ _ _) Hxo Hyo Hyt) as Hr.
      unfold not_after, claim_less in Hr. rewrite orb_false_iff, Nat.ltb_ge in Hr. apply Hr.
Qed.

(** ** Fencing *)
Definition unclaimed (db : DB) (id owner : string) (now : time) : Prop :=
  forall intent, claim_held db (TrimSpace id) (TrimSpace owner) intent (sql_time now) = false.
Definition rejects {A} (m : Tx A) (db : DB) : Prop := exists e, m db = (db, Err e).

Lemma rejects_withTx {A} (m : Tx A) db : rejects m db -> rejects (withTx m) db.
Proof. intros [e E]. exists e. unfold withTx. rewrite E. by destruct (ShouldCommitError e). Qed.
Lemma rejects_gets {A B} (f : DB -> A) (k : A -> Tx B) db : rejects (k (f db)) db -> rejects (x ← gets f; k x) db.
Proof. done. Qed.
Lemma rejects_guard {B} b e (k : () -> Tx B) db : (b = true -> rejects (k ()) db) -> rejects (x ← guard_tx b e; k x) db.
Proof. destruct b; [by intros Hk; apply Hk|]. intros _. by exists e. Qed.
Lemma rejects_claim {B} id owner intent now (k : () -> Tx B) db :
  unclaimed db id owner now -> rejects (x ← RequireReconcileClaim id owner intent now; k x) db.
Proof.
  intros Hu. exists ErrReconcileClaimLost. unfold RequireReconcileClaim, mbind, tx_bind, gets.
  by rewrite (Hu intent).
Qed.
Lemma update_queue_never id f db : update_queue id (fun _ => false) f db = (db, Ok 0).
Proof. unfold update_queue. by case_match. Qed.

(** The operations that a worker performs under its claim. *)
Lemma unclaimed_rejects NewSHA1 id owner now db :
  unclaimed db id owner now ->
  (forall message, rejects (MarkAllocationCreateFailed id owner message now) db) /\
  (forall conditions, rejects (CompleteAllocationStart id owner conditions now) db) /\
  (forall snapshot, rejects (CompleteAllocationRelease NewSHA1 id owner snapshot now) db) /\
  rejects (CompleteAllocationReleaseAcknowledgement id owner now) db /\
  (forall message, rejects (MarkRootfsSnapshotFailed id owner message now) db) /\
  (forall intent ttl, 0 < ttl -> RenewReconcileClaim id owner intent now ttl db = (db, Ok false)) /\
  (forall req, TrimSpace req.(sr_AllocationID) = TrimSpace id ->
     ScheduleClaimedReconcile req owner now db = (db, Ok false)).
Proof.
  intros Hu. split_and!; intros.
  - apply rejects_withTx, rejects_gets, rejects_guard. intros _. by apply rejects_claim.
  - apply rejects_withTx, rejects_gets, rejects_guard. intros _. by apply rejects_claim.
  - apply rejects_withTx, rejects_gets. destruct (a ← _; _) as [[a r]|]; [|eexists; reflexivity].
    apply rejects_claim. intros intent. rewrite TrimSpace_idempotent. apply Hu.
  - by apply rejects_withTx, rejects_claim.
  - by apply rejects_withTx, rejects_claim.
  - unfold RenewReconcileClaim. destruct (Z.leb_spec ttl 0); [lia|].
    unfold mbind, tx_bind, gets, wrap. by rewrite (Hu intent), update_queue_never.
  - unfold ScheduleClaimedReconcile, mbind, tx_bind, gets, wrap. match goal with E : _ = TrimSpace id |- _ => rewrite E end.
    by rewrite (Hu (sr_Intent req)), update_queue_never.
Qed.

(** C20: fencing.  Once another worker has claimed an item, everything its former
    owner still tries under the lost claim is refused and leaves the store as it
    was: failing the creation, completing the start or the release, acknowledging
    it, failing the snapshot, renewing the claim and rescheduling. *)
Theorem claim_fencing NewSHA1 locked owner limit now ttl db db' items item former later id :
  ClaimDueReconcileItems locked owner limit now ttl db = (db', Ok items) -> item ∈ items ->
  TrimSpace id = item.(ri_AllocationID) -> TrimSpace former <> TrimSpace owner ->
  (forall message, rejects (MarkAllocationCreateFailed id former message later) db') /\
  (forall conditions, rejects (CompleteAllocationStart id former conditions later) db') /\
  (forall snapshot, rejects (CompleteAllocationRelease NewSHA1 id former snapshot later) db') /\
  rejects (CompleteAllocationReleaseAcknowledgement id former later) db' /\
  (forall message, rejects (MarkRootfsSnapshotFailed id former message later) db') /\
  (forall intent ttl', 0 < ttl' -> RenewReconcileClaim id former intent later ttl' db' = (db', Ok false)) /\
  (forall req, TrimSpace req.(sr_AllocationID) = TrimSpace id ->
     ScheduleClaimedReconcile req former later db' = (db', Ok false)).
Proof.
  intros Hx Hi Eid Hne. apply unclaimed_rejects. intros intent.
  destruct (claim_held _ _ _ _ _) eqn:Hc; [|done]. exfalso. apply claim_held_spec in Hc as (q & a & Hq & _ & Ho & _).
  apply ClaimDue_Ok in Hx as (_ & _ & Hp & Hf & ->).
  assert (Hid : item.(ri_AllocationID) ∈ claim_candidates db locked (round_limit limit) (sql_time now))
    by (rewrite <- Hp; by apply list_elem_of_fmap_2).
  match type of Hq with context [set_queue ?d ?m] => rewrite (proj2 (proj2 (proj2 (proj2 (set_frames d)) m))) in Hq end.
  rewrite map_lookup_imap, Eid in Hq. destruct (allocation_reconcile_queue db !! _) as [q0|]; simpl in Hq; [|done].
  rewrite bool_decide_eq_true_2 in Hq by done. injection Hq as <-. by apply Hne.
Qed.
End claims.

(** ** Examples: two items on two nodes, a round of one *)
Definition ex_env_run : RunRow :=
  mkRun "default" "env-1" RUN_PLACED zero zero zero ∅ 1 0 0 None WDC_UNSPECIFIED "" no_snapshot.
Definition ex_bound_alloc (run node : string) : AllocRow := mkAlloc run node ALS_BOUND 500 1024 0 0 0 None None.
Definition ex_due (at_ : time) : QueueRow := mkQueue at_ 0 "" "" None 0 0.
Definition ex_node (id : string) : NodeRecord := mkNodeRecord id (id +:+ ":9000") None LifecycleActive 0 0 0 "".
Definition ex_queue : DB :=
  mkDB {["run-1" := ex_env_run; "run-2" := ex_env_run; "run-3" := ex_env_run]}
    {["alloc-1" := ex_bound_alloc "run-1" "n1"; "alloc-2" := ex_bound_alloc "run-2" "n1";
      "alloc-3" := ex_bound_alloc "run-3" "n2"]}
    {["alloc-1" := ex_due 1; "alloc-2" := ex_due 2; "alloc-3" := ex_due 3]} ∅ ∅ ∅ 0 [] ∅ ∅
    {["n1" := ex_node "n1"; "n2" := ex_node "n2"]} ∅ ∅ ∅ ∅ ∅ [] [] ∅.
Definition ex_round : DB * result (list ReconcileItem) :=
  @ClaimDueReconcileItems microseconds ∅ "worker-1" 2 (10 * Second) Minute ex_queue.

Lemma ClaimDue_spec_witness :
  exists items, ex_round.2 = Ok items /\ map ri_AllocationID items = ["alloc-1"; "alloc-3"] /\
    NoDup (map ri_AllocationID items) /\
    ex_round.1.(allocation_reconcile_queue) !! "alloc-2" = ex_queue.(allocation_reconcile_queue) !! "alloc-2".
Proof.
  destruct ex_round as [db' [items|e]] eqn:E; [|vm_compute in E; discriminate].
  exists items. split; [reflexivity|].
  destruct (@ClaimDue_spec microseconds ∅ "worker-1" 2 (10 * Second) Minute ex_queue db' items E)
    as (Hn & _ & _ & Hq & _).
  assert (Ei : map ri_AllocationID items = ["alloc-1"; "alloc-3"]).
  { apply (f_equal snd) in E. simpl in E. vm_compute in E. injection E as <-. reflexivity. }
  split; [exact Ei|]. split; [exact Hn|]. simpl. apply Hq. rewrite Ei.
  apply not_elem_of_cons. split; [discriminate|]. apply not_elem_of_cons. split; [discriminate|]. apply not_elem_of_nil.
Defined.

Lemma claim_fencing_witness :
  exists e, @MarkAllocationCreateFailed microseconds "alloc-1" "worker-0" "failed" (11 * Second) ex_round.1
            = (ex_round.1, Err e).
Proof.
  destruct ex_round as [db' [items|e]] eqn:E; [|vm_compute in E; discriminate].
  destruct items as [|item items]; [vm_compute in E; discriminate|].
  assert (Ei : TrimSpace "alloc-1" = ri_AllocationID item).
  { apply (f_equal snd) in E. simpl in E. vm_compute in E. injection E as <- _. reflexivity. }
  destruct (@claim_fencing amd64 microseconds id ∅ "worker-1" 2 (10 * Second) Minute ex_queue db' (item :: items) item
    "worker-0" (11 * Second) "alloc-1" E (list_elem_of_here _ _) Ei) as [Hc _]; [vm_compute; discriminate|].
  exact (Hc "failed").
Defined.
