(* ===== verification/Safety.v ===== *)
(** * The store as a whole

    Every transaction of the run store, the operator store, admission, the
    tunnel store and retention as one step relation ([store_step], [step]), and
    what holds after any sequence of them: the refinement of the lifecycle
    machine, the life of an Allocation and of a tunnel session, and the exclusion
    that reconcile claims give. *)
From S2P Require Import Prelude Proto Resource Allocation Capability CapabilityFacts Node Placement Execution Store Reconcile RunStore StoreFacts Admission AdmissionFacts Retention RetentionFacts Tunnel TunnelFacts.
Import retention tunnel.

(** ** Statements that leave the tunnels alone *)
Lemma same_tunnels_refl db : same_tunnels db db.
Proof. done. Qed.
Lemma same_tunnels_setters db :
  (forall x, same_tunnels db (set_runs db x)) /\ (forall x, same_tunnels db (set_allocations db x)) /\
  (forall x, same_tunnels db (set_queue db x)) /\ (forall x, same_tunnels db (set_grants db x)) /\
  (forall x, same_tunnels db (set_cursors db x)) /\ (forall x, same_tunnels db (set_run_secrets db x)) /\
  (forall x, same_tunnels db (set_environments db x)) /\ (forall x, same_tunnels db (set_requirements db x)) /\
  (forall x, same_tunnels db (set_conditions db x)) /\ (forall x, same_tunnels db (set_quota_events db x)) /\
  (forall x, same_tunnels db (set_audit_events db x)) /\ (forall x, same_tunnels db (set_enrollments db x)).
Proof. by destruct db. Qed.

(** A statement whose branches all leave the tunnels as they are. *)
Ltac tun_statement :=
  apply tun_same; intros ?; repeat (case_match; simpl);
  first [apply same_tunnels_refl | apply same_tunnels_setters].

Section statements.
Context `{GoRuntime} `{SqlTime}.

Lemma tun_RevokeActive ids r c n : tun (RevokeActiveForAllocationsTx ids r c n).
Proof.
  unfold RevokeActiveForAllocationsTx. case_match; [apply tun_ret|]. cbv zeta. apply tun_close; [done|].
  intros t. by rewrite andb_true_iff; intros [_ ?].
Qed.
Lemma tun_update_run id g f : tun (update_run id g f).
Proof. unfold update_run. tun_statement. Qed.
Lemma tun_update_allocation id g f : tun (update_allocation id g f).
Proof. unfold update_allocation. tun_statement. Qed.
Lemma tun_update_queue id g f : tun (update_queue id g f).
Proof. unfold update_queue. tun_statement. Qed.
Lemma tun_delete_queue id g : tun (delete_queue id g).
Proof. unfold delete_queue. tun_statement. Qed.
Lemma tun_ScheduleReconcile r n : tun (ScheduleReconcile r n).
Proof. unfold ScheduleReconcile. tun_statement. Qed.
Lemma tun_ClaimDue l o n t d : tun (ClaimDueReconcileItems l o n t d).
Proof. unfold ClaimDueReconcileItems. tun_statement. Qed.
Lemma tun_NextRevision n : tun (NextAccessGrantRevision n).
Proof. unfold NextAccessGrantRevision. tun_statement. Qed.
Lemma tun_audit e : tun (insertAdminAuditEvent e).
Proof. unfold insertAdminAuditEvent. tun_statement. Qed.
Lemma tun_insert_environment e : tun (insert_environment e).
Proof. unfold insert_environment. tun_statement. Qed.
Lemma tun_insert_run id r : tun (insert_run id r).
Proof. unfold insert_run. tun_statement. Qed.
Lemma tun_insert_allocation id a : tun (insert_allocation id a).
Proof. unfold insert_allocation. tun_statement. Qed.
End statements.

Create HintDb tun.
#[export] Hint Resolve tun_ret tun_fail tun_gets tun_lift tun_guard tun_RevokeActive tun_update_run
  tun_update_allocation tun_update_queue tun_delete_queue tun_ScheduleReconcile tun_ClaimDue tun_NextRevision
  tun_audit tun_insert_environment tun_insert_run tun_insert_allocation : tun.
Ltac tun_auto :=
  repeat first
    [ match goal with |- forall _, _ => intro end
    | solve [eauto 2 with tun nocore]
    | apply tun_guard
    | apply tun_bind
    | apply tun_wrap
    | apply tun_when
    | apply tun_withTx
    | apply tun_withTx_admin
    | apply tun_for
    | match goal with |- tun (modify _) => apply tun_modify; intros ?; repeat case_match;
         first [apply same_tunnels_refl | apply same_tunnels_setters] end
    | match goal with |- tun (fun _ => _) => tun_statement end
    | case_match ].

(** ** Retention keeps the invariant of the tunnels *)
Lemma thinner_inv db db' : thinner db db' -> tunnel_inv db -> tunnel_inv db'.
Proof.
  intros [_ _ Ht Er _] [C R U]. split.
  - intros sid t Hs. by eapply C, Ht.
  - intros sid t Hs. rewrite Er. by eapply R, Ht.
  - intros s s' t t' Hs Hs'. eapply U; by apply Ht.
Qed.

(** ** Every transaction *)
Section steps.
Context `{Fresh : Admissible} `{GoRuntime} `{SqlTime}.
Context (ToASCII : string -> result string) (NewSHA1 : string -> string).
Context (sha256_hex encryptNodeToken : string -> string) (decryptNodeToken : string -> result string).

(** The acknowledgement of a release is only called for items that were released
    when they were claimed ([reconcileDelete], reconciler.go). *)
Inductive store_step (db : DB) : DB -> Prop :=
| do_AdmitRun svc params now runUUID allocUUID elapsed eventID wall :
    is_uuid allocUUID = true -> may_admit ("alloc-" +:+ allocUUID) ->
    store_step db (fst (AdmitRun ToASCII svc params now runUUID allocUUID elapsed eventID wall db))
| do_BatchReport nodeID l now : store_step db (fst (BatchReportAllocationLifecycle nodeID l now db))
| do_ReconcileNodeInventory snapshot now : store_step db (fst (ReconcileNodeInventory snapshot now db))
| do_ReconcileNodeUnavailable nodeID now : store_step db (fst (ReconcileNodeUnavailable nodeID now db))
| do_ClaimDue locked owner limit now ttl : store_step db (fst (ClaimDueReconcileItems locked owner limit now ttl db))
| do_RenewClaim id owner intent now ttl : store_step db (fst (RenewReconcileClaim id owner intent now ttl db))
| do_ScheduleClaimed req owner now : store_step db (fst (ScheduleClaimedReconcile req owner now db))
| do_CreateFailed id owner message now : store_step db (fst (MarkAllocationCreateFailed id owner message now db))
| do_CancelRun runID now : store_step db (fst (CancelRun runID now db))
| do_LoadStart id : store_step db (fst (LoadStartAllocation id db))
| do_CompleteStart id owner conditions now : store_step db (fst (CompleteAllocationStart id owner conditions now db))
| do_Release id owner snapshot now : store_step db (fst (CompleteAllocationRelease NewSHA1 id owner snapshot now db))
| do_Acknowledge id owner now :
    (forall a, db.(allocations) !! TrimSpace id = Some a -> a.(a_State) <> ALS_RELEASING) ->
    store_step db (fst (CompleteAllocationReleaseAcknowledgement id owner now db))
| do_SnapshotFailed id owner message now : store_step db (fst (MarkRootfsSnapshotFailed id owner message now db))
| do_IssueGrant id purpose ttl now grantID tokenHash :
    store_step db (fst (IssueAllocationAccessGrant id purpose ttl now grantID tokenHash db))
| do_BatchConditions nodeID reports now :
    store_step db (fst (BatchReportAllocationCapabilityConditions nodeID reports now db))
| do_Force req now eventID : store_step db (fst (ForceAllocationLifecycleRetry req now eventID db))
| do_Fail req now eventID : store_step db (fst (FailAllocationLifecycleRetry req now eventID db))
| do_Clear req now eventID : store_step db (fst (ClearAllocationLifecycleRetry req now eventID db))
| do_tunnel db' : tunnel_step sha256_hex encryptNodeToken decryptNodeToken db db' -> store_step db db'.

(** Retention is the only transaction that deletes Runs. *)
Inductive step (db : DB) : DB -> Prop :=
| keep db' : store_step db db' -> step db db'
| cleanup enabled cfg now locked clock : step db (fst (Controller_Cleanup enabled cfg now locked clock db)).

Lemma alloc_id_trimmed uuid : is_uuid uuid = true -> TrimSpace ("alloc-" +:+ uuid) = "alloc-" +:+ uuid.
Proof. intros Hu. apply TrimSpace_graph. rewrite all_bytes_app. by rewrite (uuid_graph _ Hu). Qed.

(** *** Tunnel transactions leave the lifecycle tables alone *)
Lemma frame_update_tunnel id g f : frame (update_tunnel id g f).
Proof. intros db. unfold update_tunnel. repeat case_match; try done; apply same_tables_setters. Qed.
Lemma frame_insert_tunnel id t : frame (insert_tunnel id t).
Proof. intros db. unfold insert_tunnel. repeat case_match; try done; apply same_tables_setters. Qed.
Lemma frame_insertEvent e : frame (insertEventTx e).
Proof. intros db. unfold insertEventTx. repeat case_match; try done; apply same_tables_setters. Qed.
Lemma frame_nextRevision : frame nextRevision.
Proof. intros db. unfold nextRevision. repeat case_match; try done; apply same_tables_setters. Qed.
Lemma frame_expireDue now : frame (expireDue now).
Proof. apply frame_close_tunnels. Qed.
Lemma frame_lock_session id g : frame (lock_session id g).
Proof. intros db. unfold lock_session. by repeat case_match. Qed.
Lemma frame_requireActiveNode n : frame (requireActiveNode n).
Proof. intros db. unfold requireActiveNode. by repeat case_match. Qed.
Lemma frame_withTx_admin {A} (m : Tx A) : frame m -> frame (withTx_admin m).
Proof. intros Hm db. specialize (Hm db). unfold withTx_admin. by destruct (m db) as [? [?|?]]. Qed.
Lemma frame_on_error {A} f (m : Tx A) : frame m -> frame (on_error f m).
Proof. intros Hm db. specialize (Hm db). unfold on_error. by destruct (m db) as [? [?|?]]. Qed.
#[local] Hint Resolve frame_update_tunnel frame_insert_tunnel frame_insertEvent frame_nextRevision frame_expireDue
  frame_lock_session frame_requireActiveNode : frame.
Ltac frame_auto :=
  repeat first
    [ match goal with |- forall _, _ => intro end
    | solve [eauto 2 with frame nocore]
    | apply frame_withTx_admin | apply frame_on_error
    | apply frame_bind | apply frame_guard | apply frame_when | apply frame_wrap | case_match
    | match goal with |- frame (fun db => (db, _)) => intros ?; apply same_tables_refl end ].
Lemma tunnel_step_frame db db' : tunnel_step sha256_hex encryptNodeToken decryptNodeToken db db' -> same_tables db db'.
Proof.
  assert (Hf : forall A (m : Tx A), frame m -> same_tables db (fst (m db))) by auto.
  destruct 1; apply Hf;
    unfold Create, Renew, Revoke, ReportStatus, reportNodeStatus, updateStatus, ReportPeerEvent, getWithTokens,
      ValidatePeer, tunnel.List, ListEvents, ResolveRelayTarget, WatchNode_turn, lookupAllocation, returning,
      getWithTokens; frame_auto.
Qed.

(** *** Every step moves Allocations by machine steps *)
Lemma store_step_moves db db' : inv db -> store_step db db' -> moves db db'.
Proof.
  intros Hinv []; auto using BatchReport_moves, ReconcileNodeInventory_moves, ReconcileNodeUnavailable_moves,
    ClaimDue_moves, Renew_moves, ScheduleClaimed_moves, CreateFailed_moves, CancelRun_moves, LoadStart_moves,
    CompleteStart_moves, Release_moves, Acknowledgement_moves, SnapshotFailed_moves, IssueGrant_moves,
    BatchConditions_moves, Force_moves, Fail_moves, Clear_moves.
  - apply AdmitRun_moves; [done|by apply alloc_id_trimmed|done].
  - apply moves_same_tables; [done|by apply tunnel_step_frame].
Qed.
Lemma step_moves db db' : inv db -> step db db' -> moves db db'.
Proof.
  intros Hinv [d Hs|]; [by apply store_step_moves|]. unfold Controller_Cleanup.
  case_match; [by apply moves_refl|]. by apply Cleanup_moves.
Qed.
Lemma steps_moves db db' : inv db -> rtc step db db' -> moves db db'.
Proof.
  intros Hi Hs. induction Hs as [db|db d db' Hs _ IH]; [by apply moves_refl|].
  pose proof (step_moves _ _ Hi Hs) as Hm. eapply moves_trans; [exact Hm|]. apply IH. by eapply moves_inv.
Qed.

(** *** Every step but retention respects the life of sessions *)
Lemma tun_report nodeID l now : tun (BatchReportAllocationLifecycle nodeID l now).
Proof.
  apply tun_withTx, tun_bind; [apply tun_gets|]. intros locked. revert locked.
  induction l as [|obs l IH]; simpl; intros locked; [apply tun_ret|]. apply tun_bind; [|auto].
  unfold report_one, persist_observation, terminate_allocation, deleteRunSecretReferences,
    RevokeInteractiveAccessGrants. tun_auto.
Qed.
#[local] Hint Resolve tun_report : tun.
Lemma store_step_tun db db' : tunnel_inv db -> store_step db db' -> tun_moves db db'.
Proof.
  intros Hi Hs.
  assert (Hf : forall A (m : Tx A), tun m -> tun_moves db (fst (m db))) by auto.
  destruct Hs; [..|by eapply tunnel_step_moves]; apply Hf;
    unfold AdmitRun, AdmitCandidate, bind_run, LockQuotaPolicy, LockQuotaRows, activeNamespaceAllocationUsage,
      activeCandidateAllocationUsage, insertQuotaAdmissionRejectedEvent, insertRunSecretReferences,
      InsertCapabilityRequirements, ReconcileNodeInventory, ReconcileNodeUnavailable, RenewReconcileClaim,
      ScheduleClaimedReconcile, MarkAllocationCreateFailed, RequireReconcileClaim, CancelRun,
      LoadStartAllocation, CompleteAllocationStart, CompleteAllocationRelease, publish_snapshot, release_queue,
      CompleteAllocationReleaseAcknowledgement, MarkRootfsSnapshotFailed, IssueAllocationAccessGrant,
      BatchReportAllocationCapabilityConditions, ReplaceCapabilityConditions, ForceAllocationLifecycleRetry,
      FailAllocationLifecycleRetry, ClearAllocationLifecycleRetry, lockLifecycleRetry, loadLifecycleRetry,
      failRunLifecycleRetry, deleteLifecycleRetry, requireNoActiveAllocationCleanupState,
      requireRunConvergedForClear, audit, deleteRunSecretReferences, deleteAllocationRunSecretReferences,
      RevokeInteractiveAccessGrants; tun_auto.
Qed.
Lemma store_steps_tun db db' : tunnel_inv db -> rtc store_step db db' -> tun_moves db db'.
Proof.
  intros Hi Hs. induction Hs as [db|db d db' Hs _ IH]; [by apply tun_moves_refl|].
  pose proof (store_step_tun _ _ Hi Hs) as Hm. eapply tun_moves_trans; [exact Hm|]. apply IH, Hm.
Qed.

(** C1: the store implements the lifecycle machine.  Whatever transactions run,
    in any order and with any outcome, from a store that satisfies the invariant,
    the invariant holds again and what is visible of every Allocation has moved
    by steps of the machine [life_step]; an Allocation appears only where an
    admission may draw its identifier. *)
Theorem store_refines_lifecycle db db' :
  inv db -> rtc step db db' ->
  inv db' /\ forall id, rtc (life_step (may_admit id)) (view db id) (view db' id).
Proof.
  intros Hi Hs. pose proof (steps_moves _ _ Hi Hs) as Hm. split; [by eapply moves_inv|]. apply Hm.
Qed.

(** C2: in every store reachable from one without Allocations, each Allocation
    has one Run of its own; the Run is terminal exactly while the Allocation is
    being torn down or released; the deadline of its outputs is set exactly then;
    and a pending teardown is always queued, so that it cannot be forgotten. *)
Theorem store_invariant db0 db id a :
  db0.(allocations) = ∅ -> rtc step db0 db -> db.(allocations) !! id = Some a ->
  exists r, db.(runs) !! a.(a_RunID) = Some r /\
    (IsTerminal r.(r_Status) = true <-> a.(a_State) = ALS_RELEASING \/ a.(a_State) = ALS_RELEASED) /\
    (is_Some a.(a_OutputExpiresAt) <-> a.(a_State) = ALS_RELEASING \/ a.(a_State) = ALS_RELEASED) /\
    (a.(a_State) = ALS_RELEASING -> is_Some (db.(allocation_reconcile_queue) !! id)) /\
    (forall id' a', db.(allocations) !! id' = Some a' -> a'.(a_RunID) = a.(a_RunID) -> id' = id).
Proof.
  intros H0e Hs Ha. pose proof (inv_no_allocations _ H0e) as Hi0.
  pose proof (moves_inv _ _ Hi0 (steps_moves _ _ Hi0 Hs)) as Hi.
  destruct (inv_row _ _ _ Hi Ha) as (r & Hr & Ht & Hx & Hst & Hq). exists r.
  assert (Hc : IsCleanupState a.(a_State) = true <-> a.(a_State) = ALS_RELEASING \/ a.(a_State) = ALS_RELEASED)
    by (destruct (a_State a); simpl in *; naive_solver).
  split; [done|]. split; [by rewrite Ht|]. split; [|split; [done|]].
  - rewrite <- Hc, <- Hx. destruct (a_OutputExpiresAt a); simpl; split; (done || by intros []).
  - intros id' a' Ha' E. by eapply (wf_unique _ (proj1 Hi)).
Qed.

(** C25: whatever transactions of the run, operator and tunnel stores run, in any
    order and with any outcome, a session keeps its binding (Allocation, port,
    relay, creator, token hashes), its revision, deadline and byte counts never go
    back, and once it is revoked, expired or failed it never changes status,
    reason, revision or deadline again; closing it publishes a revision beyond
    every revision known before.  Two active sessions of one Allocation never
    share a remote port. *)
Theorem session_life db db' sid t :
  tunnel_inv db -> rtc store_step db db' -> db.(tunnel_sessions) !! sid = Some t ->
  (exists t', db'.(tunnel_sessions) !! sid = Some t' /\ row_le db.(tunnel_sessions_revision) t t') /\
  db.(tunnel_sessions_revision) <= db'.(tunnel_sessions_revision) /\
  (forall s1 s2 t1 t2, db'.(tunnel_sessions) !! s1 = Some t1 -> db'.(tunnel_sessions) !! s2 = Some t2 ->
     active_tunnel t1 = true -> active_tunnel t2 = true -> t1.(t_AllocationID) = t2.(t_AllocationID) ->
     t1.(t_RemotePort) = t2.(t_RemotePort) -> s1 = s2).
Proof.
  intros Hi Hs Ht. destruct (store_steps_tun _ _ Hi Hs) as [Hi' Hle].
  split; [by apply (tl_session _ _ Hle)|]. split; [by apply tl_revision|apply (ti_unique _ Hi')].
Qed.

(** *** Every step, retention included, as a watching node sees it *)
Lemma thinner_news db db' : thinner db db' -> news db db'.
Proof.
  intros [_ _ Ht Er _]. split; [by rewrite Er|]. intros sid t Hs. left. exists t. split; [by apply Ht|apply row_le_refl].
Qed.
Lemma step_news db db' : tunnel_inv db -> step db db' -> tunnel_inv db' /\ news db db'.
Proof.
  intros Hi [d Hs|enabled cfg now locked clock].
  - destruct (store_step_tun _ _ Hi Hs) as [Hi' Hle]. split; [done|by apply tunnel_le_news].
  - pose proof (thinner_Cleanup enabled cfg now locked clock db) as Hth. split; [by eapply thinner_inv|by apply thinner_news].
Qed.
Lemma steps_news db db' : tunnel_inv db -> rtc step db db' -> tunnel_inv db' /\ news db db'.
Proof.
  intros Hi Hs. induction Hs as [db|db d db' Hs _ IH]; [done|].
  destruct (step_news _ _ Hi Hs) as [Hi1 L1]. destruct (IH Hi1) as [Hi2 L2]. split; [done|by etrans].
Qed.

(** A cleanup between [db] and [db'] deleted the session, which [db] knew as [t]:
    by then it was closed, its Allocation released, and its Run terminal for
    longer than the retention of terminal Runs. *)
Definition retired (db db' : DB) (sid : string) (t : TunnelRow) : Prop :=
  exists d enabled cfg now locked clock t' rid a r,
    rtc step db d /\ rtc step (fst (Controller_Cleanup enabled cfg now locked clock d)) db' /\
    d.(tunnel_sessions) !! sid = Some t' /\ row_le db.(tunnel_sessions_revision) t t' /\ active_tunnel t' = false /\
    finished_run d (sql_time (Add now (- (NormalizeConfig cfg).(TerminalRunsTTL)))) (sql_time now) rid
      t'.(t_AllocationID) a r.
Lemma retired_l db d db' sid t t1 :
  step db d -> news db d -> d.(tunnel_sessions) !! sid = Some t1 -> row_le db.(tunnel_sessions_revision) t t1 ->
  retired d db' sid t1 -> retired db db' sid t.
Proof.
  intros Hs L Ht1 Hle (d1 & en & cfg & now & lk & cl & t' & rid & a & r & H1 & H2 & Ht' & Hle' & Hrest).
  exists d1, en, cfg, now, lk, cl, t', rid, a, r. split; [by eapply rtc_l|]. do 2 (split; [done|]).
  split; [|done]. eapply row_le_trans; [apply L|done|done].
Qed.
Lemma step_session db d sid t :
  inv db -> tunnel_inv db -> step db d -> db.(tunnel_sessions) !! sid = Some t ->
  (exists t1, d.(tunnel_sessions) !! sid = Some t1 /\ row_le db.(tunnel_sessions_revision) t t1) \/
  exists enabled cfg now locked clock rid a r, d = fst (Controller_Cleanup enabled cfg now locked clock db) /\
    finished_run db (sql_time (Add now (- (NormalizeConfig cfg).(TerminalRunsTTL)))) (sql_time now) rid
      t.(t_AllocationID) a r.
Proof.
  intros Hi Hti [d1 Hst|enabled cfg now locked clock] Ht.
  - left. destruct (store_step_tun _ _ Hti Hst) as [_ Hle]. by apply (tl_session _ _ Hle).
  - destruct (Controller_session enabled cfg now locked clock db sid t Hi Ht) as [Ht1|(_ & rid & a & r & Hf)].
    + left. exists t. split; [done|apply row_le_refl].
    + right. by exists enabled, cfg, now, locked, clock, rid, a, r.
Qed.
Lemma session_gone_retired db db' sid t :
  inv db -> tunnel_inv db -> rtc step db db' -> db.(tunnel_sessions) !! sid = Some t ->
  db'.(tunnel_sessions) !! sid = None -> retired db db' sid t.
Proof.
  intros Hi Hti Hs. revert t. induction Hs as [db|db d db' Hs Hss IH]; intros t Ht Hn; [congruence|].
  destruct (step_news _ _ Hti Hs) as [Hti' L]. pose proof (moves_inv _ _ Hi (step_moves _ _ Hi Hs)) as Hi'.
  destruct (step_session _ _ _ _ Hi Hti Hs Ht) as [(t1 & Ht1 & Hr)|(en & cfg & now & lk & cl & rid & a & r & -> & Hf)].
  - eapply retired_l; [exact Hs|exact L|exact Ht1|exact Hr|by apply IH].
  - exists db, en, cfg, now, lk, cl, t, rid, a, r. do 3 (split; [done|]). split; [apply row_le_refl|]. split; [|done].
    exact (fr_tunnels _ _ _ _ _ _ _ Hf _ _ Ht eq_refl).
Qed.

(** C26: a node that watches its sessions loses no closing that retention has
    left in the store, and sees no session of another node.  Take the stores
    [db0] whose revision the node was last given, [db1] when the next mark was
    read and [db2] when the rows were read, with any transactions between them,
    retention among them.  Every session delivered is bound to the node; every
    session of the node that was active and is closed now is either delivered in
    its final status, or has a revision beyond the new mark, so that it is
    delivered by a later turn.  A session that is no longer there was deleted by
    a cleanup, with a Run that had been terminal for longer than the retention of
    terminal Runs, once it was closed and its Allocation released: a node that
    did not read for that long is never told. *)
Theorem watch_complete db0 db1 db2 nodeID sessions mark :
  inv db0 -> tunnel_inv db0 -> rtc step db0 db1 -> rtc step db1 db2 ->
  loadNodeSessions decryptNodeToken db1 db2 nodeID db0.(tunnel_sessions_revision) = Ok (sessions, mark) ->
  (forall n, n ∈ sessions -> exists t, db2.(tunnel_sessions) !! n.(n_Session).(s_SessionID) = Some t /\
     bound_to db2 nodeID t = true /\ n.(n_Session).(s_Status) = t.(t_Status)) /\
  (forall sid t0, db0.(tunnel_sessions) !! sid = Some t0 -> active_tunnel t0 = true ->
     match db2.(tunnel_sessions) !! sid with
     | Some t2 =>
         active_tunnel t2 = false -> bound_to db2 nodeID t2 = true ->
         (exists n, n ∈ sessions /\ n.(n_Session).(s_SessionID) = sid /\ n.(n_Session).(s_Status) = t2.(t_Status)) \/
         mark < t2.(t_Revision)
     | None => retired db0 db2 sid t0
     end) /\
  db0.(tunnel_sessions_revision) <= mark.
Proof.
  intros Hi Hi0 H01 H12 Hl. destruct (steps_news _ _ Hi0 H01) as [Hi1 L01]. destruct (steps_news _ _ Hi1 H12) as [_ L12].
  destruct (load_complete sha256_hex encryptNodeToken _ _ _ _ _ _ _ L01 L12 Hl) as (Hb & Hc & Hm). split; [done|]. split; [|done].
  intros sid t0 Ht0 Ha0. destruct (tunnel_sessions db2 !! sid) as [t2|] eqn:Ht2; [by eapply Hc|].
  eapply session_gone_retired; [done|done|by etrans|done|done].
Qed.
End steps.

(** ** The life of one Allocation *)
Record life_le (l l' : life) : Prop := {
  le_identity : same_identity l l';
  le_rank : als_rank l.(l_state) <= als_rank l'.(l_state);
  le_version : l.(l_version) <= l'.(l_version);
  le_outcome : IsTerminal l.(l_status) = true ->
    IsTerminal l'.(l_status) = true /\ same_outcome l l' /\ l'.(l_expiry) = l.(l_expiry) }.
Lemma life_le_refl l : life_le l l.
Proof. by split. Qed.
Lemma life_le_trans l1 l2 l3 : life_le l1 l2 -> life_le l2 l3 -> life_le l1 l3.
Proof.
  intros [(I1&I2&I3) R1 V1 O1] [(I1'&I2'&I3') R2 V2 O2]. split; [|lia|lia|].
  - repeat split; congruence.
  - intros Ht. destruct (O1 Ht) as (Ht2 & (A1&A2&A3&A4) & E1). destruct (O2 Ht2) as (Ht3 & (B1&B2&B3&B4) & E2).
    repeat split; congruence.
Qed.
#[export] Instance life_le_preorder : PreOrder life_le.
Proof. split; [exact life_le_refl|exact life_le_trans]. Qed.

Lemma life_step_le l v : life_step False (Some l) v -> match v with Some l' => life_le l l' | None => True end.
Proof.
  intros Hs. inversion Hs as [| ? l' Hp Hp' Hr Ht Ht' Hi Hv Hq Hx | ? l' Hp Es Ht Ht' Hi Hv Hq Hx
    | ? l' Es Es' Hi Ho Hx Hv Hq | ? l' Ht Es Hi Ho Hx Hv Hq | ? queued Hq | ? Hr Hq]; subst; try done.
  - split; [done|done|lia|congruence].
  - split; [done| |lia|congruence]. apply present_iff in Hp. rewrite Es.
    by destruct Hp as [-> | [-> | ->]].
  - split; [done|by rewrite Es, Es'|lia|]. intros Ht. destruct Ho as (E & Ho). by rewrite E.
  - split; [done|by rewrite Es|lia|]. intros _. destruct Ho as (E & Ho). by rewrite E.
Qed.
Lemma life_gone v : rtc (life_step False) None v -> v = None.
Proof. intros Hs. inversion Hs as [|? v1 ? H1 _]; [done|]. inversion H1; contradiction. Qed.
Lemma life_steps_le l v : rtc (life_step False) (Some l) v -> match v with Some l' => life_le l l' | None => True end.
Proof.
  intros Hs. remember (Some l) as v0 eqn:E. revert l E.
  induction Hs as [v|v0 v1 v2 H1 H2 IH]; intros l ->; [reflexivity|].
  pose proof (life_step_le _ _ H1) as Hle. destruct v1 as [l1|].
  - specialize (IH _ eq_refl). by destruct v2; [etrans|].
  - by apply life_gone in H2 as ->.
Qed.

Section life.
Context `{GoRuntime} `{SqlTime}.
Context (ToASCII : string -> result string) (NewSHA1 : string -> string).
Context (sha256_hex encryptNodeToken : string -> string) (decryptNodeToken : string -> result string).

(** Steps in which no admission draws the identifier [id]. *)
Definition others (id : string) : Admissible := fun id' => id' <> id.
Notation run_steps id :=
  (rtc (@step (others id) _ _ ToASCII NewSHA1 sha256_hex encryptNodeToken decryptNodeToken)).

Lemma others_life db db' id : inv db -> run_steps id db db' ->
  rtc (life_step False) (view db id) (view db' id).
Proof.
  intros Hi Hs. pose proof (steps_moves (Fresh := others id) _ _ _ _ _ _ _ Hi Hs) as [_ Hm].
  specialize (Hm id). eapply rtc_subrel; [|exact Hm].
  intros v v' Hv. destruct Hv; [by destruct H1|..]; by econstructor.
Qed.

(** C3: identifiers are not drawn twice, and then an Allocation lives once.
    Whatever runs, it keeps its Run, its node and the resources it is charged
    for, its lifecycle state never goes back and the version of its Run never
    decreases; once the Run is terminal, its status, exit code, diagnostic and
    message and the deadline of its outputs are final; and an Allocation that
    retention has deleted does not come back. *)
Theorem allocation_lives_once db db' id :
  inv db -> run_steps id db db' ->
  match view db id, view db' id with
  | Some l, Some l' => life_le l l'
  | None, Some _ => False
  | _, None => True
  end.
Proof.
  intros Hi Hs. pose proof (others_life _ _ _ Hi Hs) as Hl. destruct (view db id) as [l|].
  - apply life_steps_le in Hl. by destruct (view db' id).
  - apply life_gone in Hl. by rewrite Hl.
Qed.
End life.

(** ** Examples *)
Definition any_id : Admissible := fun _ => True.
Notation ex_steps := (rtc (@store_step any_id amd64 microseconds Ok id ex_hash id ex_decrypt)).
Lemma session_life_witness :
  tunnel_inv ex_open /\ ex_steps ex_open ex_closed /\
  exists t t', ex_open.(tunnel_sessions) !! "s-1" = Some t /\ t.(t_RemotePort) = 20007 /\
    ex_closed.(tunnel_sessions) !! "s-1" = Some t' /\ t'.(t_Status) = TUNNEL_REVOKED /\ 1 < t'.(t_Revision).
Proof.
  assert (Hi : tunnel_inv ex_open) by (apply tunnel_inv_check_ok; vm_compute; reflexivity).
  assert (Hs : ex_steps ex_open ex_closed)
    by (apply rtc_once, do_tunnel; apply step_Revoke).
  split; [exact Hi|]. split; [exact Hs|]. destruct (tunnel_sessions ex_open !! "s-1") as [t|] eqn:Ht; [|vm_compute in Ht; discriminate].
  destruct (@session_life any_id amd64 microseconds Ok id ex_hash id ex_decrypt ex_open ex_closed "s-1" t Hi Hs Ht) as [(t' & Ht' & Hle) _].
  exists t, t'. vm_compute in Ht, Ht'. injection Ht as <-. injection Ht' as <-. repeat split; reflexivity.
Defined.

(** A session that its owner revokes is told at the next read. *)
Definition ex_told : result (list NodeTunnelSession * Z) := loadNodeSessions ex_decrypt ex_closed ex_closed "n1" 1.
Lemma ex_open_told : match ex_told with Ok (sessions, mark) => mark = 2 | _ => False end.
Proof. vm_compute. reflexivity. Qed.
Lemma ex_open_rows : match ex_open.(tunnel_sessions) !! "s-1", ex_closed.(tunnel_sessions) !! "s-1" with
  | Some t0, Some t2 => active_tunnel t0 = true /\ active_tunnel t2 = false /\ bound_to ex_closed "n1" t2 = true /\
      t2.(t_Status) = TUNNEL_REVOKED /\ t2.(t_Revision) = 2
  | _, _ => False end.
Proof. vm_compute. repeat split; reflexivity. Qed.
Lemma ex_open_inv : inv ex_open /\ tunnel_inv ex_open /\ ex_open.(tunnel_sessions_revision) = 1.
Proof.
  split; [apply inv_check_ok; vm_compute; reflexivity|].
  split; [apply tunnel_inv_check_ok; vm_compute; reflexivity|reflexivity].
Qed.
Lemma watch_complete_witness :
  exists sessions mark, ex_told = Ok (sessions, mark) /\ mark = 2 /\
    exists n, n ∈ sessions /\ n.(n_Session).(s_SessionID) = "s-1" /\ n.(n_Session).(s_Status) = TUNNEL_REVOKED.
Proof.
  destruct ex_open_inv as (Hi & Ht & Er).
  assert (Hs : rtc (@step any_id amd64 microseconds Ok id ex_hash id ex_decrypt) ex_open ex_closed)
    by (apply rtc_once, keep, do_tunnel; apply step_Revoke).
  pose proof ex_open_told as E. destruct ex_told as [[sessions mark]|e] eqn:Etold; [|contradiction E].
  exists sessions, mark. split; [reflexivity|]. split; [exact E|]. unfold ex_told in Etold. rewrite <- Er in Etold.
  destruct (@watch_complete any_id amd64 microseconds Ok id ex_hash id ex_decrypt ex_open ex_closed ex_closed "n1"
    sessions mark Hi Ht Hs (rtc_refl _ _) Etold) as (_ & Hc & _).
  pose proof ex_open_rows as Hrows. specialize (Hc "s-1").
  destruct (tunnel_sessions ex_open !! "s-1") as [t0|]; [|contradiction Hrows].
  destruct (tunnel_sessions ex_closed !! "s-1") as [t2|]; [|contradiction Hrows].
  destruct Hrows as (Ha0 & Ha2 & Hb & Hst & Hr). specialize (Hc t0 eq_refl Ha0 Ha2 Hb).
  destruct Hc as [(n & Hn & En & Es)|Hc]; [|lia]. exists n. split; [exact Hn|]. split; [exact En|]. rewrite Es. exact Hst.
Defined.

Definition ex_uuid : string := "0123abcd-0123-4567-89ab-0123456789ab".
Definition ex_admitted : DB :=
  (@AdmitRun amd64 microseconds Ok ex_service ex_params ex_now ex_uuid ex_uuid 5 "q1" ex_now (ex_db no_quota)).1.
Definition ex_cancelled : DB := (@CancelRun microseconds ("run-" +:+ ex_uuid) (2000 * Second) ex_admitted).1.
Definition ex_alloc_id : string := "alloc-" +:+ ex_uuid.
Notation ex_all_steps fresh := (rtc (@step fresh amd64 microseconds Ok id ex_hash id ex_decrypt)).
Lemma ex_admit_step : ex_all_steps any_id (ex_db no_quota) ex_admitted.
Proof. apply rtc_once, keep, do_AdmitRun; [vm_compute; reflexivity|exact I]. Qed.
Lemma ex_cancel_step fresh : ex_all_steps fresh ex_admitted ex_cancelled.
Proof. apply rtc_once, keep, do_CancelRun. Qed.
Lemma ex_admitted_inv : inv ex_admitted.
Proof. apply inv_check_ok. vm_compute. reflexivity. Qed.

Lemma store_refines_lifecycle_witness :
  inv ex_cancelled /\ rtc (life_step True) (view (ex_db no_quota) ex_alloc_id) (view ex_cancelled ex_alloc_id) /\
  view (ex_db no_quota) ex_alloc_id = None /\
  match view ex_cancelled ex_alloc_id with
  | Some l => l.(l_state) = ALS_RELEASING /\ l.(l_status) = RUN_CANCELLED /\ l.(l_queued) = true
  | None => False
  end.
Proof.
  destruct (@store_refines_lifecycle any_id amd64 microseconds Ok id ex_hash id ex_decrypt (ex_db no_quota) ex_cancelled)
    as [Hi Hm].
  - apply inv_no_allocations. reflexivity.
  - etransitivity; [exact ex_admit_step|exact (ex_cancel_step any_id)].
  - split; [exact Hi|]. split; [exact (Hm ex_alloc_id)|]. split; [vm_compute; reflexivity|].
    vm_compute. repeat split; reflexivity.
Defined.

Lemma store_invariant_witness :
  exists a r, ex_cancelled.(allocations) !! ex_alloc_id = Some a /\ a.(a_State) = ALS_RELEASING /\
    ex_cancelled.(runs) !! a.(a_RunID) = Some r /\ IsTerminal r.(r_Status) = true /\
    is_Some a.(a_OutputExpiresAt) /\ is_Some (ex_cancelled.(allocation_reconcile_queue) !! ex_alloc_id).
Proof.
  destruct (ex_cancelled.(allocations) !! ex_alloc_id) as [a|] eqn:Ha; [|vm_compute in Ha; discriminate].
  assert (Hs : ex_all_steps any_id (ex_db no_quota) ex_cancelled)
    by (etransitivity; [exact ex_admit_step|exact (ex_cancel_step any_id)]).
  destruct (@store_invariant any_id amd64 microseconds Ok id ex_hash id ex_decrypt (ex_db no_quota) ex_cancelled
    ex_alloc_id a eq_refl Hs Ha) as (r & Hr & Ht & Hx & Hq & _).
  assert (Ea : a.(a_State) = ALS_RELEASING) by (vm_compute in Ha; injection Ha as <-; reflexivity).
  exists a, r. split; [reflexivity|]. split; [exact Ea|]. split; [exact Hr|].
  split; [apply Ht; left; exact Ea|]. split; [apply Hx; left; exact Ea|apply Hq; exact Ea].
Defined.

Lemma allocation_lives_once_witness :
  exists l l', view ex_admitted ex_alloc_id = Some l /\ view ex_cancelled ex_alloc_id = Some l' /\
    l.(l_version) = 1 /\ l'.(l_version) = 2 /\ life_le l l'.
Proof.
  assert (Hv : l_version <$> view ex_admitted ex_alloc_id = Some 1) by (vm_compute; reflexivity).
  assert (Hv' : l_version <$> view ex_cancelled ex_alloc_id = Some 2) by (vm_compute; reflexivity).
  pose proof (@allocation_lives_once amd64 microseconds Ok id ex_hash id ex_decrypt ex_admitted ex_cancelled
    ex_alloc_id ex_admitted_inv (ex_cancel_step _)) as Hl.
  destruct (view ex_admitted ex_alloc_id) as [l|]; [|discriminate Hv].
  destruct (view ex_cancelled ex_alloc_id) as [l'|]; [|discriminate Hv'].
  injection Hv as Hv. injection Hv' as Hv'. exists l, l'. exact (conj eq_refl (conj eq_refl (conj Hv (conj Hv' Hl)))).
Defined.
