(* ===== verification/Reconciler.v ===== *)
(** * The run reconciler

    [application/run/reconciler.go] and the requests it derives from an item
    ([kernel/allocation/reconcile.go]): a round claims due items and works each
    of them off in a goroutine of its own, with calls to the store and to the
    node.  One item's work is a tree of calls ([work]); the answers of the node
    and the clock are open, and a store call may fail on the way, before or after
    its transaction committed.  The pool of workers runs interleaved with
    everything else ([sys_step]). *)
From S2P Require Import Prelude Proto Resource Allocation Capability Node Placement Execution Store Reconcile RunStore StoreFacts Admission AdmissionFacts Retention Tunnel TunnelFacts Claims Safety.

(** ** Requests to the node (kernel/allocation/reconcile.go) *)
Record RootfsSnapshotSealing := mkSealing { rs_BaseImageRef : string; rs_CredentialID : string }.
Definition RootfsSnapshotSealingRequest (i : ReconcileItem) : option RootfsSnapshotSealing :=
  if negb i.(ri_RootfsSnapshotRequested) || negb (bool_decide (i.(ri_LifecycleState) = ALS_RELEASING)) then None
  else Some (mkSealing i.(ri_BaseImageRef) i.(ri_RegistryCredentialID)).
Record OutputSealing := mkOutputSealing { os_ExpiresAt : time; os_Outputs : list (option DeclaredOutput) }.
Definition OutputSealingRequest (i : ReconcileItem) : option OutputSealing :=
  match i.(ri_OutputExpiresAt) with
  | None => None
  | Some t => Some (mkOutputSealing t i.(ri_DeclaredOutputs))
  end.

Definition ReconcileWorkerCount : Z := 8.

(** ** Work *)
Inductive node_call : Type -> Type :=
| CreateAllocation (run : RunRow) (alloc : AllocRow) (requirements : list CapabilityRequirement) :
    node_call (option CapabilityConditionSet)
| DeleteAllocation (target allocationID nodeID : string) (outputs : option OutputSealing)
    (snapshot : option RootfsSnapshotSealing) : node_call (option SealedSnapshot)
| AcknowledgeAllocationRelease (target allocationID nodeID : string) : node_call ().

Inductive work : Type :=
| Return (r : result ())
| StoreCall {B : Type} (m : Tx B) (k : result B -> work)
| NodeCall {B : Type} (c : node_call B) (k : result B -> work)
| Clock (k : time -> work).

Definition finish (r : result ()) : work := Return r.
Definition claimedUpdateError (r : result bool) : result () :=
  match r with
  | Err e => Err e
  | Ok updated => if updated then Ok () else Err ErrReconcileClaimLost
  end.

Definition rootfsSnapshotFailureIsPermanent (e : error) : bool :=
  match status_code e with
  | FailedPrecondition | InvalidArgument | ResourceExhausted | Unimplemented => true
  | _ => false
  end.
Definition rootfsSnapshotPublicationRetry (e : error) : bool := bool_decide (status_code e = Aborted).
Definition rootfsSnapshotFailureMessage (e : error) : string :=
  if bool_decide (status_code e = ResourceExhausted) then "rootfs snapshot exceeds the node resource limit"
  else if rootfsSnapshotFailureIsPermanent e then "rootfs snapshot sealing contract is unavailable"
  else "rootfs snapshot publication failed after bounded retries".

Section reconciler.
Context `{GoRuntime} `{SqlTime}.
Context (NewSHA1 : string -> string).
(** [err.Error()]. *)
Context (Error : error -> string).

Definition reconcileStart (item : ReconcileItem) : work :=
  let id := item.(ri_AllocationID) in
  let owner := item.(ri_ClaimOwner) in
  let complete conditions := Clock (fun now => StoreCall (CompleteAllocationStart id owner conditions now) finish) in
  StoreCall (LoadStartAllocation id) (fun start =>
    match start with
    | Err e => if bool_decide (status_code e = NotFound) then complete None else Return (Err e)
    | Ok (run, alloc, requirements) =>
        if IsTerminal run.(r_Status) then complete None
        else NodeCall (CreateAllocation run alloc requirements) (fun conditions =>
          match conditions with
          | Ok conditions => complete conditions
          | Err e => Clock (fun now =>
              match ScheduleCreateRetryRequest id item.(ri_ReconcileAttempts) (Error e) now with
              | Some req => StoreCall (ScheduleClaimedReconcile req owner now)
                              (fun updated => Return (claimedUpdateError updated))
              | None => StoreCall (MarkAllocationCreateFailed id owner (Error e) now) finish
              end)
          end)
    end).

Definition reconcileDeleteRetry (item : ReconcileItem) : work :=
  let id := item.(ri_AllocationID) in
  let owner := item.(ri_ClaimOwner) in
  let target := item.(ri_NodeTarget) in
  let nodeID := item.(ri_NodeID) in
  let retry e now := StoreCall (ScheduleClaimedReconcile (ScheduleDeleteRetryRequest id (Error e) now) owner now)
                       (fun updated => Return (claimedUpdateError updated)) in
  if bool_decide (item.(ri_LifecycleState) = ALS_RELEASED)
  then NodeCall (AcknowledgeAllocationRelease target id nodeID) (fun r =>
    match r with
    | Err e => Clock (retry e)
    | Ok _ => Clock (fun now => StoreCall (CompleteAllocationReleaseAcknowledgement id owner now) finish)
    end)
  else NodeCall (DeleteAllocation target id nodeID (OutputSealingRequest item) (RootfsSnapshotSealingRequest item))
    (fun r =>
      match r with
      | Ok snapshot =>
          Clock (fun now => StoreCall (CompleteAllocationRelease NewSHA1 id owner snapshot now) finish)
      | Err e => Clock (fun now =>
          if item.(ri_RootfsSnapshotRequested)
             && (rootfsSnapshotFailureIsPermanent e
                 || (rootfsSnapshotPublicationRetry e && RootfsSnapshotRetryExhausted item.(ri_ReconcileAttempts)))
          then StoreCall (MarkRootfsSnapshotFailed id owner (rootfsSnapshotFailureMessage e) now) (fun marked =>
            match marked with
            | Err e => Return (Err e)
            | Ok _ =>
                NodeCall (DeleteAllocation target id nodeID (OutputSealingRequest item) None) (fun cleaned =>
                  match cleaned with
                  | Err e => retry e now
                  | Ok _ => StoreCall (CompleteAllocationRelease NewSHA1 id owner None now) finish
                  end)
            end)
          else retry e now)
      end).

Definition reconcileAllocation (item : ReconcileItem) : work :=
  match ReconcileIntentForLifecycle item.(ri_LifecycleState) with
  | EnsurePresent => reconcileStart item
  | EnsureAbsent => reconcileDeleteRetry item
  | IntentUnspecified =>
      Return (Err (Errorf "allocation %s has non-reconcilable lifecycle state %s"
                     [AStr item.(ri_AllocationID); AStr (AllocationLifecycleState_String item.(ri_LifecycleState))]))
  end.

(** One step of a worker.  A store call commits or rolls back; its caller may
    also see an error (a cancelled context, a broken connection) before the
    transaction took effect or after. *)
Inductive work_step (db : DB) : work -> DB -> work -> Prop :=
| work_call B (m : Tx B) k : work_step db (StoreCall m k) (fst (m db)) (k (snd (m db)))
| work_unsent B (m : Tx B) k e : work_step db (StoreCall m k) db (k (Err e))
| work_unanswered B (m : Tx B) k e : work_step db (StoreCall m k) (fst (m db)) (k (Err e))
| work_node B (c : node_call B) k r : work_step db (NodeCall c k) db (k r)
| work_clock k now : work_step db (Clock k) db (k now).

(** ** The reconciler among the others *)
Context (ToASCII : string -> result string).
Context (sha256_hex encryptNodeToken : string -> string) (decryptNodeToken : string -> result string).

(** The store, the Allocation identifiers ever used, and the items in work.  A
    reconciler claims its next round when the last one is done
    ([ReconcilePending]); while an item is in work its claim may be renewed
    ([renewClaim]), and a worker whose claim is gone may be cancelled. *)
Record system := mkSystem { sys_db : DB; sys_used : gset string; sys_pool : list (ReconcileItem * work) }.
Definition seen (used : gset string) (db : DB) : gset string := used ∪ dom db.(allocations).
Definition unused (used : gset string) : Admissible := fun id => id ∉ used.

Inductive sys_step (owner : string) : system -> system -> Prop :=
| sys_other db used pool db' :
    @step (unused used) _ _ ToASCII NewSHA1 sha256_hex encryptNodeToken decryptNodeToken db db' ->
    sys_step owner (mkSystem db used pool) (mkSystem db' (seen used db') pool)
| sys_claim db used locked now db' items :
    ClaimDueReconcileItems locked owner ReconcileWorkerCount now ReconcileClaimTTL db = (db', Ok items) ->
    sys_step owner (mkSystem db used [])
      (mkSystem db' used (map (fun item => (item, reconcileAllocation item)) items))
| sys_renew db used pool item w now :
    (item, w) ∈ pool ->
    sys_step owner (mkSystem db used pool)
      (mkSystem (fst (RenewReconcileClaim item.(ri_AllocationID) item.(ri_ClaimOwner)
                        (ReconcileIntentForLifecycle item.(ri_LifecycleState)) now ReconcileClaimTTL db)) used pool)
| sys_work db used l item w r db' w' :
    work_step db w db' w' ->
    sys_step owner (mkSystem db used (l ++ (item, w) :: r)) (mkSystem db' used (l ++ (item, w') :: r))
| sys_cancel db used l item w r :
    sys_step owner (mkSystem db used (l ++ (item, w) :: r)) (mkSystem db used (l ++ r)).
End reconciler.
