(* ===== verification/ReconcilerFacts.v ===== *)
(** * Facts about the reconciler

    Every store call of a worker is one of the transactions of [store_step], with
    its precondition, in every interleaving ([reconciler_sound]). *)
From S2P Require Import Prelude Proto Resource Allocation Capability Node Placement Execution Store Reconcile RunStore StoreFacts Admission AdmissionFacts Retention Tunnel TunnelFacts Claims Safety Reconciler.

(** ** Properties of all calls of a work *)
Fixpoint calls (P : forall B, Tx B -> Prop) (w : work) : Prop :=
  match w with
  | Return _ => True
  | StoreCall m k => P _ m /\ forall r, calls P (k r)
  | NodeCall _ k => forall r, calls P (k r)
  | Clock k => forall now, calls P (k now)
  end.

Section facts.
Context `{GoRuntime} `{SqlTime}.
Context (NewSHA1 : string -> string) (Error : error -> string).
Context (ToASCII : string -> result string).
Context (sha256_hex encryptNodeToken : string -> string) (decryptNodeToken : string -> result string).

Notation store_step_in fresh :=
  (@store_step fresh _ _ ToASCII NewSHA1 sha256_hex encryptNodeToken decryptNodeToken).
Notation step_in fresh := (@step fresh _ _ ToASCII NewSHA1 sha256_hex encryptNodeToken decryptNodeToken).
Notation sys := (sys_step NewSHA1 Error ToASCII sha256_hex encryptNodeToken decryptNodeToken).

(** An item that was released when it was claimed. *)
Definition stays_released (item : ReconcileItem) (db : DB) : Prop :=
  item.(ri_LifecycleState) = ALS_RELEASED ->
  forall a, db.(allocations) !! TrimSpace item.(ri_AllocationID) = Some a -> a.(a_State) = ALS_RELEASED.
Definition proper_call (item : ReconcileItem) B (m : Tx B) : Prop :=
  forall fresh db, stays_released item db -> store_step_in fresh db (fst (m db)).

Lemma reconcileAllocation_calls item : calls (proper_call item) (reconcileAllocation NewSHA1 Error item).
Proof.
  unfold reconcileAllocation. destruct (ReconcileIntentForLifecycle _); [done|..].
  - unfold reconcileStart. simpl. split; [intros fresh db _; apply do_LoadStart|]. intros [[[run alloc] reqs]|e]; simpl.
    + case_match; simpl.
      * intros now. split; [intros fresh db _; apply do_CompleteStart|done].
      * intros [conditions|e]; simpl; intros now; [split; [intros fresh db _; apply do_CompleteStart|done]|].
        case_match; simpl; (split; [intros fresh db _|done]); [apply do_ScheduleClaimed|apply do_CreateFailed].
    + case_match; simpl; [|done]. intros now. split; [intros fresh db _; apply do_CompleteStart|done].
  - unfold reconcileDeleteRetry. destruct (bool_decide_reflect (item.(ri_LifecycleState) = ALS_RELEASED)) as [Hrel|]; simpl.
    + intros [u|e]; simpl; intros now; (split; [intros fresh db Hst|done]); [|apply do_ScheduleClaimed].
      apply do_Acknowledge. intros a Ha. by rewrite (Hst Hrel _ Ha).
    + intros [snapshot|e]; simpl; intros now; [split; [intros fresh db _; apply do_Release|done]|].
      case_match; simpl; [|split; [intros fresh db _; apply do_ScheduleClaimed|done]].
      split; [intros fresh db _; apply do_SnapshotFailed|]. intros [u|e']; simpl; [|done].
      intros [sn|e']; simpl; (split; [intros fresh db _|done]); [apply do_Release|apply do_ScheduleClaimed].
Qed.

Lemma work_step_calls P db w db' w' : work_step db w db' w' -> calls P w ->
  calls P w' /\ (db' = db \/ exists B (m : Tx B), P B m /\ db' = fst (m db)).
Proof. destruct 1; simpl; [intros [Hm Hk]..|intros Hk|intros Hk]; split; eauto 6. Qed.

(** ** The invariant of the system *)
Record sys_inv (s : system) : Prop := {
  si_inv : inv s.(sys_db);
  si_used id : is_Some (s.(sys_db).(allocations) !! id) -> id ∈ s.(sys_used);
  si_pool item w : (item, w) ∈ s.(sys_pool) ->
    calls (proper_call item) w /\ TrimSpace item.(ri_AllocationID) ∈ s.(sys_used) /\
    stays_released item s.(sys_db) }.

Lemma rank_released s : stored_state s = true -> als_rank ALS_RELEASED <= als_rank s -> s = ALS_RELEASED.
Proof. destruct s; simpl; done || lia. Qed.
Lemma released_view db db' id :
  inv db -> inv db' -> rtc (life_step False) (view db id) (view db' id) ->
  (forall a, db.(allocations) !! id = Some a -> a.(a_State) = ALS_RELEASED) ->
  (forall a, db'.(allocations) !! id = Some a -> a.(a_State) = ALS_RELEASED).
Proof.
  intros [Hwf _] Hi' Hl Hst a' Ha'.
  destruct (inv_row _ _ _ Hi' Ha') as (r' & Hr' & _ & _ & Hs' & _).
  assert (view db' id = Some _) as Hv' by (apply view_Some; eauto). rewrite Hv' in Hl.
  destruct (allocations db !! id) as [a|] eqn:Ha.
  - destruct (wf_run _ Hwf _ _ Ha) as [r Hr]. assert (view db id = Some _) as Hv by (apply view_Some; eauto).
    rewrite Hv in Hl. apply life_steps_le, le_rank in Hl. simpl in Hl. rewrite (Hst _ eq_refl) in Hl.
    by apply rank_released.
  - assert (view db id = None) as Hv by (unfold view; by rewrite Ha). rewrite Hv in Hl. by apply life_gone in Hl.
Qed.

Lemma step_mono (fresh fresh' : Admissible) db db' :
  (forall id, fresh id -> fresh' id) -> step_in fresh db db' -> step_in fresh' db db'.
Proof.
  intros Hf [d Hs|]; [|by constructor]. apply keep. destruct Hs; try by econstructor.
  apply do_AdmitRun; [done|by apply Hf].
Qed.

(** Steps that admit none of the identifiers used so far. *)
Lemma fresh_life used db db' id :
  inv db -> step_in (unused used) db db' -> id ∈ used -> rtc (life_step False) (view db id) (view db' id).
Proof.
  intros Hi Hs Hid. pose proof (step_moves (Fresh := unused used) _ _ _ _ _ _ _ Hi Hs) as [_ Hm].
  specialize (Hm id). eapply rtc_subrel; [|exact Hm].
  intros v v' Hv. destruct Hv as [l Hf| | | | | | ]; [by destruct Hf|..]; by econstructor.
Qed.
Lemma view_is_Some db id : inv db -> is_Some (view db id) <-> is_Some (db.(allocations) !! id).
Proof.
  intros [Hwf _]. split.
  - intros [l (a & r & -> & _)%view_Some]. eauto.
  - intros [a Ha]. destruct (wf_run _ Hwf _ _ Ha) as [r Hr]. eexists. apply view_Some. eauto.
Qed.
Definition nobody : Admissible := fun _ => False.
Lemma nobody_new db db' id : inv db -> step_in nobody db db' ->
  is_Some (db'.(allocations) !! id) -> is_Some (db.(allocations) !! id).
Proof.
  intros Hi Hs Ha. pose proof (step_moves (Fresh := nobody) _ _ _ _ _ _ _ Hi Hs) as Hm.
  pose proof (moves_inv _ _ Hi Hm) as Hi'. destruct Hm as [_ Hm]. specialize (Hm id).
  apply view_is_Some; [done|]. apply view_is_Some in Ha; [|done].
  destruct (view db id) as [l|]; [eauto|]. apply life_gone in Hm. rewrite Hm in Ha. by destruct Ha.
Qed.

(** The pool survives such a step. *)
Lemma stays_released_step used db db' item :
  inv db -> step_in (unused used) db db' -> TrimSpace item.(ri_AllocationID) ∈ used ->
  stays_released item db -> stays_released item db'.
Proof.
  intros Hi Hs Hid Hst Hrel. pose proof (step_moves (Fresh := unused used) _ _ _ _ _ _ _ Hi Hs) as Hm.
  eapply (released_view db); [done|by eapply moves_inv|by eapply fresh_life|by apply Hst].
Qed.
Lemma sys_inv_step db used pool db' used' pool' :
  sys_inv (mkSystem db used pool) -> step_in (unused used) db db' ->
  used' = seen used db' \/ (used' = used /\ step_in nobody db db') ->
  (forall item w', (item, w') ∈ pool' -> calls (proper_call item) w' /\
     ((exists w, (item, w) ∈ pool) \/
      (TrimSpace item.(ri_AllocationID) ∈ used /\ stays_released item db))) ->
  sys_inv (mkSystem db' used' pool').
Proof.
  intros [Hi Hu Hp] Hs Hused Hpool. simpl in *. pose proof (step_moves (Fresh := unused used) _ _ _ _ _ _ _ Hi Hs) as Hm.
  assert (Hsub : used ⊆ used') by (destruct Hused as [->|[-> _]]; [unfold seen; set_solver|done]).
  split; simpl.
  - by eapply moves_inv.
  - intros id Ha. destruct Hused as [->|[-> Hn]].
    + unfold seen. apply elem_of_union. right. by apply elem_of_dom.
    + apply Hu. by eapply nobody_new.
  - intros item w' Hin. destruct (Hpool _ _ Hin) as [Hc Hor]. split; [done|].
    assert (Hid : TrimSpace item.(ri_AllocationID) ∈ used /\ stays_released item db).
    { destruct Hor as [[w Hw]|?]; [|done]. by apply Hp in Hw as (_ & ? & ?). }
    destruct Hid as [Hid Hst]. split; [by apply Hsub|]. by eapply stays_released_step.
Qed.
(** A transaction of the reconciler itself admits nobody. *)
Lemma own_step db used db' : (forall fresh, store_step_in fresh db db') ->
  step_in (unused used) db db' /\ step_in nobody db db'.
Proof. intros Hs. split; apply keep, Hs. Qed.

Lemma claimed_items locked owner limit now ttl db db' items item :
  inv db -> ClaimDueReconcileItems locked owner limit now ttl db = (db', Ok items) -> item ∈ items ->
  is_Some (db.(allocations) !! TrimSpace item.(ri_AllocationID)) /\ stays_released item db.
Proof.
  intros [Hwf _] Hx Hin. apply ClaimDue_Ok in Hx as (_ & _ & _ & Hf & _). rewrite Forall_forall in Hf.
  destruct (scan_item_Ok _ _ _ _ (Hf _ Hin)) as (_ & _ & a & Ha & Es).
  pose proof (wf_trimmed _ Hwf _ _ Ha) as Ht. unfold stays_released. rewrite Ht, Ha. split; [eauto|].
  intros Hrel a' [= <-]. congruence.
Qed.

Lemma sys_step_inv owner s s' : sys_inv s -> sys owner s s' ->
  sys_inv s' /\ (s'.(sys_db) = s.(sys_db) \/ step_in (unused s.(sys_used)) s.(sys_db) s'.(sys_db)).
Proof.
  intros Hinv Hs. destruct Hs as [db used pool db' Hs | db used locked now db' items Hx | db used pool item w now Hin
    | db used l item w r db' w' Hw | db used l item w r].
  - split; [|by right]. eapply sys_inv_step; [done|done|by left|]. intros item w Hin.
    split; [by apply (si_pool _ Hinv) in Hin as (? & _)|eauto].
  - assert (Hs : forall fresh, store_step_in fresh db db').
    { intros fresh. pose proof (@do_ClaimDue fresh _ _ ToASCII NewSHA1 sha256_hex encryptNodeToken decryptNodeToken
        db locked owner ReconcileWorkerCount now ReconcileClaimTTL) as Hc. by rewrite Hx in Hc. }
    destruct (own_step _ used _ Hs) as [Hs1 Hs2]. split; [|by right].
    eapply sys_inv_step; [done|done|by right|]. intros item w Hin. apply list_elem_of_fmap in Hin as (i & [= -> ->] & Hi).
    split; [apply reconcileAllocation_calls|right]. destruct (claimed_items _ _ _ _ _ _ _ _ _ (si_inv _ Hinv) Hx Hi).
    split; [|done]. by apply (si_used _ Hinv).
  - assert (Hs : forall fresh, store_step_in fresh db (fst (RenewReconcileClaim item.(ri_AllocationID) item.(ri_ClaimOwner)
      (ReconcileIntentForLifecycle item.(ri_LifecycleState)) now ReconcileClaimTTL db))) by (intros fresh; apply do_RenewClaim).
    destruct (own_step _ used _ Hs) as [Hs1 Hs2]. split; [|by right].
    eapply sys_inv_step; [done|done|by right|]. intros item' w' Hin'.
    split; [by apply (si_pool _ Hinv) in Hin' as (? & _)|eauto].
  - destruct (si_pool _ Hinv item w) as (Hc & Hid & Hst); [apply elem_of_app; right; by left|]. simpl in *.
    destruct (work_step_calls _ _ _ _ _ Hw Hc) as [Hc' Hdb].
    assert (Hpool : forall i v, (i, v) ∈ l ++ (item, w') :: r -> calls (proper_call i) v /\
      ((exists w0, (i, w0) ∈ l ++ (item, w) :: r) \/
       (TrimSpace i.(ri_AllocationID) ∈ used /\ stays_released i db))).
    { intros i v [Hl|[E|Hr]%elem_of_cons]%elem_of_app.
      - assert (Hin : (i, v) ∈ l ++ (item, w) :: r) by (apply elem_of_app; by left).
        split; [by apply (si_pool _ Hinv) in Hin as (? & _)|eauto].
      - injection E as -> ->. split; [done|by right].
      - assert (Hin : (i, v) ∈ l ++ (item, w) :: r) by (apply elem_of_app; right; by right).
        split; [by apply (si_pool _ Hinv) in Hin as (? & _)|eauto]. }
    destruct Hdb as [->|(B & m & Hm & ->)].
    + split; [|by left]. split; [apply Hinv|apply Hinv|]. intros i v Hin. destruct (Hpool _ _ Hin) as [Hcv Hor].
      split; [done|]. destruct Hor as [[w0 Hw0]|?]; [|done]. by apply (si_pool _ Hinv) in Hw0 as (_ & ? & ?).
    + destruct (own_step db used (fst (m db))) as [Hs1 Hs2]; [intros fresh; by apply Hm|].
      split; [|by right]. eapply sys_inv_step; [done|done|by right|done].
  - split; [|by left]. split; [apply Hinv|apply Hinv|]. simpl. intros i v Hin. apply (si_pool _ Hinv). simpl.
    apply elem_of_app in Hin as [?|?]; apply elem_of_app; [by left|right; by right].
Qed.
Lemma sys_steps_inv owner s s' : sys_inv s -> rtc (sys owner) s s' ->
  sys_inv s' /\ rtc (step_in any_id) s.(sys_db) s'.(sys_db).
Proof.
  intros Hi Hs. induction Hs as [s|s s1 s' Hs _ IH]; [by split|].
  destruct (sys_step_inv _ _ _ Hi Hs) as [Hi1 Hdb]. destruct (IH Hi1) as [Hi' Hr]. split; [done|].
  destruct Hdb as [Edb|Hst]; [by rewrite <- Edb|]. eapply rtc_l; [|exact Hr].
  by eapply step_mono; [|exact Hst].
Qed.

(** C21: the reconciler among everything else.  From a store that satisfies the
    invariant, with no item in work, in every interleaving of claim rounds, claim
    renewals, the workers' calls (answered, lost or cancelled), whatever the node
    and the clock answer, with all other transactions: what the store undergoes is
    a sequence of the transactions of [step], so that the invariant and the life
    of every Allocation are kept; and an item that was released when claimed is
    still released while it is in work, so that no release is acknowledged
    before it happened. *)
Theorem reconciler_sound owner db used db' used' pool' :
  inv db -> (forall id, is_Some (db.(allocations) !! id) -> id ∈ used) ->
  rtc (sys owner) (mkSystem db used []) (mkSystem db' used' pool') ->
  inv db' /\ rtc (step_in any_id) db db' /\
  (forall item w a, (item, w) ∈ pool' -> item.(ri_LifecycleState) = ALS_RELEASED ->
     db'.(allocations) !! TrimSpace item.(ri_AllocationID) = Some a -> a.(a_State) = ALS_RELEASED).
Proof.
  intros Hi Hu Hs.
  assert (Hi0 : sys_inv (mkSystem db used [])) by (split; [done|done|intros ? ? []%elem_of_nil]).
  destruct (sys_steps_inv _ _ _ Hi0 Hs) as [Hi' Hr]. split; [apply Hi'|]. split; [done|].
  intros item w a Hin Hrel Ha. apply (si_pool _ Hi') in Hin as (_ & _ & Hst). by eapply Hst.
Qed.
End facts.

(** ** Example: an admitted Allocation is claimed, and its creation succeeds *)
Definition ex_error_text (_ : error) : string := "error".
Definition ex_used : gset string := dom ex_admitted.(allocations).
Definition ex_claim : DB * result (list ReconcileItem) :=
  @ClaimDueReconcileItems microseconds ∅ "worker-1" ReconcileWorkerCount (1100 * Second) ReconcileClaimTTL ex_admitted.
Definition ex_started (item : ReconcileItem) : DB :=
  (@CompleteAllocationStart amd64 microseconds item.(ri_AllocationID) item.(ri_ClaimOwner) None (1101 * Second) ex_claim.1).1.

(** The queue entry is gone once the creation is reported complete. *)
Example start_completes :
  match ex_claim.2 with
  | Ok [item] => (ex_started item).(allocation_reconcile_queue) !! ex_alloc_id = None
  | _ => False
  end.
Proof. vm_compute. reflexivity. Qed.

Lemma reconciler_sound_witness :
  inv ex_claim.1 /\ exists items, ex_claim.2 = Ok items /\ map ri_AllocationID items = [ex_alloc_id].
Proof.
  destruct ex_claim as [db' [items|e]] eqn:E; [|apply (f_equal snd) in E; vm_compute in E; discriminate].
  split.
  - assert (Hu : forall i, is_Some (ex_admitted.(allocations) !! i) -> i ∈ ex_used).
    { intros i [a Ha]. unfold ex_used. apply elem_of_dom. exists a. exact Ha. }
    destruct (@reconciler_sound amd64 microseconds id ex_error_text Ok ex_hash id ex_decrypt "worker-1" ex_admitted
      ex_used db' ex_used (map (fun item => (item, @reconcileAllocation amd64 microseconds id ex_error_text item)) items)
      ex_admitted_inv Hu) as [Hi _]; [|exact Hi].
    apply rtc_once. apply (@sys_claim amd64 microseconds id ex_error_text Ok ex_hash id ex_decrypt "worker-1"
      ex_admitted ex_used ∅ (1100 * Second) db' items). exact E.
  - exists items. split; [reflexivity|]. apply (f_equal snd) in E. vm_compute in E. injection E as <-.
    vm_compute. reflexivity.
Defined.
