(* ===== verification/NodeDB.v ===== *)
(** * The node's record store

    [runtime/axnoded/internal/nodestate/store.go]: named buckets of encoded
    protobuf records in one bbolt file, and [StateStore], the interface
    ([service/allocation/controller.go]) through which the Allocation controller
    uses it.  bbolt runs every update as a transaction, so a call either commits
    or returns an error and changes nothing; whether it commits is an argument
    ([fault]).  The protobuf codec of the message type is an argument too. *)
From S2P Require Import Prelude.

(** The error with which a bbolt transaction fails, if it does. *)
Definition fault : Type := option error.

Definition errInvalidArgument : error := Sentinel "invalid argument".
Definition errNotFound : error := Sentinel "not found".

Definition validateName (kind value : string) : result () :=
  if String.eqb value "" then Err (Wrapf "node state %s is required: %w" [AStr kind] errInvalidArgument)
  else Ok ().
Definition validateAddress (bucket key : string) : result () :=
  Join (validateName "bucket" bucket) (validateName "key" key).

(** ** The interface

    [contents] is what a bucket holds; the laws say what each call does to it,
    and that the codec reads back what it wrote.  A listing visits every record
    once, in key order. *)
Class StateStore (S M B : Type) := {
  Marshal : M -> result B;
  Unmarshal : B -> result M;
  contents : S -> string -> gmap string B;
  PutRecord : fault -> string -> string -> M -> S -> S * result ();
  GetRecord : fault -> string -> string -> S -> result M;
  DeleteRecord : fault -> string -> string -> S -> S * result ();
  ForEachRecord : fault -> string -> S -> result (list (string * B)) }.

Class StateStoreLaws (S M B : Type) `{StateStore S M B} : Prop := {
  codec (m : M) (b : B) : Marshal m = Ok b -> Unmarshal b = Ok m;
  put_law f bucket key (m : M) (s s' : S) r : PutRecord f bucket key m s = (s', r) ->
    (exists e, r = Err e /\ s' = s) \/
    (exists b, r = Ok () /\ Marshal m = Ok b /\ key <> "" /\
       contents s' bucket = <[key := b]> (contents s bucket) /\
       forall other, other <> bucket -> contents s' other = contents s other);
  put_commits bucket key (m : M) (s : S) b :
    bucket <> "" -> key <> "" -> Marshal m = Ok b -> (PutRecord None bucket key m s).2 = Ok ();
  get_law bucket key (s : S) b : bucket <> "" -> key <> "" -> contents s bucket !! key = Some b ->
    GetRecord None bucket key s = wrap_err "decode node state %s/%s: %w" [AStr bucket; AStr key] (Unmarshal b);
  get_absent f bucket key (s : S) m : GetRecord f bucket key s = Ok m ->
    exists b, contents s bucket !! key = Some b /\ Unmarshal b = Ok m;
  delete_law f bucket key (s s' : S) r : DeleteRecord f bucket key s = (s', r) ->
    (exists e, r = Err e /\ s' = s) \/
    (r = Ok () /\ key <> "" /\ contents s' bucket = delete key (contents s bucket) /\
       forall other, other <> bucket -> contents s' other = contents s other);
  delete_commits bucket key (s : S) : bucket <> "" -> key <> "" -> (DeleteRecord None bucket key s).2 = Ok ();
  each_law f bucket (s : S) l : ForEachRecord f bucket s = Ok l ->
    l ≡ₚ map_to_list (contents s bucket) /\ StronglySorted (not_after string_lt) l.*1;
  each_reads bucket (s : S) : bucket <> "" -> is_Ok (ForEachRecord None bucket s) = true }.

(** ** The bbolt store *)
Notation NodeDB B := (gmap string (gmap string B)).
Module nodestate.
Section store.
Context {M B : Type} (Marshal : M -> result B) (Unmarshal : B -> result M).

#[local] Notation DB := (NodeDB B).
Definition bucket_of (db : DB) (bucket : string) : gmap string B := default ∅ (db !! bucket).

(** [db.Update]: the function's changes are committed when it returns nil and
    the commit succeeds, and rolled back otherwise. *)
Definition Update (f : fault) (body : DB -> result DB) (db : DB) : DB * result () :=
  match body db, f with
  | Err e, _ => (db, Err e)
  | Ok db', None => (db', Ok ())
  | Ok _, Some e => (db, Err e)
  end.

(** [value == nil] is [None]. *)
Definition PutRecord (f : fault) (bucket key : string) (value : option M) (db : DB) : DB * result () :=
  match validateAddress bucket key with
  | Err e => (db, Err e)
  | Ok _ =>
      match value with
      | None => (db, Err (Wrapf "node state value is required: %w" [] errInvalidArgument))
      | Some value =>
          match Marshal value with
          | Err e => (db, Err (Wrapf "marshal node state %s/%s: %w" [AStr bucket; AStr key] e))
          | Ok data => Update f (fun db => Ok (<[bucket := <[key := data]> (bucket_of db bucket)]> db)) db
          end
      end
  end.

(** The destination is not nil. *)
Definition GetRecordBytes (f : fault) (bucket key : string) (db : DB) : result B :=
  match validateAddress bucket key with
  | Err e => Err e
  | Ok _ =>
      match f with
      | Some e => Err e
      | None =>
          match db !! bucket with
          | None => Err errNotFound
          | Some b => match b !! key with None => Err errNotFound | Some stored => Ok stored end
          end
      end
  end.
Definition GetRecord (f : fault) (bucket key : string) (db : DB) : result M :=
  data ← GetRecordBytes f bucket key db;
  wrap_err "decode node state %s/%s: %w" [AStr bucket; AStr key] (Unmarshal data).

Definition snapshotKey : string := "state".
Definition SaveSnapshot (f : fault) (bucket : string) (value : option M) (db : DB) : DB * result () :=
  PutRecord f bucket snapshotKey value db.
Definition LoadSnapshot (f : fault) (bucket : string) (db : DB) : result M :=
  GetRecord f bucket snapshotKey db.

Definition DeleteRecord (f : fault) (bucket key : string) (db : DB) : DB * result () :=
  match validateAddress bucket key with
  | Err e => (db, Err e)
  | Ok _ =>
      Update f (fun db =>
        match db !! bucket with
        | None => Ok db
        | Some b => Ok (<[bucket := delete key b]> db)
        end) db
  end.

(** The swap and whether it took place (Go returns the flag beside an error
    too; no caller reads it then).  [next] nil is a delete. *)
Definition CompareAndSwapRecord `{EqDecision B} (f : fault) (bucket key : string) (expected : B)
    (expectedExists : bool) (next : option M) (db : DB) : DB * result bool :=
  match validateAddress bucket key with
  | Err e => (db, Err e)
  | Ok _ =>
      let swap (next : option B) :=
        let current := b ← db !! bucket; b !! key in
        if negb (Bool.eqb (non_nil current) expectedExists)
           || match current with Some c => negb (bool_decide (c = expected)) | None => false end
        then match f with None => (db, Ok false) | Some e => (db, Err e) end
        else
          let db' := match next with
                     | None => match db !! bucket with
                               | None => db
                               | Some b => <[bucket := delete key b]> db
                               end
                     | Some data => <[bucket := <[key := data]> (bucket_of db bucket)]> db
                     end in
          match f with None => (db', Ok true) | Some e => (db, Err e) end in
      match next with
      | None => swap None
      | Some next =>
          match Marshal next with
          | Err e => (db, Err (Wrapf "marshal node state %s/%s: %w" [AStr bucket; AStr key] e))
          | Ok data => swap (Some data)
          end
      end
  end.

(** The records a visitor is shown; bbolt iterates in byte order of the keys. *)
Definition record_less (a b : string * B) : bool := string_lt a.1 b.1.
Definition ForEachRecord (f : fault) (bucket : string) (db : DB) : result (list (string * B)) :=
  match validateName "bucket" bucket with
  | Err e => Err e
  | Ok _ =>
      match f with
      | Some e => Err e
      | None => Ok (sort_slice record_less (map_to_list (bucket_of db bucket)))
      end
  end.
End store.
End nodestate.

(** ** What the store promises *)
Section laws.
Context {M B : Type} (marshal : M -> result B) (unmarshal : B -> result M).
#[export] Instance nodestate_store : StateStore (NodeDB B) M B := {|
  Marshal := marshal; Unmarshal := unmarshal; contents := nodestate.bucket_of;
  PutRecord f bucket key m := nodestate.PutRecord marshal f bucket key (Some m);
  GetRecord := nodestate.GetRecord unmarshal;
  DeleteRecord := nodestate.DeleteRecord;
  ForEachRecord := nodestate.ForEachRecord |}.

Import nodestate.
#[local] Notation DB := (NodeDB B).

Lemma validateName_ok kind value : validateName kind value = Ok () <-> value <> "".
Proof. unfold validateName. destruct (String.eqb_spec value ""); split; done. Qed.
Lemma validateAddress_ok bucket key : validateAddress bucket key = Ok () <-> bucket <> "" /\ key <> "".
Proof.
  unfold validateAddress, Join, validateName.
  destruct (String.eqb_spec bucket ""), (String.eqb_spec key ""); naive_solver.
Qed.
Lemma validateAddress_cases bucket key :
  (exists e, validateAddress bucket key = Err e) \/ (validateAddress bucket key = Ok () /\ bucket <> "" /\ key <> "").
Proof.
  destruct (validateAddress bucket key) as [[]|e] eqn:E; [right|eauto].
  split; [done|]. by apply validateAddress_ok.
Qed.

Lemma bucket_of_insert (db : gmap string (gmap string B)) bucket b :
  bucket_of (<[bucket := b]> db) bucket = b.
Proof. unfold bucket_of. by rewrite lookup_insert_eq. Qed.
Lemma bucket_of_other (db : gmap string (gmap string B)) bucket b other :
  other <> bucket -> bucket_of (<[bucket := b]> db) other = bucket_of db other.
Proof. intros Ho. unfold bucket_of. by rewrite lookup_insert_ne. Qed.

Lemma delete_in_bucket (db : DB) bucket key :
  let db' := match db !! bucket with None => db | Some b => <[bucket := delete key b]> db end in
  bucket_of db' bucket = delete key (bucket_of db bucket) /\
  forall other, other <> bucket -> bucket_of db' other = bucket_of db other.
Proof.
  destruct (db !! bucket) as [b|] eqn:Eb; simpl.
  - rewrite bucket_of_insert. split; [unfold bucket_of; by rewrite Eb|]. intros other Ho. by apply bucket_of_other.
  - split; [|done]. unfold bucket_of. rewrite Eb. simpl. by rewrite delete_empty.
Qed.

Lemma entry_less_strict_weak : strict_weak (@record_less B).
Proof.
  destruct string_lt_strict_weak as [Ha Ht]. split; [intros [??] [??]; apply Ha|].
  intros [??] [??] [??]. apply Ht.
Qed.

(** The bbolt store keeps the interface's promises for every codec that reads
    back what it wrote. *)
Lemma nodestate_laws : (forall m b, marshal m = Ok b -> unmarshal b = Ok m) -> StateStoreLaws DB M B.
Proof.
  intros Hcodec. split; [exact Hcodec|..]; simpl.
  - intros f bucket key m s s' r. unfold nodestate.PutRecord.
    destruct (validateAddress_cases bucket key) as [[e ->]|(-> & _ & Hk)]; [intros [= <- <-]; eauto|].
    destruct (marshal m) as [b|e] eqn:Em; [|intros [= <- <-]; eauto].
    unfold Update. destruct f as [e|]; intros [= <- <-]; [by eauto|]. right. exists b.
    split_and!; [done..|apply bucket_of_insert|]. intros other Ho. by apply bucket_of_other.
  - intros bucket key m s b Hb Hk Em. unfold nodestate.PutRecord.
    rewrite (proj2 (validateAddress_ok bucket key)) by done. by rewrite Em.
  - intros bucket key s b Hb Hk Hl. unfold nodestate.GetRecord, GetRecordBytes.
    rewrite (proj2 (validateAddress_ok bucket key)) by done. simpl. unfold bucket_of in Hl.
    destruct (s !! bucket) as [m|]; simpl in Hl; [|done]. by rewrite Hl.
  - intros f bucket key s m. unfold nodestate.GetRecord, GetRecordBytes.
    destruct (validateAddress bucket key); [|done]. destruct f; [done|].
    unfold bucket_of. destruct (s !! bucket) as [c|]; [|done]. simpl.
    destruct (c !! key) as [b|]; [|done]. simpl. destruct (unmarshal b) as [m'|] eqn:E; [|done].
    intros [= ->]. eauto.
  - intros f bucket key s s' r. unfold nodestate.DeleteRecord.
    destruct (validateAddress_cases bucket key) as [[e ->]|(-> & _ & Hk)]; [intros [= <- <-]; eauto|].
    unfold Update. destruct (delete_in_bucket s bucket key) as [Hd Ho].
    destruct (s !! bucket) as [c|], f as [e|]; intros [= <- <-]; eauto 8.
  - intros bucket key s Hb Hk. unfold nodestate.DeleteRecord, Update.
    rewrite (proj2 (validateAddress_ok bucket key)) by done. by destruct (s !! bucket).
  - intros f bucket s l. unfold nodestate.ForEachRecord. destruct (validateName _ _); [|done].
    destruct f; [done|]. intros [= <-]. split; [apply sort_slice_perm|].
    pose proof (sort_slice_sorted _ entry_less_strict_weak (map_to_list (bucket_of s bucket))) as Hs.
    clear -Hs. induction Hs as [|x k Hk IH Hx]; simpl; constructor; [done|].
    rewrite list.Forall_fmap. eapply Forall_impl; [exact Hx|]. intros y. apply id.
  - intros bucket s Hb. unfold nodestate.ForEachRecord. by rewrite (proj2 (validateName_ok _ _)).
Qed.

(** [CompareAndSwapRecord] replaces the record exactly when it is still the
    expected one, and touches nothing otherwise. *)
Lemma cas_spec `{EqDecision B} f bucket key expected expectedExists next (db : gmap string (gmap string B)) db' swapped :
  CompareAndSwapRecord marshal f bucket key expected expectedExists next db = (db', Ok swapped) ->
  let current := bucket_of db bucket !! key in
  (swapped = true <-> if expectedExists then current = Some expected else current = None) /\
  (forall other, other <> bucket -> bucket_of db' other = bucket_of db other) /\
  if swapped
  then exists b, match next with None => b = None | Some m => exists d, marshal m = Ok d /\ b = Some d end /\
         bucket_of db' bucket = partial_alter (fun _ => b) key (bucket_of db bucket)
  else db' = db.
Proof.
  unfold CompareAndSwapRecord. destruct (validateAddress bucket key); [|done].
  assert (Hcur : (b ← db !! bucket; b !! key) = bucket_of db bucket !! key)
    by (unfold bucket_of; destruct (db !! bucket); simpl; [done|by rewrite lookup_empty]).
  destruct (delete_in_bucket db bucket key) as [Hdel Hother].
  destruct next as [m|]; [destruct (marshal m) as [d|] eqn:Em; [|done]|]; rewrite Hcur;
    destruct (bucket_of db bucket !! key) as [c|] eqn:Ec, expectedExists; simpl;
    try (destruct (bool_decide_reflect (c = expected)) as [->|]; simpl);
    destruct f; intros [= <- <-]; simpl; (split; [naive_solver|]); (split; [|try done]);
    try (intros other Ho; auto using bucket_of_other; done); try (by eauto).
  1-2: exists (Some d); rewrite bucket_of_insert; eauto.
  all: exists None; rewrite Hdel; eauto.
Qed.
End laws.
