(* ===== verification/NodeAllocation.v ===== *)
(** * The node's Allocation records

    [runtime/axnoded/internal/service/allocation/allocation_state.go] and
    [recovery_execution.go], with the manifest contract of
    [runtime/contract/enforcement_manifest.go]: the Allocation controller keeps a
    record per admitted Allocation in memory and in the node's record store
    ([NodeDB]), writes every change to the store before it shows it, and rebuilds
    the memory from the store after a restart.

    A call holds the lock of its Allocation from its first read of the record to
    its last write, so a call is one step of the model.  The clock, the outcome of
    a store transaction and the iteration order of a Go map are arguments.  What
    is done to the environments and image roots a state owns is kept in a log of
    effects. *)
From S2P Require Import Prelude Proto Resource Capability Execution NetworkPolicy NodeDB.

(** ** Messages (apipb/v1/axnoded_internal.proto) *)
Inductive RootfsSrcType := SRC_UNSPECIFIED | SRC_IMAGE | SRC_LOCAL | SRC_UNRECOGNIZED (n : Z).
Inductive RootfsSource := SourceImageUrl (url : string) | SourcePath (path : string).
Record RootfsConfigMessage := mkRootfsMessage {
  rc_Readonly : bool; rc_Type : RootfsSrcType; rc_Source : option RootfsSource }.
Record Mount := mkMount { mt_Type : string; mt_Source : string; mt_Target : string; mt_Options : list string }.
(** [OciExecutionProfile] holds one enum value. *)
Record ResolvedEnvironment := mkResolved {
  re_ID : string; re_Rootfs : option RootfsConfigMessage; re_Argv : list string;
  re_Env : gmap string string; re_Cwd : string; re_Mounts : list (option Mount);
  re_ExecutionProfile : option Z }.

Record AllocationEnforcementManifest := mkManifest {
  em_MemoryLimitBytes : Z; em_EphemeralStorageLimitBytes : Z; em_CgroupPath : string;
  em_RuntimeCgroupPath : string; em_RunscOverlayArg : string; em_FilestoreMountIdentity : string;
  em_CreatedAtUnixNano : Z; em_BundlePath : string; em_RunscBackingDirectory : string;
  em_RunscBackingDirectoryIdentity : string; em_CgroupBootID : string; em_CgroupMountIdentity : string;
  em_CgroupParentInode : Z; em_CgroupLeafInode : Z; em_MemorySwapMaxBytes : Z; em_MemoryOomGroup : bool;
  em_InitialMemoryEventHigh : Z; em_InitialMemoryEventMax : Z; em_InitialMemoryEventOom : Z;
  em_InitialMemoryEventOomKill : Z; em_InitialMemoryEventOomGroupKill : Z;
  em_GuestTaskLimit : Z; em_HostTaskLimit : Z }.
#[export] Instance manifest_eq_dec : EqDecision AllocationEnforcementManifest.
Proof. solve_decision. Defined.
#[export] Instance zero_Manifest : Zero AllocationEnforcementManifest :=
  mkManifest 0 0 "" "" "" "" 0 "" "" "" "" "" 0 0 0 false 0 0 0 0 0 0 0.

Record AllocationCapabilityReconcileState := mkReconcile {
  rs_PendingIntentSequence : Z; rs_Terminating : bool; rs_LastError : string }.
#[export] Instance zero_ReconcileState : Zero AllocationCapabilityReconcileState := mkReconcile 0 false "".

Record AllocationState := mkState {
  as_AllocationID : string; as_NodeID : string; as_Environment : option ResolvedEnvironment;
  as_Resources : option ResourceSpec; as_ImageMountUrls : list string;
  as_CapabilityRequirements : list (option CapabilityRequirement);
  as_EnforcementManifest : option AllocationEnforcementManifest;
  as_CapabilityReconcile : option AllocationCapabilityReconcileState;
  as_AllocationRequestDigest : string; as_ExecutionLeaseExpiresAtUnixNano : Z;
  as_TerminationDiagnosticCode : WorkloadDiagnosticCode; as_TerminationMessage : string;
  as_DeclaredOutputs : list (option DeclaredOutput); as_RootfsSnapshot : option () }.
Definition new_record (allocationID : string) : AllocationState :=
  mkState allocationID "" None None [] [] None None "" 0 WDC_UNSPECIFIED "" [] None.

(** Assignments to one field of a cloned record. *)
Definition set_Environment v r := mkState (as_AllocationID r) (as_NodeID r) v (as_Resources r)
  (as_ImageMountUrls r) (as_CapabilityRequirements r) (as_EnforcementManifest r) (as_CapabilityReconcile r)
  (as_AllocationRequestDigest r) (as_ExecutionLeaseExpiresAtUnixNano r) (as_TerminationDiagnosticCode r)
  (as_TerminationMessage r) (as_DeclaredOutputs r) (as_RootfsSnapshot r).
Definition set_ImageMountUrls v r := mkState (as_AllocationID r) (as_NodeID r) (as_Environment r)
  (as_Resources r) v (as_CapabilityRequirements r) (as_EnforcementManifest r) (as_CapabilityReconcile r)
  (as_AllocationRequestDigest r) (as_ExecutionLeaseExpiresAtUnixNano r) (as_TerminationDiagnosticCode r)
  (as_TerminationMessage r) (as_DeclaredOutputs r) (as_RootfsSnapshot r).
Definition set_EnforcementManifest v r := mkState (as_AllocationID r) (as_NodeID r) (as_Environment r)
  (as_Resources r) (as_ImageMountUrls r) (as_CapabilityRequirements r) v (as_CapabilityReconcile r)
  (as_AllocationRequestDigest r) (as_ExecutionLeaseExpiresAtUnixNano r) (as_TerminationDiagnosticCode r)
  (as_TerminationMessage r) (as_DeclaredOutputs r) (as_RootfsSnapshot r).
Definition set_CapabilityReconcile v r := mkState (as_AllocationID r) (as_NodeID r) (as_Environment r)
  (as_Resources r) (as_ImageMountUrls r) (as_CapabilityRequirements r) (as_EnforcementManifest r) v
  (as_AllocationRequestDigest r) (as_ExecutionLeaseExpiresAtUnixNano r) (as_TerminationDiagnosticCode r)
  (as_TerminationMessage r) (as_DeclaredOutputs r) (as_RootfsSnapshot r).
Definition set_ExecutionLease v r := mkState (as_AllocationID r) (as_NodeID r) (as_Environment r)
  (as_Resources r) (as_ImageMountUrls r) (as_CapabilityRequirements r) (as_EnforcementManifest r)
  (as_CapabilityReconcile r) (as_AllocationRequestDigest r) v (as_TerminationDiagnosticCode r)
  (as_TerminationMessage r) (as_DeclaredOutputs r) (as_RootfsSnapshot r).
Definition set_Termination code message r := mkState (as_AllocationID r) (as_NodeID r) (as_Environment r)
  (as_Resources r) (as_ImageMountUrls r) (as_CapabilityRequirements r) (as_EnforcementManifest r)
  (as_CapabilityReconcile r) (as_AllocationRequestDigest r) (as_ExecutionLeaseExpiresAtUnixNano r) code
  message (as_DeclaredOutputs r) (as_RootfsSnapshot r).

Definition errFailedPrecondition : error := Sentinel "failed precondition".

(** ** The enforcement manifest (runtime/contract/enforcement_manifest.go)

    [filepath.IsAbs] and [filepath.Dir] on a Unix system; [filepath.Clean] is
    [path.Clean] there. *)
Definition IsAbs (path : string) : bool := HasPrefix path "/".
Fixpoint drop_to_slash (s : string) : string :=
  match s with
  | EmptyString => ""
  | String c s' => if Ascii.eqb c "/" then s else drop_to_slash s'
  end.
Definition Dir (path : string) : string := Clean (string_rev (drop_to_slash (string_rev path))).
Definition clean_abs (value : string) : bool :=
  IsAbs value && negb (String.eqb value "/") && String.eqb (Clean value) value.

Definition hex_group (s : string) : bool := negb (String.eqb s "") && all_bytes hex_lower s.
Definition directoryIdentityPattern (s : string) : bool :=
  match strip_prefix "devino:v1:" s with
  | None => false
  | Some rest => match Split ":" rest with [a; b] => hex_group a && hex_group b | _ => false end
  end.

(** The two paths are checked in the order of a map literal's iteration. *)
Definition cgroup_paths (cgroup_first : bool) (m : AllocationEnforcementManifest) : list (string * string) :=
  let cgroup := ("cgroup_path", m.(em_CgroupPath)) in
  let leaf := ("runtime_cgroup_path", m.(em_RuntimeCgroupPath)) in
  if cgroup_first then [cgroup; leaf] else [leaf; cgroup].

Definition validate_task_limits (m : AllocationEnforcementManifest) : result () :=
  let guest := m.(em_GuestTaskLimit) in
  let host := m.(em_HostTaskLimit) in
  if negb (guest =? 0) || negb (host =? 0) then
    if (guest <? 64) || (65536 <? guest) || (host <? 64) || (65536 <? host)
    then Err (Errorf "allocation task limits must both be zero or both be between 64 and 65536" [])
    else
      let parent := m.(em_CgroupPath) in
      let leaf := m.(em_RuntimeCgroupPath) in
      _ ← for_each (fun _ value =>
            if negb (IsAbs value) || String.eqb value "/" || negb (String.eqb (Clean value) value)
               || negb (String.eqb (TrimSpace value) value) || (1024 <? str_len value)
            then Err (Errorf "task enforcement manifest requires clean bounded cgroup paths" []) else Ok ())
          [parent; leaf];
      if negb (String.eqb (Dir leaf) parent)
      then Err (Errorf "task enforcement manifest requires a direct-child workload cgroup" []) else Ok ()
  else Ok ().

Definition validate_memory (cgroup_first : bool) (m : AllocationEnforcementManifest) : result () :=
  if 0 <? m.(em_MemoryLimitBytes) then
    _ ← for_each (fun _ '(name, value) =>
          let cleaned := Clean (TrimSpace value) in
          if negb (IsAbs cleaned) || String.eqb cleaned "/" || negb (String.eqb cleaned value) || (1024 <? str_len value)
          then Err (Errorf "memory enforcement manifest requires a clean bounded %s" [AStr name]) else Ok ())
        (cgroup_paths cgroup_first m);
    if String.eqb (TrimSpace m.(em_CgroupBootID)) "" || (128 <? str_len m.(em_CgroupBootID))
    then Err (Errorf "memory enforcement manifest requires bounded cgroup boot identity" [])
    else if String.eqb (TrimSpace m.(em_CgroupMountIdentity)) "" || (1024 <? str_len m.(em_CgroupMountIdentity))
    then Err (Errorf "memory enforcement manifest requires bounded cgroup mount identity" [])
    else if (m.(em_CgroupParentInode) =? 0) || (m.(em_CgroupLeafInode) =? 0)
            || (m.(em_CgroupParentInode) =? m.(em_CgroupLeafInode))
    then Err (Errorf "memory enforcement manifest requires distinct parent and leaf identities" [])
    else if negb (m.(em_MemorySwapMaxBytes) =? 0) || negb m.(em_MemoryOomGroup)
    then Err (Errorf "memory enforcement manifest requires swap disabled and group OOM" [])
    else Ok ()
  else if negb (String.eqb m.(em_CgroupBootID) "") || negb (String.eqb m.(em_CgroupMountIdentity) "")
          || negb (m.(em_CgroupParentInode) =? 0) || negb (m.(em_CgroupLeafInode) =? 0)
          || negb (m.(em_MemorySwapMaxBytes) =? 0) || m.(em_MemoryOomGroup)
  then Err (Errorf "unlimited allocation enforcement manifest contains cgroup memory state" [])
  else Ok ().

Definition validate_storage (m : AllocationEnforcementManifest) : result () :=
  let limit := m.(em_EphemeralStorageLimitBytes) in
  if limit =? 0 then
    if negb (String.eqb m.(em_FilestoreMountIdentity) "") || negb (String.eqb m.(em_RunscOverlayArg) "")
       || negb (String.eqb m.(em_RunscBackingDirectory) "")
       || negb (String.eqb m.(em_RunscBackingDirectoryIdentity) "")
    then Err (Errorf "readonly allocation enforcement manifest contains ephemeral-storage state" [])
    else Ok ()
  else if String.eqb (TrimSpace m.(em_FilestoreMountIdentity)) "" || (1024 <? str_len m.(em_FilestoreMountIdentity))
  then Err (Errorf "ephemeral-storage enforcement manifest requires a bounded filestore mount identity" [])
  else
    let backingDirectory := Clean (TrimSpace m.(em_RunscBackingDirectory)) in
    if negb (IsAbs backingDirectory) || String.eqb backingDirectory "/"
       || negb (String.eqb backingDirectory m.(em_RunscBackingDirectory))
    then Err (Errorf "runsc enforcement manifest requires a clean absolute backing directory" [])
    else if negb (directoryIdentityPattern m.(em_RunscBackingDirectoryIdentity))
    then Err (Errorf "runsc enforcement manifest has invalid backing directory identity" [])
    else if negb (String.eqb m.(em_RunscOverlayArg)
                    ("root:dir=" +:+ backingDirectory +:+ ",size=" +:+ format_Z limit))
    then Err (Errorf "runsc enforcement manifest overlay argument does not match its backing and limit" [])
    else Ok ().

Definition ValidateEnforcementManifest (cgroup_first : bool) (manifest : option AllocationEnforcementManifest)
    (expectedBundlePath : string) : result () :=
  match manifest with
  | None => Err (Errorf "allocation enforcement manifest is required" [])
  | Some m =>
      if m.(em_CreatedAtUnixNano) <=? 0
      then Err (Errorf "allocation enforcement manifest created_at is required" [])
      else if (m.(em_MemoryLimitBytes) <? 0) || (m.(em_EphemeralStorageLimitBytes) <? 0)
      then Err (Errorf "allocation enforcement manifest limits cannot be negative" [])
      else
        _ ← validate_task_limits m;
        _ ← validate_memory cgroup_first m;
        let bundlePath := Clean (TrimSpace m.(em_BundlePath)) in
        if negb (IsAbs bundlePath) || String.eqb bundlePath "/" || negb (String.eqb bundlePath m.(em_BundlePath))
        then Err (Errorf "allocation enforcement manifest bundle_path must be a clean absolute path" [])
        else if negb (String.eqb expectedBundlePath "")
                && negb (String.eqb bundlePath (Clean expectedBundlePath))
        then Err (Errorf "allocation enforcement manifest bundle_path does not match runtime bundle" [])
        else validate_storage m
  end.

(** ** Verified manifests (allocation_state.go) *)
Section contracts.
Context `{GoRuntime}.

Fixpoint verified_keys (seen : gset string) (keys : list (option CapabilityKey))
    : result (list (option CapabilityKey)) :=
  match keys with
  | [] => Ok []
  | key :: rest =>
      id ← wrap_err "validate enforcement verification key: %w" [] (KeyID key);
      if bool_decide (id ∈ seen)
      then Err (Errorf "duplicate enforcement verification key %q" [AStr id])
      else
        let accepted := match PlatformDefinition (GetPlatform key) with
          | Some d => is_nil (GetExtension key)
                      && bool_decide (d.(def_Audience) = AudienceWorkloadRequirement)
                      && bool_decide (d.(def_LossPolicy) = CLP_FAIL_STOP)
                      && negb (bool_decide (d.(def_Verifier) = VerifierNone))
          | None => false
          end in
        if negb accepted
        then Err (Errorf "capability %q is not a fail-stop allocation enforcement requirement" [AStr id])
        else rest ← verified_keys ({[id]} ∪ seen) rest; Ok (CloneKey key :: rest)
  end.
Definition keyid_less (a b : option CapabilityKey) : bool := string_lt (KeyID_or_empty a) (KeyID_or_empty b).

(** The fail-stop dependencies, and the platform limits of the manifest that
    are not among them. *)
Definition fail_stop_keys (dependencies : list (option CapabilityRequirement)) : result (list (option CapabilityKey)) :=
  foldM (fun required dependency =>
    match dependency with
    | None => Ok required
    | Some d =>
        if negb (bool_decide (d.(cr_LossPolicy) = CLP_FAIL_STOP)) then Ok required
        else
          _ ← wrap_err "validate immutable fail-stop dependency: %w" [] (KeyID d.(cr_Key));
          Ok (required ++ [CloneKey d.(cr_Key)])
    end) [] dependencies.
Definition manifest_keys (m : AllocationEnforcementManifest) : list (option CapabilityKey) :=
  when (0 <? m.(em_MemoryLimitBytes)) (Some (PlatformKey PC_RUNSC_MEMORY_HARD_LIMIT))
  ++ when (0 <? m.(em_EphemeralStorageLimitBytes)) (Some (PlatformKey PC_RUNSC_EPHEMERAL_STORAGE_HARD_LIMIT)).
Definition add_required (required : list (option CapabilityKey)) (key : option CapabilityKey) :=
  if existsb (fun candidate => RequirementKeysEqual [key] [candidate]) required then required
  else required ++ [key].
Definition RequiredEnforcementKeys (manifest : option AllocationEnforcementManifest)
    (dependencies : list (option CapabilityRequirement)) : result (list (option CapabilityKey)) :=
  required ← fail_stop_keys dependencies;
  Ok (fold_left add_required (manifest_keys (deref manifest)) required).

Definition verifiedEnforcementManifest (cgroup_first : bool) (manifest : option AllocationEnforcementManifest)
    (verified : list (option CapabilityKey)) (dependencies : list (option CapabilityRequirement))
    (observedAt now : time) : result (option AllocationEnforcementManifest) :=
  _ ← ValidateEnforcementManifest cgroup_first manifest "";
  if IsZero observedAt || After observedAt (Add now Second)
  then Err (Errorf "enforcement verification observed time is invalid" [])
  else
    canonical ← verified_keys ∅ verified;
    expected ← RequiredEnforcementKeys manifest dependencies;
    if negb (RequirementKeysEqual (sort_slice keyid_less canonical) expected)
    then Err (Errorf "verified capabilities do not exactly match immutable enforcement contract" [])
    else Ok manifest.

(** ** Conditions *)
Definition canonicalCapabilityConditions (conditions : list (option CapabilityCondition))
    : result (list (option CapabilityCondition)) :=
  out ← foldM (fun '(seen, out) condition =>
      match condition with
      | None => Ok (seen, out)
      | Some c =>
          id ← KeyID c.(cc_Key);
          if bool_decide (id ∈ (seen : gset string))
          then Err (Errorf "duplicate capability condition %q" [AStr id])
          else Ok ({[id]} ∪ seen, out ++ [Some (mkCondition c.(cc_Key) c.(cc_State) c.(cc_ReasonCode)
                                               (BoundedReason (TrimSpace c.(cc_Message))))])
      end) (∅, []) conditions;
  Ok (sort_slice (fun a b => match a, b with
        | Some a, Some b => keyid_less a.(cc_Key) b.(cc_Key)
        | _, _ => false
        end) out.2).

(** [dependency.GetKey()] of a nil dependency is nil, which has no identity. *)
Definition capabilityConditionKeysEqualDependencies (dependencies : list (option CapabilityRequirement))
    (conditions : list (option CapabilityCondition)) : bool :=
  if negb (length dependencies =? length conditions)%nat then false
  else
    let collect := foldM (fun (keys : gset string) (d : option CapabilityRequirement) =>
        id ← KeyID (d ← d; d.(cr_Key));
        if bool_decide (id ∈ keys) then Err (Errorf "duplicate" []) else Ok ({[id]} ∪ keys)) ∅ dependencies in
    let consume keys := foldM (fun (keys : gset string) (c : option CapabilityCondition) =>
        id ← KeyID (c ← c; c.(cc_Key));
        if bool_decide (id ∈ keys) then Ok (keys ∖ {[id]}) else Err (Errorf "unexpected" [])) keys conditions in
    match keys ← collect; consume keys with
    | Ok rest => bool_decide (rest = ∅)
    | Err _ => false
    end.

End contracts.

(** ** Request digests (request_identity.go) *)
Definition hex_digit_any (c : ascii) : bool := non_nil (hex_value c).
Definition validStartRequestDigest (value : string) : bool :=
  if negb (str_len value =? 7 + 64) || negb (HasPrefix value "sha256:") then false
  else all_bytes hex_digit_any (TrimPrefix value "sha256:").

(** ** State *)
(** Environments and image roots are pointers; a prepared environment answers
    [ResolvedEnvironment()]. *)
Record PreparedEnvironment := mkPrepared { pe_pointer : Z; pe_ResolvedEnvironment : option ResolvedEnvironment }.
Definition RootFS : Type := Z.
Record allocationState := mkAllocationState {
  st_record : AllocationState; st_runtime : option PreparedEnvironment; st_imageMountRoots : list RootFS }.
Definition newAllocationState (allocationID : string) : allocationState :=
  mkAllocationState (new_record allocationID) None [].

(** Ownership handed back to the environment cache, or taken from it. *)
Inductive effect :=
| IncRef (environment : Z) | DecRef (environment : Z)
| IncActiveRef (root : RootFS) | ReleaseActiveRef (root : RootFS).

Record NodeController (S : Type) := mkController {
  h_store : S; h_allocationStates : gmap string allocationState; h_effects : list effect }.
Arguments mkController {S}.
Arguments h_store {S}.
Arguments h_allocationStates {S}.
Arguments h_effects {S}.

Definition AllocationStateBucket : string := "allocations".

Definition allocationRecordEmpty (r : AllocationState) : bool :=
  String.eqb r.(as_NodeID) "" && String.eqb r.(as_AllocationRequestDigest) ""
  && (r.(as_ExecutionLeaseExpiresAtUnixNano) =? 0)
  && bool_decide (r.(as_TerminationDiagnosticCode) = WDC_UNSPECIFIED)
  && String.eqb r.(as_TerminationMessage) "" && is_nil r.(as_Environment) && is_nil r.(as_Resources)
  && (length r.(as_ImageMountUrls) =? 0)%nat && (length r.(as_CapabilityRequirements) =? 0)%nat
  && (length r.(as_DeclaredOutputs) =? 0)%nat && is_nil r.(as_RootfsSnapshot)
  && is_nil r.(as_EnforcementManifest) && is_nil r.(as_CapabilityReconcile).

Definition rejectTerminatedActivation (r : AllocationState) : result () :=
  if bool_decide (r.(as_TerminationDiagnosticCode) = WDC_UNSPECIFIED) then Ok ()
  else Err (Wrapf "allocation %q has a durable termination intent: %w" [AStr r.(as_AllocationID)] errFailedPrecondition).

(** [Time.UnixNano]. *)
Definition UnixNano (t : time) : Z := wrap64 t.

(** [strings.Contains]. *)
Fixpoint Contains (s substr : string) : bool :=
  HasPrefix s substr || match s with EmptyString => false | String _ s' => Contains s' substr end.

(** ** Operations *)
Definition set_record (desired : AllocationState) (st : allocationState) : allocationState :=
  mkAllocationState desired st.(st_runtime) st.(st_imageMountRoots).

Section controller.
Context `{GoRuntime} {S B : Type} `{StateStore S AllocationState B}.
(** [err.Error()], and the iteration order of the map literal in
    [ValidateEnforcementManifest]. *)
Context (Error : error -> string) (cgroup_first : bool).
Notation ctl := (NodeController S).

Definition with_states (f : gmap string allocationState -> gmap string allocationState) (c : ctl) : ctl :=
  mkController c.(h_store) (f c.(h_allocationStates)) c.(h_effects).
Definition with_store (s : S) (c : ctl) : ctl := mkController s c.(h_allocationStates) c.(h_effects).
Definition emit (effects : list effect) (c : ctl) : ctl :=
  mkController c.(h_store) c.(h_allocationStates) (c.(h_effects) ++ effects).

(** [h.stateLocked(id).record = desired]: the state is made when there is none. *)
Definition publish (id : string) (desired : AllocationState) : ctl -> ctl :=
  with_states (fun states =>
    <[id := set_record desired (default (newAllocationState id) (states !! id))]> states).
(** [if current := h.allocationStates[id]; current != nil { current.record = desired }]. *)
Definition republish (id : string) (desired : AllocationState) : ctl -> ctl := with_states (alter (set_record desired) id).

(** The record may be non-nil only: every state is made with one. *)
Definition persistAllocationRecord (f : fault) (record : AllocationState) (s : S) : S * result () :=
  if String.eqb (TrimSpace record.(as_AllocationID)) "" then (s, Err (Errorf "allocation state requires an allocation id" []))
  else if String.eqb (TrimSpace record.(as_NodeID)) "" then (s, Ok ())
  else if allocationRecordEmpty record then DeleteRecord f AllocationStateBucket record.(as_AllocationID) s
  else PutRecord f AllocationStateBucket record.(as_AllocationID) record s.

(** Store the desired record, then show it. *)
Definition commit (f : fault) (what : string) (args : list farg) (desired : AllocationState)
    (show : ctl -> ctl) (c : ctl) : ctl * result () :=
  match persistAllocationRecord f desired c.(h_store) with
  | (s, Err e) => (with_store s c, Err (Wrapf what args e))
  | (s, Ok _) => (show (with_store s c), Ok ())
  end.

Definition record_of (c : ctl) (id : string) : option AllocationState :=
  st_record <$> c.(h_allocationStates) !! id.
Definition HasAllocation (c : ctl) (allocationID : string) : bool :=
  match record_of c (TrimSpace allocationID) with
  | Some r => String.eqb r.(as_AllocationID) (TrimSpace allocationID)
  | None => false
  end.

Definition StoreAllocationIntent (f : fault) (now : time) (allocationID nodeID requestDigest : string)
    (executionLeaseExpiresAt : time) (resourceSpec : option ResourceSpec)
    (requirements : list (option CapabilityRequirement)) (declaredOutputs : list (option DeclaredOutput))
    (rootfsSnapshot : option ()) (c : ctl) : ctl * result () :=
  let allocationID := TrimSpace allocationID in
  let nodeID := TrimSpace nodeID in
  if String.eqb allocationID "" || negb (validStartRequestDigest requestDigest)
  then (c, Err (Errorf "allocation id and canonical request digest are required" []))
  else if negb (String.eqb nodeID "") && negb (After executionLeaseExpiresAt now)
  then (c, Err (Errorf "control-plane allocation requires a future execution lease deadline" []))
  else match wrap_err "validate allocation capability requirements: %w" [] (ValidateRequirements requirements) with
  | Err e => (c, Err e)
  | Ok _ =>
      let current := default (new_record allocationID) (record_of c allocationID) in
      match rejectTerminatedActivation current with
      | Err e => (c, Err e)
      | Ok _ =>
          if negb (String.eqb current.(as_AllocationRequestDigest) "")
             && negb (String.eqb current.(as_AllocationRequestDigest) requestDigest)
          then (c, Err (Errorf "allocation request digest conflicts with durable contract" []))
          else if negb (String.eqb current.(as_NodeID) "") && negb (String.eqb current.(as_NodeID) nodeID)
          then (c, Err (Errorf "allocation node binding conflicts with durable contract" []))
          else
            let desired := mkState current.(as_AllocationID) nodeID current.(as_Environment) resourceSpec
              current.(as_ImageMountUrls) (keep id requirements) current.(as_EnforcementManifest)
              current.(as_CapabilityReconcile) requestDigest
              (if String.eqb nodeID "" then current.(as_ExecutionLeaseExpiresAtUnixNano)
               else UnixNano executionLeaseExpiresAt)
              current.(as_TerminationDiagnosticCode) current.(as_TerminationMessage)
              (keep id declaredOutputs) rootfsSnapshot in
            commit f "persist allocation intent: %w" [] desired (publish allocationID desired) c
      end
  end.

(** One turn of the loop of [RenewExecutionLeases]. *)
Definition renew_one (f : fault) (ttl : Z) (receivedAt : time) (allocationID : string) (c : ctl) : ctl * result () :=
  let expiresAt := UnixNano (Add receivedAt ttl) in
  match record_of c allocationID with
  | None => (c, Ok ())
  | Some r =>
      let currentDeadline := r.(as_ExecutionLeaseExpiresAtUnixNano) in
      if negb (bool_decide (r.(as_TerminationDiagnosticCode) = WDC_UNSPECIFIED))
         || (currentDeadline <=? UnixNano receivedAt) || (expiresAt <=? currentDeadline)
      then (c, Ok ())
      else
        let desired := set_ExecutionLease expiresAt r in
        commit f "persist allocation %s execution lease: %w" [AStr allocationID] desired
          (republish allocationID desired) c
  end.
Fixpoint renew_all (fs : string -> fault) (ttls : gmap string Z) (receivedAt : time) (ids : list string) (c : ctl)
    : ctl * result () :=
  match ids with
  | [] => (c, Ok ())
  | id :: rest =>
      match renew_one (fs id) (default 0 (ttls !! id)) receivedAt id c with
      | (c', Err e) => (c', Err e)
      | (c', Ok _) => renew_all fs ttls receivedAt rest c'
      end
  end.
Definition renewable (ttls : gmap string Z) (c : ctl) (id : string) : bool :=
  match record_of c id with
  | Some r => negb (String.eqb (TrimSpace r.(as_NodeID)) "") && (0 <? default 0 (ttls !! id))
  | None => false
  end.
(** [order]: the keys of the state map in the order of its iteration. *)
Definition RenewExecutionLeases (fs : string -> fault) (order : list string) (ttls : gmap string Z)
    (receivedAt : time) (c : ctl) : ctl * result () :=
  renew_all fs ttls receivedAt (filter (fun id => renewable ttls c id = true) order) c.

Definition ExpiredExecutionLeaseAllocationIDs (now : time) (c : ctl) : list string :=
  sort_slice string_lt (map fst (filter (fun '(_, st) =>
    let r := st.(st_record) in
    String.eqb (TrimSpace r.(as_NodeID)) "" = false /\
    (r.(as_ExecutionLeaseExpiresAtUnixNano) <=? 0) || negb (After r.(as_ExecutionLeaseExpiresAtUnixNano) now) = true)
    (map_to_list c.(h_allocationStates)))).

Definition markTerminationIntentLocked (f : fault) (desired : AllocationState) (code : WorkloadDiagnosticCode)
    (message : string) (c : ctl) : ctl * result () :=
  if negb (bool_decide (desired.(as_TerminationDiagnosticCode) = WDC_UNSPECIFIED)) then (c, Ok ())
  else
    let desired := set_Termination code (TrimSpace message) desired in
    commit f "persist allocation termination intent: %w" [] desired (republish desired.(as_AllocationID) desired) c.

Definition MarkTerminationIntentWithLifecycleHeld (f : fault) (allocationID : string)
    (code : WorkloadDiagnosticCode) (message : string) (c : ctl) : ctl * result () :=
  let allocationID := TrimSpace allocationID in
  if String.eqb allocationID "" || bool_decide (code = WDC_UNSPECIFIED)
  then (c, Err (Errorf "allocation id and termination diagnostic code are required" []))
  else match record_of c allocationID with
  | None => (c, Err (Errorf "allocation %q has no durable recovery record" [AStr allocationID]))
  | Some r => markTerminationIntentLocked f r code message c
  end.

Definition leaseExpired : string := "allocation execution lease expired".
Definition MarkExpiredExecutionLeaseWithLifecycleHeld (f : fault) (allocationID : string) (now : time) (c : ctl)
    : ctl * (bool * result ()) :=
  match record_of c allocationID with
  | None => (c, (false, Ok ()))
  | Some r =>
      if String.eqb r.(as_NodeID) "" || (UnixNano now <? r.(as_ExecutionLeaseExpiresAtUnixNano))
      then (c, (false, Ok ()))
      else
        let '(c', e) := markTerminationIntentLocked f r WDC_EXECUTION_LEASE_EXPIRED leaseExpired c in
        (c', (true, e))
  end.

Definition TerminationIntent (f : fault) (allocationID : string) (c : ctl) : WorkloadDiagnosticCode * string :=
  let allocationID := TrimSpace allocationID in
  match record_of c allocationID with
  | Some r => (r.(as_TerminationDiagnosticCode), r.(as_TerminationMessage))
  | None =>
      if String.eqb allocationID "" then (WDC_UNSPECIFIED, "")
      else match GetRecord f AllocationStateBucket allocationID c.(h_store) with
           | Ok r => if String.eqb r.(as_AllocationID) allocationID
                     then (r.(as_TerminationDiagnosticCode), r.(as_TerminationMessage))
                     else (WDC_UNSPECIFIED, "")
           | Err _ => (WDC_UNSPECIFIED, "")
           end
  end.

Definition ValidateActivation (now : time) (allocationID : string) (c : ctl) : result () :=
  match record_of c (TrimSpace allocationID) with
  | None => Ok ()
  | Some r =>
      _ ← rejectTerminatedActivation r;
      if negb (String.eqb r.(as_NodeID) "") && (r.(as_ExecutionLeaseExpiresAtUnixNano) <=? UnixNano now)
      then Err (Wrapf "allocation %q execution lease expired before activation: %w" [AStr allocationID] errFailedPrecondition)
      else Ok ()
  end.

(** *** Capability work *)
Definition ReplaceCapabilityConditions (now : time) (allocationID : string)
    (conditions : list (option CapabilityCondition)) (observedAt : time) (c : ctl) : result CapabilityConditionSet :=
  let allocationID := TrimSpace allocationID in
  if String.eqb allocationID "" then Err (Errorf "allocation id is required" [])
  else
    canonical ← canonicalCapabilityConditions conditions;
    let requirements := match record_of c allocationID with
                        | Some r => keep id r.(as_CapabilityRequirements)
                        | None => []
                        end in
    if negb (capabilityConditionKeysEqualDependencies requirements canonical)
    then Err (Errorf "capability condition keys do not exactly match allocation dependencies" [])
    else
      let set := mkConditionSet (Some (timestamppb_New observedAt)) canonical in
      _ ← wrap_err "validate allocation capability conditions: %w" [] (ValidateConditionSet (Some set) now);
      Ok set.

Definition no_state (allocationID : string) : error :=
  Errorf "allocation %q has no durable state" [AStr allocationID].
Definition set_sequence (n : Z) (r : AllocationCapabilityReconcileState) :=
  mkReconcile n r.(rs_Terminating) r.(rs_LastError).

Definition MergeCapabilityReconcile (f : fault) (allocationID : string) (c : ctl) : ctl * result () :=
  let allocationID := TrimSpace allocationID in
  if String.eqb allocationID "" then (c, Err (Errorf "allocation id is required" []))
  else match record_of c allocationID with
  | None => (c, Err (no_state allocationID))
  | Some r =>
      if is_nil r.(as_EnforcementManifest) then (c, Ok ())
      else
        let reconcile := deref r.(as_CapabilityReconcile) in
        if reconcile.(rs_PendingIntentSequence) =? MaxInt64
        then (c, Err (Errorf "capability reconcile intent sequence exhausted" []))
        else
          let desired := set_CapabilityReconcile
            (Some (set_sequence (reconcile.(rs_PendingIntentSequence) + 1) reconcile)) r in
          commit f "persist capability reconcile intent: %w" [] desired (publish allocationID desired) c
  end.

(** [lastErr] is the text of an error, if there is one. *)
Definition AckCapabilityReconcile (f : fault) (allocationID : string) (processedSequence : Z)
    (terminating : bool) (lastErr : option error) (c : ctl) : ctl * result () :=
  let allocationID := TrimSpace allocationID in
  if String.eqb allocationID "" then (c, Err (Errorf "allocation id is required" []))
  else match record_of c allocationID with
  | None => (c, Ok ())
  | Some r =>
      match r.(as_CapabilityReconcile) with
      | None => (c, Ok ())
      | Some reconcile =>
          let reconcile := mkReconcile
            (if processedSequence =? reconcile.(rs_PendingIntentSequence) then 0
             else reconcile.(rs_PendingIntentSequence))
            terminating
            (match lastErr with None => "" | Some e => BoundedReason (Error e) end) in
          let idle := (reconcile.(rs_PendingIntentSequence) =? 0) && negb reconcile.(rs_Terminating)
                      && String.eqb reconcile.(rs_LastError) "" in
          let desired := set_CapabilityReconcile (if idle then None else Some reconcile) r in
          commit f "ack capability reconcile intent: %w" [] desired (publish allocationID desired) c
      end
  end.

Definition BeginCapabilityTerminationWithLifecycleHeld (f : fault) (allocationID : string)
    (cause : option error) (c : ctl) : ctl * result () :=
  let allocationID := TrimSpace allocationID in
  match cause with
  | None => (c, Err (Errorf "allocation id and capability termination cause are required" []))
  | Some cause =>
      if String.eqb allocationID ""
      then (c, Err (Errorf "allocation id and capability termination cause are required" []))
      else match record_of c allocationID with
      | None => (c, Err (no_state allocationID))
      | Some r =>
          if is_nil r.(as_EnforcementManifest)
          then (c, Err (Wrapf "allocation %q has not crossed launch verification: %w" [AStr allocationID]
                          errFailedPrecondition))
          else
            let reconcile := deref r.(as_CapabilityReconcile) in
            let previous := TrimSpace reconcile.(rs_LastError) in
            let combined := if negb (String.eqb previous "") && negb (Contains previous (Error cause))
                            then previous +:+ byte_str [10%nat] +:+ Error cause else Error cause in
            let desired := set_CapabilityReconcile
              (Some (mkReconcile reconcile.(rs_PendingIntentSequence) true (BoundedReason combined))) r in
            let desired :=
              if bool_decide (r.(as_TerminationDiagnosticCode) = WDC_UNSPECIFIED)
              then set_Termination WDC_CAPABILITY_ENFORCEMENT_LOST
                     (BoundedReason ("allocation capability enforcement was lost: " +:+ Error cause)) desired
              else desired in
            commit f "persist capability termination ownership: %w" [] desired (publish allocationID desired) c
      end
  end.

Definition StoreVerifiedEnforcementManifest (f : fault) (now : time) (allocationID : string)
    (manifest : option AllocationEnforcementManifest) (verified : list (option CapabilityKey))
    (observedAt : time) (c : ctl) : ctl * result () :=
  let allocationID := TrimSpace allocationID in
  if String.eqb allocationID "" then (c, Err (Errorf "allocation ID is required" []))
  else match record_of c allocationID with
  | None => (c, Err (no_state allocationID))
  | Some r =>
      match _ ← rejectTerminatedActivation r;
            verifiedEnforcementManifest cgroup_first manifest verified r.(as_CapabilityRequirements) observedAt now with
      | Err e => (c, Err e)
      | Ok verifiedManifest =>
          if non_nil r.(as_EnforcementManifest)
             && negb (bool_decide (r.(as_EnforcementManifest) = verifiedManifest))
          then (c, Err (Errorf "allocation %q enforcement manifest is immutable" [AStr allocationID]))
          else
            let desired := set_EnforcementManifest verifiedManifest r in
            commit f "persist verified allocation enforcement manifest: %w" [] desired (publish allocationID desired) c
      end
  end.

Definition VerifiedEnforcementManifest (allocationID : string) (c : ctl) : option AllocationEnforcementManifest :=
  r ← record_of c (TrimSpace allocationID); r.(as_EnforcementManifest).
Definition EnforcementManifest (f : fault) (allocationID : string) (c : ctl) : option AllocationEnforcementManifest :=
  let allocationID := TrimSpace allocationID in
  match VerifiedEnforcementManifest allocationID c with
  | Some m => Some m
  | None =>
      if String.eqb allocationID "" then None
      else match GetRecord f AllocationStateBucket allocationID c.(h_store) with
           | Ok r => if String.eqb r.(as_AllocationID) allocationID then r.(as_EnforcementManifest) else None
           | Err _ => None
           end
  end.

(** *** Ownership of environments and image mounts *)
Definition rememberContainerRuntime (f : fault) (allocationID : string) (runtime : option PreparedEnvironment)
    (c : ctl) : ctl * result () :=
  let allocationID := TrimSpace allocationID in
  if String.eqb allocationID "" then (c, Err (Errorf "allocation id is required" []))
  else match runtime with
  | None => (c, Err (Errorf "allocation prepared environment is required" []))
  | Some environment =>
      match environment.(pe_ResolvedEnvironment) with
      | None => (c, Err (Errorf "allocation prepared environment is required" []))
      | Some resolved =>
          let current := c.(h_allocationStates) !! allocationID in
          let other := match current ≫= st_runtime with
                       | Some registered => negb (registered.(pe_pointer) =? environment.(pe_pointer))
                       | None => false
                       end in
          if other then (c, Err (Errorf "allocation runtime is already registered" []))
          else
            let desired := set_Environment (Some resolved)
              (default (new_record allocationID) (record_of c allocationID)) in
            commit f "persist allocation runtime: %w" [] desired
              (with_states (fun states =>
                 let state := default (newAllocationState allocationID) (states !! allocationID) in
                 <[allocationID := mkAllocationState desired (Some environment) state.(st_imageMountRoots)]> states)) c
      end
  end.

Definition image_urls (mounts : list (option ImageMount)) : list string :=
  flat_map (fun mount => match mount with
    | None => []
    | Some m => let image := TrimSpace m.(im_Image) in if String.eqb image "" then [] else [image]
    end) mounts.

(** The image references are written to the record in memory only. *)
Definition rememberImageMountRoots (allocationID : string) (roots : list RootFS)
    (mounts : list (option ImageMount)) (c : ctl) : ctl * result () :=
  let allocationID := TrimSpace allocationID in
  if String.eqb allocationID "" || (length roots =? 0)%nat then (c, Ok ())
  else
    let state := default (newAllocationState allocationID) (c.(h_allocationStates) !! allocationID) in
    if (0 <? length state.(st_imageMountRoots))%nat
    then (with_states (insert allocationID state) c, Err (Errorf "allocation image mounts are already registered" []))
    else
      let state := mkAllocationState (set_ImageMountUrls (image_urls mounts) state.(st_record)) state.(st_runtime)
                     (state.(st_imageMountRoots) ++ roots) in
      (with_states (insert allocationID state) c, Ok ()).

Definition forgetImageMountRoots (f : fault) (allocationID : string) (c : ctl) : ctl :=
  if String.eqb allocationID "" then c
  else match c.(h_allocationStates) !! allocationID with
  | None => c
  | Some state =>
      let desired := set_ImageMountUrls [] state.(st_record) in
      let persisted := if non_nil state.(st_runtime) then persistAllocationRecord f desired c.(h_store)
                       else (c.(h_store), Ok ()) in
      match persisted with
      | (s, Err _) => with_store s c
      | (s, Ok _) =>
          let state' := mkAllocationState desired state.(st_runtime) [] in
          let gone := allocationRecordEmpty desired && is_nil state.(st_runtime) in
          emit (map ReleaseActiveRef state.(st_imageMountRoots))
            (with_states (fun states => if gone then delete allocationID states else <[allocationID := state']> states)
               (with_store s c))
      end
  end.

Definition releaseAllocationState (f : fault) (allocationID : string) (persistedRecovery : bool) (c : ctl)
    : ctl * result () :=
  let allocationID := TrimSpace allocationID in
  if String.eqb allocationID "" then (c, Ok ())
  else
    let state := c.(h_allocationStates) !! allocationID in
    let admitted := match state with
                    | Some st => negb (String.eqb (TrimSpace st.(st_record).(as_NodeID)) "")
                    | None => false
                    end in
    let deleted := if persistedRecovery || admitted then DeleteRecord f AllocationStateBucket allocationID c.(h_store)
                   else (c.(h_store), Ok ()) in
    match deleted with
    | (s, Err e) => (with_store s c, Err (Wrapf "delete allocation state: %w" [] e))
    | (s, Ok _) =>
        let effects := match state with
          | None => []
          | Some st => match st.(st_runtime) with Some e => [DecRef e.(pe_pointer)] | None => [] end
                       ++ map ReleaseActiveRef st.(st_imageMountRoots)
          end in
        (emit effects (with_states (delete allocationID) (with_store s c)), Ok ())
    end.

(** *** Recovery *)
Definition validateCapabilityReconcileState (state : option AllocationCapabilityReconcileState) : result () :=
  match state with
  | None => Ok ()
  | Some s =>
      if MaxReasonBytes <? str_len s.(rs_LastError)
      then Err (Errorf "capability reconcile error exceeds its bounded payload" [])
      else if s.(rs_PendingIntentSequence) <? 0
      then Err (Errorf "pending capability reconcile intent sequence cannot be negative" [])
      else Ok ()
  end.

Definition classifyRecoveryRecord (r : AllocationState) : result bool :=
  let dependencies := r.(as_CapabilityRequirements) in
  _ ← wrap_err "validate recovered capability dependencies: %w" [] (ValidateRequirements dependencies);
  if negb (validStartRequestDigest r.(as_AllocationRequestDigest))
  then Err (Errorf "allocation create intent is missing its canonical request digest" [])
  else if negb (String.eqb (TrimSpace r.(as_NodeID)) "") && (r.(as_ExecutionLeaseExpiresAtUnixNano) <=? 0)
  then Err (Errorf "control-plane allocation is missing its execution lease deadline" [])
  else match r.(as_EnforcementManifest) with
  | None =>
      if non_nil r.(as_CapabilityReconcile)
      then Err (Errorf "unverified allocation create intent contains capability reconcile state" [])
      else Ok false
  | Some m =>
      _ ← wrap_err "validate recovered enforcement manifest: %w" [] (ValidateEnforcementManifest cgroup_first (Some m) "");
      _ ← wrap_err "validate recovered enforcement requirements: %w" [] (RequiredEnforcementKeys (Some m) dependencies);
      _ ← wrap_err "validate recovered capability reconcile state: %w" []
            (validateCapabilityReconcileState r.(as_CapabilityReconcile));
      Ok true
  end.
Definition validateRecoveredCapabilityState (r : AllocationState) : result () :=
  verified ← classifyRecoveryRecord r;
  if (verified : bool) then Ok () else Err (Errorf "active allocation is missing its verified enforcement manifest" []).

(** A visited record is decoded and carries its key as its identity. *)
Definition decode_record (key : string) (value : B) : result AllocationState :=
  r ← wrap_err "decode allocation state %s: %w" [AStr key] (Unmarshal value);
  if String.eqb r.(as_AllocationID) "" || negb (String.eqb r.(as_AllocationID) key)
  then Err (Errorf "allocation state key %s does not match record id %s" [AStr key; AStr r.(as_AllocationID)])
  else Ok r.

Record RecoveryRecords := mkRecovery { rr_Intents : gset string; rr_EnforcementVerified : gset string }.
Definition inspect_record (acc : RecoveryRecords) (record : string * B) : result RecoveryRecords :=
  let '(key, value) := record in
  r ← decode_record key value;
  verified ← wrap_err "validate allocation state %s: %w" [AStr key] (classifyRecoveryRecord r);
  if String.eqb (TrimSpace r.(as_NodeID)) ""
  then Err (Errorf "allocation state %s has no admitted node" [AStr key])
  else Ok (mkRecovery ({[key]} ∪ acc.(rr_Intents))
             (if (verified : bool) then {[key]} ∪ acc.(rr_EnforcementVerified) else acc.(rr_EnforcementVerified))).
Definition InspectRecoveryRecords (f : fault) (c : ctl) : result RecoveryRecords :=
  records ← ForEachRecord f AllocationStateBucket c.(h_store);
  foldM inspect_record (mkRecovery ∅ ∅) records.

Definition MarkRecoveredExecutionTerminationWithLifecycleHeld (fr f : fault) (id : string) (now : time) (c : ctl)
    : ctl * result bool :=
  let found := match record_of c id with
    | Some r => Ok r
    | None => wrap_err "load allocation %q execution authority: %w" [AStr id] (GetRecord fr AllocationStateBucket id c.(h_store))
    end in
  match found with
  | Err e => (c, Err e)
  | Ok r =>
      if negb (String.eqb r.(as_AllocationID) id) || String.eqb (TrimSpace r.(as_NodeID)) ""
      then (c, Err (Errorf "allocation %q has no exact admitted recovery identity" [AStr id]))
      else match classifyRecoveryRecord r with
      | Err e => (c, Err (Wrapf "validate allocation %q execution authority: %w" [AStr id] e))
      | Ok _ =>
          if negb (bool_decide (r.(as_TerminationDiagnosticCode) = WDC_UNSPECIFIED)) then (c, Ok true)
          else if UnixNano now <? r.(as_ExecutionLeaseExpiresAtUnixNano) then (c, Ok false)
          else match markTerminationIntentLocked f r WDC_EXECUTION_LEASE_EXPIRED leaseExpired c with
               | (c', Ok _) => (c', Ok true)
               | (c', Err e) => (c', Err e)
               end
      end
  end.

(** [environmentcache.RootfsConfig] and [RootfsConfigFromResolvedEnvironment]. *)
Record RootfsConfig := mkRootfsConfig {
  cfg_SrcType : RootfsSrcType; cfg_ImageUrl : string; cfg_ImageCacheKey : string;
  cfg_DockerConfigJSON : string; cfg_LeaseID : string; cfg_Path : string }.
Definition RootfsConfigFromResolvedEnvironment (fr : ResolvedEnvironment) : result RootfsConfig :=
  match fr.(re_Rootfs) with
  | None => Err (Errorf "runtime rootfs is nil" [])
  | Some rootfs =>
      match rootfs.(rc_Type), rootfs.(rc_Source) with
      | SRC_IMAGE, source =>
          let url := match source with Some (SourceImageUrl url) => url | _ => "" end in
          if String.eqb url "" then Err (Errorf "Image URL is empty while rootfs type is IMAGE" [])
          else Ok (mkRootfsConfig SRC_IMAGE url "" "" "" "")
      | SRC_LOCAL, source =>
          let path := match source with Some (SourcePath path) => path | _ => "" end in
          if String.eqb path "" then Err (Errorf "Path empty while rootfs type is LOCAL" [])
          else Ok (mkRootfsConfig SRC_LOCAL "" "" "" "" path)
      | SRC_UNSPECIFIED, _ => Err (Errorf "Rootfs Type not supported: %v" [AStr "UNSPECIFIED"])
      | SRC_UNRECOGNIZED n, _ => Err (Errorf "Rootfs Type not supported: %v" [AStr (format_Z n)])
      end
  end.

(** The environment cache: what it answers while the states are loaded. *)
Context (PrepareEnvironment : ResolvedEnvironment -> RootfsConfig -> result PreparedEnvironment)
  (acquireRecoveredImageRoot : string -> result RootFS).

(** The roots acquired before the first failure stay with the state. *)
Fixpoint acquire_roots (urls : list string) : list RootFS * result () :=
  match urls with
  | [] => ([], Ok ())
  | url :: rest =>
      match acquireRecoveredImageRoot url with
      | Err e => ([], Err e)
      | Ok root => let '(roots, err) := acquire_roots rest in (root :: roots, err)
      end
  end.
Definition recover_environment (r : AllocationState) : option PreparedEnvironment * result () :=
  match r.(as_Environment) with
  | None => (None, Err (Errorf "active allocation has no prepared environment" []))
  | Some resolved =>
      match config ← RootfsConfigFromResolvedEnvironment resolved; PrepareEnvironment resolved config with
      | Ok environment => (Some environment, Ok ())
      | Err e => (None, Err e)
      end
  end.
Definition restoreAllocationState (r : AllocationState) : allocationState * list effect * result () :=
  let '(environment, env_err) := recover_environment r in
  let '(roots, root_err) := acquire_roots r.(as_ImageMountUrls) in
  (mkAllocationState r environment roots,
   (match environment with Some e => [IncRef e.(pe_pointer)] | None => [] end) ++ map IncActiveRef roots,
   Join (Join (validateRecoveredCapabilityState r) env_err) root_err).

Definition load_one (records : gmap string B) (state : ctl * result ()) (key : string) : ctl * result () :=
  let '(c, recoveryErr) := state in
  match records !! key with
  | None => state
  | Some value =>
      match decode_record key value with
      | Err e => (c, Join recoveryErr (Err e))
      | Ok r =>
          let '(st, effects, err) := restoreAllocationState r in
          (emit effects (with_states (insert key st) c),
           Join recoveryErr (wrap_err "restore allocation %s state: %w" [AStr key] err))
      end
  end.
Definition drop_orphan (fs : string -> fault) (inventory : list string) (state : ctl * result ()) (key : string)
    : ctl * result () :=
  let '(c, cleanupErr) := state in
  if bool_decide (key ∈ inventory) then state
  else match DeleteRecord (fs key) AllocationStateBucket key c.(h_store) with
       | (s, Err e) => (with_store s c, Join cleanupErr (Err (Wrapf "delete orphan allocation state %s: %w" [AStr key] e)))
       | (s, Ok _) => (with_store s c, cleanupErr)
       end.

(** [inventory] and the records are ranged over in the order given. *)
Definition loadAllocationStates (fe : fault) (fs : string -> fault) (inventory : list string) (c : ctl)
    : ctl * result () :=
  match ForEachRecord fe AllocationStateBucket c.(h_store) with
  | Err e => (c, Err e)
  | Ok listed =>
      let records : gmap string B := list_to_map listed in
      match for_each (fun _ id => if is_nil (records !! id)
              then Err (Errorf "live runtime container %s has no allocation recovery record" [AStr id])
              else Ok ()) inventory with
      | Err e => (c, Err e)
      | Ok _ =>
          match fold_left (load_one records) inventory (c, Ok ()) with
          | (c', Err e) => (c', Err e)
          | (c', Ok _) => fold_left (drop_orphan fs inventory) listed.*1 (c', Ok ())
          end
      end
  end.

(** *** Who may act on an Allocation (admission.go, recovery_execution.go) *)
Definition HasAdmittedAllocation (c : ctl) (allocationID : string) : bool :=
  HasAllocation c allocationID
  && match record_of c (TrimSpace allocationID) with
     | Some r => negb (String.eqb (TrimSpace r.(as_NodeID)) "")
     | None => false
     end.
Definition ValidateOperatorExecution (allocationID : string) (now : time) (c : ctl) : result () :=
  let allocationID := TrimSpace allocationID in
  if String.eqb allocationID "" then Err errInvalidArgument
  else match c.(h_allocationStates) !! allocationID with
  | None => Err (Wrapf "allocation %q has no authoritative AllocationState: %w" [AStr allocationID] errNotFound)
  | Some st =>
      let r := st.(st_record) in
      if negb (String.eqb r.(as_AllocationID) allocationID)
      then Err (Wrapf "allocation %q has no authoritative AllocationState: %w" [AStr allocationID] errNotFound)
      else if negb (validStartRequestDigest r.(as_AllocationRequestDigest)) || is_nil r.(as_EnforcementManifest)
              || is_nil st.(st_runtime)
      then Err (Wrapf "allocation %q runtime identity is incomplete: %w" [AStr allocationID] errFailedPrecondition)
      else if negb (bool_decide (r.(as_TerminationDiagnosticCode) = WDC_UNSPECIFIED))
      then Err (Wrapf "allocation %q is terminating: %w" [AStr allocationID] errFailedPrecondition)
      else if negb (String.eqb (TrimSpace r.(as_NodeID)) "")
              && ((r.(as_ExecutionLeaseExpiresAtUnixNano) <=? 0)
                  || negb (After r.(as_ExecutionLeaseExpiresAtUnixNano) now))
      then Err (Wrapf "allocation %q has no valid execution lease: %w" [AStr allocationID] errFailedPrecondition)
      else Ok ()
  end.
Definition ValidateOperatorRecovery (allocationID : string) (c : ctl) : result () :=
  let allocationID := TrimSpace allocationID in
  if String.eqb allocationID "" then Err errInvalidArgument
  else match c.(h_allocationStates) !! allocationID with
  | None => Err (Wrapf "allocation %q has no authoritative AllocationState: %w" [AStr allocationID] errNotFound)
  | Some st =>
      let r := st.(st_record) in
      if negb (String.eqb r.(as_AllocationID) allocationID)
      then Err (Wrapf "allocation %q has no authoritative AllocationState: %w" [AStr allocationID] errNotFound)
      else if negb (validStartRequestDigest r.(as_AllocationRequestDigest)) || is_nil st.(st_runtime)
      then Err (Wrapf "allocation %q runtime identity is incomplete: %w" [AStr allocationID] errFailedPrecondition)
      else Ok ()
  end.
Definition ValidateAllocationTunnel (allocationID nodeID : string) (now : time) (c : ctl) : result () :=
  _ ← ValidateOperatorExecution allocationID now c;
  let nodeID := TrimSpace nodeID in
  match record_of c (TrimSpace allocationID) with
  | Some r =>
      if String.eqb nodeID "" || negb (String.eqb r.(as_NodeID) nodeID)
      then Err (Wrapf "allocation %q is not bound to this node: %w" [AStr allocationID] errFailedPrecondition)
      else Ok ()
  | None => Err (Wrapf "allocation %q is not bound to this node: %w" [AStr allocationID] errFailedPrecondition)
  end.
Definition ValidateRecoveryActivationWithLifecycleHeld (now : time) (id : string) (c : ctl) : result time :=
  match c.(h_allocationStates) !! id with
  | Some st =>
      let r := st.(st_record) in
      if String.eqb r.(as_AllocationID) id && negb (String.eqb r.(as_NodeID) "") && non_nil r.(as_EnforcementManifest)
         && non_nil st.(st_runtime)
      then _ ← ValidateActivation now id c; Ok r.(as_ExecutionLeaseExpiresAtUnixNano)
      else Err (Wrapf "allocation %q has incomplete recovered execution ownership: %w" [AStr id] errFailedPrecondition)
  | None => Err (Wrapf "allocation %q has incomplete recovered execution ownership: %w" [AStr id] errFailedPrecondition)
  end.
End controller.
