(* ===== verification/NodeAllocationFacts.v ===== *)
(** * What the node's Allocation records guarantee

    The controller of [NodeAllocation] over any record store that keeps the
    promises of [StateStoreLaws], in every sequence of calls, restarts and store
    failures ([node_step]).  While the node serves, memory and store agree; every
    stored record passes the validation of a later recovery; an Allocation's
    identity, manifest and first termination cause never change; a terminated
    Allocation is never given authority again. *)
From S2P Require Import Prelude Proto Resource Capability CapabilityFacts Execution NetworkPolicy NodeDB NodeAllocation.

(** ** Records *)
(** Memory may be ahead of the store in the image references alone. *)
Definition same_but_images (r r' : AllocationState) : Prop :=
  set_ImageMountUrls [] r = set_ImageMountUrls [] r'.

Definition trimmed (s : string) : Prop := TrimSpace s = s.
Record named (id : string) (r : AllocationState) : Prop := {
  named_id : r.(as_AllocationID) = id; named_trimmed : trimmed id; named_nonempty : id <> "";
  named_node : trimmed r.(as_NodeID) }.

Definition terminated (r : AllocationState) : Prop := r.(as_TerminationDiagnosticCode) <> WDC_UNSPECIFIED.

(** How a record may change: its identity is fixed once it is set, a verified
    manifest stays, and a terminated record keeps its cause, its lease and its
    specification. *)
Record record_le (r r' : AllocationState) : Prop := {
  le_id : r'.(as_AllocationID) = r.(as_AllocationID);
  le_node : r.(as_NodeID) <> "" -> r'.(as_NodeID) = r.(as_NodeID);
  le_digest : r.(as_AllocationRequestDigest) <> "" ->
    r'.(as_AllocationRequestDigest) = r.(as_AllocationRequestDigest);
  le_manifest m : r.(as_EnforcementManifest) = Some m -> r'.(as_EnforcementManifest) = Some m;
  le_terminated : terminated r ->
    r'.(as_TerminationDiagnosticCode) = r.(as_TerminationDiagnosticCode) /\
    r'.(as_TerminationMessage) = r.(as_TerminationMessage) /\
    r'.(as_ExecutionLeaseExpiresAtUnixNano) = r.(as_ExecutionLeaseExpiresAtUnixNano) /\
    r'.(as_CapabilityRequirements) = r.(as_CapabilityRequirements) /\
    r'.(as_Resources) = r.(as_Resources) /\ r'.(as_DeclaredOutputs) = r.(as_DeclaredOutputs) /\
    r'.(as_RootfsSnapshot) = r.(as_RootfsSnapshot) }.

#[export] Instance record_le_preorder : PreOrder record_le.
Proof.
  split.
  - intros r. split; auto. intros _. by split_and!.
  - intros r r' r'' [i n d m t] [i' n' d' m' t']. split.
    + congruence.
    + intros Hn. rewrite n' by (rewrite n; done). by apply n.
    + intros Hd. rewrite d' by (rewrite d; done). by apply d.
    + eauto.
    + intros Ht. destruct (t Ht) as (E1 & E2 & E3 & E4 & E5 & E6 & E7).
      assert (Ht' : terminated r') by (unfold terminated in *; congruence).
      destruct (t' Ht') as (F1 & F2 & F3 & F4 & F5 & F6 & F7). split_and!; congruence.
Qed.

Lemma same_but_images_fields r r' : same_but_images r r' ->
  r'.(as_AllocationID) = r.(as_AllocationID) /\ r'.(as_NodeID) = r.(as_NodeID) /\
  r'.(as_AllocationRequestDigest) = r.(as_AllocationRequestDigest) /\
  r'.(as_EnforcementManifest) = r.(as_EnforcementManifest) /\
  r'.(as_CapabilityReconcile) = r.(as_CapabilityReconcile) /\
  r'.(as_TerminationDiagnosticCode) = r.(as_TerminationDiagnosticCode) /\
  r'.(as_TerminationMessage) = r.(as_TerminationMessage) /\
  r'.(as_ExecutionLeaseExpiresAtUnixNano) = r.(as_ExecutionLeaseExpiresAtUnixNano) /\
  r'.(as_CapabilityRequirements) = r.(as_CapabilityRequirements) /\
  r'.(as_Resources) = r.(as_Resources) /\ r'.(as_DeclaredOutputs) = r.(as_DeclaredOutputs) /\
  r'.(as_RootfsSnapshot) = r.(as_RootfsSnapshot) /\ r'.(as_Environment) = r.(as_Environment).
Proof. destruct r, r'. intros [=]; subst. by split_and!. Qed.
Lemma same_but_images_le r r' : same_but_images r r' -> record_le r r'.
Proof.
  intros (?&?&?&?&?&?&?&?&?&?&?&?&?)%same_but_images_fields.
  split; try congruence. intros _. by split_and!.
Qed.
#[export] Instance same_but_images_equiv : Equivalence same_but_images.
Proof. unfold same_but_images. split; congruence. Qed.
Lemma set_images_same urls r : same_but_images r (set_ImageMountUrls urls r).
Proof. done. Qed.

(** ** Sound records *)
#[local] Arguments ValidateEnforcementManifest : simpl never.
#[local] Arguments RequiredEnforcementKeys : simpl never.
#[local] Arguments ValidateRequirements : simpl never.
#[local] Arguments BoundedReason : simpl never.
Section records.
Context `{GoRuntime} (cgroup_first : bool).

(** What makes a record pass [classifyRecoveryRecord] once it has a node. *)
Record record_ok (r : AllocationState) : Prop := {
  ok_requirements : ValidateRequirements r.(as_CapabilityRequirements) = Ok ();
  ok_admitted : r.(as_NodeID) <> "" ->
    validStartRequestDigest r.(as_AllocationRequestDigest) = true /\
    0 < r.(as_ExecutionLeaseExpiresAtUnixNano);
  ok_manifest m : r.(as_EnforcementManifest) = Some m ->
    ValidateEnforcementManifest cgroup_first (Some m) "" = Ok ();
  ok_work : r.(as_EnforcementManifest) = None -> r.(as_CapabilityReconcile) = None;
  ok_reconcile : validateCapabilityReconcileState r.(as_CapabilityReconcile) = Ok () }.

Lemma new_record_ok id : record_ok (new_record id).
Proof. by split. Qed.
Lemma record_ok_images r r' : same_but_images r r' -> record_ok r -> record_ok r'.
Proof.
  intros (?&En&Ed&Em&Ew&?&?&El&Er&?&?&?&?)%same_but_images_fields [o1 o2 o3 o4 o5].
  split; rewrite ?En, ?Ed, ?Em, ?Ew, ?El, ?Er; done.
Qed.
Lemma named_images id r r' : same_but_images r r' -> named id r -> named id r'.
Proof. intros (Ei&En&_)%same_but_images_fields [n1 n2 n3 n4]. split; congruence. Qed.

(** Validated requirements hold no nil, and every key has an identity. *)
Lemma requirement_keys_ids keys st st' : foldM ValidateRequirementKeys_step st keys = Ok st' ->
  Forall (fun k => exists i, KeyID k = Ok i) keys.
Proof.
  revert st. induction keys as [|k keys IH]; intros st; [constructor|]. cbn [foldM].
  intros (s1 & Hk & Hf)%bind_Ok. constructor; [|by eapply IH].
  unfold ValidateRequirementKeys_step in Hk. apply bind_Ok in Hk as (i & Hi & _). eauto.
Qed.
Lemma requirement_list_fold l acc ks :
  foldM (fun keys requirement =>
      match requirement with
      | None => Err (Errorf "nil capability requirement" [])
      | Some r => Ok (keys ++ [r.(cr_Key)])
      end) acc l = Ok ks ->
  exists rs, l = map Some rs /\ ks = acc ++ map cr_Key rs.
Proof.
  revert acc. induction l as [|[r|] l IH]; intros acc; simpl; [|intros (rs & -> & ->)%IH|done].
  - intros [= <-]. exists []. by rewrite app_nil_r.
  - exists (r :: rs). by rewrite <- app_assoc.
Qed.
Lemma ValidateRequirements_keys l : ValidateRequirements l = Ok () ->
  keep id l = l /\ Forall (fun d => exists c i, d = Some c /\ KeyID c.(cr_Key) = Ok i) l.
Proof.
  unfold ValidateRequirements. intros (ks & (rs & -> & ->)%requirement_list_fold & Hv)%bind_Ok.
  apply bind_Ok in Hv as ([] & Hv & _). unfold ValidateRequirementKeys in Hv. case_match; [done|].
  apply bind_Ok in Hv as (st & Hv%requirement_keys_ids & _). split.
  - clear -rs. unfold keep. induction rs as [|r rs IH]; [done|]. simpl. f_equal. exact IH.
  - simpl in Hv. rewrite Forall_map in Hv. rewrite Forall_map. eapply Forall_impl; [exact Hv|].
    intros r [i Hi]. eauto.
Qed.

Lemma fail_stop_keys_ok l acc :
  Forall (fun d : option CapabilityRequirement => exists c i, d = Some c /\ KeyID c.(cr_Key) = Ok i) l ->
  exists ks, foldM (fun required dependency =>
    match dependency with
    | None => Ok required
    | Some d =>
        if negb (bool_decide (d.(cr_LossPolicy) = CLP_FAIL_STOP)) then Ok required
        else
          _ ← wrap_err "validate immutable fail-stop dependency: %w" [] (KeyID d.(cr_Key));
          Ok (required ++ [CloneKey d.(cr_Key)])
    end) acc l = Ok ks.
Proof.
  intros Hl. revert acc. induction Hl as [|d l (c & i & -> & Hi) _ IH]; intros acc; simpl; [eauto|].
  case_match; simpl; [apply IH|]. rewrite Hi. simpl. apply IH.
Qed.

Lemma classify_ok r : record_ok r -> trimmed r.(as_NodeID) -> r.(as_NodeID) <> "" ->
  classifyRecoveryRecord cgroup_first r = Ok (non_nil r.(as_EnforcementManifest)).
Proof.
  intros [o1 o2 o3 o4 o5] Ht Hn. destruct (o2 Hn) as [Hd Hl]. unfold classifyRecoveryRecord. rewrite o1. simpl.
  rewrite Hd. simpl. rewrite Ht. destruct (String.eqb_spec r.(as_NodeID) ""); [done|]. simpl.
  destruct (Z.leb_spec r.(as_ExecutionLeaseExpiresAtUnixNano) 0); [lia|].
  destruct (as_EnforcementManifest r) as [m|]; [|by rewrite o4].
  rewrite (o3 m) by done. simpl. unfold RequiredEnforcementKeys, fail_stop_keys.
  destruct (ValidateRequirements_keys _ o1) as [_ Hf]. destruct (fail_stop_keys_ok _ [] Hf) as [ks ->]. simpl.
  by rewrite o5.
Qed.
End records.

(** ** The controller over its store *)
Section controller.
Context `{GoRuntime} {S B : Type} `{StateStore S AllocationState B} {Laws : StateStoreLaws S AllocationState B}.
Context (Error : error -> string) (cgroup_first : bool).
Notation ctl := (NodeController S).
Notation record_ok := (record_ok cgroup_first).

(** The decoded record of an Allocation on disk. *)
Definition stored (s : S) (id : string) : option AllocationState :=
  b ← contents s AllocationStateBucket !! id; match Unmarshal b with Ok r => Some r | Err _ => None end.
Definition on_disk (c : ctl) (id : string) : option AllocationState := stored c.(h_store) id.

Record sound_record (id : string) (r : AllocationState) : Prop := {
  sound_named : named id r; sound_admitted : r.(as_NodeID) <> ""; sound_ok : record_ok r }.
Record disk_ok (s : S) : Prop := {
  disk_decodes id b : contents s AllocationStateBucket !! id = Some b -> exists r, stored s id = Some r;
  disk_sound id r : stored s id = Some r -> sound_record id r }.

(** Memory and store agree: every admitted record is stored, and every stored
    record is in memory. *)
Record serving (c : ctl) : Prop := {
  serving_disk : disk_ok c.(h_store);
  serving_named id st : c.(h_allocationStates) !! id = Some st -> named id st.(st_record) /\ record_ok st.(st_record);
  serving_durable id st : c.(h_allocationStates) !! id = Some st -> st.(st_record).(as_NodeID) <> "" ->
    exists r, on_disk c id = Some r;
  serving_shown id r : on_disk c id = Some r ->
    exists st, c.(h_allocationStates) !! id = Some st /\ same_but_images r st.(st_record) }.

(** No stored record changes but along [record_le]. *)
Definition evolves (s s' : S) : Prop :=
  forall id r r', stored s id = Some r -> stored s' id = Some r' -> record_le r r'.

Lemma stored_put id r b s s' : Marshal r = Ok b ->
  contents s' AllocationStateBucket = <[id := b]> (contents s AllocationStateBucket) ->
  forall i, stored s' i = if decide (i = id) then Some r else stored s i.
Proof.
  intros Hb Hc i. unfold stored. rewrite Hc. case_decide as Hi.
  - subst i. rewrite lookup_insert_eq. simpl. by rewrite (codec _ _ Hb).
  - by rewrite lookup_insert_ne by congruence.
Qed.
Lemma stored_delete id s s' :
  contents s' AllocationStateBucket = delete id (contents s AllocationStateBucket) ->
  forall i, stored s' i = if decide (i = id) then None else stored s i.
Proof.
  intros Hc i. unfold stored. rewrite Hc. case_decide as Hi.
  - subst i. by rewrite lookup_delete_eq.
  - by rewrite lookup_delete_ne by congruence.
Qed.
Lemma disk_ok_put id r b s s' : Marshal r = Ok b ->
  contents s' AllocationStateBucket = <[id := b]> (contents s AllocationStateBucket) ->
  sound_record id r -> disk_ok s -> disk_ok s'.
Proof.
  intros Hb Hc Hr [Hd Hs]. pose proof (stored_put _ _ _ _ _ Hb Hc) as Hst. split.
  - intros i x. rewrite Hst, Hc. case_decide as Hi; [subst; eauto|].
    rewrite lookup_insert_ne by congruence. apply Hd.
  - intros i x. rewrite Hst. case_decide as Hi; [intros [= <-]; by subst|apply Hs].
Qed.
Lemma disk_ok_delete id s s' :
  contents s' AllocationStateBucket = delete id (contents s AllocationStateBucket) -> disk_ok s -> disk_ok s'.
Proof.
  intros Hc [Hd Hs]. pose proof (stored_delete _ _ _ Hc) as Hst. split.
  - intros i x. rewrite Hst, Hc. case_decide as Hi; [subst; by rewrite lookup_delete_eq|].
    rewrite lookup_delete_ne by congruence. apply Hd.
  - intros i x. rewrite Hst. case_decide as Hi; [done|apply Hs].
Qed.

(** *** Persisting *)
(** What a successful write leaves on disk. *)
Record persisted (r : AllocationState) (s s' : S) : Prop := {
  persisted_local : r.(as_NodeID) = "" -> s' = s;
  persisted_node : r.(as_NodeID) <> "" ->
    exists b, Marshal r = Ok b /\
      contents s' AllocationStateBucket = <[r.(as_AllocationID) := b]> (contents s AllocationStateBucket) }.

Lemma persist_cases f r s s' e : trimmed r.(as_NodeID) -> persistAllocationRecord f r s = (s', e) ->
  (exists e', e = Err e' /\ s' = s) \/ (e = Ok () /\ persisted r s s').
Proof.
  intros Ht. unfold persistAllocationRecord. rewrite Ht.
  destruct (String.eqb _ "") ; [intros [= <- <-]; eauto|].
  destruct (String.eqb_spec r.(as_NodeID) "") as [Hn|Hn]; [intros [= <- <-]; right; split; [done|by split]|].
  assert (allocationRecordEmpty r = false) as ->.
  { unfold allocationRecordEmpty. by destruct (String.eqb_spec r.(as_NodeID) ""). }
  intros [(e' & -> & ->)|(b & -> & Hb & _ & Hc & _)]%put_law; [eauto|]. right. split; [done|]. split; [done|eauto].
Qed.

Lemma with_store_same (c : ctl) : with_store c.(h_store) c = c.
Proof. by destruct c. Qed.
Lemma commit_cases f what args desired show (c c' : ctl) r : trimmed desired.(as_NodeID) ->
  commit f what args desired show c = (c', r) ->
  (exists e, r = Err e /\ c' = c) \/
  (exists s', r = Ok () /\ persisted desired c.(h_store) s' /\ c' = show (with_store s' c)).
Proof.
  intros Ht. unfold commit. destruct (persistAllocationRecord _ _ _) as [s' e] eqn:E.
  apply (persist_cases _ _ _ _ _ Ht) in E as [(e' & -> & ->)|[-> Hp]]; intros [= <- <-]; [|eauto].
  left. eexists. split; [done|]. apply with_store_same.
Qed.

(** *** One call *)
Definition moves (c c' : ctl) : Prop := serving c' /\ evolves c.(h_store) c'.(h_store).
Lemma evolves_refl s : evolves s s.
Proof. intros id r r' -> [= ->]. done. Qed.
Lemma node_moves_refl c : serving c -> moves c c.
Proof. intros Hc. split; [done|apply evolves_refl]. Qed.

Lemma record_of_some (c : ctl) id r : record_of c id = Some r ->
  exists st, c.(h_allocationStates) !! id = Some st /\ r = st.(st_record).
Proof. unfold record_of. intros (st & -> & Hst)%fmap_Some. eauto. Qed.
Lemma serving_record c id r : serving c -> record_of c id = Some r -> named id r /\ record_ok r.
Proof. intros Hc (st & Hst & ->)%record_of_some. by apply (serving_named c Hc). Qed.
Lemma serving_default c id : serving c -> trimmed id -> id <> "" ->
  let old := default (new_record id) (record_of c id) in named id old /\ record_ok old.
Proof.
  intros Hc Ht Hn. simpl. destruct (record_of c id) as [r|] eqn:E; simpl; [by apply (serving_record c)|].
  split; [by split|apply new_record_ok].
Qed.
(** The record in memory of an Allocation that is on disk. *)
Lemma serving_old c id r : serving c -> on_disk c id = Some r ->
  exists old, record_of c id = Some old /\ same_but_images r old /\ sound_record id r.
Proof.
  intros Hc Hr. destruct (serving_shown c Hc _ _ Hr) as (st & Hst & Hs).
  exists st.(st_record). unfold record_of. rewrite Hst. split_and!; [done..|]. by apply (disk_sound _ (serving_disk c Hc)).
Qed.

(** A write that follows [record_le] keeps memory and store in agreement. *)
Lemma commit_moves f what args id desired st (show : ctl -> ctl) c c' r :
  serving c -> named id desired -> record_ok desired ->
  record_le (default (new_record id) (record_of c id)) desired -> st.(st_record) = desired ->
  (forall s', (show (with_store s' c)).(h_store) = s' /\
     (show (with_store s' c)).(h_allocationStates) = <[id := st]> c.(h_allocationStates)) ->
  commit f what args desired show c = (c', r) -> moves c c'.
Proof.
  intros Hc Hnamed Hok Hle Hst Hshow Hcommit.
  apply (commit_cases _ _ _ _ _ _ _ _ (named_node _ _ Hnamed)) in Hcommit as [(e & -> & ->)|(s' & -> & [Hloc Hput] & ->)];
    [by apply node_moves_refl|].
  destruct (Hshow s') as [Es Em]. unfold moves, on_disk. rewrite Es. clear Hshow.
  destruct (decide (desired.(as_NodeID) = "")) as [Hn|Hn].
  - rewrite (Hloc Hn) in *. split; [|apply evolves_refl]. split; rewrite ?Em; unfold on_disk; rewrite ?Es.
    + apply Hc.
    + intros i x. destruct (decide (i = id)) as [->|Hi]; [rewrite lookup_insert_eq; intros [= <-]; by rewrite Hst|].
      rewrite lookup_insert_ne by congruence. apply (serving_named c Hc).
    + intros i x. destruct (decide (i = id)) as [->|Hi]; [rewrite lookup_insert_eq; intros [= <-]; by rewrite Hst|].
      rewrite lookup_insert_ne by congruence. apply (serving_durable c Hc).
    + intros i x Hx. destruct (decide (i = id)) as [->|Hi].
      * exfalso. destruct (serving_old c _ _ Hc Hx) as (old & Hold & Hs & Hsound). rewrite Hold in Hle. simpl in Hle.
        apply same_but_images_fields in Hs as (_ & En & _). pose proof (sound_admitted _ _ Hsound) as Ha.
        apply Ha. rewrite <- En. rewrite <- (le_node _ _ Hle); [done|]. by rewrite En.
      * rewrite lookup_insert_ne by congruence. by apply (serving_shown c Hc).
  - destruct (Hput Hn) as (b & Hb & Hcont). rewrite (named_id _ _ Hnamed) in Hcont.
    pose proof (stored_put _ _ _ _ _ Hb Hcont) as Hstored. split.
    + split; rewrite ?Em; unfold on_disk; rewrite ?Es.
      * eapply disk_ok_put; [done..|by split|apply Hc].
      * intros i x. destruct (decide (i = id)) as [->|Hi]; [rewrite lookup_insert_eq; intros [= <-]; by rewrite Hst|].
        rewrite lookup_insert_ne by congruence. apply (serving_named c Hc).
      * intros i x. rewrite Hstored. case_decide as Hi; [eauto|].
        rewrite lookup_insert_ne by congruence. apply (serving_durable c Hc).
      * intros i x. rewrite Hstored. case_decide as Hi.
        -- intros [= <-]. subst i. exists st. by rewrite lookup_insert_eq, Hst.
        -- rewrite lookup_insert_ne by congruence. apply (serving_shown c Hc).
    + intros i x y Hx. rewrite Hstored. case_decide as Hi; [|intros Hy; by simplify_eq].
      intros [= <-]. subst i. destruct (serving_old c _ _ Hc Hx) as (old & Hold & Hs & _). rewrite Hold in Hle.
      etrans; [by apply same_but_images_le|done].
Qed.

Lemma publish_shows id desired (c : ctl) s' :
  (publish id desired (with_store s' c)).(h_store) = s' /\
  (publish id desired (with_store s' c)).(h_allocationStates) =
    <[id := set_record desired (default (newAllocationState id) (c.(h_allocationStates) !! id))]> c.(h_allocationStates).
Proof. done. Qed.
Lemma republish_shows id desired (c : ctl) st s' : c.(h_allocationStates) !! id = Some st ->
  (republish id desired (with_store s' c)).(h_store) = s' /\
  (republish id desired (with_store s' c)).(h_allocationStates) = <[id := set_record desired st]> c.(h_allocationStates).
Proof.
  intros Hst. split; [done|]. simpl. apply map_eq. intros i. destruct (decide (i = id)) as [->|].
  - by rewrite lookup_alter_eq, lookup_insert_eq, Hst.
  - by rewrite lookup_alter_ne, lookup_insert_ne by congruence.
Qed.

Lemma publish_moves f what args id desired c c' r :
  serving c -> named id desired -> record_ok desired ->
  record_le (default (new_record id) (record_of c id)) desired ->
  commit f what args desired (publish id desired) c = (c', r) -> moves c c'.
Proof.
  intros Hc Hn Ho Hle. eapply commit_moves; try done. 2: { intros s'. apply publish_shows. } done.
Qed.
Lemma republish_moves f what args id desired old c c' r :
  serving c -> record_of c id = Some old -> named id desired -> record_ok desired -> record_le old desired ->
  commit f what args desired (republish id desired) c = (c', r) -> moves c c'.
Proof.
  intros Hc Hold Hn Ho Hle. destruct (record_of_some _ _ _ Hold) as (st & Hst & _).
  eapply (commit_moves _ _ _ _ _ (set_record desired st)); try done; [by rewrite Hold|].
  intros s'. by apply republish_shows.
Qed.

(** *** The operations *)
(** A refused call changes nothing. *)
Ltac refused := intros [= <- <-]; by apply node_moves_refl.
Ltac known :=
  match goal with
  | Hc : serving ?c |- context [record_of ?c ?id] =>
      let r := fresh "r" in let E := fresh "Er" in
      destruct (record_of c id) as [r|] eqn:E; [destruct (serving_record _ _ _ Hc E) as [? ?]|refused]
  end.

Lemma rejects_terminated r : rejectTerminatedActivation r = Ok () <-> ~ terminated r.
Proof. unfold rejectTerminatedActivation, terminated. case_bool_decide; naive_solver. Qed.

Lemma Intent_moves f now id node digest expires spec reqs outs snap c c' r :
  serving c -> 0 <= now -> int64 expires ->
  StoreAllocationIntent f now id node digest expires spec reqs outs snap c = (c', r) -> moves c c'.
Proof.
  intros Hc Hnow Hexp. unfold StoreAllocationIntent.
  branch Hid; [refused|]. b2p. branch Hlease; [refused|].
  destruct (ValidateRequirements reqs) as [[]|] eqn:Hreqs; simpl; [|refused].
  pose proof (serving_default c (TrimSpace id) Hc (TrimSpace_idempotent id) ltac:(done)) as [Hn Ho]. simpl in Hn, Ho.
  set (old := default _ _) in *. destruct (rejectTerminatedActivation old) as [[]|] eqn:Hrej; [|refused].
  apply rejects_terminated in Hrej.
  branch Hdig; [refused|]. branch Hnode; [refused|].
  destruct (ValidateRequirements_keys _ Hreqs) as [Hkeep _].
  apply publish_moves; [done|..].
  - destruct Hn. split; try done. apply TrimSpace_idempotent.
  - destruct Ho as [o1 o2 o3 o4 o5]. split; simpl; [by rewrite Hkeep| |done..].
    intros Hne. split; [done|]. destruct (String.eqb_spec (TrimSpace node) ""); [done|]. simpl in Hlease.
    unfold After in Hlease. b2p. unfold UnixNano. rewrite wrap64_id by done. apply Z.ltb_lt in Hlease. lia.
  - split; simpl; [done|..]; try done; fold old.
    + intros Hne. apply andb_false_iff in Hnode as [Hx|Hx]; b2p; congruence.
    + intros Hne. apply andb_false_iff in Hdig as [Hx|Hx]; b2p; congruence.
Qed.

Lemma set_lease_ok v r : record_ok r -> 0 < v -> record_ok (set_ExecutionLease v r).
Proof. intros [o1 o2 o3 o4 o5] Hv. split; simpl; try done. intros Hn. by split; [apply o2|]. Qed.
Lemma set_termination_ok code m r : record_ok r -> record_ok (set_Termination code m r).
Proof. by intros []. Qed.

Lemma Renew_one_moves f ttl at_ id c c' r : serving c -> renew_one f ttl at_ id c = (c', r) -> moves c c'.
Proof.
  intros Hc. unfold renew_one. known. branch E; [refused|].
  apply orb_false_iff in E as [[E1 E2]%orb_false_iff E3]. b2p. apply Z.leb_gt in E2, E3.
  eapply republish_moves; [done..| | |].
  - by destruct H1.
  - destruct (decide (r0.(as_NodeID) = "")) as [Hn|Hn].
    + destruct H2 as [o1 o2 o3 o4 o5]. by split.
    + apply set_lease_ok; [done|]. pose proof (ok_admitted _ _ H2 Hn). lia.
  - split; simpl; try done.
Qed.

Lemma Renew_one_keeps f ttl at_ id c c' r i : serving c -> renew_one f ttl at_ id c = (c', r) ->
  is_Some (on_disk c i) -> is_Some (on_disk c' i).
Proof.
  intros Hc. unfold renew_one. destruct (record_of c id) as [old|] eqn:Er; [|by intros [= <- <-]].
  destruct (serving_record _ _ _ Hc Er) as [Hn Ho]. branch E; [by intros [= <- <-]|].
  intros [(e & -> & ->)|(s' & -> & [Hloc Hput] & ->)]%commit_cases; [done| |by destruct Hn].
  simpl in Hloc, Hput. unfold on_disk. simpl. destruct (decide (old.(as_NodeID) = "")) as [Hx|Hx];
    [by rewrite (Hloc Hx)|]. destruct (Hput Hx) as (b & Hb & Hcont). rewrite (stored_put _ _ _ _ _ Hb Hcont).
  destruct (decide _); [by eexists|done].
Qed.
Lemma Renew_all_moves fs ttls at_ ids c c' r : serving c -> renew_all fs ttls at_ ids c = (c', r) -> moves c c'.
Proof.
  revert c. induction ids as [|id ids IH]; simpl; intros c Hc; [intros [= <- <-]; by apply node_moves_refl|].
  destruct (renew_one _ _ _ _ _) as [c1 [[]|e]] eqn:E; pose proof (Renew_one_moves _ _ _ _ _ _ _ Hc E) as [Hc1 He1].
  - intros Hr. destruct (IH _ Hc1 Hr) as [Hc2 He2]. split; [done|]. intros i x y Hx Hy.
    destruct (Renew_one_keeps _ _ _ _ _ _ _ i Hc E) as [z Hz]; [by exists x|]. etrans; [by eapply He1|by eapply He2].
  - intros [= <- <-]. done.
Qed.

Lemma mark_moves f id old code m c c' r : serving c -> record_of c id = Some old ->
  markTerminationIntentLocked f old code m c = (c', r) -> moves c c'.
Proof.
  intros Hc Hold. destruct (serving_record _ _ _ Hc Hold) as [Hn Ho]. unfold markTerminationIntentLocked.
  branch E; [refused|]. b2p. simpl. rewrite (named_id _ _ Hn).
  eapply republish_moves; [done..| | |]; [by destruct Hn|by apply set_termination_ok|by split].
Qed.
Lemma Mark_moves f id code m c c' r : serving c ->
  MarkTerminationIntentWithLifecycleHeld f id code m c = (c', r) -> moves c c'.
Proof.
  intros Hc. unfold MarkTerminationIntentWithLifecycleHeld. let E := fresh in branch E; [refused|]. known. by eapply mark_moves.
Qed.
Lemma MarkExpired_moves f id now c c' r : serving c ->
  MarkExpiredExecutionLeaseWithLifecycleHeld f id now c = (c', r) -> moves c c'.
Proof.
  intros Hc. unfold MarkExpiredExecutionLeaseWithLifecycleHeld. known. let E := fresh in branch E; [refused|].
  destruct (markTerminationIntentLocked _ _ _ _ _) as [c1 e] eqn:E. intros [= <- <-]. by eapply mark_moves.
Qed.

Lemma reconcile_ok r : record_ok r -> 0 <= rs_PendingIntentSequence (deref r.(as_CapabilityReconcile)).
Proof.
  intros Ho. pose proof (ok_reconcile _ _ Ho) as Hr. unfold validateCapabilityReconcileState in Hr.
  destruct r.(as_CapabilityReconcile) as [x|]; simpl; [|done]. destruct (_ <? str_len _); [done|].
  by destruct (Z.ltb_spec x.(rs_PendingIntentSequence) 0).
Qed.
Lemma reason_bounded reason : (MaxReasonBytes <? str_len (BoundedReason reason)) = false.
Proof. apply Z.ltb_ge. apply BoundedReason_spec. Qed.
Lemma set_reconcile_ok n t reason r m : record_ok r -> r.(as_EnforcementManifest) = Some m -> 0 <= n ->
  (MaxReasonBytes <? str_len reason) = false ->
  record_ok (set_CapabilityReconcile (Some (mkReconcile n t reason)) r).
Proof.
  intros [o1 o2 o3 o4 o5] Hm Hn Hreason. split; simpl; try done; [congruence|]. rewrite Hreason.
  by destruct (Z.ltb_spec n 0); [lia|].
Qed.
Lemma set_reconcile_le v r : record_le r (set_CapabilityReconcile v r).
Proof. split; simpl; auto. intros _. by split_and!. Qed.
Lemma named_set_reconcile id v r : named id r -> named id (set_CapabilityReconcile v r).
Proof. by intros []. Qed.
Hint Resolve set_reconcile_le named_set_reconcile : core.

Lemma Merge_moves f id c c' r : serving c -> MergeCapabilityReconcile f id c = (c', r) -> moves c c'.
Proof.
  intros Hc. unfold MergeCapabilityReconcile. branch Eid; [refused|]. known.
  destruct (as_EnforcementManifest r0) as [m|] eqn:Em; [|refused]. simpl.
  branch Emax; [refused|]. pose proof (reconcile_ok _ H2) as Hp. pose proof (ok_reconcile _ _ H2) as Hr.
  apply publish_moves; auto; [|rewrite Er; simpl; auto].
  unfold set_sequence. eapply set_reconcile_ok; [done..|lia|].
  destruct (as_CapabilityReconcile r0) as [x|]; [|done]. simpl in Hr |- *. by destruct (_ <? str_len _).
Qed.

Lemma Ack_moves f id n t e c c' r : serving c -> AckCapabilityReconcile Error f id n t e c = (c', r) -> moves c c'.
Proof.
  intros Hc. unfold AckCapabilityReconcile. branch Eid; [refused|]. known.
  destruct (as_CapabilityReconcile r0) as [x|] eqn:Ex; [|refused]. cbv zeta.
  pose proof (reconcile_ok _ H2) as Hp. rewrite Ex in Hp. simpl in Hp.
  apply publish_moves; auto; [|rewrite Er; simpl; auto].
  destruct (as_EnforcementManifest r0) as [m|] eqn:Em; [|by rewrite (ok_work _ _ H2 Em) in Ex].
  branch Eidle.
  - destruct H2 as [o1 o2 o3 o4 o5]. by split.
  - eapply set_reconcile_ok; [done..| |].
    + case_match; lia.
    + destruct e; [apply reason_bounded|done].
Qed.

Lemma Begin_moves f id cause c c' r : serving c ->
  BeginCapabilityTerminationWithLifecycleHeld Error f id cause c = (c', r) -> moves c c'.
Proof.
  intros Hc. unfold BeginCapabilityTerminationWithLifecycleHeld. destruct cause as [cause|]; [|refused].
  branch Eid; [refused|]. known. destruct (as_EnforcementManifest r0) as [m|] eqn:Em; [|refused]. cbn [is_nil].
  cbv zeta. set (desired := set_CapabilityReconcile _ _).
  assert (Hd : record_ok desired) by (eapply set_reconcile_ok; [done..|by apply reconcile_ok|apply reason_bounded]).
  assert (Hn : named (TrimSpace id) desired) by by apply named_set_reconcile.
  assert (Hle : record_le r0 desired) by apply set_reconcile_le.
  case_bool_decide as Ht; apply publish_moves; rewrite ?Er; try done; [by destruct Hn|].
  by apply set_termination_ok.
Qed.

Lemma StoreVerified_moves f now id manifest verified at_ c c' r : serving c ->
  StoreVerifiedEnforcementManifest cgroup_first f now id manifest verified at_ c = (c', r) -> moves c c'.
Proof.
  intros Hc. unfold StoreVerifiedEnforcementManifest. branch Eid; [refused|]. known.
  destruct (rejectTerminatedActivation r0) as [[]|] eqn:Hrej; [|refused]. apply rejects_terminated in Hrej. simpl.
  destruct (verifiedEnforcementManifest _ _ _ _ _ _) as [vm|] eqn:Hv; [|refused].
  unfold verifiedEnforcementManifest in Hv. apply bind_Ok in Hv as ([] & Hval & Hv).
  destruct (_ || _); [done|]. apply bind_Ok in Hv as (ks & _ & Hv). apply bind_Ok in Hv as (es & _ & Hv).
  destruct (negb _); [done|]. injection Hv as <-. branch Eim; [refused|].
  destruct manifest as [m|]; [|done].
  apply publish_moves; try done; [by destruct H1| |rewrite Er; simpl].
  - destruct H2 as [o1 o2 o3 o4 o5]. split; simpl; try done. congruence.
  - split; simpl; try done. intros m' Hm'. rewrite Hm' in Eim. simpl in Eim. b2p. congruence.
Qed.

Lemma rememberRuntime_moves f id env c c' r : serving c -> rememberContainerRuntime f id env c = (c', r) -> moves c c'.
Proof.
  intros Hc. unfold rememberContainerRuntime. branch Eid; [refused|]. b2p.
  destruct env as [env|]; [|refused]. destruct (pe_ResolvedEnvironment env) as [re|]; [|refused]. cbv zeta.
  set (other := match _ with Some _ => _ | None => false end). destruct other; [refused|].
  destruct (serving_default c (TrimSpace id) Hc (TrimSpace_idempotent id) ltac:(done)) as [Hn Ho]. simpl in *.
  apply (commit_moves _ _ _ (TrimSpace id) _ (mkAllocationState
    (set_Environment (Some re) (default (new_record (TrimSpace id)) (record_of c (TrimSpace id)))) (Some env)
    (default (newAllocationState (TrimSpace id)) (c.(h_allocationStates) !! TrimSpace id)).(st_imageMountRoots))); try done.
  - by destruct Hn.
  - by destruct Ho.
Qed.

(** *** Ownership *)
(** Memory may change a state without the store, as long as the record stays
    the same but for its image references. *)
Lemma memory_moves id st (c c' : ctl) : serving c -> trimmed id -> id <> "" ->
  same_but_images (default (new_record id) (record_of c id)) st.(st_record) ->
  c'.(h_store) = c.(h_store) -> c'.(h_allocationStates) = <[id := st]> c.(h_allocationStates) -> moves c c'.
Proof.
  intros Hc Ht Hne Hsame Es Em. unfold moves. rewrite Es. split; [|apply evolves_refl].
  destruct (serving_default c id Hc Ht Hne) as [Hn Ho]. simpl in Hn, Ho. split; unfold on_disk; rewrite ?Es, ?Em.
  - apply Hc.
  - intros i x. destruct (decide (i = id)) as [->|Hi]; [rewrite lookup_insert_eq; intros [= <-]|].
    + split; [by eapply named_images|by eapply record_ok_images].
    + rewrite lookup_insert_ne by congruence. apply (serving_named c Hc).
  - intros i x. destruct (decide (i = id)) as [->|Hi]; [rewrite lookup_insert_eq; intros [= <-] Hx|].
    + apply same_but_images_fields in Hsame as (_ & En & _). rewrite En in Hx. unfold record_of in *.
      destruct (h_allocationStates c !! id) as [old|] eqn:E; simpl in *; [|done]. by apply (serving_durable c Hc _ _ E).
    + rewrite lookup_insert_ne by congruence. apply (serving_durable c Hc).
  - intros i x Hx. destruct (decide (i = id)) as [->|Hi]; [|rewrite lookup_insert_ne by congruence; by apply (serving_shown c Hc)].
    rewrite lookup_insert_eq. exists st. split; [done|]. destruct (serving_old c _ _ Hc Hx) as (old & Hold & Hs & _).
    rewrite Hold in Hsame. simpl in Hsame. by etrans.
Qed.

Lemma rememberImages_moves id roots mounts c c' r : serving c ->
  rememberImageMountRoots id roots mounts c = (c', r) -> moves c c'.
Proof.
  intros Hc. unfold rememberImageMountRoots. branch Eid; [refused|]. b2p. cbv zeta. intros Hr.
  set (state := default _ _) in Hr.
  assert (Hst : state.(st_record) = default (new_record (TrimSpace id)) (record_of c (TrimSpace id)))
    by (unfold state, record_of; by destruct (_ !! _)).
  destruct (0 <? length state.(st_imageMountRoots))%nat; injection Hr as <- <-;
    (eapply (memory_moves (TrimSpace id)); [done|apply TrimSpace_idempotent|done| |reflexivity|reflexivity]);
    rewrite <- Hst; done.
Qed.

(** The states that hold no admitted record may be dropped. *)
Lemma drop_moves id (c c' : ctl) : serving c -> on_disk c id = None ->
  c'.(h_store) = c.(h_store) -> c'.(h_allocationStates) = delete id c.(h_allocationStates) -> moves c c'.
Proof.
  intros Hc Hn Es Em. unfold moves. rewrite Es. split; [|apply evolves_refl]. split; unfold on_disk; rewrite ?Es, ?Em.
  - apply Hc.
  - intros i x [_ Hx]%lookup_delete_Some. by apply (serving_named c Hc).
  - intros i x [_ Hx]%lookup_delete_Some. by apply (serving_durable c Hc).
  - intros i x Hx. assert (i <> id) by (intros ->; unfold on_disk in Hn; congruence).
    rewrite lookup_delete_ne by congruence. by apply (serving_shown c Hc).
Qed.

Lemma not_admitted_absent (c : ctl) id : serving c ->
  (forall r, record_of c id = Some r -> r.(as_NodeID) = "") -> on_disk c id = None.
Proof.
  intros Hc Hr. destruct (on_disk c id) as [r|] eqn:E; [|done]. exfalso.
  destruct (serving_old c _ _ Hc E) as (old & Hold & Hs & [_ Ha _]).
  apply same_but_images_fields in Hs as (_ & En & _). apply Hr in Hold. congruence.
Qed.

Lemma forget_moves f id c : serving c -> moves c (forgetImageMountRoots f id c).
Proof.
  intros Hc. unfold forgetImageMountRoots. branch Eid; [by apply node_moves_refl|].
  destruct (h_allocationStates c !! id) as [st|] eqn:Est; [|by apply node_moves_refl]. cbv zeta.
  assert (Er : record_of c id = Some st.(st_record)) by (unfold record_of; by rewrite Est).
  destruct (serving_named c Hc _ _ Est) as [Hn Ho]. set (desired := set_ImageMountUrls [] st.(st_record)).
  assert (Hsame : same_but_images st.(st_record) desired) by done.
  destruct (st_runtime st) as [env|] eqn:Erun; simpl.
  - rewrite andb_false_r. destruct (persistAllocationRecord f desired (h_store c)) as [s' e] eqn:Ep.
    set (state' := mkAllocationState desired (Some env) []).
    set (show := fun c : ctl => emit (map ReleaseActiveRef st.(st_imageMountRoots)) (with_states (insert id state') c)).
    assert (Hc1 : commit f "" [] desired show c =
                  match e with Err e => (with_store s' c, Err (Wrapf "" [] e)) | Ok _ => (show (with_store s' c), Ok ()) end)
      by (unfold commit; rewrite Ep; by destruct e).
    assert (Hle : record_le (default (new_record id) (record_of c id)) desired)
      by (rewrite Er; by apply same_but_images_le).
    destruct e as [[]|e]; (eapply (commit_moves _ _ _ id _ state' show); [..|exact Hc1]); try done;
      by eapply record_ok_images || by eapply named_images.
  - rewrite andb_true_r. destruct (allocationRecordEmpty desired) eqn:Eempty.
    + eapply drop_moves; [done| |by destruct c|by destruct c]. apply not_admitted_absent; [done|].
      intros r. rewrite Er. intros [= <-]. unfold allocationRecordEmpty in Eempty. b2p. done.
    + eapply (memory_moves id); try (by destruct c); [by apply Hn|by apply (named_nonempty _ _ Hn)|]. by rewrite Er.
Qed.

Lemma release_moves f id recovery c c' r : serving c -> releaseAllocationState f id recovery c = (c', r) -> moves c c'.
Proof.
  intros Hc. unfold releaseAllocationState. branch Eid; [refused|]. cbv zeta.
  set (key := TrimSpace id). set (admitted := match _ with Some _ => _ | None => false end). branch Ead.
  - destruct (DeleteRecord f AllocationStateBucket key (h_store c)) as [s' e] eqn:Ed.
    apply delete_law in Ed as [(e' & -> & ->)|(-> & _ & Hcont & _)];
      [intros [= <- <-]; rewrite with_store_same; by apply node_moves_refl|]. intros [= <- <-].
    pose proof (stored_delete _ _ _ Hcont) as Hst. split.
    + split; unfold on_disk; simpl.
      * eapply disk_ok_delete; [done|apply Hc].
      * intros i x [_ Hx]%lookup_delete_Some. by apply (serving_named c Hc).
      * intros i x [Hi Hx]%lookup_delete_Some Hnode. rewrite Hst, decide_False by congruence.
        by apply (serving_durable c Hc _ _ Hx).
      * intros i x. rewrite Hst. case_decide; [done|]. rewrite lookup_delete_ne by congruence. apply (serving_shown c Hc).
    + simpl. intros i x y Hx. rewrite Hst. case_decide; [done|]. intros Hy. by simplify_eq.
  - intros [= <- <-]. eapply (drop_moves key); [done| |by destruct c|by destruct c]. apply not_admitted_absent; [done|].
    intros r Hr. destruct (record_of_some _ _ _ Hr) as (st & Hst & ->). apply orb_false_iff in Ead as [_ Ead].
    unfold admitted in Ead. rewrite Hst in Ead. b2p. destruct (serving_named c Hc _ _ Hst) as [Hn _].
    rewrite <- (named_node _ _ Hn). done.
Qed.

(** *** Recovery *)
Record starting (c : ctl) : Prop := {
  starting_disk : disk_ok c.(h_store); starting_empty : c.(h_allocationStates) = ∅ }.

Lemma get_stored f (s : S) id r : GetRecord f AllocationStateBucket id s = Ok r -> stored s id = Some r.
Proof. intros (b & Hb & Hd)%get_absent. unfold stored. rewrite Hb. simpl. by rewrite Hd. Qed.

Lemma MarkRecovered_serving fr f id now c c' r : serving c ->
  MarkRecoveredExecutionTerminationWithLifecycleHeld cgroup_first fr f id now c = (c', r) -> moves c c'.
Proof.
  intros Hc. unfold MarkRecoveredExecutionTerminationWithLifecycleHeld. cbv zeta.
  destruct (record_of c id) as [old|] eqn:Eold.
  - branch E1; [refused|]. destruct (classifyRecoveryRecord _ _); [|refused]. branch E2; [refused|].
    branch E3; [refused|]. destruct (markTerminationIntentLocked _ _ _ _ _) as [c1 e] eqn:E.
    intros Hr. assert (c' = c1) as -> by (destruct e; by simplify_eq). by eapply mark_moves.
  - destruct (GetRecord fr _ id _) as [old|e] eqn:Eg; simpl; [|refused]. apply get_stored in Eg.
    destruct (serving_old c _ _ Hc Eg) as (x & Hx & _). congruence.
Qed.

Lemma MarkRecovered_starting fr f id now c c' r : starting c ->
  MarkRecoveredExecutionTerminationWithLifecycleHeld cgroup_first fr f id now c = (c', r) ->
  starting c' /\ evolves c.(h_store) c'.(h_store).
Proof.
  intros Hc. assert (Hsame : starting c /\ evolves c.(h_store) c.(h_store)) by (split; [done|apply evolves_refl]).
  unfold MarkRecoveredExecutionTerminationWithLifecycleHeld, record_of. cbv zeta. rewrite (starting_empty c Hc), lookup_empty. simpl.
  destruct (GetRecord fr _ id _) as [old|e] eqn:Eg; simpl; [|intros [= <- <-]; done]. apply get_stored in Eg.
  destruct (disk_sound _ (starting_disk c Hc) _ _ Eg) as [Hn Ha Ho].
  branch E1; [intros [= <- <-]; done|]. destruct (classifyRecoveryRecord _ _); [|intros [= <- <-]; done].
  branch E2; [intros [= <- <-]; done|]. branch E3; [intros [= <- <-]; done|].
  unfold markTerminationIntentLocked. rewrite E2. set (desired := set_Termination _ _ old).
  destruct (commit _ _ _ _ _ _) as [c1 e] eqn:E. intros Hr. assert (c' = c1) as -> by (destruct e; by simplify_eq).
  assert (Hnd : named id desired) by by destruct Hn.
  apply (commit_cases _ _ _ _ _ _ _ _ (named_node _ _ Hnd)) in E as [(e' & -> & ->)|(s' & -> & [_ Hput] & ->)]; [done|].
  destruct (Hput Ha) as (b & Hb & Hcont). rewrite (named_id _ _ Hnd) in Hcont.
  pose proof (stored_put _ _ _ _ _ Hb Hcont) as Hst. split.
  - split; simpl; [|by rewrite (starting_empty c Hc)]. eapply disk_ok_put; [done..| |apply Hc].
    split; [done..|]. by apply set_termination_ok.
  - simpl. intros i x y Hx. rewrite Hst.
    destruct (decide (i = id)) as [Hi|Hi]; [|intros Hy; assert (x = y) as -> by congruence; done].
    intros [= <-]. subst i. assert (x = old) as -> by congruence. b2p. by split.
Qed.

Lemma release_starting f id recovery c c' r : starting c -> releaseAllocationState f id recovery c = (c', r) ->
  starting c' /\ evolves c.(h_store) c'.(h_store).
Proof.
  intros Hc. assert (Hsame : starting c /\ evolves c.(h_store) c.(h_store)) by (split; [done|apply evolves_refl]).
  unfold releaseAllocationState. branch Eid; [intros [= <- <-]; done|]. cbv zeta. rewrite (starting_empty c Hc), lookup_empty.
  branch Ead; [|intros [= <- <-]; split; [split; simpl; [apply Hc|by rewrite (starting_empty c Hc)]|apply evolves_refl]].
  destruct (DeleteRecord _ _ _ _) as [s' e] eqn:Ed.
  apply delete_law in Ed as [(e' & -> & ->)|(-> & _ & Hcont & _)]; [intros [= <- <-]; by rewrite with_store_same|].
  intros [= <- <-]. pose proof (stored_delete _ _ _ Hcont) as Hst. split.
  - split; simpl; [eapply disk_ok_delete; [done|apply Hc]|by rewrite (starting_empty c Hc)].
  - simpl. intros i x y Hx. rewrite Hst. case_decide; [done|]. intros Hy. assert (x = y) as -> by congruence. done.
Qed.

Lemma Join_ok (r r' : result ()) : Join r r' = Ok () <-> r = Ok () /\ r' = Ok ().
Proof. destruct r as [[]|], r' as [[]|]; naive_solver. Qed.
Lemma wrap_ok {A} format args (r : result A) a : wrap_err format args r = Ok a <-> r = Ok a.
Proof. destruct r; naive_solver. Qed.

Lemma listed_records f (s : S) l : ForEachRecord f AllocationStateBucket s = Ok l ->
  (list_to_map l : gmap string B) = contents s AllocationStateBucket /\
  (forall key, key ∈ l.*1 <-> is_Some (contents s AllocationStateBucket !! key)).
Proof.
  intros [Hp _]%each_law. assert (Hnd : NoDup l.*1) by (rewrite Hp; apply NoDup_fst_map_to_list). split.
  - rewrite (list_to_map_proper l (map_to_list (contents s AllocationStateBucket))) by done. apply list_to_map_to_list.
  - intros key. rewrite Hp, list_elem_of_fmap. split.
    + intros ([k b] & -> & Hk%elem_of_map_to_list). eauto.
    + intros [b Hb]. exists (key, b). split; [done|]. by apply elem_of_map_to_list.
Qed.

Context (PrepareEnvironment : ResolvedEnvironment -> RootfsConfig -> result PreparedEnvironment)
  (acquire : string -> result RootFS).
Notation load_one := (load_one cgroup_first PrepareEnvironment acquire).

(** The states restored so far, from the records of [s]. *)
Record loaded (s : S) (done_ : list string) (c : ctl) (e : result ()) : Prop := {
  loaded_store : c.(h_store) = s;
  loaded_records id st : c.(h_allocationStates) !! id = Some st -> id ∈ done_ /\ stored s id = Some st.(st_record);
  loaded_all id : e = Ok () -> id ∈ done_ -> is_Some (c.(h_allocationStates) !! id) }.

Lemma load_one_loaded s done_ c e key c' e' : loaded s done_ c e ->
  is_Some (contents s AllocationStateBucket !! key) ->
  load_one (contents s AllocationStateBucket) (c, e) key = (c', e') -> loaded s (done_ ++ [key]) c' e'.
Proof.
  intros [l1 l2 l3] [b Hb]. unfold NodeAllocation.load_one. rewrite Hb.
  destruct (decode_record key b) as [r|err] eqn:Ed.
  - destruct (restoreAllocationState _ _ _ r) as [[st effects] err] eqn:Er. intros [= <- <-].
    assert (Hst : stored s key = Some r /\ st.(st_record) = r).
    { unfold restoreAllocationState in Er. destruct (recover_environment _ r), (acquire_roots _ _). injection Er as <- _ _.
      split; [|done]. unfold decode_record in Ed. apply bind_Ok in Ed as (x & Hx%wrap_ok & Hd). unfold stored.
      rewrite Hb. simpl. rewrite Hx. destruct (_ || _); [done|]. by injection Hd as ->. }
    destruct Hst as [Hst <-]. split; [done|..]; simpl.
    + intros i x. destruct (decide (i = key)) as [->|Hi].
      * rewrite lookup_insert_eq. intros [= <-]. split; [set_solver|done].
      * rewrite lookup_insert_ne by congruence. intros [Hx1 Hx2]%l2. split; [set_solver|done].
    + intros i [He _]%Join_ok Hi. destruct (decide (i = key)) as [->|Hne]; [rewrite lookup_insert_eq; eauto|].
      rewrite lookup_insert_ne by congruence. apply l3; [done|]. set_solver.
  - intros [= <- <-]. split; [done|..].
    + intros i x [Hx1 Hx2]%l2. split; [set_solver|done].
    + intros i [_ He]%Join_ok. done.
Qed.
Lemma load_all_loaded s inventory done_ c e c' e' : loaded s done_ c e ->
  (forall key, key ∈ inventory -> is_Some (contents s AllocationStateBucket !! key)) ->
  fold_left (load_one (contents s AllocationStateBucket)) inventory (c, e) = (c', e') ->
  loaded s (done_ ++ inventory) c' e'.
Proof.
  revert done_ c e. induction inventory as [|key inventory IH]; intros done_ c e Hl Hin.
  { intros [= <- <-]. by rewrite app_nil_r. }
  cbn [fold_left]. destruct (load_one _ (c, e) key) as [c1 e1] eqn:E. intros Hf.
  replace (done_ ++ key :: inventory) with ((done_ ++ [key]) ++ inventory) by by rewrite <- app_assoc.
  eapply IH; [|intros k Hk; apply Hin; set_solver|exact Hf]. eapply load_one_loaded; [done| |done]. apply Hin. set_solver.
Qed.

(** Deleting the orphans of [s], with [gone] dealt with. *)
Record dropped (s : S) (inventory gone : list string) (c : ctl) (e : result ()) : Prop := {
  dropped_disk : disk_ok c.(h_store);
  dropped_keep id : id ∈ inventory -> on_disk c id = stored s id;
  dropped_old id r : on_disk c id = Some r -> stored s id = Some r;
  dropped_all id : e = Ok () -> id ∈ gone -> id ∉ inventory -> on_disk c id = None }.

Lemma drop_orphan_dropped fs inventory s gone c e key c' e' : dropped s inventory gone c e ->
  drop_orphan fs inventory (c, e) key = (c', e') ->
  dropped s inventory (gone ++ [key]) c' e' /\ c'.(h_allocationStates) = c.(h_allocationStates).
Proof.
  intros [d1 d2 d3 d4]. unfold drop_orphan. case_bool_decide as Hin.
  { intros [= <- <-]. split; [|done]. split; try done. intros i He [Hi|Hi%list_elem_of_singleton]%elem_of_app Hn;
    [by apply d4|by subst]. }
  destruct (DeleteRecord _ _ _ _) as [s' r] eqn:Ed.
  apply delete_law in Ed as [(e1 & -> & ->)|(-> & _ & Hcont & _)].
  - intros [= <- <-]. rewrite with_store_same. split; [|done]. split; try done. by intros i [_ He]%Join_ok.
  - intros [= <- <-]. split; [|done]. pose proof (stored_delete _ _ _ Hcont) as Hst. split; unfold on_disk; simpl.
    + by eapply disk_ok_delete.
    + intros i Hi. rewrite Hst, decide_False by congruence. by apply d2.
    + intros i x. rewrite Hst. case_decide; [done|]. apply d3.
    + intros i He [Hi|Hi%list_elem_of_singleton]%elem_of_app Hn; rewrite Hst; case_decide; try done. by apply d4.
Qed.
Lemma drop_all_dropped fs inventory s keys gone c e c' e' : dropped s inventory gone c e ->
  fold_left (drop_orphan fs inventory) keys (c, e) = (c', e') ->
  dropped s inventory (gone ++ keys) c' e' /\ c'.(h_allocationStates) = c.(h_allocationStates).
Proof.
  revert gone c e. induction keys as [|key keys IH]; intros gone c e Hd.
  { intros [= <- <-]. by rewrite app_nil_r. }
  cbn [fold_left]. destruct (drop_orphan _ _ (c, e) key) as [c1 e1] eqn:E. intros Hf.
  destruct (drop_orphan_dropped _ _ _ _ _ _ _ _ _ Hd E) as [Hd1 E1].
  replace (gone ++ key :: keys) with ((gone ++ [key]) ++ keys) by by rewrite <- app_assoc.
  destruct (IH _ _ _ Hd1 Hf) as [Hd2 E2]. by rewrite E2, E1.
Qed.

Notation load := (loadAllocationStates cgroup_first PrepareEnvironment acquire).

Lemma for_each_from_none {A} (p : A -> bool) (e : A -> error) n l :
  for_each_from n (fun _ x => if p x then Err (e x) else Ok ()) l = Ok () -> forall x, x ∈ l -> p x = false.
Proof.
  revert n. induction l as [|a l IH]; intros n; simpl; [by intros _ x ?%not_elem_of_nil|].
  destruct (p a) eqn:E; [done|]. simpl. intros Hl x [->|Hx]%elem_of_cons; [done|by eapply IH].
Qed.

Lemma for_each_from_total {A} (p : A -> bool) (e : A -> error) n l : (forall x, x ∈ l -> p x = false) ->
  for_each_from n (fun _ x => if p x then Err (e x) else Ok ()) l = Ok ().
Proof.
  revert n. induction l as [|a l IH]; intros n Hl; [done|]. simpl. rewrite Hl by left. simpl.
  apply IH. intros x Hx. apply Hl. by right.
Qed.

Lemma load_starting fe fs inventory c c' r : starting c -> load fe fs inventory c = (c', r) ->
  disk_ok c'.(h_store) /\ evolves c.(h_store) c'.(h_store) /\
  (r = Ok () -> serving c' /\
     (forall id, id ∈ inventory -> exists x, record_of c' id = Some x /\ on_disk c id = Some x /\ on_disk c' id = Some x) /\
     (forall id, id ∉ inventory -> record_of c' id = None /\ on_disk c' id = None)).
Proof.
  intros Hc. unfold loadAllocationStates.
  assert (Hsame : forall e, Err e = r -> c = c' -> disk_ok c'.(h_store) /\ evolves c.(h_store) c'.(h_store) /\
    (r = Ok () -> serving c' /\
     (forall id, id ∈ inventory -> exists x, record_of c' id = Some x /\ on_disk c id = Some x /\ on_disk c' id = Some x) /\
     (forall id, id ∉ inventory -> record_of c' id = None /\ on_disk c' id = None)))
    by (intros e <- <-; split; [apply Hc|split; [apply evolves_refl|done]]).
  destruct (ForEachRecord fe _ _) as [listed|e] eqn:El; [|intros [= <- <-]; by eapply Hsame].
  destruct (listed_records _ _ _ El) as [Hmap Hkeys]. rewrite Hmap.
  destruct (for_each _ inventory) as [[]|e] eqn:Einv; [|intros [= <- <-]; by eapply Hsame].
  assert (Hall : forall key, key ∈ inventory -> is_Some (contents (h_store c) AllocationStateBucket !! key)).
  { intros key Hk. unfold for_each in Einv. pose proof (for_each_from_none _ _ _ _ Einv key Hk) as Hx. simpl in Hx.
    destruct (_ !! key); [eauto|done]. }
  assert (Hl0 : loaded (h_store c) [] c (Ok ())).
  { split; [done|..]; rewrite (starting_empty c Hc).
    - intros i st. by rewrite lookup_empty.
    - by intros i _ ?%not_elem_of_nil. }
  destruct (fold_left _ inventory (c, Ok ())) as [c1 [[]|e]] eqn:Ef;
    apply (load_all_loaded _ _ _ _ _ _ _ Hl0 Hall) in Ef as [l1 l2 l3]; simpl in *.
  2: { intros [= <- <-]. rewrite l1. split; [apply Hc|split; [apply evolves_refl|done]]. }
  intros Hd. assert (Hd0 : dropped (h_store c) inventory [] c1 (Ok ())).
  { split; unfold on_disk; rewrite ?l1; try done; [apply Hc|]. by intros i _ ?%not_elem_of_nil. }
  destruct (drop_all_dropped _ _ _ _ _ _ _ _ _ Hd0 Hd) as [[d1 d2 d3 d4] Es]. simpl in d4.
  split; [done|]. split.
  { intros i x y Hx Hy. apply d3 in Hy. assert (x = y) as -> by congruence. done. }
  intros ->. assert (Hgone : forall id, id ∉ inventory -> on_disk c' id = None).
  { intros id Hid. destruct (on_disk c' id) as [x|] eqn:Ex; [|done].
    assert (Hin : id ∈ listed.*1).
    { apply Hkeys. apply d3 in Ex. unfold stored in Ex. destruct (_ !! id); [eauto|done]. }
    rewrite (d4 id) in Ex; done. }
  assert (Hrec : forall id st, h_allocationStates c' !! id = Some st -> id ∈ inventory /\ on_disk c' id = Some st.(st_record)).
  { intros id st. rewrite Es. intros [Hi Hst]%l2. split; [done|]. by rewrite d2. }
  split; [split|split].
  - done.
  - intros id st [Hi Hst]%Hrec. by destruct (disk_sound _ d1 _ _ Hst).
  - intros id st [Hi Hst]%Hrec _. eauto.
  - intros id x Hx. assert (Hi : id ∈ inventory).
    { destruct (decide (id ∈ inventory)); [done|]. by rewrite Hgone in Hx. }
    destruct (l3 id eq_refl Hi) as [st Hst]. exists st. rewrite Es. split; [done|].
    rewrite <- Es in Hst. apply Hrec in Hst as [_ Hst]. assert (x = st_record st) as -> by congruence. done.
  - intros id Hi. destruct (l3 id eq_refl Hi) as [st Hst]. exists st.(st_record). unfold record_of. rewrite Es, Hst.
    split; [done|]. unfold on_disk at 1. apply l2 in Hst as [_ Hst]. split; [done|]. by rewrite d2.
  - intros id Hi. split; [|by apply Hgone]. unfold record_of. destruct (h_allocationStates c' !! id) as [st|] eqn:E; [|done].
    by apply Hrec in E as [? _].
Qed.
End controller.

(** ** The node over time *)
Section node.
Context `{GoRuntime} {S B : Type} `{StateStore S AllocationState B} {Laws : StateStoreLaws S AllocationState B}.
Context (Error : error -> string) (cgroup_first : bool).
Notation ctl := (NodeController S).

(** A process starts with an empty memory, restores it from the store, and
    serves; when the restoration fails it is down until the next start. *)
Inductive phase := Starting | Serving | Down.
#[export] Instance phase_eq_dec : EqDecision phase.
Proof. solve_decision. Defined.
Record node := mkNode { n_phase : phase; n_ctl : ctl }.
Definition restarted (c : ctl) : ctl := mkController c.(h_store) ∅ [].

(** The clock is past 1970 and a lease ends before the year 2262. *)
Inductive call : ctl -> ctl -> Prop :=
| call_intent f now id nodeID digest expires spec reqs outs snap c : 0 <= now -> int64 expires ->
    call c (fst (StoreAllocationIntent f now id nodeID digest expires spec reqs outs snap c))
| call_renew fs order ttls at_ c : call c (fst (RenewExecutionLeases fs order ttls at_ c))
| call_mark f id code m c : call c (fst (MarkTerminationIntentWithLifecycleHeld f id code m c))
| call_expired f id now c : call c (fst (MarkExpiredExecutionLeaseWithLifecycleHeld f id now c))
| call_recovered fr f id now c :
    call c (fst (MarkRecoveredExecutionTerminationWithLifecycleHeld cgroup_first fr f id now c))
| call_merge f id c : call c (fst (MergeCapabilityReconcile f id c))
| call_ack f id n t e c : call c (fst (AckCapabilityReconcile Error f id n t e c))
| call_begin f id cause c : call c (fst (BeginCapabilityTerminationWithLifecycleHeld Error f id cause c))
| call_verified f now id m verified at_ c :
    call c (fst (StoreVerifiedEnforcementManifest cgroup_first f now id m verified at_ c))
| call_runtime f id env c : call c (fst (rememberContainerRuntime f id env c))
| call_images id roots mounts c : call c (fst (rememberImageMountRoots id roots mounts c))
| call_forget f id c : call c (forgetImageMountRoots f id c)
| call_release f id recovery c : call c (fst (releaseAllocationState f id recovery c)).

Inductive node_step : node -> node -> Prop :=
| step_call c c' : call c c' -> node_step (mkNode Serving c) (mkNode Serving c')
| step_fence fr f id now c :
    node_step (mkNode Starting c)
      (mkNode Starting (fst (MarkRecoveredExecutionTerminationWithLifecycleHeld cgroup_first fr f id now c)))
| step_cleanup f id c : node_step (mkNode Starting c) (mkNode Starting (fst (releaseAllocationState f id true c)))
| step_load prepare acquire fe fs inventory c c' r :
    loadAllocationStates cgroup_first prepare acquire fe fs inventory c = (c', r) ->
    node_step (mkNode Starting c) (mkNode (if is_Ok r then Serving else Down) c')
| step_restart p c : node_step (mkNode p c) (mkNode Starting (restarted c)).

Definition node_inv (n : node) : Prop :=
  match n.(n_phase) with
  | Serving => serving cgroup_first n.(n_ctl)
  | Starting => starting cgroup_first n.(n_ctl)
  | Down => disk_ok cgroup_first n.(n_ctl).(h_store)
  end.
Definition disk (n : node) (id : string) : option AllocationState := on_disk n.(n_ctl) id.

Lemma node_inv_disk n : node_inv n -> disk_ok cgroup_first n.(n_ctl).(h_store).
Proof. destruct n as [[] c]; unfold node_inv; simpl; [apply starting_disk|apply serving_disk|done]. Qed.

Lemma call_moves c c' : serving cgroup_first c -> call c c' -> moves cgroup_first c c'.
Proof.
  intros Hc Hcall. revert Hc. destruct Hcall; intros Hc.
  - eapply Intent_moves; [done|eassumption|eassumption|apply surjective_pairing].
  - eapply Renew_all_moves; [done|apply surjective_pairing].
  - eapply Mark_moves; [done|apply surjective_pairing].
  - eapply MarkExpired_moves; [done|apply surjective_pairing].
  - eapply MarkRecovered_serving; [done|apply surjective_pairing].
  - eapply Merge_moves; [done|apply surjective_pairing].
  - eapply Ack_moves; [done|apply surjective_pairing].
  - eapply Begin_moves; [done|apply surjective_pairing].
  - eapply StoreVerified_moves; [done|apply surjective_pairing].
  - eapply rememberRuntime_moves; [done|apply surjective_pairing].
  - eapply rememberImages_moves; [done|apply surjective_pairing].
  - by apply forget_moves.
  - eapply release_moves; [done|apply surjective_pairing].
Qed.

Lemma node_step_inv n n' : node_inv n -> node_step n n' ->
  node_inv n' /\ evolves n.(n_ctl).(h_store) n'.(n_ctl).(h_store).
Proof.
  intros Hn Hs. destruct Hs as [c c' Hcall|fr f id now c|f id c|prep acq fe fs inv c c' r Hl|p c];
    unfold node_inv in *; simpl in *.
  - by apply call_moves.
  - eapply MarkRecovered_starting; eauto using surjective_pairing.
  - eapply release_starting; eauto using surjective_pairing.
  - edestruct (load_starting Error) as (Hd & Hev & Hok); [exact Hn|exact Hl|]. split; [|done].
    destruct r as [[]|e]; simpl; [by apply Hok|done].
  - split; [|apply evolves_refl]. split; [|done]. by apply (node_inv_disk (mkNode p c)).
Qed.

Lemma node_steps_inv n n' : node_inv n -> rtc node_step n n' -> node_inv n'.
Proof. intros Hn Hs. induction Hs; [done|]. apply IHHs. by eapply node_step_inv. Qed.

Lemma inspect_all (s : S) l acc : disk_ok cgroup_first s ->
  (forall key b, (key, b) ∈ l -> contents s AllocationStateBucket !! key = Some b) ->
  exists out, foldM (inspect_record cgroup_first) acc l = Ok out /\
    out.(rr_Intents) = list_to_set l.*1 ∪ acc.(rr_Intents) /\
    forall id, id ∈ out.(rr_EnforcementVerified) <->
      id ∈ acc.(rr_EnforcementVerified) \/
      id ∈ l.*1 /\ exists r, stored s id = Some r /\ r.(as_EnforcementManifest) <> None.
Proof.
  intros Hd. revert acc. induction l as [|[key b] l IH]; intros acc Hl.
  { exists acc. split_and!; [done|set_solver|set_solver]. }
  assert (Hb : contents s AllocationStateBucket !! key = Some b) by (apply Hl; left).
  destruct (disk_decodes _ _ Hd _ _ Hb) as [r Hr]. destruct (disk_sound _ _ Hd _ _ Hr) as [[Hid Ht Hne Hnt] Ha Ho].
  assert (Hdec : decode_record key b = Ok r).
  { unfold decode_record. unfold stored in Hr. rewrite Hb in Hr. simpl in Hr. destruct (Unmarshal b) as [x|]; [|done].
    injection Hr as ->. simpl. rewrite Hid. destruct (String.eqb_spec key ""); [done|]. by rewrite String.eqb_refl. }
  assert (Hone : inspect_record cgroup_first acc (key, b) =
      Ok (mkRecovery ({[key]} ∪ acc.(rr_Intents))
            (if non_nil r.(as_EnforcementManifest) then {[key]} ∪ acc.(rr_EnforcementVerified)
             else acc.(rr_EnforcementVerified)))).
  { unfold inspect_record. rewrite Hdec. cbn [mbind result_bind]. rewrite classify_ok by done.
    cbn [wrap_err mbind result_bind]. rewrite Hnt. by destruct (String.eqb_spec r.(as_NodeID) ""). }
  cbn [foldM]. rewrite Hone. cbn [mbind result_bind].
  edestruct IH as (out & -> & Hi & Hv); [by intros; apply Hl; right|]. exists out. split; [done|].
  simpl in Hi, Hv. rewrite Hi. split; [set_solver|]. intros id. rewrite Hv.
  cbn [fmap list_fmap fst]. rewrite elem_of_cons.
  destruct r.(as_EnforcementManifest) as [m|] eqn:Em; simpl.
  - rewrite elem_of_union, elem_of_singleton. split.
    + intros [[->|?]|[? ?]]; [right; split; [by left|]|by left|right; split; [by right|done]].
      exists r. by rewrite Em.
    + intros [?|[[->|?] ?]]; auto.
  - split; [intros [?|[? ?]]; auto|]. intros [?|[[->|?] (r' & Hr' & Hm)]]; auto.
    + assert (r' = r) as -> by congruence. by rewrite Em in Hm.
    + right. split; [done|]. by exists r'.
Qed.

Definition reachable (n : node) : Prop :=
  exists c, contents c.(h_store) AllocationStateBucket = ∅ /\ rtc node_step (mkNode Starting (restarted c)) n.
Lemma reachable_inv n : reachable n -> node_inv n.
Proof.
  intros (c & He & Hs). eapply node_steps_inv; [|exact Hs]. split; [|done]. simpl.
  split; [intros id b; by rewrite He|]. intros id r. unfold stored. by rewrite He.
Qed.

(** C8: recovery is never refused by what the node itself wrote.  From an empty
    store, after any sequence of calls, renewals, failed writes, crashes and
    recoveries, the inspection of the stored records that opens every start
    succeeds, and finds exactly the stored Allocations, of which those with a
    verified manifest are reported as such; and while the node serves, an
    Allocation has a stored record exactly when memory holds an admitted record,
    and the two agree on everything but the image references. *)
Theorem node_recoverable n : reachable n ->
  (exists found, InspectRecoveryRecords cgroup_first None n.(n_ctl) = Ok found /\
     (forall id, id ∈ found.(rr_Intents) <-> is_Some (disk n id)) /\
     (forall id, id ∈ found.(rr_EnforcementVerified) <->
        exists r, disk n id = Some r /\ r.(as_EnforcementManifest) <> None)) /\
  (n.(n_phase) = Serving ->
     (forall id r, disk n id = Some r -> exists r', record_of n.(n_ctl) id = Some r' /\ same_but_images r r') /\
     (forall id r, record_of n.(n_ctl) id = Some r -> r.(as_NodeID) <> "" -> is_Some (disk n id))).
Proof.
  intros Hi%reachable_inv.
  pose proof (node_inv_disk _ Hi) as Hd. split.
  - unfold InspectRecoveryRecords. pose proof (each_reads AllocationStateBucket (h_store (n_ctl n)) ltac:(done)) as Hr.
    destruct (ForEachRecord None _ _) as [l|] eqn:El; [|done]. cbn [mbind result_bind].
    destruct (listed_records _ _ _ El) as [_ Hkeys]. apply each_law in El as [Hp _].
    edestruct (inspect_all (h_store (n_ctl n)) l) as (out & -> & Hin & Hv); [done| |].
    { intros key b. rewrite Hp. apply elem_of_map_to_list. }
    exists out. split; [done|].
    assert (Hdisk : forall id, id ∈ l.*1 <-> is_Some (disk n id)).
    { intros id. rewrite Hkeys. split; intros [x Hx].
      - destruct (disk_decodes _ _ Hd _ _ Hx) as [r Hr']. by exists r.
      - unfold disk, on_disk, stored in Hx. destruct (_ !! id); [eauto|done]. }
    split; intros id.
    + rewrite Hin, <- Hdisk. simpl. set_solver.
    + rewrite Hv. simpl. split; [intros [?|[_ ?]]; [set_solver|done]|]. intros (r & Hr' & Hm). right.
      split; [apply Hdisk; by exists r|by exists r].
  - destruct n as [p c1]. unfold node_inv in Hi. simpl in *. intros ->. split.
    + intros id r Hr. destruct (serving_old _ _ _ _ Hi Hr) as (r' & ? & ? & _). eauto.
    + intros id r Hr Hne. destruct (record_of_some _ _ _ Hr) as (st & Hst & ->).
      destruct (serving_durable _ _ Hi _ _ Hst Hne) as [x Hx]. by exists x.
Qed.

(** The steps that leave an Allocation with a stored record: all but its
    release. *)
Definition keeping (id : string) (n n' : node) : Prop := node_step n n' /\ is_Some (disk n' id).

Lemma keeping_le id n n' r : node_inv n -> disk n id = Some r -> rtc (keeping id) n n' ->
  node_inv n' /\ exists r', disk n' id = Some r' /\ record_le r r'.
Proof.
  intros Hi Hr Hs. revert r Hi Hr. induction Hs as [n|n n1 n' Hk _ IH]; intros r Hi Hr; [by split; [|exists r]|].
  destruct Hk as [Hk [r1 Hr1]].
  destruct (node_step_inv _ _ Hi Hk) as [Hi1 He]. destruct (IH r1 Hi1 Hr1) as (Hi' & r' & Hr' & Hle).
  split; [done|]. exists r'. split; [done|]. etrans; [|exact Hle]. by eapply He.
Qed.

(** C9: identity, manifest and first cause are final.  As long as an Allocation
    is not released, whatever is called, fails, crashes or is recovered: its node
    and request digest, once stored, stay; a verified manifest stays; and once a
    termination cause is stored, the cause, its message, the lease and the
    specification stay.  A terminated Allocation is then never activated,
    executed in, or reached through a tunnel again, and reports that first cause. *)
Theorem first_cause_final n n' id r :
  reachable n -> disk n id = Some r -> rtc (keeping id) n n' ->
  exists r', disk n' id = Some r' /\ record_le r r' /\
    (terminated r -> n'.(n_phase) = Serving -> forall f now node,
       TerminationIntent f id n'.(n_ctl) = (r.(as_TerminationDiagnosticCode), r.(as_TerminationMessage)) /\
       is_Ok (ValidateActivation now id n'.(n_ctl)) = false /\
       is_Ok (ValidateOperatorExecution id now n'.(n_ctl)) = false /\
       is_Ok (ValidateAllocationTunnel id node now n'.(n_ctl)) = false).
Proof.
  intros Hi%reachable_inv Hr Hs. destruct (keeping_le _ _ _ _ Hi Hr Hs) as (Hi' & r' & Hr' & Hle).
  exists r'. split_and!; [done..|]. intros Ht Hp f now nd. destruct n' as [p c']. simpl in *. subst p.
  change (serving cgroup_first c') in Hi'. change (on_disk c' id = Some r') in Hr'.
  destruct (serving_shown _ _ Hi' _ _ Hr') as (st & Hst & Hsame).
  destruct (serving_named _ _ Hi' _ _ Hst) as [[Hid Htr Hne _] _].
  apply same_but_images_fields in Hsame as (_ & _ & _ & _ & _ & Ec & Em & _).
  destruct (le_terminated _ _ Hle Ht) as (Fc & Fm & _). unfold terminated in Ht.
  assert (Hterm : bool_decide (as_TerminationDiagnosticCode (st_record st) = WDC_UNSPECIFIED) = false)
    by (apply bool_decide_eq_false; congruence).
  assert (Hexec : is_Ok (ValidateOperatorExecution id now c') = false).
  { unfold ValidateOperatorExecution. rewrite Htr, Hst. destruct (String.eqb id ""); [done|]. cbv zeta.
    rewrite Hterm. cbn [negb]. by repeat match goal with |- context [if ?b then _ else _] => destruct b end. }
  unfold TerminationIntent, ValidateActivation, ValidateAllocationTunnel, record_of. rewrite Htr, Hst. simpl.
  split_and!; [congruence| |done|].
  - unfold rejectTerminatedActivation. by rewrite Hterm.
  - by destruct (ValidateOperatorExecution id now c').
Qed.
End node.

(** ** An example: admitted, terminated, restarted *)
Section example.
#[local] Existing Instance amd64.
Definition node_marshal (r : AllocationState) : result AllocationState := Ok r.
#[local] Instance ex_store : StateStore (NodeDB AllocationState) AllocationState AllocationState :=
  nodestate_store node_marshal node_marshal.
#[local] Instance ex_laws : StateStoreLaws (NodeDB AllocationState) AllocationState AllocationState.
Proof. apply nodestate_laws. by intros m b [= ->]. Qed.

Definition node_error_text (_ : error) : string := "error".
Definition ex_node0 : node := mkNode Starting (restarted (mkController (∅ : NodeDB AllocationState) ∅ [])).
Definition ex_no_environment (_ : ResolvedEnvironment) (_ : RootfsConfig) : result PreparedEnvironment :=
  Err (Errorf "no image" []).
Definition ex_no_image (_ : string) : result RootFS := Err (Errorf "no image" []).
Definition no_fault (_ : string) : fault := None.
Definition ex_loaded := loadAllocationStates false ex_no_environment ex_no_image None no_fault [] ex_node0.(n_ctl).
Definition ex_intent := StoreAllocationIntent None (1000 * Second) " alloc-1 " "node-1" ex_digest (1030 * Second)
  None [] [] None (fst ex_loaded).
Definition ex_marked := MarkTerminationIntentWithLifecycleHeld None "alloc-1" WDC_OPERATOR_FORCE_TERMINATED
  "drained" (fst ex_intent).
(** The operator's cause is final: a second one, and a renewal, change nothing. *)
Definition ex_second := RenewExecutionLeases no_fault ["alloc-1"] {["alloc-1" := 3600 * Second]} (1010 * Second)
  (fst (MarkTerminationIntentWithLifecycleHeld None "alloc-1" WDC_PROCESS_EXITED "late" (fst ex_marked))).

Example ex_record : record_of (fst ex_second) "alloc-1" =
  Some (mkState "alloc-1" "node-1" None None [] [] None None ex_digest (1030 * Second)
          WDC_OPERATOR_FORCE_TERMINATED "drained" [] None).
Proof. vm_compute. reflexivity. Qed.

Lemma ex_loaded_step : node_step node_error_text false ex_node0 (mkNode Serving (fst ex_loaded)).
Proof.
  pose proof (step_load node_error_text false ex_no_environment ex_no_image None no_fault [] ex_node0.(n_ctl)
    (fst ex_loaded) (snd ex_loaded) (surjective_pairing ex_loaded)) as Hs.
  assert (E : snd ex_loaded = Ok ()) by (vm_compute; reflexivity). rewrite E in Hs. exact Hs.
Qed.
Lemma ex_intent_step : node_step node_error_text false (mkNode Serving (fst ex_loaded)) (mkNode Serving (fst ex_intent)).
Proof. apply step_call, call_intent; unfold int64, MinInt64, MaxInt64, Second; lia. Qed.
Lemma ex_marked_step : node_step node_error_text false (mkNode Serving (fst ex_intent)) (mkNode Serving (fst ex_marked)).
Proof. apply step_call, call_mark. Qed.
Lemma ex_reachable : reachable node_error_text false (mkNode Serving (fst ex_marked)).
Proof.
  exists (mkController ∅ ∅ []). split; [done|].
  eapply rtc_l; [apply ex_loaded_step|]. eapply rtc_l; [apply ex_intent_step|]. apply rtc_once, ex_marked_step.
Qed.

Lemma node_recoverable_witness :
  let n := mkNode Serving (fst ex_marked) in
  is_Some (disk n "alloc-1") /\
  exists found, InspectRecoveryRecords false None n.(n_ctl) = Ok found /\ "alloc-1" ∈ found.(rr_Intents).
Proof.
  intros n. assert (Hd : is_Some (disk n "alloc-1")) by (vm_compute; eauto). split; [done|].
  destruct (node_recoverable node_error_text false n ex_reachable) as [(found & Hf & Hi & _) _].
  exists found. split; [done|]. by apply Hi.
Defined.

Lemma first_cause_final_witness :
  let n := mkNode Serving (fst ex_marked) in
  let n' := mkNode Serving (fst ex_second) in
  exists r r', disk n "alloc-1" = Some r /\ disk n' "alloc-1" = Some r' /\ terminated r /\
    r'.(as_TerminationMessage) = "drained".
Proof.
  intros n n'. destruct (disk n "alloc-1") as [r|] eqn:Hr; [|by vm_compute in Hr].
  assert (Hs : rtc (keeping node_error_text false "alloc-1") n n').
  { eapply rtc_l; [|apply rtc_once].
    - split; [apply step_call, (call_mark _ _ None "alloc-1" WDC_PROCESS_EXITED "late")|vm_compute; eauto].
    - split; [apply step_call, call_renew|vm_compute; eauto]. }
  destruct (first_cause_final node_error_text false n n' "alloc-1" r ex_reachable Hr Hs) as (r' & Hr' & Hle & _).
  exists r, r'. split_and!; [done..| |].
  - vm_compute in Hr. injection Hr as <-. discriminate.
  - vm_compute in Hr'. by injection Hr' as <-.
Defined.
End example.
