(* ===== verification/NodeSafety.v ===== *)
(** * Leases, ownership and restarts of a node

    What the calls of [NodeAllocation] achieve: a restart gives back every
    Allocation whose runtime lives, a renewal extends exactly the leases it may,
    and every image root a state takes is released exactly once. *)
From S2P Require Import Prelude Proto Resource Capability CapabilityFacts Execution NetworkPolicy NodeDB NodeAllocation NodeAllocationFacts.

Section restart.
Context `{GoRuntime} {S B : Type} `{StateStore S AllocationState B} {Laws : StateStoreLaws S AllocationState B}.
Context (Error : error -> string) (cgroup_first : bool).
Context (PrepareEnvironment : ResolvedEnvironment -> RootfsConfig -> result PreparedEnvironment)
  (acquire : string -> result RootFS).
Notation ctl := (NodeController S).
Notation load := (loadAllocationStates cgroup_first PrepareEnvironment acquire).

(** A stored record whose launch was verified and whose environment and images
    are still to be had. *)
Definition restorable (r : AllocationState) : Prop :=
  r.(as_EnforcementManifest) <> None /\
  is_Ok (snd (recover_environment PrepareEnvironment r)) = true /\
  is_Ok (snd (acquire_roots acquire r.(as_ImageMountUrls))) = true.

Lemma unit_ok (r : result ()) : is_Ok r = true -> r = Ok ().
Proof. by destruct r as [[]|]. Qed.

Lemma load_one_total (s : S) records (c : ctl) key r : disk_ok cgroup_first s ->
  records !! key = contents s AllocationStateBucket !! key -> stored s key = Some r -> restorable r ->
  exists c', load_one cgroup_first PrepareEnvironment acquire records (c, Ok ()) key = (c', Ok ()).
Proof.
  intros Hd Hrec Hr (Hm & Henv & Hroots). destruct (disk_sound _ _ Hd _ _ Hr) as [[Hid Ht Hne Hnt] Ha Ho].
  unfold load_one. rewrite Hrec. unfold stored in Hr. destruct (contents s AllocationStateBucket !! key) as [b|]; [|done]. simpl in Hr.
  unfold decode_record. destruct (Unmarshal b) as [x|]; [|done]. injection Hr as ->. simpl.
  rewrite Hid, String.eqb_refl. destruct (String.eqb_spec key ""); [done|]. simpl.
  unfold restoreAllocationState. destruct (recover_environment _ r) as [env e1], (acquire_roots _ _) as [roots e2].
  simpl in Henv, Hroots. apply unit_ok in Henv as ->, Hroots as ->.
  unfold validateRecoveredCapabilityState. rewrite classify_ok by done.
  destruct r.(as_EnforcementManifest); [|done]. simpl. eauto.
Qed.

Lemma load_all_total (s : S) inventory (c : ctl) : disk_ok cgroup_first s ->
  (forall key, key ∈ inventory -> exists r, stored s key = Some r /\ restorable r) ->
  exists c', fold_left (load_one cgroup_first PrepareEnvironment acquire (contents s AllocationStateBucket))
               inventory (c, Ok ()) = (c', Ok ()).
Proof.
  intros Hd. revert c. induction inventory as [|key inventory IH]; intros c Hin; [by exists c|].
  cbn [fold_left]. destruct (Hin key) as (r & Hr & Hres); [by left|].
  destruct (load_one_total s (contents s AllocationStateBucket) c key r Hd eq_refl Hr Hres) as [c1 ->].
  apply IH. intros k Hk. apply Hin. by right.
Qed.

Lemma drop_all_total inventory keys (c : ctl) : (forall key, key ∈ keys -> key <> "") ->
  exists c', fold_left (drop_orphan no_fault inventory) keys (c, Ok ()) = (c', Ok ()).
Proof.
  revert c. induction keys as [|key keys IH]; intros c Hk; [by exists c|]. cbn [fold_left].
  assert (exists c1, drop_orphan no_fault inventory (c, Ok ()) key = (c1, Ok ())) as [c1 ->].
  { unfold drop_orphan. case_bool_decide; [eauto|]. unfold no_fault.
    pose proof (delete_commits AllocationStateBucket key (h_store c) ltac:(done) ltac:(apply Hk; left)) as Hd.
    destruct (DeleteRecord None AllocationStateBucket key (h_store c)) as [s' e]. simpl in Hd. subst e. eauto. }
  apply IH. intros k Hin. apply Hk. by right.
Qed.

(** C10: a restart gives back what it had.  When the node stops while serving and
    starts again with a working store, with the live runtimes all of Allocations
    whose launch was verified and whose environment and images can be prepared
    again, the recovery succeeds: memory holds for every live runtime the record
    it held before the stop, but for the image references, which come from the
    store, and neither memory nor store holds anything else. *)
Theorem restart_restores c inventory :
  reachable Error cgroup_first (mkNode Serving c) ->
  (forall id, id ∈ inventory -> exists r, on_disk c id = Some r /\ restorable r) ->
  exists c', load None no_fault inventory (restarted c) = (c', Ok ()) /\
    (forall id, id ∈ inventory -> exists r r', record_of c id = Some r /\ record_of c' id = Some r' /\
       on_disk c' id = Some r' /\ same_but_images r r') /\
    (forall id, id ∉ inventory -> record_of c' id = None /\ on_disk c' id = None).
Proof.
  intros Hi%reachable_inv Hin. change (serving cgroup_first c) in Hi. pose proof (serving_disk _ _ Hi) as Hd.
  assert (Hs : starting cgroup_first (restarted c)) by by split.
  assert (Hok : exists c', load None no_fault inventory (restarted c) = (c', Ok ())).
  { unfold loadAllocationStates. simpl.
    pose proof (each_reads AllocationStateBucket (h_store c) ltac:(done)) as Hr.
    destruct (ForEachRecord None _ _) as [l|] eqn:El; [|done]. destruct (listed_records _ _ _ El) as [-> Hkeys].
    assert (for_each (fun _ id => if is_nil (contents (h_store c) AllocationStateBucket !! id)
              then Err (Errorf "live runtime container %s has no allocation recovery record" [AStr id])
              else Ok ()) inventory = Ok ()) as ->.
    { apply for_each_from_total. intros id Hid. destruct (Hin id Hid) as (r & Hr' & _).
      unfold on_disk, stored in Hr'. by destruct (_ !! id). }
    destruct (load_all_total (h_store c) inventory (restarted c) Hd Hin) as [c1 ->].
    apply drop_all_total. intros key [b Hb]%Hkeys. destruct (disk_decodes _ _ Hd _ _ Hb) as [r Hr'].
    apply (named_nonempty _ _ (sound_named _ _ _ (disk_sound _ _ Hd _ _ Hr'))). }
  destruct Hok as [c' Hload]. exists c'. split; [done|].
  edestruct (load_starting Error) as (_ & _ & Hc'); [exact Hs|exact Hload|]. destruct (Hc' eq_refl) as (Hserv & Hall & Hnone).
  split; [|done]. intros id Hid. destruct (Hall id Hid) as (x & Hx & Hdx & Hdx'). change (on_disk c id = Some x) in Hdx.
  destruct (serving_old _ _ _ _ Hi Hdx) as (r & Hr & Hsame & _).
  exists r, x. split_and!; [done..|by symmetry].
Qed.
End restart.

(** ** Leases *)
Section leases.
Context `{GoRuntime} {S B : Type} `{StateStore S AllocationState B} {Laws : StateStoreLaws S AllocationState B}.
Context (Error : error -> string) (cgroup_first : bool).
Notation ctl := (NodeController S).

(** What a grant of [ttl] received at [at_] makes of a record: a lease that is
    still running, on an Allocation that is bound and not terminated, is moved to
    the later deadline; nothing else changes. *)
Definition renewed (ttl : Z) (at_ : time) (r : AllocationState) : AllocationState :=
  if bool_decide (r.(as_TerminationDiagnosticCode) = WDC_UNSPECIFIED) && negb (String.eqb r.(as_NodeID) "")
     && (at_ <? r.(as_ExecutionLeaseExpiresAtUnixNano)) && (r.(as_ExecutionLeaseExpiresAtUnixNano) <? at_ + ttl)
  then set_ExecutionLease (at_ + ttl) r else r.
Definition renewal (ttls : gmap string Z) (at_ : time) (id : string) (r : AllocationState) : AllocationState :=
  match ttls !! id with Some ttl => renewed ttl at_ r | None => r end.

Lemma record_of_republish id desired (c : ctl) s' i :
  record_of (republish id desired (with_store s' c)) i =
  if decide (i = id) then (fun _ => desired) <$> record_of c id else record_of c i.
Proof.
  unfold record_of. simpl. case_decide as Hi.
  - subst i. rewrite lookup_alter_eq. by destruct (_ !! id).
  - by rewrite lookup_alter_ne by congruence.
Qed.

Lemma renew_one_spec f ttl at_ id (c c' : ctl) r i : serving cgroup_first c -> int64 at_ -> int64 (at_ + ttl) ->
  0 < ttl -> (forall old, record_of c id = Some old -> old.(as_NodeID) <> "") ->
  renew_one f ttl at_ id c = (c', r) ->
  (c' = c /\ r <> Ok ()) \/
  (r = Ok () /\ record_of c' i = if decide (i = id) then renewed ttl at_ <$> record_of c i else record_of c i).
Proof.
  intros Hc Hat Hexp Httl Hnode. unfold renew_one. destruct (record_of c id) as [old|] eqn:Er.
  2: { intros [= <- <-]. right. split; [done|]. destruct (decide (i = id)) as [->|]; [|done]. by rewrite Er. }
  destruct (serving_record _ _ _ _ Hc Er) as [Hn Ho]. specialize (Hnode _ eq_refl).
  unfold UnixNano, Add. rewrite !wrap64_id by done.
  assert (Hcond : (negb (bool_decide (as_TerminationDiagnosticCode old = WDC_UNSPECIFIED))
      || (as_ExecutionLeaseExpiresAtUnixNano old <=? at_) || (at_ + ttl <=? as_ExecutionLeaseExpiresAtUnixNano old)) =
      negb (bool_decide (old.(as_TerminationDiagnosticCode) = WDC_UNSPECIFIED) && negb (String.eqb old.(as_NodeID) "")
     && (at_ <? old.(as_ExecutionLeaseExpiresAtUnixNano)) && (old.(as_ExecutionLeaseExpiresAtUnixNano) <? at_ + ttl))).
  { rewrite !Z.leb_antisym. destruct (String.eqb_spec old.(as_NodeID) ""); [done|]. simpl.
    by destruct (bool_decide _), (at_ <? _), (_ <? at_ + ttl). }
  rewrite Hcond. branch E; [apply (proj1 (negb_true_iff _)) in E|apply (proj1 (negb_false_iff _)) in E].
  - intros [= <- <-]. right. split; [done|]. destruct (decide (i = id)) as [->|]; [|done]. rewrite Er. simpl. unfold renewed.
    by rewrite E.
  - intros [(e & -> & ->)|(s' & -> & _ & ->)]%commit_cases; [by left|right|by destruct Hn].
    split; [done|]. rewrite record_of_republish. destruct (decide (i = id)) as [->|]; [|done]. rewrite Er. simpl. unfold renewed.
    by rewrite E.
Qed.

Lemma renew_all_spec fs ttls at_ ids c c' r i : serving cgroup_first c -> int64 at_ ->
  (forall id ttl, ttls !! id = Some ttl -> int64 (at_ + ttl)) -> NoDup ids ->
  (forall id, id ∈ ids -> exists ttl old, ttls !! id = Some ttl /\ 0 < ttl /\ record_of c id = Some old /\ old.(as_NodeID) <> "") ->
  renew_all fs ttls at_ ids c = (c', r) ->
  (record_of c' i = if decide (i ∈ ids) then renewal ttls at_ i <$> record_of c i else record_of c i) \/
  (record_of c' i = record_of c i /\ r <> Ok ()).
Proof.
  intros Hc Hat Hexp Hnd. revert c Hc. induction Hnd as [|id ids Hid Hnd IH]; intros c Hc Hids.
  { intros [= <- <-]. by left. }
  cbn [renew_all]. destruct (Hids id) as (ttl & old & Httl & Hpos & Hold & Hnode); [by left|]. rewrite Httl. simpl.
  destruct (renew_one _ _ _ _ _) as [c1 e] eqn:E. pose proof (Renew_one_moves _ _ _ _ _ _ _ _ Hc E) as [Hc1 _].
  assert (Hbound : forall o, record_of c id = Some o -> o.(as_NodeID) <> "")
    by (intros o Ho; rewrite Hold in Ho; by injection Ho as <-).
  pose proof (fun j => renew_one_spec _ _ _ _ _ _ _ j Hc Hat (Hexp _ _ Httl) Hpos Hbound E) as Hspec.
  destruct e as [[]|e].
  2: { intros [= <- <-]. right. destruct (Hspec i) as [[-> _]|[? _]]; done. }
  assert (Hr1 : forall i, record_of c1 i = if decide (i = id) then renewal ttls at_ i <$> record_of c i else record_of c i).
  { intros j. destruct (Hspec j) as [[_ ?]|[_ ->]]; [done|]. destruct (decide (j = id)) as [->|]; [|done].
    unfold renewal. by rewrite Httl. }
  intros Hf. edestruct (IH c1 Hc1) as [Hi|[Hi Hne]]; [|exact Hf|..].
  - intros j Hj. assert (j <> id) by (intros ->; done). rewrite Hr1, decide_False by done. apply Hids. by right.
  - left. rewrite Hi, Hr1. destruct (decide (i = id)) as [->|Hne].
    + rewrite decide_False by done. by rewrite decide_True by left.
    + destruct (decide (i ∈ ids)); [rewrite decide_True by (by right)|rewrite decide_False by set_solver]; done.
  - rewrite Hi, Hr1. destruct (decide (i = id)) as [->|Hne']; [|by right]. left. by rewrite decide_True by left.
Qed.

(** C11: a round of renewals extends exactly the leases it may.  When every grant
    is applied, each record becomes what [renewed] says: the lease of a bound,
    unterminated Allocation whose lease still runs when the response arrives moves
    to the later deadline; a missing grant, an expired or terminated Allocation,
    an earlier deadline and every other field stay.  When a write fails the round
    ends, and every record either was renewed or is as before; no record appears
    or disappears. *)
Theorem RenewExecutionLeases_spec fs order ttls at_ c c' r :
  reachable Error cgroup_first (mkNode Serving c) -> int64 at_ ->
  (forall id ttl, ttls !! id = Some ttl -> int64 (at_ + ttl)) ->
  NoDup order -> (forall id, id ∈ order <-> is_Some (c.(h_allocationStates) !! id)) ->
  RenewExecutionLeases fs order ttls at_ c = (c', r) ->
  forall id, record_of c' id = renewal ttls at_ id <$> record_of c id \/
             (record_of c' id = record_of c id /\ r <> Ok ()).
Proof.
  intros Hc%reachable_inv Hat Hexp Hnd Horder Hr id. change (serving cgroup_first c) in Hc.
  unfold RenewExecutionLeases in Hr.
  assert (Hren : forall id, renewable ttls c id = true ->
    exists ttl old, ttls !! id = Some ttl /\ 0 < ttl /\ record_of c id = Some old /\ old.(as_NodeID) <> "").
  { intros j. unfold renewable. destruct (record_of c j) as [old|] eqn:Eo; [|done].
    destruct (serving_record _ _ _ _ Hc Eo) as [Hn _]. rewrite (named_node _ _ Hn).
    intros [Hx Hy]%andb_true_iff. b2p. destruct (ttls !! j) as [ttl|]; simpl in Hy; [|done].
    apply Z.ltb_lt in Hy. by exists ttl, old. }
  edestruct renew_all_spec as [Hi|Hi]; [exact Hc|exact Hat|exact Hexp| | |exact Hr| |right; exact Hi].
  - by apply NoDup_filter.
  - intros j [Hj _]%list_elem_of_filter. by apply Hren.
  - left. rewrite Hi. case_decide as Hin; [done|]. destruct (record_of c id) as [old|] eqn:Eo; [|done]. simpl.
    f_equal. unfold renewal. destruct (ttls !! id) as [ttl|] eqn:Et; [|done]. unfold renewed.
    destruct (_ && _) eqn:E; [|done]. exfalso. apply Hin, list_elem_of_filter. split.
    + unfold renewable. rewrite Eo, Et. simpl. destruct (serving_record _ _ _ _ Hc Eo) as [Hn _].
      rewrite (named_node _ _ Hn). apply andb_true_iff in E as [[[_ E1]%andb_true_iff E2]%andb_true_iff E3].
      rewrite E1. apply Z.ltb_lt in E2, E3. apply Z.ltb_lt. lia.
    + apply Horder. apply record_of_some in Eo as (st & -> & _). eauto.
Qed.

Lemma elem_expired now (c : ctl) id : id ∈ ExpiredExecutionLeaseAllocationIDs now c <->
  exists r, record_of c id = Some r /\ TrimSpace r.(as_NodeID) <> "" /\
    (r.(as_ExecutionLeaseExpiresAtUnixNano) <= 0 \/ r.(as_ExecutionLeaseExpiresAtUnixNano) <= now).
Proof.
  unfold ExpiredExecutionLeaseAllocationIDs. rewrite elem_of_sort_slice, list_elem_of_fmap. split.
  - intros ([k st] & -> & [HP Hin]%list_elem_of_filter). simpl in HP. destruct HP as [Hn He].
    apply elem_of_map_to_list in Hin. simpl.
    exists st.(st_record). unfold record_of. rewrite Hin. b2p. split; [done|]. split; [done|].
    destruct He as [He|He]; [left; by apply Z.leb_le|right]. unfold After in He. b2p. by apply Z.ltb_ge.
  - intros (r & Hr & Hn & He). apply record_of_some in Hr as (st & Hst & ->). exists (id, st). split; [done|].
    apply list_elem_of_filter. split; [|by apply elem_of_map_to_list]. split; [by apply String.eqb_neq|].
    apply orb_true_iff. destruct He as [He|He]; [left; by apply Z.leb_le|right]. unfold After.
    by apply negb_true_iff, Z.ltb_ge.
Qed.

(** C12: the lease watchdog stops exactly what has expired.  Its list holds, in
    order and once each, the bound Allocations whose deadline has passed; a call
    for any other Allocation, such as one renewed since the list was made, changes
    nothing, and a call for one of them that succeeds leaves it terminated, with
    the expiry as its cause unless it had one already. *)
Theorem watchdog_exact f now c id c' flag e :
  reachable Error cgroup_first (mkNode Serving c) -> int64 now ->
  MarkExpiredExecutionLeaseWithLifecycleHeld f id now c = (c', (flag, e)) ->
  let expired := ExpiredExecutionLeaseAllocationIDs now c in
  (forall i, i ∈ expired <-> exists r, record_of c i = Some r /\ r.(as_NodeID) <> "" /\
                               r.(as_ExecutionLeaseExpiresAtUnixNano) <= now) /\
  NoDup expired /\ StronglySorted (not_after string_lt) expired /\
  (id ∉ expired -> c' = c /\ flag = false /\ e = Ok ()) /\
  (id ∈ expired -> flag = true /\ (e = Ok () -> exists r r', record_of c id = Some r /\ record_of c' id = Some r' /\
     r' = if bool_decide (terminated r) then r else set_Termination WDC_EXECUTION_LEASE_EXPIRED leaseExpired r)).
Proof.
  intros Hc%reachable_inv Hnow. change (serving cgroup_first c) in Hc. simpl.
  assert (Hiff : forall i, i ∈ ExpiredExecutionLeaseAllocationIDs now c <-> exists r, record_of c i = Some r /\
    r.(as_NodeID) <> "" /\ r.(as_ExecutionLeaseExpiresAtUnixNano) <= now).
  { intros i. rewrite elem_expired. split; intros (r & Hr & Hn & He); exists r;
      destruct (serving_record _ _ _ _ Hc Hr) as [Hnamed Ho]; rewrite (named_node _ _ Hnamed) in *.
    - split_and!; [done..|]. destruct (ok_admitted _ _ Ho Hn). lia.
    - split_and!; auto. }
  intros Hm. split_and!; [done| | | |].
  - unfold ExpiredExecutionLeaseAllocationIDs. rewrite sort_slice_perm.
    eapply sublist_NoDup; [apply (NoDup_fst_map_to_list (h_allocationStates c))|apply fmap_sublist, sublist_filter].
  - apply sort_slice_sorted, string_lt_strict_weak.
  - intros Hid. unfold MarkExpiredExecutionLeaseWithLifecycleHeld in Hm.
    destruct (record_of c id) as [r|] eqn:Er; [|by simplify_eq].
    unfold UnixNano in Hm. rewrite wrap64_id in Hm by done. destruct (_ || _) eqn:E in Hm; [by simplify_eq|].
    exfalso. apply Hid, Hiff. exists r. apply orb_false_iff in E as [E1 E2]. b2p. apply Z.ltb_ge in E2. by split_and!.
  - intros (r & Hr & Hn & He)%Hiff. unfold MarkExpiredExecutionLeaseWithLifecycleHeld in Hm. rewrite Hr in Hm.
    unfold UnixNano in Hm. rewrite wrap64_id in Hm by done. destruct (String.eqb_spec r.(as_NodeID) ""); [done|].
    destruct (Z.ltb_spec now r.(as_ExecutionLeaseExpiresAtUnixNano)); [lia|]. simpl in Hm.
    destruct (markTerminationIntentLocked _ _ _ _ _) as [c1 e1] eqn:E. injection Hm as <- <- <-. split; [done|].
    intros ->. exists r. revert E. unfold markTerminationIntentLocked, terminated. 
    destruct (decide (as_TerminationDiagnosticCode r = WDC_UNSPECIFIED)) as [Hu|Hu].
    + rewrite (bool_decide_eq_true_2 _ Hu). simpl. destruct (serving_record _ _ _ _ Hc Hr) as [Hnamed _].
      intros [(x & ? & ?)|(s' & _ & _ & ->)]%commit_cases; [done| |by destruct Hnamed].
      rewrite (named_id _ _ Hnamed), record_of_republish, decide_True, Hr by done.
      eexists. split_and!; [done..|]. by rewrite bool_decide_eq_false_2 by (intros ?; done).
    + rewrite (bool_decide_eq_false_2 _ Hu). simpl. intros [= <-]. exists r. split_and!; [done..|].
      by rewrite bool_decide_eq_true_2.
Qed.
End leases.

(** ** Ownership of image roots *)
Section ownership.
Context `{GoRuntime} {S B : Type} `{StateStore S AllocationState B}.
Context (Error : error -> string) (cgroup_first : bool).
Notation ctl := (NodeController S).

(** The roots the states hold, and those handed back. *)
Definition held (states : gmap string allocationState) : list RootFS :=
  flat_map (fun p => st_imageMountRoots p.2) (map_to_list states).
Definition released (effects : list effect) : list RootFS :=
  omap (fun e => match e with ReleaseActiveRef root => Some root | _ => None end) effects.
Definition ledger (c : ctl) : list RootFS := held c.(h_allocationStates) ++ released c.(h_effects).
Definition roots_at (states : gmap string allocationState) (id : string) : list RootFS :=
  match states !! id with Some st => st.(st_imageMountRoots) | None => [] end.

Lemma held_perm l states : l ≡ₚ map_to_list states ->
  held states ≡ₚ flat_map (fun p : string * allocationState => st_imageMountRoots p.2) l.
Proof. intros Hl. unfold held. by apply Permutation_flat_map. Qed.
Lemma held_insert_new id st states : states !! id = None -> held (<[id := st]> states) ≡ₚ st.(st_imageMountRoots) ++ held states.
Proof. intros Hn. rewrite (held_perm ((id, st) :: map_to_list states)); [done|]. by rewrite map_to_list_insert. Qed.
Lemma held_split id states : held states ≡ₚ roots_at states id ++ held (delete id states).
Proof.
  unfold roots_at. destruct (states !! id) as [st|] eqn:E.
  - rewrite <- held_insert_new by apply lookup_delete_eq. by rewrite insert_delete_id.
  - by rewrite delete_id.
Qed.
Lemma held_insert id st states :
  held (<[id := st]> states) ≡ₚ st.(st_imageMountRoots) ++ held (delete id states).
Proof. rewrite <- insert_delete_eq. apply held_insert_new, lookup_delete_eq. Qed.
Lemma held_same id st states : st.(st_imageMountRoots) = roots_at states id -> held (<[id := st]> states) ≡ₚ held states.
Proof. intros Hr. by rewrite held_insert, Hr, <- held_split. Qed.
Lemma released_app e e' : released (e ++ e') = released e ++ released e'.
Proof. apply omap_app. Qed.
Lemma released_roots roots : released (map ReleaseActiveRef roots) = roots.
Proof. induction roots as [|r roots IH]; [done|]. simpl. unfold released in *. simpl. by f_equal. Qed.

Lemma default_roots id states :
  (default (newAllocationState id) (states !! id)).(st_imageMountRoots) = roots_at states id.
Proof. unfold roots_at. by destruct (states !! id). Qed.
Lemma publish_ledger id desired (c : ctl) s' : ledger (publish id desired (with_store s' c)) ≡ₚ ledger c.
Proof. unfold ledger. simpl. rewrite held_same; [done|]. apply default_roots. Qed.
Lemma republish_ledger id desired (c : ctl) s' : ledger (republish id desired (with_store s' c)) ≡ₚ ledger c.
Proof.
  unfold ledger. simpl. destruct (h_allocationStates c !! id) as [st|] eqn:E.
  - rewrite <- (insert_id (h_allocationStates c) id st) at 1 by done. rewrite alter_insert_eq, held_same; [done|].
    unfold roots_at. by rewrite E.
  - by rewrite alter_id by (intros x; by rewrite E).
Qed.
Lemma commit_ledger f what args desired (show : ctl -> ctl) c c' r :
  (forall s', ledger (show (with_store s' c)) ≡ₚ ledger c) -> commit f what args desired show c = (c', r) ->
  ledger c' ≡ₚ ledger c.
Proof. intros Hs. unfold commit. destruct (persistAllocationRecord _ _ _) as [s' [[]|e]]; intros [= <- <-]; [apply Hs|done]. Qed.

Ltac no_commit := intros [= <- <-]; done.
Ltac commits :=
  repeat first
    [ no_commit
    | eapply commit_ledger; intros ?; first [apply publish_ledger | apply republish_ledger]
    | case_match ].

Lemma mark_ledger f old code m (c c' : ctl) r : markTerminationIntentLocked f old code m c = (c', r) -> ledger c' ≡ₚ ledger c.
Proof. unfold markTerminationIntentLocked. commits. Qed.
Lemma renew_ledger fs ttls at_ ids (c c' : ctl) r : renew_all fs ttls at_ ids c = (c', r) -> ledger c' ≡ₚ ledger c.
Proof.
  revert c. induction ids as [|id ids IH]; intros c; simpl; [no_commit|].
  destruct (renew_one _ _ _ _ _) as [c1 e] eqn:E.
  assert (H1 : ledger c1 ≡ₚ ledger c) by (revert E; unfold renew_one; commits).
  destruct e; [|by intros [= <- <-]]. intros ->%IH. done.
Qed.

Lemma release_ledger f id recovery (c c' : ctl) r : releaseAllocationState f id recovery c = (c', r) -> ledger c' ≡ₚ ledger c.
Proof.
  unfold releaseAllocationState. branch E; [no_commit|]. cbv zeta. set (key := TrimSpace id).
  destruct (if recovery || _ then _ else _) as [s' [[]|e]];
    intros [= <- <-]; [|done]. unfold ledger. simpl. rewrite released_app.
  rewrite (held_split key (h_allocationStates c)). unfold roots_at. destruct (_ !! key) as [st|]; simpl; [|by rewrite app_nil_r].
  rewrite released_app, released_roots. assert (Hd : released match st.(st_runtime) with Some e => [DecRef e.(pe_pointer)] | None => [] end = [])
    by by destruct (st_runtime st). rewrite Hd. simpl. solve_Permutation.
Qed.
Lemma forget_ledger f id (c : ctl) : ledger (forgetImageMountRoots f id c) ≡ₚ ledger c.
Proof.
  unfold forgetImageMountRoots. branch E; [done|]. destruct (h_allocationStates c !! id) as [st|] eqn:Est; [|done].
  cbv zeta. destruct (if non_nil (st_runtime st) then _ else _) as [s' [[]|e]]; [|done].
  unfold ledger. simpl. rewrite released_app, released_roots, (held_split id (h_allocationStates c)). unfold roots_at at 1.
  rewrite Est. branch E2; [|rewrite held_insert; simpl]; solve_Permutation.
Qed.

(** A call that writes at most one record. *)
Ltac quiet :=
  cbv zeta; repeat (case_match; try done);
  repeat match goal with H : (_, _) = (_, _) |- _ => injection H as <- <- end; simpl; try done;
  first
    [ match goal with H : markTerminationIntentLocked _ _ _ _ _ = _ |- _ => by eapply mark_ledger in H end
    | match goal with |- context [markTerminationIntentLocked ?f ?o ?x ?m ?c] =>
        let E := fresh in destruct (markTerminationIntentLocked f o x m c) eqn:E; by eapply mark_ledger end
    | match goal with |- context [commit ?f ?w ?a ?d ?s ?c] =>
        let E := fresh in destruct (commit f w a d s c) eqn:E; simpl;
        eapply commit_ledger; [|exact E]; intros ?; apply publish_ledger end ].
Lemma images_ledger id roots mounts (c c' : ctl) r : rememberImageMountRoots id roots mounts c = (c', r) ->
  ledger c' ≡ₚ ledger c \/ r = Ok () /\ ledger c' ≡ₚ roots ++ ledger c.
Proof.
  unfold rememberImageMountRoots. branch E; [intros [= <- <-]; by left|]. cbv zeta.
  rewrite default_roots. destruct (roots_at (h_allocationStates c) (TrimSpace id)) as [|x l] eqn:Er; simpl; intros [= <- <-].
  - right. split; [done|]. unfold ledger. simpl. rewrite held_insert. simpl.
    rewrite (held_split (TrimSpace id) (h_allocationStates c)), Er. by rewrite app_assoc.
  - left. unfold ledger. simpl. rewrite held_same; [done|]. apply default_roots.
Qed.
Lemma runtime_ledger f id env (c c' : ctl) r : rememberContainerRuntime f id env c = (c', r) -> ledger c' ≡ₚ ledger c.
Proof.
  unfold rememberContainerRuntime. cbv zeta.
  repeat (case_match; try no_commit); eapply commit_ledger; intros s'; unfold ledger; simpl;
    (rewrite held_same; [done|apply default_roots]).
Qed.

(** C13: an image root is released exactly once.  Counting every image root a
    state holds and every root handed back to the environment cache, a call of the
    serving node adds the roots it is given when it remembers them successfully,
    and nothing else changes the count: no root is released twice, dropped
    without a release, or released while a state still holds it. *)
Theorem image_roots_conserved c c' : call Error cgroup_first c c' ->
  ledger c' ≡ₚ ledger c \/
  exists id roots mounts, rememberImageMountRoots id roots mounts c = (c', Ok ()) /\ ledger c' ≡ₚ roots ++ ledger c.
Proof.
  intros Hcall. destruct Hcall.
  11: { destruct (rememberImageMountRoots id roots mounts c) as [c' r] eqn:E. simpl.
        destruct (images_ledger _ _ _ _ _ _ E) as [?|[-> ?]]; [by left|right]. by exists id, roots, mounts. }
  all: left.
  - unfold StoreAllocationIntent. cbv zeta. quiet.
  - destruct (RenewExecutionLeases _ _ _ _ _) as [c' r] eqn:E. by eapply renew_ledger.
  - unfold MarkTerminationIntentWithLifecycleHeld. quiet.
  - unfold MarkExpiredExecutionLeaseWithLifecycleHeld. quiet.
  - unfold MarkRecoveredExecutionTerminationWithLifecycleHeld. quiet.
  - unfold MergeCapabilityReconcile. quiet.
  - unfold AckCapabilityReconcile. quiet.
  - unfold BeginCapabilityTerminationWithLifecycleHeld. quiet.
  - unfold StoreVerifiedEnforcementManifest. quiet.
  - destruct (rememberContainerRuntime _ _ _ _) as [c' r] eqn:E. by eapply runtime_ledger.
  - apply forget_ledger.
  - destruct (releaseAllocationState _ _ _ _) as [c' r] eqn:E. by eapply release_ledger.
Qed.
End ownership.

(** ** Examples *)
Section example.
#[local] Existing Instance amd64.
#[local] Existing Instance ex_store.
#[local] Existing Instance ex_laws.
Notation reach := (reachable node_error_text false).

Definition ex_at : time := 1010 * Second.
Definition ex_serving : NodeController (NodeDB AllocationState) := fst ex_intent.
Lemma ex_serving_reachable : reach (mkNode Serving ex_serving).
Proof.
  exists (mkController ∅ ∅ []). split; [done|]. eapply rtc_l; [apply ex_loaded_step|]. apply rtc_once, ex_intent_step.
Qed.

Lemma RenewExecutionLeases_spec_witness :
  let c' := fst (RenewExecutionLeases no_fault ["alloc-1"] {["alloc-1" := 30 * Second]} ex_at ex_serving) in
  option_map as_ExecutionLeaseExpiresAtUnixNano (record_of c' "alloc-1") = Some (1040 * Second) /\
  record_of c' "alloc-1" = renewal {["alloc-1" := 30 * Second]} ex_at "alloc-1" <$> record_of ex_serving "alloc-1".
Proof.
  intros c'. split; [vm_compute; reflexivity|].
  destruct (RenewExecutionLeases_spec node_error_text false no_fault ["alloc-1"] {["alloc-1" := 30 * Second]} ex_at
    ex_serving c' (Ok ()) ex_serving_reachable) with (id := "alloc-1") as [?|[_ ?]]; try done.
  - intros id ttl [<- <-]%lookup_singleton_Some. unfold int64, MinInt64, MaxInt64, ex_at, Second. lia.
  - apply NoDup_singleton.
  - intros id. rewrite list_elem_of_singleton.
    assert (Hd : dom ex_serving.(h_allocationStates) = {["alloc-1"]}) by (vm_compute; reflexivity).
    rewrite <- elem_of_dom, Hd, elem_of_singleton. done.
Defined.

Lemma watchdog_exact_witness :
  let now := 2000 * Second in
  let out := MarkExpiredExecutionLeaseWithLifecycleHeld None "alloc-1" now ex_serving in
  "alloc-1" ∈ ExpiredExecutionLeaseAllocationIDs now ex_serving /\ fst (snd out) = true.
Proof.
  intros now out.
  assert (Hin : "alloc-1" ∈ ExpiredExecutionLeaseAllocationIDs now ex_serving) by (vm_compute; left).
  split; [exact Hin|].
  destruct (watchdog_exact node_error_text false None now ex_serving "alloc-1" (fst out) (fst (snd out)) (snd (snd out))
    ex_serving_reachable) as (_ & _ & _ & _ & H); [unfold int64, MinInt64, MaxInt64, now, Second; lia|vm_compute; reflexivity|].
  by apply H.
Defined.

(** A verified launch, and its restart. *)
Definition ex_resolved : ResolvedEnvironment :=
  mkResolved "env-1" (Some (mkRootfsMessage true SRC_LOCAL (Some (SourcePath "/srv/rootfs")))) ["/bin/sh"] ∅ "/" [] None.
Definition ex_prepared : PreparedEnvironment := mkPrepared 1 (Some ex_resolved).
Definition ex_prepare (e : ResolvedEnvironment) (_ : RootfsConfig) : result PreparedEnvironment :=
  Ok (mkPrepared 2 (Some e)).
Definition ex_acquire (_ : string) : result RootFS := Ok 9.
Definition ex_manifest : AllocationEnforcementManifest :=
  mkManifest 0 0 "" "" "" "" 1 "/run/axnoded/alloc-1" "" "" "" "" 0 0 0 false 0 0 0 0 0 0 0.
Definition ex_images := fst (rememberImageMountRoots "alloc-1" [5; 6] [Some (mkImageMount " img " "/data")] ex_serving).
Definition ex_runtime := fst (rememberContainerRuntime None "alloc-1" (Some ex_prepared) ex_images).
Definition ex_verified :=
  fst (StoreVerifiedEnforcementManifest false None ex_at "alloc-1" (Some ex_manifest) [] ex_at ex_runtime).

Lemma ex_verified_reachable : reach (mkNode Serving ex_verified).
Proof.
  destruct ex_serving_reachable as (c & Hc & Hs). exists c. split; [exact Hc|].
  eapply rtc_r; [eapply rtc_r; [eapply rtc_r; [exact Hs|]|]|]; apply step_call.
  - apply call_images.
  - apply call_runtime.
  - apply call_verified.
Qed.

Lemma ex_restarted :
  let c' := fst (loadAllocationStates false ex_prepare ex_acquire None no_fault ["alloc-1"] (restarted ex_verified)) in
  option_map as_ImageMountUrls (record_of c' "alloc-1") = Some ["img"] /\
  released (h_effects c') = [] /\ roots_at (h_allocationStates c') "alloc-1" = [9].
Proof. split_and!; vm_compute; reflexivity. Qed.
Lemma restart_restores_witness : exists c',
  loadAllocationStates false ex_prepare ex_acquire None no_fault ["alloc-1"] (restarted ex_verified) = (c', Ok ()) /\
  option_map as_ImageMountUrls (record_of c' "alloc-1") = Some ["img"] /\
  released (h_effects c') = [] /\ roots_at (h_allocationStates c') "alloc-1" = [9].
Proof.
  destruct (restart_restores node_error_text false ex_prepare ex_acquire ex_verified ["alloc-1"] ex_verified_reachable)
    as (c' & Hl & _).
  - intros id ->%list_elem_of_singleton.
    destruct (on_disk ex_verified "alloc-1") as [r|] eqn:Er; [|by vm_compute in Er]. exists r. split; [done|].
    vm_compute in Er. injection Er as <-. split_and!; [done|vm_compute; reflexivity..].
  - exists c'. split; [exact Hl|]. pose proof ex_restarted as E. cbv zeta in E. rewrite Hl in E. exact E.
Defined.

Lemma image_roots_conserved_witness : ledger ex_images ≡ₚ [5; 6] /\
  (ledger ex_images ≡ₚ ledger ex_serving \/
   exists id roots mounts, rememberImageMountRoots id roots mounts ex_serving = (ex_images, Ok ()) /\
     ledger ex_images ≡ₚ roots ++ ledger ex_serving).
Proof.
  split; [vm_compute; reflexivity|]. apply (image_roots_conserved node_error_text false). apply call_images.
Defined.
End example.
