(* ===== verification/AccessGrant.v ===== *)
(** * Access grants: from the store to a node

    A grant lets the gateway open a stream to an Allocation.  The store issues
    and revokes grants under a per-node revision ([Reconcile], [RunStore]); this
    file holds the rest of their life: the gateway's resolver
    ([application/gateway/resolver.go], [postgres/gateway/reader.go],
    [api/gatewayv1/server.go]), the stream that publishes them to a node
    ([postgres/run/access_grant_watch.go], [api/nodev1/handlers.go],
    [kernel/accessgrant]), and the node's cache and watcher
    ([axnoded/internal/controlplane/access_grant_cache.go]).  SHA-256 is an
    argument; each closing of the channel [changed] is a new generation. *)
From S2P Require Import Prelude Proto Resource Allocation Capability Node Execution Store Reconcile RunStore.

(** ** Kernel (kernel/accessgrant) *)
Module accessgrantkernel.
Record Record_ := mkRecord {
  Purpose : AccessPurpose; GrantID : string; AllocationID : string; NodeID : string;
  ValidationTokenHash : string; ExpiresAt : time; Revision : Z; Revoked : bool }.
Definition IsExpired (record : option Record_) (now : time) : bool :=
  match record with None => true | Some r => negb (After r.(ExpiresAt) now) end.
Definition IsRevokedOrExpired (record : option Record_) (now : time) : bool :=
  match record with None => true | Some r => r.(Revoked) || IsExpired record now end.
Definition HashToken (sha256_hex : string -> string) (token : string) : string := sha256_hex (TrimSpace token).
End accessgrantkernel.

(** ** The resolver of the gateway (application/gateway) *)
Module appgateway.
Record GatewayAllocation := mkGatewayAllocation {
  ga_OutputExpiresAt : option time; ga_AllocationID : string; ga_RunID : string; ga_NodeID : string;
  ga_NodeTarget : string; ga_LifecycleState : AllocationLifecycleState }.

Definition LoadAllocation (allocationID : string) (db : DB) : result GatewayAllocation :=
  match (a ← db.(allocations) !! allocationID; n ← db.(nodes) !! a.(a_NodeID);
         if node_active n then Some (a, n) else None) with
  | None => Err (Status NotFound "allocation not found" [])
  | Some (a, n) =>
      Ok (mkGatewayAllocation a.(a_OutputExpiresAt) allocationID a.(a_RunID) a.(a_NodeID)
            n.(nr_NodeTarget) a.(a_State))
  end.

(** An output grant is still given once the Allocation is torn down, until the
    deadline of its outputs. *)
Definition terminal_output (purpose : AccessPurpose) (alloc : GatewayAllocation) (now : time) : bool :=
  bool_decide (purpose = PURPOSE_RUN_OUTPUT) && IsCleanupState alloc.(ga_LifecycleState)
  && match alloc.(ga_OutputExpiresAt) with Some t => Before now t | None => false end.

Definition ValidateAllocationAccess (allocationID : string) (purpose : AccessPurpose) (now : time) (db : DB) : result () :=
  alloc ← LoadAllocation (TrimSpace allocationID) db;
  if bool_decide (alloc.(ga_LifecycleState) = ALS_ACTIVE) then Ok ()
  else if terminal_output purpose alloc now then Ok ()
  else Err (Status FailedPrecondition "allocation access is no longer available" []).

Record Resolved := mkResolved {
  rs_AllocationID : string; rs_RunID : string; rs_NodeID : string; rs_NodeTarget : string;
  rs_GrantID : string; rs_ExpiresAt : Timestamp }.

Section resolver.
Context `{SqlTime}.

(** The route is read before the transaction that issues the grant: [routed] is
    the store then. *)
Definition ResolveAllocationTerminal (routed : DB) (allocationID : string) (purpose : AccessPurpose) (ttl : Z)
    (now : time) (grantID tokenHash : string) : Tx Resolved :=
  let allocationID := TrimSpace allocationID in
  _ ← guard_tx (negb (String.eqb allocationID "")) (Status InvalidArgument "allocation_id is required" []);
  alloc ← lift (LoadAllocation allocationID routed);
  let purpose := if bool_decide (purpose = PURPOSE_UNSPECIFIED) then PURPOSE_INTERACTIVE else purpose in
  _ ← guard_tx (bool_decide (purpose = PURPOSE_INTERACTIVE) || bool_decide (purpose = PURPOSE_RUN_OUTPUT))
        (Status InvalidArgument "allocation access purpose is invalid" []);
  let terminalRunOutput := terminal_output purpose alloc now in
  _ ← guard_tx (bool_decide (alloc.(ga_LifecycleState) = ALS_ACTIVE) || terminalRunOutput)
        (Status FailedPrecondition "allocation is not active" []);
  let ttl := match alloc.(ga_OutputExpiresAt) with
             | Some expiry =>
                 if terminalRunOutput && ((ttl <=? 0) || After (Add now ttl) expiry) then Sub expiry now else ttl
             | None => ttl
             end in
  grant ← IssueAllocationAccessGrant alloc.(ga_AllocationID) purpose ttl now grantID tokenHash;
  mret (mkResolved alloc.(ga_AllocationID) alloc.(ga_RunID) alloc.(ga_NodeID) alloc.(ga_NodeTarget) grantID
          (timestamppb_New grant.(g_ExpiresAt))).

(** [Server.ResolveAllocationTerminal] (api/gatewayv1/server.go), after the
    credential is authorized: a grant lives for two hours at most. *)
Definition gateway_ResolveAllocationTerminal (DefaultTTL : Z) (routed : DB) (allocationID : string)
    (purpose : AccessPurpose) (ttlSeconds : Z) (now : time) (grantID tokenHash : string) : Tx Resolved :=
  let ttl := wrap64 (ttlSeconds * Second) in
  let ttl := if ttl <=? 0 then DefaultTTL else ttl in
  _ ← guard_tx (negb ((2 * Hour / Second <? ttlSeconds) || (2 * Hour <? ttl)))
        (Status InvalidArgument "allocation access grant cannot exceed two hours" []);
  ResolveAllocationTerminal routed allocationID purpose ttl now grantID tokenHash.
End resolver.
End appgateway.

(** ** The stream to a node (postgres/run/access_grant_watch.go) *)
Definition access_cursor (db : DB) (nodeID : string) : Z :=
  match db.(node_access_grant_cursors) !! nodeID with Some r => r | None => 0 end.
Definition by_revision (a b : string * GrantRow) : bool :=
  (a.2.(g_Revision) <? b.2.(g_Revision))
  || ((a.2.(g_Revision) =? b.2.(g_Revision)) && string_lt a.1 b.1).
Definition published (after current : Z) (nodeID : string) (g : GrantRow) : bool :=
  String.eqb g.(g_NodeID) nodeID && (after <? g.(g_Revision)) && (g.(g_Revision) <=? current).
Definition scan_grant (now : time) (kv : string * GrantRow) : accessgrantkernel.Record_ :=
  let '(id, g) := kv in
  let grant := accessgrantkernel.mkRecord g.(g_Purpose) id g.(g_AllocationID) g.(g_NodeID) g.(g_TokenHash)
                 g.(g_ExpiresAt) g.(g_Revision) g.(g_Revoked) in
  if accessgrantkernel.IsExpired (Some grant) now
  then accessgrantkernel.mkRecord g.(g_Purpose) id g.(g_AllocationID) g.(g_NodeID) g.(g_TokenHash)
         g.(g_ExpiresAt) g.(g_Revision) true
  else grant.
(** The cursor is read before the rows: [marked] is the store then. *)
Definition loadAllocationAccessGrants (marked db : DB) (nodeID : string) (afterRevision : Z) (now : time) :
    list accessgrantkernel.Record_ * Z :=
  let current := access_cursor marked nodeID in
  (map (scan_grant now)
     (sort_slice by_revision
        (List.filter (fun kv => published afterRevision current nodeID kv.2)
           (map_to_list db.(allocation_access_grants)))), current).
(** One turn of the loop: [None] waits for the next change. *)
Definition WatchAllocationAccessGrants_turn (marked db : DB) (nodeID : string) (afterRevision : Z) (now : time) :
    option (list accessgrantkernel.Record_ * Z) :=
  let '(grants, current) := loadAllocationAccessGrants marked db (TrimSpace nodeID) afterRevision now in
  if afterRevision <? current then Some (grants, current) else None.

(** *** Messages (api/nodev1/handlers.go) *)
Record NodeGrant := mkNodeGrant {
  ng_GrantID : string; ng_AllocationID : string; ng_ValidationTokenHash : string; ng_Purpose : AccessPurpose;
  ng_Revision : Z; ng_ExpiresAt : option Timestamp; ng_Revoked : bool }.
#[export] Instance node_grant_eq_dec : EqDecision NodeGrant.
Proof. solve_decision. Defined.
Record WatchResponse := mkWatchResponse { wr_Grants : list (option NodeGrant); wr_CurrentRevision : Z }.
Definition node_grant (r : accessgrantkernel.Record_) : NodeGrant :=
  mkNodeGrant r.(accessgrantkernel.GrantID) r.(accessgrantkernel.AllocationID)
    r.(accessgrantkernel.ValidationTokenHash) r.(accessgrantkernel.Purpose) r.(accessgrantkernel.Revision)
    (Some (timestamppb_New r.(accessgrantkernel.ExpiresAt))) r.(accessgrantkernel.Revoked).
(** What one turn of the handler sends: a response and the next revision. *)
Definition watch_handler_turn (marked db : DB) (nodeID : string) (revision : Z) (now : time) :
    option (result (WatchResponse * Z)) :=
  turn ← WatchAllocationAccessGrants_turn marked db nodeID revision now;
  let '(records, current) := turn : list accessgrantkernel.Record_ * Z in
  Some (if current <=? revision
        then Err (Status Internal "allocation access grant watch returned a non-advancing revision" [])
        else Ok (mkWatchResponse (map (fun r => Some (node_grant r)) records) current, current)).
Definition RequireActive (nodeID : string) (db : DB) : result () :=
  if String.eqb nodeID "" then Err (Status PermissionDenied "Node identity is required" [])
  else match db.(nodes) !! nodeID with
       | None => Err (Status PermissionDenied "Node identity is unknown" [])
       | Some n => if node_active n then Ok () else Err (Status FailedPrecondition "Node identity is not active" [])
       end.
Definition watch_handler_open (nodeID : string) (db : DB) : result string :=
  let nodeID := TrimSpace nodeID in
  if String.eqb nodeID "" then Err (Status InvalidArgument "node_id is required" [])
  else _ ← RequireActive nodeID db; Ok nodeID.

(** ** The node's cache (access_grant_cache.go) *)
Record AccessGrantCache := mkCache {
  byToken : gmap string NodeGrant; byGrant : gmap string string; changed : nat }.
Definition NewAccessGrantCache : AccessGrantCache := mkCache ∅ ∅ 0.

Definition grant_alive (now : time) (g : NodeGrant) : bool :=
  non_nil g.(ng_ExpiresAt) && After (AsTime g.(ng_ExpiresAt)) now.
(** The first loop of [Apply] forgets what has expired. *)
Definition drop_expired (now : time) (c : AccessGrantCache) (kv : string * NodeGrant) : AccessGrantCache :=
  let '(tokenHash, grant) := kv in
  if grant_alive now grant then c
  else
    let grantID := TrimSpace grant.(ng_GrantID) in
    mkCache (delete tokenHash c.(byToken))
      (if negb (String.eqb grantID "") && bool_decide (c.(byGrant) !! grantID = Some tokenHash)
       then delete grantID c.(byGrant) else c.(byGrant))
      c.(changed).
Definition forget_expired (now : time) (c : AccessGrantCache) : AccessGrantCache :=
  fold_left (drop_expired now) (map_to_list c.(byToken)) c.

Section cache.
Context `{GoRuntime} (sha256_hex : string -> string).

(** One grant of the second loop, and whether it was applied. *)
Definition apply_grant (ca : AccessGrantCache * bool) (g : option NodeGrant) : AccessGrantCache * bool :=
  let '(c, applied) := ca in
  match g with
  | None => ca
  | Some grant =>
      if String.eqb (TrimSpace grant.(ng_AllocationID)) "" || (grant.(ng_Revision) <=? 0) then ca
      else
        let tokenHash := ToLower (TrimSpace grant.(ng_ValidationTokenHash)) in
        if String.eqb tokenHash "" then ca
        else
          let grantID := TrimSpace grant.(ng_GrantID) in
          let previous := c.(byToken) !! default "" (c.(byGrant) !! grantID) in
          if match previous with Some p => grant.(ng_Revision) <=? p.(ng_Revision) | None => false end then ca
          else
            let held := default "" (c.(byGrant) !! grantID) in
            let tokens := if negb (String.eqb grantID "") && negb (String.eqb held "") && negb (String.eqb held tokenHash)
                          then delete held c.(byToken) else c.(byToken) in
            (mkCache (<[tokenHash := grant]> tokens)
               (if negb (String.eqb grantID "") then <[grantID := tokenHash]> c.(byGrant) else c.(byGrant))
               c.(changed), true)
  end.
Definition Apply (now : time) (grants : list (option NodeGrant)) (c : AccessGrantCache) : AccessGrantCache :=
  let '(c, applied) := fold_left apply_grant grants (forget_expired now c, false) in
  if applied : bool then mkCache c.(byToken) c.(byGrant) (S c.(changed)) else c.

Definition accessGrantTokenHash (token : string) : string := sha256_hex (TrimSpace token).
Definition validationState (c : AccessGrantCache) (allocationID token : string) (purpose : AccessPurpose) (now : time) :
    bool * bool :=
  if String.eqb (TrimSpace allocationID) "" || String.eqb (TrimSpace token) "" then (false, false)
  else
    match c.(byToken) !! accessGrantTokenHash token with
    | None => (false, false)
    | Some grant =>
        if negb (String.eqb grant.(ng_AllocationID) (TrimSpace allocationID)) then (false, false)
        else (bool_decide (grant.(ng_Purpose) = purpose) && negb grant.(ng_Revoked) && grant_alive now grant, true)
    end.
Definition Validate (c : AccessGrantCache) (allocationID token : string) (now : time) : bool :=
  fst (validationState c allocationID token PURPOSE_INTERACTIVE now).

(** A turn of [WaitValidate]: an answer, or the generation of [changed] whose
    closing it waits for.  The cache is read three times; it may change between
    the reads. *)
Definition WaitValidate_turn (c1 c2 c3 : AccessGrantCache) (allocationID token : string) (purpose : AccessPurpose)
    (now now' : time) : bool + nat :=
  let '(valid, known) := validationState c1 allocationID token purpose now in
  if valid || known then inl valid
  else
    let '(valid, known) := validationState c3 allocationID token purpose now' in
    if valid || known then inl valid else inr c2.(changed).

(** ** The watcher *)
Record AccessGrantWatcher := mkWatcher { w_cache : AccessGrantCache; w_revision : Z }.
(** One response received by [watchOnce], with its local [afterRevision]. *)
Definition watch_receive (now : time) (resp : WatchResponse) (s : AccessGrantCache * Z) : AccessGrantCache * Z :=
  let '(cache, afterRevision) := s in
  (Apply now resp.(wr_Grants) cache,
   if afterRevision <? resp.(wr_CurrentRevision) then resp.(wr_CurrentRevision) else afterRevision).
(** [Start] keeps the revision [watchOnce] returned, with or without an error. *)
Definition watch_return (next : Z) (revision : Z) : Z := if revision <? next then next else revision.
End cache.
