(* ===== verification/AccessGrantFacts.v ===== *)
(** * Access grants in the store

    What the store promises about grants ([grant_inv], [grant_le]) and that every
    transaction of [Safety.store_step] keeps it; [keeps] is the general notion of
    a transaction that keeps an invariant and moves along a preorder. *)
From S2P Require Import Prelude Proto Resource Allocation Capability CapabilityFacts Node Placement Execution Store Reconcile RunStore StoreFacts Admission AdmissionFacts Retention RetentionFacts Tunnel TunnelFacts Safety AccessGrant.
Import retention tunnel.

(** ** Transactions that keep an invariant and move along a preorder *)
Section keeps.
Context (I : DB -> Prop) (R : DB -> DB -> Prop).
Context (R_refl : forall db, R db db) (R_trans : forall a b c, R a b -> R b c -> R a c).
Definition keeps {A} (m : Tx A) : Prop := forall db, I db -> I (fst (m db)) /\ R db (fst (m db)).

Lemma keeps_bind {A B} (m : Tx A) (f : A -> Tx B) : keeps m -> (forall a, keeps (f a)) -> keeps (x ← m; f x).
Proof using R_trans.
  intros Hm Hf db Hi. unfold mbind, tx_bind. destruct (Hm db Hi) as [H1 H2]. destruct (m db) as [d [a|e]]; [|done].
  destruct (Hf a d H1) as [H3 H4]. split; [done|]. by eapply R_trans.
Qed.
Lemma keeps_id {A} (m : Tx A) : (forall db, fst (m db) = db) -> keeps m.
Proof using R_refl. intros Hm db Hi. rewrite Hm. by split. Qed.
Lemma keeps_ret {A} (a : A) : keeps (mret a).
Proof using R_refl. by apply keeps_id. Qed.
Lemma keeps_fail {A} e : keeps (fail e : Tx A).
Proof using R_refl. by apply keeps_id. Qed.
Lemma keeps_gets {A} (f : DB -> A) : keeps (gets f).
Proof using R_refl. by apply keeps_id. Qed.
Lemma keeps_lift {A} (r : result A) : keeps (lift r).
Proof using R_refl. by apply keeps_id. Qed.
Lemma keeps_guard b e : keeps (guard_tx b e).
Proof using R_refl. destruct b; by apply keeps_id. Qed.
Lemma keeps_when b m : keeps m -> keeps (when_tx b m).
Proof using R_refl. destruct b; [done|]. intros _. apply keeps_ret. Qed.
Lemma keeps_wrap {A} fmt (m : Tx A) : keeps m -> keeps (wrap fmt m).
Proof using. intros Hm db Hi. specialize (Hm db Hi). unfold wrap. by destruct (m db) as [d [a|e]]. Qed.
Lemma keeps_on_error {A} f (m : Tx A) : keeps m -> keeps (on_error f m).
Proof using. intros Hm db Hi. specialize (Hm db Hi). unfold on_error. by destruct (m db) as [d [a|e]]. Qed.
Lemma keeps_for {A} (body : A -> Tx ()) l : (forall x, keeps (body x)) -> keeps (for_tx body l).
Proof using R_refl R_trans. intros Hb. induction l; simpl; [apply keeps_ret|]. by apply keeps_bind. Qed.
Lemma keeps_withTx {A} (m : Tx A) : keeps m -> keeps (withTx m).
Proof using R_refl.
  intros Hm db Hi. specialize (Hm db Hi). unfold withTx. destruct (m db) as [d [a|e]]; [done|].
  simpl in *. case_match; [done|by split].
Qed.
Lemma keeps_withTx_admin {A} (m : Tx A) : keeps m -> keeps (withTx_admin m).
Proof using R_refl.
  intros Hm db Hi. specialize (Hm db Hi). unfold withTx_admin. destruct (m db) as [d [a|e]]; [done|by split].
Qed.
End keeps.

(** ** What the store promises about grants *)
Definition same_grant (g g' : GrantRow) : Prop :=
  g'.(g_AllocationID) = g.(g_AllocationID) /\ g'.(g_NodeID) = g.(g_NodeID) /\ g'.(g_Purpose) = g.(g_Purpose) /\
  g'.(g_ExpiresAt) = g.(g_ExpiresAt) /\ g'.(g_TokenHash) = g.(g_TokenHash).
(** A grant changes only by revocation, under a revision beyond the cursor of
    its node; a new grant appears beyond it too. *)
Definition grant_row_le (db : DB) (g g' : GrantRow) : Prop :=
  g' = g \/ (same_grant g g' /\ g'.(g_Revoked) = true /\ g.(g_Revision) < g'.(g_Revision) /\
             access_cursor db g.(g_NodeID) < g'.(g_Revision)).
Record grant_le (db db' : DB) : Prop := {
  gl_cursor n : access_cursor db n <= access_cursor db' n;
  gl_alloc id a : db.(allocations) !! id = Some a ->
    exists a', db'.(allocations) !! id = Some a' /\ a'.(a_NodeID) = a.(a_NodeID);
  gl_row id g : db.(allocation_access_grants) !! id = Some g ->
    exists g', db'.(allocation_access_grants) !! id = Some g' /\ grant_row_le db g g';
  gl_new id g' : db.(allocation_access_grants) !! id = None -> db'.(allocation_access_grants) !! id = Some g' ->
    access_cursor db g'.(g_NodeID) < g'.(g_Revision) }.
Record grant_inv (db : DB) : Prop := {
  gi_cursor n : 0 <= access_cursor db n;
  gi_bound id g : db.(allocation_access_grants) !! id = Some g ->
    0 < g.(g_Revision) <= access_cursor db g.(g_NodeID);
  gi_alloc id g : db.(allocation_access_grants) !! id = Some g ->
    exists a, db.(allocations) !! g.(g_AllocationID) = Some a /\ a.(a_NodeID) = g.(g_NodeID) }.

Lemma grant_row_le_refl db g : grant_row_le db g g.
Proof. by left. Qed.
Lemma same_grant_trans g1 g2 g3 : same_grant g1 g2 -> same_grant g2 g3 -> same_grant g1 g3.
Proof. intros (A1&A2&A3&A4&A5) (B1&B2&B3&B4&B5). repeat split; congruence. Qed.
Lemma grant_row_le_same db g g' : grant_row_le db g g' -> same_grant g g'.
Proof. by intros [-> | [? _]]. Qed.
Lemma grant_le_refl db : grant_le db db.
Proof. split; [done|eauto..|by intros ? ? -> ?]. intros id g ->. eauto using grant_row_le_refl. Qed.
Lemma grant_le_trans a b c : grant_le a b -> grant_le b c -> grant_le a c.
Proof.
  intros [C1 A1 R1 N1] [C2 A2 R2 N2]. split.
  - intros n. specialize (C1 n). specialize (C2 n). lia.
  - intros id x (y & Hy & Ey)%A1. destruct (A2 _ _ Hy) as (z & Hz & Ez). exists z. split; [done|congruence].
  - intros id g (g1 & Hg1 & L1)%R1. destruct (R2 _ _ Hg1) as (g2 & Hg2 & L2). exists g2. split; [done|].
    destruct L1 as [-> | (S1 & V1 & M1 & K1)]; destruct L2 as [-> | (S2 & V2 & M2 & K2)]; [by left|right|right..].
    + split; [done|]. split; [done|]. split; [done|]. specialize (C1 (g_NodeID g)). lia.
    + done.
    + split; [by eapply same_grant_trans|]. split; [done|].
      destruct S1 as (_ & En & _). rewrite En in K2. specialize (C1 (g_NodeID g)). lia.
  - intros id g Hn Hg. destruct (b.(allocation_access_grants) !! id) as [g1|] eqn:E.
    + specialize (N1 _ _ Hn E). destruct (R2 _ _ E) as (g2 & Hg2 & L). simplify_eq.
      destruct L as [-> | ((_ & En & _) & _ & M & _)]; [done|]. rewrite En. lia.
    + specialize (N2 _ _ E Hg). specialize (C1 (g_NodeID g)). lia.
Qed.
Lemma grant_row_le_inv db g g' : grant_row_le db g g' -> g.(g_Revision) <= g'.(g_Revision).
Proof. intros [-> | (_ & _ & ? & _)]; lia. Qed.

(** *** Statements *)
Notation gr := (keeps grant_inv grant_le).
Definition same_access (db db' : DB) : Prop :=
  db'.(allocation_access_grants) = db.(allocation_access_grants) /\
  db'.(node_access_grant_cursors) = db.(node_access_grant_cursors) /\ db'.(allocations) = db.(allocations).
Lemma same_access_refl db : same_access db db.
Proof. done. Qed.
Lemma same_access_setters db :
  (forall x, same_access db (set_runs db x)) /\ (forall x, same_access db (set_queue db x)) /\
  (forall x y z, same_access db (set_tunnels db x y z)) /\ (forall x, same_access db (set_run_secrets db x)) /\
  (forall x, same_access db (set_environments db x)) /\ (forall x, same_access db (set_requirements db x)) /\
  (forall x, same_access db (set_conditions db x)) /\ (forall x, same_access db (set_quota_events db x)) /\
  (forall x, same_access db (set_audit_events db x)) /\ (forall x, same_access db (set_enrollments db x)).
Proof. by destruct db. Qed.
Lemma gr_same {A} (m : Tx A) : (forall db, same_access db (fst (m db))) -> gr m.
Proof.
  intros Hm db [P B F]. destruct (Hm db) as (E1 & E2 & E3). split; split; unfold access_cursor; rewrite ?E1, ?E2, ?E3; try done.
  - eauto.
  - intros id g ->. eauto using grant_row_le_refl.
  - by intros ? ? -> ?.
Qed.
Ltac gr_statement :=
  apply gr_same; intros ?; repeat (case_match; simpl);
  first [apply same_access_refl | apply same_access_setters].

Lemma set_allocations_access db x :
  (set_allocations db x).(allocation_access_grants) = db.(allocation_access_grants) /\
  (set_allocations db x).(node_access_grant_cursors) = db.(node_access_grant_cursors) /\
  (set_allocations db x).(allocations) = x.
Proof. by destruct db. Qed.
Lemma allocations_moved db x :
  grant_inv db ->
  (forall id a, db.(allocations) !! id = Some a -> exists a', x !! id = Some a' /\ a'.(a_NodeID) = a.(a_NodeID)) ->
  grant_inv (set_allocations db x) /\ grant_le db (set_allocations db x).
Proof.
  intros [P B F] Hx. destruct (set_allocations_access db x) as (E1 & E2 & E3).
  split; split; unfold access_cursor; rewrite ?E1, ?E2, ?E3; try done.
  - intros id g (a & Ha & En)%F. destruct (Hx _ _ Ha) as (a' & ? & ?). exists a'. split; [done|congruence].
  - intros id g ->. eauto using grant_row_le_refl.
  - by intros ? ? -> ?.
Qed.
Lemma freeze_node old a : (freeze_allocation_output_expiry old a).(a_NodeID) = a.(a_NodeID).
Proof. by destruct a. Qed.
Lemma gr_update_allocation id g f : (forall a, (f a).(a_NodeID) = a.(a_NodeID)) -> gr (update_allocation id g f).
Proof.
  intros Hf db Hi. unfold update_allocation.
  destruct (db.(allocations) !! id) as [a|] eqn:Ha; [|by split; [|apply grant_le_refl]].
  repeat (case_match; simpl); [|by split; [|apply grant_le_refl]..]. apply allocations_moved; [done|].
  intros id' a' Ha'. destruct (decide (id' = id)) as [-> |Hne]; simplify_map_eq; [|by eauto].
  eexists. split; [done|]. by rewrite freeze_node.
Qed.
Lemma gr_insert_allocation id a : gr (insert_allocation id a).
Proof.
  intros db Hi. unfold insert_allocation. repeat (case_match; simpl); try (by split; [|apply grant_le_refl]).
  apply allocations_moved; [done|]. intros id' a' Ha'.
  b2p. destruct (decide (id' = id)) as [-> |Hne]; [by rewrite Ha' in *|]. exists a'. by simplify_map_eq.
Qed.
Lemma gr_update_run id g f : gr (update_run id g f).
Proof. unfold update_run. gr_statement. Qed.
Lemma gr_update_queue id g f : gr (update_queue id g f).
Proof. unfold update_queue. gr_statement. Qed.
Lemma gr_delete_queue id g : gr (delete_queue id g).
Proof. unfold delete_queue. gr_statement. Qed.
Lemma gr_ScheduleReconcile `{SqlTime} r n : gr (ScheduleReconcile r n).
Proof. unfold ScheduleReconcile. gr_statement. Qed.
Lemma gr_ClaimDue `{SqlTime} l o n t d : gr (ClaimDueReconcileItems l o n t d).
Proof. unfold ClaimDueReconcileItems. gr_statement. Qed.
Lemma gr_audit e : gr (insertAdminAuditEvent e).
Proof. unfold insertAdminAuditEvent. gr_statement. Qed.
Lemma gr_insert_environment e : gr (insert_environment e).
Proof. unfold insert_environment. gr_statement. Qed.
Lemma gr_insert_run id r : gr (insert_run id r).
Proof. unfold insert_run. gr_statement. Qed.
Lemma gr_update_tunnel id g f : gr (update_tunnel id g f).
Proof. unfold update_tunnel. gr_statement. Qed.
Lemma gr_insert_tunnel id t : gr (insert_tunnel id t).
Proof. unfold insert_tunnel. gr_statement. Qed.
Lemma gr_insertEvent e : gr (insertEventTx e).
Proof. unfold insertEventTx. gr_statement. Qed.
Lemma gr_nextRevision : gr nextRevision.
Proof. unfold nextRevision. gr_statement. Qed.
Lemma gr_close_tunnels due s r ty c n : gr (close_tunnels due s r ty c n).
Proof. unfold close_tunnels. gr_statement. Qed.
Lemma gr_RevokeActive `{SqlTime} ids r c n : gr (RevokeActiveForAllocationsTx ids r c n).
Proof. unfold RevokeActiveForAllocationsTx. case_match; [by apply keeps_ret, grant_le_refl|apply gr_close_tunnels]. Qed.
Lemma gr_lock_session id g : gr (lock_session id g).
Proof. unfold lock_session. gr_statement. Qed.
Lemma gr_requireActiveNode n : gr (requireActiveNode n).
Proof. unfold requireActiveNode. gr_statement. Qed.

(** *** Revisions, revocation, issue *)
Lemma set_cursors_access db x :
  (set_cursors db x).(allocation_access_grants) = db.(allocation_access_grants) /\
  (set_cursors db x).(node_access_grant_cursors) = x /\
  (set_cursors db x).(allocations) = db.(allocations) /\ (set_cursors db x).(nodes) = db.(nodes).
Proof. by destruct db. Qed.
Lemma set_grants_access db x :
  (set_grants db x).(allocation_access_grants) = x /\
  (set_grants db x).(node_access_grant_cursors) = db.(node_access_grant_cursors) /\
  (set_grants db x).(allocations) = db.(allocations).
Proof. by destruct db. Qed.
Lemma NextRevision_Ok db db' n r :
  NextAccessGrantRevision n db = (db', Ok r) ->
  r = access_cursor db n + 1 /\ db' = set_cursors db (<[n := r]> db.(node_access_grant_cursors)).
Proof.
  unfold NextAccessGrantRevision, access_cursor. repeat case_match; intros; simplify_eq; split; auto; lia.
Qed.
Lemma NextRevision_Err db db' n e : NextAccessGrantRevision n db = (db', Err e) -> db' = db.
Proof. unfold NextAccessGrantRevision. by repeat case_match; intros; simplify_eq. Qed.

(** The rows of one node written under its next revision. *)
Lemma grants_moved db n x :
  grant_inv db ->
  let r := access_cursor db n + 1 in
  let db' := set_grants (set_cursors db (<[n := r]> db.(node_access_grant_cursors))) x in
  (forall id g, db.(allocation_access_grants) !! id = Some g ->
     x !! id = Some g \/ (g.(g_NodeID) = n /\ x !! id = Some (revoke_grant r g))) ->
  (forall id g, x !! id = Some g -> is_Some (db.(allocation_access_grants) !! id) \/
     (g.(g_NodeID) = n /\ g.(g_Revision) = r /\ 0 < r /\
      exists a, db.(allocations) !! g.(g_AllocationID) = Some a /\ a.(a_NodeID) = n)) ->
  grant_inv db' /\ grant_le db db'.
Proof.
  intros [P B F] r db' Hold Hnew.
  destruct (set_grants_access (set_cursors db (<[n := r]> db.(node_access_grant_cursors))) x) as (E1 & E2 & E3).
  destruct (set_cursors_access db (<[n := r]> db.(node_access_grant_cursors))) as (_ & E2' & E3' & _).
  fold db' in E1, E2, E3. rewrite E2' in E2. rewrite E3' in E3.
  assert (Hc : forall m, access_cursor db' m = if decide (m = n) then r else access_cursor db m).
  { intros m. unfold access_cursor. rewrite E2. by destruct (decide (m = n)) as [-> |]; simplify_map_eq. }
  assert (Hle : forall m, access_cursor db m <= access_cursor db' m).
  { intros m. rewrite Hc. case_decide as Hm; [rewrite Hm|]; unfold r; lia. }
  split; split.
  - intros m. specialize (Hle m). specialize (P m). lia.
  - intros id g Hg. rewrite E1 in Hg. destruct (Hnew _ _ Hg) as [[g0 Hg0] | (En & Er & Hr & _)];
      [|rewrite Er, En, Hc; case_decide; [lia|done]].
    destruct (B _ _ Hg0) as [? ?]. destruct (Hold _ _ Hg0) as [Hx | [En Hx]]; rewrite Hg in Hx; simplify_eq;
      [specialize (Hle (g_NodeID g0)); lia|]. simpl. rewrite Hc. case_decide; [lia|done].
  - intros id g Hg. rewrite E1 in Hg. rewrite E3. destruct (Hnew _ _ Hg) as [[g0 Hg0] | (En & _ & _ & a & Ha & Ea)];
      [|exists a; split; [done|congruence]].
    destruct (F _ _ Hg0) as (a & Ha & Ea). destruct (Hold _ _ Hg0) as [Hx | [En Hx]]; rewrite Hg in Hx; simplify_eq; eauto.
  - done.
  - intros id a Ha. rewrite E3. eauto.
  - intros id g Hg. rewrite E1. destruct (Hold _ _ Hg) as [Hx | [En Hx]]; eexists; (split; [exact Hx|]); [by left|].
    right. split; [by repeat split|]. simpl. destruct (B _ _ Hg). rewrite En in *. unfold r in *. repeat split; lia.
  - intros id g Hn Hg. rewrite E1 in Hg. destruct (Hnew _ _ Hg) as [[g0 Hg0] | (En & Er & _)]; [congruence|].
    rewrite En, Er. unfold r in *. lia.
Qed.
Lemma open_interactive_allocation id g : open_interactive id g = true -> g.(g_AllocationID) = id.
Proof. unfold open_interactive. intros H. by b2p. Qed.
Lemma gr_RevokeInteractive id : gr (RevokeInteractiveAccessGrants id).
Proof.
  intros db Hi. unfold RevokeInteractiveAccessGrants. unfold mbind, tx_bind, gets.
  destruct (List.filter _ _) as [|[id0 g0] rest] eqn:El; [by split; [|apply grant_le_refl]|].
  assert (H0 : db.(allocation_access_grants) !! id0 = Some g0 /\ open_interactive id g0 = true).
  { assert (Hin : (id0, g0) ∈ (id0, g0) :: rest) by left. rewrite <- El in Hin.
    apply list_elem_of_In, List.filter_In in Hin as [Hin Ho]. split; [|done].
    by apply elem_of_map_to_list, list_elem_of_In. }
  destruct H0 as [Hg0 Ho0]. destruct (NextAccessGrantRevision (g_NodeID g0) db) as [d [r|e]] eqn:En;
    [|apply NextRevision_Err in En; subst; by split; [|apply grant_le_refl]].
  apply NextRevision_Ok in En as [Er ->]. unfold modify. simpl fst.
  destruct (set_cursors_access db (<[g_NodeID g0 := r]> db.(node_access_grant_cursors))) as (E1 & _).
  rewrite E1, Er. apply grants_moved; [done|..].
  - intros i g Hg. rewrite lookup_fmap, Hg. simpl. destruct (open_interactive id g) eqn:Ho; [right|by left].
    split; [|done]. destruct (gi_alloc _ Hi _ _ Hg) as (a & Ha & <-).
    destruct (gi_alloc _ Hi _ _ Hg0) as (a0 & Ha0 & <-).
    rewrite (open_interactive_allocation _ _ Ho) in Ha. rewrite (open_interactive_allocation _ _ Ho0) in Ha0. congruence.
  - intros i g Hg. rewrite lookup_fmap in Hg. left.
    destruct (db.(allocation_access_grants) !! i); [eauto|done].
Qed.
Lemma gr_plain {A} (m : Tx A) :
  plain m -> (forall db db' a, grant_inv db -> withTx m db = (db', Ok a) -> grant_inv db' /\ grant_le db db') -> gr (withTx m).
Proof.
  intros Hp Hm db Hi. destruct (withTx_plain m db Hp) as [(db' & a & _ & E) | (e & ->)]; [rewrite E; by eapply Hm|].
  by split; [|apply grant_le_refl].
Qed.
Lemma issue_moved db id a n g grantID :
  grant_inv db -> db.(allocations) !! id = Some a -> a.(a_NodeID) = n -> g.(g_AllocationID) = id -> g.(g_NodeID) = n ->
  g.(g_Revision) = access_cursor db n + 1 -> 0 < g.(g_Revision) ->
  db.(allocation_access_grants) !! grantID = None ->
  let db' := set_grants (set_cursors db (<[n := access_cursor db n + 1]> db.(node_access_grant_cursors)))
               (<[grantID := g]> db.(allocation_access_grants)) in
  grant_inv db' /\ grant_le db db'.
Proof.
  intros Hi Ha En Eid Eg Er Hpos Hnone. apply grants_moved; [done|..].
  - intros i g0 Hg0. left. rewrite lookup_insert_ne; [done|congruence].
  - intros i g0 Hg0. destruct (decide (i = grantID)) as [-> |Hne]; simplify_map_eq; [right|left; eauto].
    repeat split; try done; [lia|eauto].
Qed.
Lemma Issue_Ok `{SqlTime} id purpose ttl now grantID tokenHash db db' g :
  grant_inv db ->
  IssueAllocationAccessGrant id purpose ttl now grantID tokenHash db = (db', Ok g) ->
  grant_inv db' /\ grant_le db db' /\
  db.(allocation_access_grants) !! grantID = None /\ db'.(allocation_access_grants) !! grantID = Some g /\
  g.(g_AllocationID) = TrimSpace id /\ g.(g_Purpose) = purpose /\ g.(g_TokenHash) = tokenHash /\ g.(g_Revoked) = false.
Proof.
  intros Hi Hx. unfold IssueAllocationAccessGrant in Hx. apply withTx_Ok in Hx. tx_inv.
  destruct (db.(allocations) !! TrimSpace id) as [a|] eqn:Ha; [|done]. simpl in Hx.
  destruct (db.(nodes) !! a_NodeID a) as [n|] eqn:Hn; [|done]. simpl in Hx. tx_inv.
  destruct (db.(allocations) !! id) as [a'|] eqn:Ha'; [|done]. tx_inv.
  match goal with Hp : _ db = (?d, Ok ?t) |- _ =>
    assert (d = db) as -> by (clear - Hp; repeat case_match; tx_inv; congruence); clear Hp end.
  match goal with Hr : NextAccessGrantRevision _ _ = _ |- _ => apply NextRevision_Ok in Hr as [-> ->] end.
  unfold modify in *. simplify_eq.
  match goal with |- context [<[grantID := ?g0]> _] => set (g := g0) in * end.
  destruct (set_cursors_access db (<[a_NodeID a := access_cursor db (a_NodeID a) + 1]> db.(node_access_grant_cursors)))
    as (E1 & _). rewrite E1 in *.
  destruct (db.(allocation_access_grants) !! grantID) eqn:Hg; [done|].
  match goal with Hb : check_grant _ = true |- _ => unfold check_grant in Hb; simpl in Hb end.
  destruct (issue_moved db (TrimSpace id) a (a_NodeID a) g grantID) as [? ?]; try done; [simpl; b2p; lia|].
  destruct (set_grants_access (set_cursors db (<[a_NodeID a:=access_cursor db (a_NodeID a) + 1]> db.(node_access_grant_cursors)))
    (<[grantID := g]> db.(allocation_access_grants))) as (E2 & _).
  rewrite E2, lookup_insert_eq. done.
Qed.
Lemma gr_IssueGrant `{SqlTime} id purpose ttl now grantID tokenHash :
  gr (IssueAllocationAccessGrant id purpose ttl now grantID tokenHash).
Proof.
  apply gr_plain; [plain_tac; apply plain_Revision|]. intros db db' g Hi Hx.
  apply Issue_Ok in Hx; [|done]. tauto.
Qed.

(** *** Every transaction *)
Create HintDb gr.
#[export] Hint Resolve gr_RevokeInteractive gr_insert_allocation gr_update_run gr_update_queue gr_delete_queue
  gr_ScheduleReconcile gr_ClaimDue gr_audit gr_insert_environment gr_insert_run gr_update_tunnel gr_insert_tunnel
  gr_insertEvent gr_close_tunnels gr_RevokeActive gr_nextRevision gr_lock_session gr_requireActiveNode gr_IssueGrant : gr.
Ltac gr_auto :=
  repeat first
    [ match goal with |- forall _, _ => intro end
    | solve [eauto 2 with gr nocore]
    | apply (keeps_bind _ _ grant_le_trans)
    | apply (keeps_ret _ _ grant_le_refl) | apply (keeps_fail _ _ grant_le_refl)
    | apply (keeps_gets _ _ grant_le_refl) | apply (keeps_lift _ _ grant_le_refl)
    | apply (keeps_guard _ _ grant_le_refl) | apply (keeps_when _ _ grant_le_refl)
    | apply keeps_wrap | apply keeps_on_error
    | apply (keeps_for _ _ grant_le_refl grant_le_trans)
    | apply (keeps_withTx _ _ grant_le_refl) | apply (keeps_withTx_admin _ _ grant_le_refl)
    | apply gr_update_allocation; intros ?; reflexivity
    | match goal with |- gr (modify _) => apply gr_same; intros ?; simpl; repeat case_match;
         first [apply same_access_refl | apply same_access_setters] end
    | match goal with |- gr (fun _ => _) => gr_statement end
    | case_match ].
Section steps.
Context `{Fresh : Admissible} `{GoRuntime} `{SqlTime}.
Context (ToASCII : string -> result string) (NewSHA1 : string -> string).
Context (sha256_hex encryptNodeToken : string -> string) (decryptNodeToken : string -> result string).
Notation store_step := (store_step ToASCII NewSHA1 sha256_hex encryptNodeToken decryptNodeToken).

Lemma tunnel_step_gr db db' :
  tunnel_step sha256_hex encryptNodeToken decryptNodeToken db db' -> grant_inv db -> grant_inv db' /\ grant_le db db'.
Proof.
  intros Hs Hi. assert (Hf : forall A (m : Tx A), gr m -> grant_inv (fst (m db)) /\ grant_le db (fst (m db))) by auto.
  destruct Hs; apply Hf;
    unfold Create, Renew, Revoke, ReportStatus, reportNodeStatus, updateStatus, ReportPeerEvent, getWithTokens,
      ValidatePeer, tunnel.List, ListEvents, ResolveRelayTarget, WatchNode_turn, lookupAllocation, returning,
      getWithTokens, expireDue, close_tunnels; gr_auto.
Qed.
Lemma gr_report_one nodeID now locked obs : gr (report_one nodeID now locked obs).
Proof.
  unfold report_one, persist_observation, terminate_allocation, deleteRunSecretReferences. gr_auto.
Qed.
Lemma gr_report_all nodeID now locked l : gr (report_all nodeID now locked l).
Proof.
  revert locked. induction l as [|obs l IH]; simpl; intros locked; [by apply keeps_ret, grant_le_refl|].
  apply (keeps_bind _ _ grant_le_trans); [apply gr_report_one|auto].
Qed.
#[local] Hint Resolve gr_report_one gr_report_all : gr.
Lemma store_step_gr db db' : store_step db db' -> grant_inv db -> grant_inv db' /\ grant_le db db'.
Proof.
  intros Hs Hi. assert (Hf : forall A (m : Tx A), gr m -> grant_inv (fst (m db)) /\ grant_le db (fst (m db))) by auto.
  destruct Hs; [..|by eapply tunnel_step_gr]; apply Hf;
    unfold AdmitRun, AdmitCandidate, bind_run, LockQuotaPolicy, LockQuotaRows, activeNamespaceAllocationUsage,
      activeCandidateAllocationUsage, insertQuotaAdmissionRejectedEvent, insertRunSecretReferences,
      InsertCapabilityRequirements, ReconcileNodeInventory, ReconcileNodeUnavailable, RenewReconcileClaim,
      BatchReportAllocationLifecycle,
      ScheduleClaimedReconcile, MarkAllocationCreateFailed, RequireReconcileClaim, CancelRun,
      LoadStartAllocation, CompleteAllocationStart, CompleteAllocationRelease, publish_snapshot, release_queue,
      CompleteAllocationReleaseAcknowledgement, MarkRootfsSnapshotFailed,
      BatchReportAllocationCapabilityConditions, ReplaceCapabilityConditions, ForceAllocationLifecycleRetry,
      FailAllocationLifecycleRetry, ClearAllocationLifecycleRetry, lockLifecycleRetry, loadLifecycleRetry,
      failRunLifecycleRetry, deleteLifecycleRetry, requireNoActiveAllocationCleanupState,
      requireRunConvergedForClear, audit, deleteRunSecretReferences, deleteAllocationRunSecretReferences; gr_auto.
Qed.
End steps.
