(* ===== verification/AccessGrantSafety.v ===== *)
(** * Access grants: delivery and decision

    The node's cache ([cache_wf], what [Apply] does), the stream that carries the
    grants of the store to one node as a step relation ([net_step]) with its
    invariant, and what follows: a node admits only what the store has granted,
    decides as the store does once it has caught up, and can always catch up. *)
From S2P Require Import Prelude Proto Resource Allocation Capability CapabilityFacts Node Placement Execution Store Reconcile RunStore StoreFacts Admission AdmissionFacts Retention RetentionFacts Tunnel TunnelFacts Safety AccessGrant AccessGrantFacts.
Import retention.

(** ** The cache *)
(** Every entry is indexed under its own grant and nothing else. *)
Record cache_wf (c : AccessGrantCache) : Prop := {
  cw_token h g : c.(byToken) !! h = Some g ->
    h <> "" /\ g.(ng_GrantID) <> "" /\ TrimSpace g.(ng_GrantID) = g.(ng_GrantID) /\ c.(byGrant) !! g.(ng_GrantID) = Some h;
  cw_grant id h : c.(byGrant) !! id = Some h -> exists g, c.(byToken) !! h = Some g /\ g.(ng_GrantID) = id }.

Lemma cw_unique c h h' g g' :
  cache_wf c -> c.(byToken) !! h = Some g -> c.(byToken) !! h' = Some g' -> g.(ng_GrantID) = g'.(ng_GrantID) -> h = h'.
Proof.
  intros W Hg Hg' E. destruct (cw_token _ W _ _ Hg) as (_ & _ & _ & H1). destruct (cw_token _ W _ _ Hg') as (_ & _ & _ & H2).
  rewrite E in H1. congruence.
Qed.
Lemma wf_new : cache_wf NewAccessGrantCache.
Proof. split; intros ? ?; simpl; by rewrite lookup_empty. Qed.

Lemma drop_expired_spec now c h g :
  cache_wf c -> c.(byToken) !! h = Some g ->
  let c' := drop_expired now c (h, g) in
  cache_wf c' /\ c'.(changed) = c.(changed) /\
  c'.(byToken) = if grant_alive now g then c.(byToken) else delete h c.(byToken).
Proof.
  intros W Hg. unfold drop_expired. destruct (grant_alive now g) eqn:Ea; [done|]. cbv zeta. simpl.
  split; [|done]. destruct (cw_token _ W _ _ Hg) as (Hh0 & Hne & Ht & Hb). rewrite Ht.
  rewrite (proj2 (String.eqb_neq _ _) Hne), bool_decide_true by done. simpl. split; simpl.
  - intros h' g' [Hh Hg']%lookup_delete_Some. destruct (cw_token _ W _ _ Hg') as (Hh0' & Hne' & Ht' & Hb').
    do 3 (split; [done|]). rewrite lookup_delete_ne; [done|]. intros E. by destruct Hh; eapply cw_unique.
  - intros id h' [Hi Hb']%lookup_delete_Some. destruct (cw_grant _ W _ _ Hb') as (g' & Hg' & <-).
    exists g'. split; [|done]. rewrite lookup_delete_ne; [done|]. intros <-. congruence.
Qed.
Lemma drop_all_spec now l c :
  cache_wf c -> NoDup l.*1 -> (forall h g, (h, g) ∈ l -> c.(byToken) !! h = Some g) ->
  let c' := fold_left (drop_expired now) l c in
  cache_wf c' /\ c'.(changed) = c.(changed) /\
  forall h, c'.(byToken) !! h =
    match c.(byToken) !! h with
    | Some g => if bool_decide ((h, g) ∈ l) && negb (grant_alive now g) then None else Some g
    | None => None
    end.
Proof.
  revert c. induction l as [|[h0 g0] l IH]; intros c W Hnd Hl; cbn zeta.
  { split; [done|]. split; [done|]. intros h. simpl. by destruct (c.(byToken) !! h). }
  simpl in Hnd. apply NoDup_cons in Hnd as [Hn Hnd].
  destruct (drop_expired_spec now c h0 g0 W) as (W' & Ec & Eb); [apply Hl; left|].
  assert (Hni : forall g, (h0, g) ∉ l) by (intros g Hin; apply Hn; by apply (list_elem_of_fmap_2 fst _ (h0, g))).
  change (fold_left (drop_expired now) ((h0, g0) :: l) c)
    with (fold_left (drop_expired now) l (drop_expired now c (h0, g0))).
  destruct (IH (drop_expired now c (h0, g0)) W' Hnd) as (W2 & Ec2 & Eb2).
  { intros h g Hin. rewrite Eb. assert (Hh : c.(byToken) !! h = Some g) by (apply Hl; by right).
    destruct (grant_alive now g0); [done|]. rewrite lookup_delete_ne; [done|]. intros <-. by apply (Hni g). }
  split; [done|]. split; [by rewrite Ec2|]. intros h. rewrite Eb2, Eb.
  destruct (decide (h = h0)) as [-> |Hh].
  - rewrite (Hl h0 g0) by left. rewrite (bool_decide_true ((h0, g0) ∈ (h0, g0) :: l)) by left. simpl.
    destruct (grant_alive now g0) eqn:Ea; simpl.
    + rewrite (Hl h0 g0) by left. by rewrite Ea, andb_false_r.
    + by rewrite lookup_delete_eq.
  - assert (Ebd : (if grant_alive now g0 then c.(byToken) else delete h0 c.(byToken)) !! h = c.(byToken) !! h)
      by (destruct (grant_alive now g0); [done|by rewrite lookup_delete_ne]).
    rewrite Ebd. destruct (c.(byToken) !! h) as [g|]; [|done].
    rewrite (bool_decide_ext ((h, g) ∈ (h0, g0) :: l) ((h, g) ∈ l)); [done|].
    rewrite elem_of_cons. naive_solver.
Qed.
Lemma forget_expired_spec now c :
  cache_wf c ->
  let c' := forget_expired now c in
  cache_wf c' /\ c'.(changed) = c.(changed) /\
  forall h, c'.(byToken) !! h =
    match c.(byToken) !! h with Some g => if grant_alive now g then Some g else None | None => None end.
Proof.
  intros W. destruct (drop_all_spec now (map_to_list c.(byToken)) c W) as (W' & Ec & Eb).
  - apply NoDup_fst_map_to_list.
  - intros h g. by rewrite elem_of_map_to_list.
  - split; [done|]. split; [done|]. intros h. unfold forget_expired. rewrite Eb.
    destruct (c.(byToken) !! h) as [g|] eqn:Hg; [|done].
    rewrite bool_decide_true by by apply elem_of_map_to_list. by destruct (grant_alive now g).
Qed.

Section cache.
Context `{GoRuntime}.
Definition norm_hash (h : string) : string := ToLower (TrimSpace h).
(** A grant as a message should carry it. *)
Definition well_formed (g : NodeGrant) : Prop :=
  TrimSpace g.(ng_GrantID) = g.(ng_GrantID) /\ g.(ng_GrantID) <> "" /\
  TrimSpace g.(ng_AllocationID) <> "" /\ 0 < g.(ng_Revision) /\
  norm_hash g.(ng_ValidationTokenHash) = g.(ng_ValidationTokenHash) /\ g.(ng_ValidationTokenHash) <> "".
(** Its identifier and its token name the same entry, if any. *)
Definition agrees_with (c : AccessGrantCache) (g : NodeGrant) : Prop :=
  (forall g', c.(byToken) !! g.(ng_ValidationTokenHash) = Some g' -> g'.(ng_GrantID) = g.(ng_GrantID)) /\
  (forall h, c.(byGrant) !! g.(ng_GrantID) = Some h -> h = g.(ng_ValidationTokenHash)).
Definition newer (c : AccessGrantCache) (g : NodeGrant) : bool :=
  match c.(byToken) !! g.(ng_ValidationTokenHash) with
  | Some p => p.(ng_Revision) <? g.(ng_Revision)
  | None => true
  end.

Lemma apply_grant_spec c applied g :
  cache_wf c -> well_formed g -> agrees_with c g ->
  apply_grant (c, applied) (Some g) =
    if newer c g
    then (mkCache (<[g.(ng_ValidationTokenHash) := g]> c.(byToken))
            (<[g.(ng_GrantID) := g.(ng_ValidationTokenHash)]> c.(byGrant)) c.(changed), true)
    else (c, applied).
Proof.
  intros W (Hid & Hidne & Hal & Hrev & Hh & Hhne) [At Ag]. unfold apply_grant, newer.
  rewrite (proj2 (String.eqb_neq _ _) Hal), (proj2 (Z.leb_gt _ _) Hrev). simpl orb. cbv beta iota.
  fold (norm_hash (ng_ValidationTokenHash g)). rewrite Hh, Hid.
  rewrite (proj2 (String.eqb_neq _ _) Hhne), (proj2 (String.eqb_neq _ _) Hidne). cbv beta iota zeta.
  destruct (c.(byGrant) !! ng_GrantID g) as [h|] eqn:Hg; simpl.
  - pose proof (Ag _ eq_refl) as ->. destruct (cw_grant _ W _ _ Hg) as (p & Hp & _). rewrite Hp.
    rewrite (proj2 (String.eqb_neq _ _) Hhne), String.eqb_refl, andb_false_r.
    rewrite Z.ltb_antisym. by destruct (_ <=? _).
  - destruct (c.(byToken) !! ng_ValidationTokenHash g) as [p|] eqn:Hp.
    { destruct (cw_token _ W _ _ Hp) as (_ & _ & _ & Hb). rewrite (At _ eq_refl) in Hb. congruence. }
    destruct (c.(byToken) !! "") as [q|] eqn:Hq; [by destruct (cw_token _ W _ _ Hq)|done].
Qed.
Lemma apply_grant_wf c g : cache_wf c -> well_formed g -> agrees_with c g -> cache_wf (fst (apply_grant (c, true) (Some g))).
Proof.
  intros W Hwf Ha. rewrite apply_grant_spec by done. destruct (newer c g); [|done].
  destruct Hwf as (Hid & Hidne & _ & _ & _ & Hhne), Ha as [At Ag]. split; simpl.
  - intros h g' Hg'. destruct (decide (h = ng_ValidationTokenHash g)) as [-> |Hh]; simplify_map_eq; [done|].
    destruct (cw_token _ W _ _ Hg') as (? & ? & ? & Hb). do 3 (split; [done|]).
    rewrite lookup_insert_ne; [done|]. intros E. apply Hh. apply Ag. by rewrite E.
  - intros id h Hb. destruct (decide (id = ng_GrantID g)) as [-> |Hne]; simplify_map_eq; [by eexists|].
    destruct (cw_grant _ W _ _ Hb) as (g' & Hg' & Eid). exists g'. split; [|done].
    rewrite lookup_insert_ne; [done|]. intros <-. rewrite (At _ Hg') in Eid. congruence.
Qed.

(** A batch whose grants are consistent with the cache and with each other: the
    cache keeps the newest version of each. *)
Section batch.
Context (P : NodeGrant -> Prop).
Context (P_wf : forall g, P g -> well_formed g).
Context (P_id : forall g g', P g -> P g' -> g.(ng_GrantID) = g'.(ng_GrantID) <->
                             g.(ng_ValidationTokenHash) = g'.(ng_ValidationTokenHash)).
Definition entries (c : AccessGrantCache) : Prop :=
  forall h g, c.(byToken) !! h = Some g -> P g /\ h = g.(ng_ValidationTokenHash).
Definition cache_le (c c' : AccessGrantCache) : Prop :=
  forall h g, c.(byToken) !! h = Some g ->
    exists g', c'.(byToken) !! h = Some g' /\ g.(ng_Revision) <= g'.(ng_Revision).
Definition holds (c : AccessGrantCache) (g : NodeGrant) : Prop :=
  exists g', c.(byToken) !! g.(ng_ValidationTokenHash) = Some g' /\ g.(ng_Revision) <= g'.(ng_Revision).
Lemma cache_le_refl c : cache_le c c.
Proof. intros h g Hg. exists g. split; [done|lia]. Qed.
Lemma cache_le_trans c1 c2 c3 : cache_le c1 c2 -> cache_le c2 c3 -> cache_le c1 c3.
Proof.
  intros H1 H2 h g (g2 & Hg2 & E)%H1. destruct (H2 _ _ Hg2) as (g3 & ? & ?). exists g3. split; [done|lia].
Qed.
Lemma entries_agree c g : cache_wf c -> entries c -> P g -> agrees_with c g.
Proof.
  intros W He Hg. split.
  - intros g' Hg'. destruct (He _ _ Hg') as [Hp Eh]. apply (proj2 (P_id _ _ Hp Hg)). done.
  - intros h Hb. destruct (cw_grant _ W _ _ Hb) as (g' & Hg' & Eid). destruct (He _ _ Hg') as [Hp ->].
    by apply (proj1 (P_id _ _ Hp Hg)).
Qed.
Lemma apply_one c b g :
  cache_wf c -> entries c -> P g ->
  exists c' b', apply_grant (c, b) (Some g) = (c', b') /\ cache_wf c' /\ entries c' /\ cache_le c c' /\ holds c' g /\
    c'.(changed) = c.(changed).
Proof.
  intros W He Hg. pose proof (entries_agree _ _ W He Hg) as Ha. pose proof (apply_grant_wf _ _ W (P_wf _ Hg) Ha) as W'.
  rewrite apply_grant_spec in * by auto. unfold newer in *.
  destruct (c.(byToken) !! ng_ValidationTokenHash g) as [p|] eqn:Hp.
  2: { do 2 eexists. split; [done|]. split; [done|]. split; [|split; [|split; [|done]]].
       - intros h g' Hg'. destruct (decide (h = ng_ValidationTokenHash g)) as [-> |]; simplify_map_eq; eauto.
       - intros h g' Hg'. exists g'. split; [|lia]. simpl. rewrite lookup_insert_ne; [done|congruence].
       - exists g. simpl. rewrite lookup_insert_eq. split; [done|lia]. }
  destruct (p.(ng_Revision) <? g.(ng_Revision)) eqn:El; do 2 eexists; (split; [done|]); (split; [done|]).
  - apply Z.ltb_lt in El. split; [|split; [|split; [|done]]].
    + intros h g' Hg'. destruct (decide (h = ng_ValidationTokenHash g)) as [-> |]; simplify_map_eq; eauto.
    + intros h g' Hg'. simpl. destruct (decide (h = ng_ValidationTokenHash g)) as [-> |Hh].
      * exists g. rewrite lookup_insert_eq. split; [done|]. simplify_eq. lia.
      * exists g'. rewrite lookup_insert_ne by done. split; [done|lia].
    + exists g. simpl. rewrite lookup_insert_eq. split; [done|lia].
  - apply Z.ltb_ge in El. split; [done|]. split; [apply cache_le_refl|]. split; [|done]. exists p. done.
Qed.
Lemma apply_all l c b :
  cache_wf c -> entries c -> (forall g, Some g ∈ l -> P g) ->
  exists c' b', fold_left apply_grant l (c, b) = (c', b') /\ cache_wf c' /\ entries c' /\ cache_le c c' /\
    forall g, Some g ∈ l -> holds c' g.
Proof.
  revert c b. induction l as [|[g|] l IH]; intros c b W He Hl.
  - exists c, b. do 3 (split; [done|]). split; [apply cache_le_refl|]. by intros g ?%not_elem_of_nil.
  - destruct (apply_one c b g W He) as (c1 & b1 & E & W1 & He1 & L1 & H1 & _); [apply Hl; left|].
    destruct (IH c1 b1 W1 He1) as (c2 & b2 & E2 & W2 & He2 & L2 & H2); [intros; apply Hl; by right|].
    exists c2, b2. cbn [fold_left]. rewrite E. split; [done|]. do 2 (split; [done|]).
    split; [by eapply cache_le_trans|]. intros g' [[= ->]|Hin]%elem_of_cons; [|auto].
    destruct H1 as (p & Hp & Ep). destruct (L2 _ _ Hp) as (q & Hq & Eq). exists q. split; [done|lia].
  - destruct (IH c b W He) as (c2 & b2 & E2 & W2 & He2 & L2 & H2); [intros; apply Hl; by right|].
    exists c2, b2. do 4 (split; [done|]). intros g' [?|Hin]%elem_of_cons; [done|auto].
Qed.
Lemma Apply_spec now l c :
  cache_wf c -> entries c -> (forall g, Some g ∈ l -> P g) ->
  let c' := Apply now l c in
  cache_wf c' /\ entries c' /\ (forall g, Some g ∈ l -> holds c' g) /\
  forall h g, c.(byToken) !! h = Some g -> grant_alive now g = true ->
    exists g', c'.(byToken) !! h = Some g' /\ g.(ng_Revision) <= g'.(ng_Revision).
Proof.
  intros W He Hl. destruct (forget_expired_spec now c W) as (W1 & _ & Eb).
  assert (He1 : entries (forget_expired now c)).
  { intros h g Hg. rewrite Eb in Hg. destruct (c.(byToken) !! h) as [g'|] eqn:Hg'; [|done].
    destruct (grant_alive now g'); simplify_eq. by apply He. }
  destruct (apply_all l (forget_expired now c) false W1 He1 Hl) as (c2 & b2 & E & W2 & He2 & L2 & H2).
  cbv zeta. unfold Apply. rewrite E.
  assert (Hall : cache_wf c2 /\ entries c2 /\ (forall g, Some g ∈ l -> holds c2 g) /\
    forall h g, c.(byToken) !! h = Some g -> grant_alive now g = true ->
      exists g', c2.(byToken) !! h = Some g' /\ g.(ng_Revision) <= g'.(ng_Revision)).
  { do 3 (split; [done|]). intros h g Hg Ha. apply L2. by rewrite Eb, Hg, Ha. }
  destruct b2; [|done]. destruct Hall as ([Wt Wg] & Hrest). split; [by split|exact Hrest].
Qed.
End batch.
End cache.

(** ** Retention keeps what the store promises about grants *)
Notation grants_kept := (keeps grant_inv (fun _ _ : DB => True)).
Lemma kept {A} (m : Tx A) : (forall db, grant_inv db -> grant_inv (fst (m db))) -> grants_kept m.
Proof. intros Hm db Hi. split; [by apply Hm|done]. Qed.
Lemma grant_inv_tables db db' :
  db'.(allocations) = db.(allocations) -> db'.(node_access_grant_cursors) = db.(node_access_grant_cursors) ->
  db'.(allocation_access_grants) ⊆ db.(allocation_access_grants) -> grant_inv db -> grant_inv db'.
Proof.
  intros Ea Ec Hs [C B A]. assert (Hc : forall i, access_cursor db' i = access_cursor db i) by (intros; unfold access_cursor; by rewrite Ec).
  split; intros *; rewrite ?Hc; [done|..]; intros Hg; eapply lookup_weaken in Hg; [|exact Hs| |exact Hs].
  - by apply (B id).
  - rewrite Ea. by apply (A id).
Qed.
Lemma without_subseteq {A} (p : string -> A -> bool) m : without p m ⊆ m.
Proof. apply map_subseteq_spec. intros i x. apply without_sub. Qed.
Lemma grant_inv_delete_runs ids db : grant_inv db -> grant_inv (delete_runs ids db).
Proof.
  intros [C B A]. pose proof (delete_runs_deleted ids db) as [_ Ea _ Eg _].
  assert (Hc : forall i, access_cursor (delete_runs ids db) i = access_cursor db i) by (by destruct db).
  split; intros *; rewrite ?Hc, ?Eg; [done|..]; rewrite without_lookup;
    (destruct (allocation_access_grants db !! id) as [g'|] eqn:Hg; [|done]); simpl;
    destruct (alloc_gone ids db (g_AllocationID g')) eqn:E; intros [= <-]; [by apply (B id)|].
  destruct (A _ _ Hg) as (a & Ha & En). exists a. split; [|done]. rewrite Ea, without_lookup, Ha. simpl.
  unfold alloc_gone in E. rewrite Ha in E. by rewrite E.
Qed.
Lemma Cleanup_grant_inv `{SqlTime} enabled cfg now locked clock db :
  grant_inv db -> grant_inv (fst (Controller_Cleanup enabled cfg now locked clock db)).
Proof.
  intros Hi. assert (Hk : grants_kept (Controller_Cleanup enabled cfg now locked clock)); [|by apply Hk].
  assert (Ht : forall a b c : DB, True -> True -> True) by done.
  unfold Controller_Cleanup, Cleanup. cbv zeta. case_match; [by apply kept|]. apply keeps_withTx_admin; [done|].
  case_match; [by apply kept|].
  apply keeps_bind; [done|apply kept; intros d; apply grant_inv_tables; by destruct d|intros ?].
  apply keeps_bind; [done|apply kept; intros d; apply grant_inv_tables; by destruct d|intros ?].
  apply keeps_bind; [done| |intros ?].
  { unfold deleteTerminalRuns. apply keeps_bind; [done|by apply kept|intros ids]. case_match; [by apply kept|].
    apply keeps_bind; [done|by apply kept|intros k]. apply keeps_bind; [done| |intros; by apply kept].
    apply kept. intros d. apply grant_inv_delete_runs. }
  apply keeps_bind; [done| |intros ?].
  { apply kept. intros d. apply grant_inv_tables; destruct d; [done|done|apply without_subseteq]. }
  apply keeps_bind; [done|apply kept; intros d; apply grant_inv_tables; by destruct d|intros; by apply kept].
Qed.

(** ** The stream to one node
    The store moves by its transactions, retention among them; the handler of an
    open stream reads the cursor ([lk_marked]) and then the rows at a clock of its
    own; responses are delivered in order, and a stream may break at any time,
    losing what is in flight.  [n_gone] remembers the rows that retention has
    deleted. *)
Record link := mkLink {
  lk_sent : Z; lk_marked : option DB; lk_flight : list WatchResponse; lk_after : Z }.
Record net := mkNet {
  n_db : DB; n_gone : gmap string GrantRow; n_cache : AccessGrantCache; n_revision : Z; n_link : option link;
  n_clock : time; n_server : time }.
(** The revision up to which the node has been told. *)
Definition delivered (s : net) : Z := match s.(n_link) with Some k => k.(lk_after) | None => s.(n_revision) end.
(** Every grant there ever was, in the store or deleted. *)
Definition issued (s : net) : gmap string GrantRow := s.(n_db).(allocation_access_grants) ∪ s.(n_gone).

Section net.
Context `{Fresh : Admissible} `{GoRuntime} `{SqlTime}.
Context (ToASCII : string -> result string) (NewSHA1 : string -> string).
Context (sha256_hex encryptNodeToken : string -> string) (decryptNodeToken : string -> result string).
Context (nodeID : string).
Notation store_step := (store_step ToASCII NewSHA1 sha256_hex encryptNodeToken decryptNodeToken).
Notation step := (step ToASCII NewSHA1 sha256_hex encryptNodeToken decryptNodeToken).
Notation n := (TrimSpace nodeID).

(** Identifiers and token hashes are drawn so that they are in the form the node
    expects and never collide, not even with those of deleted grants. *)
Record well_drawn (m : gmap string GrantRow) : Prop := {
  wd_row id g : m !! id = Some g ->
    TrimSpace id = id /\ id <> "" /\ TrimSpace g.(g_AllocationID) = g.(g_AllocationID) /\ g.(g_AllocationID) <> "" /\
    norm_hash g.(g_TokenHash) = g.(g_TokenHash) /\ g.(g_TokenHash) <> "";
  wd_hash id id' g g' : m !! id = Some g -> m !! id' = Some g' -> g.(g_TokenHash) = g'.(g_TokenHash) -> id = id' }.

Inductive net_watch (s : net) : net -> Prop :=
| net_open id :
    s.(n_link) = None -> watch_handler_open nodeID s.(n_db) = Ok id ->
    net_watch s (mkNet s.(n_db) s.(n_gone) s.(n_cache) s.(n_revision)
                   (Some (mkLink s.(n_revision) None [] s.(n_revision))) s.(n_clock) s.(n_server))
| net_mark k :
    s.(n_link) = Some k -> k.(lk_marked) = None ->
    net_watch s (mkNet s.(n_db) s.(n_gone) s.(n_cache) s.(n_revision)
                   (Some (mkLink k.(lk_sent) (Some s.(n_db)) k.(lk_flight) k.(lk_after))) s.(n_clock) s.(n_server))
| net_read k marked now :
    s.(n_link) = Some k -> k.(lk_marked) = Some marked -> now <= s.(n_server) ->
    net_watch s (mkNet s.(n_db) s.(n_gone) s.(n_cache) s.(n_revision)
      (match watch_handler_turn marked s.(n_db) n k.(lk_sent) now with
       | Some (Ok (resp, current)) => Some (mkLink current None (k.(lk_flight) ++ [resp]) k.(lk_after))
       | _ => Some (mkLink k.(lk_sent) None k.(lk_flight) k.(lk_after))
       end)
      s.(n_clock) s.(n_server))
| net_receive k resp rest :
    s.(n_link) = Some k -> k.(lk_flight) = resp :: rest ->
    net_watch s (let '(cache, after) := watch_receive s.(n_clock) resp (s.(n_cache), k.(lk_after)) in
                 mkNet s.(n_db) s.(n_gone) cache s.(n_revision) (Some (mkLink k.(lk_sent) k.(lk_marked) rest after))
                   s.(n_clock) s.(n_server)).
Inductive net_step (s : net) : net -> Prop :=
| net_transaction db' :
    store_step s.(n_db) db' -> db'.(allocation_access_grants) ##ₘ s.(n_gone) ->
    well_drawn (db'.(allocation_access_grants) ∪ s.(n_gone)) ->
    net_step s (mkNet db' s.(n_gone) s.(n_cache) s.(n_revision) s.(n_link) s.(n_clock) s.(n_server))
| net_cleanup enabled cfg now locked clock :
    sql_time now <= s.(n_server) ->
    net_step s (let db' := fst (Controller_Cleanup enabled cfg now locked clock s.(n_db)) in
                mkNet db' (s.(n_db).(allocation_access_grants) ∖ db'.(allocation_access_grants) ∪ s.(n_gone))
                  s.(n_cache) s.(n_revision) s.(n_link) s.(n_clock) s.(n_server))
| net_tick clock server :
    s.(n_clock) <= clock -> s.(n_server) <= server ->
    net_step s (mkNet s.(n_db) s.(n_gone) s.(n_cache) s.(n_revision) s.(n_link) clock server)
| net_watching s' : net_watch s s' -> net_step s s'
| net_break k :
    s.(n_link) = Some k ->
    net_step s (mkNet s.(n_db) s.(n_gone) s.(n_cache) (watch_return k.(lk_after) s.(n_revision)) None
                  s.(n_clock) s.(n_server)).
Definition net_start (db : DB) (clock server : time) : net := mkNet db ∅ NewAccessGrantCache 0 None clock server.

(** *** The ledger: every grant there ever was, and the cursors *)
Record ledger_inv (m : gmap string GrantRow) (c : string -> Z) : Prop := {
  li_cursor i : 0 <= c i;
  li_bound id g : m !! id = Some g -> 0 < g.(g_Revision) <= c g.(g_NodeID) }.
Definition ledger_le (m m' : gmap string GrantRow) : Prop :=
  forall id g, m !! id = Some g -> exists g', m' !! id = Some g' /\
    (g' = g \/ (same_grant g g' /\ g.(g_Revision) < g'.(g_Revision))).
(** The rows of this node published up to [b] were there before. *)
Definition older (b : Z) (live live' : gmap string GrantRow) : Prop :=
  forall id row, live' !! id = Some row -> row.(g_NodeID) = n -> row.(g_Revision) <= b -> live !! id = Some row.
Lemma ledger_le_refl m : ledger_le m m.
Proof. intros id g Hg. eauto. Qed.
Lemma grant_le_older db db' :
  grant_le db db' -> older (access_cursor db n) db.(allocation_access_grants) db'.(allocation_access_grants).
Proof.
  intros L id row Hr En Hb. destruct (db.(allocation_access_grants) !! id) as [row0|] eqn:Hold.
  - destruct (gl_row _ _ L _ _ Hold) as (row' & Hr' & Hl). simplify_eq.
    destruct Hl as [-> | ((_ & S2 & _) & _ & _ & K)]; [done|]. rewrite <- S2, En in K. lia.
  - pose proof (gl_new _ _ L _ _ Hold Hr) as K. rewrite En in K. lia.
Qed.
Lemma older_le b b' live live' : b <= b' -> older b' live live' -> older b live live'.
Proof. intros Hb Ho id row Hr En Hrow. apply Ho; [done..|lia]. Qed.
(** A transaction moves the ledger with the store. *)
Lemma ledger_step db db' gone :
  grant_inv db' -> grant_le db db' -> db'.(allocation_access_grants) ##ₘ gone ->
  ledger_inv (db.(allocation_access_grants) ∪ gone) (access_cursor db) ->
  ledger_inv (db'.(allocation_access_grants) ∪ gone) (access_cursor db') /\
  ledger_le (db.(allocation_access_grants) ∪ gone) (db'.(allocation_access_grants) ∪ gone).
Proof.
  intros Hi' L Hd [Hc Hb]. split; [split|].
  - apply (gi_cursor _ Hi').
  - intros id g Hg. apply lookup_union_Some in Hg as [Hg|Hg]; [by apply (gi_bound _ Hi' id)| |done].
    pose proof (gl_cursor _ _ L (g_NodeID g)). pose proof Hg as Hg0.
    destruct (db.(allocation_access_grants) !! id) as [g0|] eqn:Hold.
    + destruct (gl_row _ _ L _ _ Hold) as (g1 & Hg1 & _). exfalso. by eapply (proj1 (map_disjoint_spec _ _) Hd).
    + destruct (Hb id g); [by rewrite lookup_union_r|]. lia.
  - intros id g Hg. destruct (db.(allocation_access_grants) !! id) as [g0|] eqn:Hold.
    + rewrite (lookup_union_Some_l _ _ _ _ Hold) in Hg. injection Hg as ->.
      destruct (gl_row _ _ L _ _ Hold) as (g1 & Hg1 & Hl). exists g1. split; [by apply lookup_union_Some_l|].
      destruct Hl as [->|(? & _ & ? & _)]; auto.
    + rewrite lookup_union_r in Hg by done. exists g. split; [|by left].
      rewrite lookup_union_r; [done|]. by eapply map_disjoint_Some_r.
Qed.
(** A cleanup leaves the ledger as it is. *)
Lemma ledger_cleanup db db' gone : thinner db db' ->
  db'.(allocation_access_grants) ∪ (db.(allocation_access_grants) ∖ db'.(allocation_access_grants) ∪ gone) =
    db.(allocation_access_grants) ∪ gone /\
  (forall i, access_cursor db' i = access_cursor db i) /\
  db'.(allocation_access_grants) ⊆ db.(allocation_access_grants).
Proof.
  intros [_ Hg _ _ Ec]. assert (Hs : db'.(allocation_access_grants) ⊆ db.(allocation_access_grants)).
  { by apply map_subseteq_spec. }
  split; [by rewrite map_union_assoc, map_difference_union|]. split; [|done]. intros i. unfold access_cursor. by rewrite Ec.
Qed.

(** *** Versions of the rows of the ledger *)
Definition version_of (m : gmap string GrantRow) (server : time) (g : NodeGrant) : Prop :=
  exists row, m !! g.(ng_GrantID) = Some row /\ row.(g_NodeID) = n /\
    g.(ng_AllocationID) = row.(g_AllocationID) /\ g.(ng_ValidationTokenHash) = row.(g_TokenHash) /\
    g.(ng_Purpose) = row.(g_Purpose) /\ g.(ng_ExpiresAt) = Some (timestamppb_New row.(g_ExpiresAt)) /\
    0 < g.(ng_Revision) <= row.(g_Revision) /\
    (g.(ng_Revision) = row.(g_Revision) ->
       (row.(g_Revoked) = true -> g.(ng_Revoked) = true) /\
       (row.(g_Revoked) = false -> g.(ng_Revoked) = true -> row.(g_ExpiresAt) <= server)).
Lemma version_wf m server g : well_drawn m -> version_of m server g -> well_formed g.
Proof.
  intros [W _] (row & Hr & _ & Ea & Eh & _ & _ & [? _] & _). destruct (W _ _ Hr) as (? & ? & Et & ? & ? & ?).
  unfold well_formed. rewrite Ea, Eh, Et. done.
Qed.
Lemma version_id m server g g' :
  well_drawn m -> version_of m server g -> version_of m server g' ->
  g.(ng_GrantID) = g'.(ng_GrantID) <-> g.(ng_ValidationTokenHash) = g'.(ng_ValidationTokenHash).
Proof.
  intros W (row & Hr & _ & _ & Eh & _) (row' & Hr' & _ & _ & Eh' & _). rewrite Eh, Eh'. split.
  - intros E. rewrite E in Hr. congruence.
  - intros E. by eapply wd_hash.
Qed.
Lemma version_le m m' server server' g :
  ledger_le m m' -> server <= server' -> version_of m server g -> version_of m' server' g.
Proof.
  intros L Hs (row & Hr & En & Ea & Eh & Ep & Ee & Er & Ef). destruct (L _ _ Hr) as (row' & Hr' & Hl).
  exists row'. split; [done|]. destruct Hl as [-> | ((S1 & S2 & S3 & S4 & S5) & M)].
  - do 6 (split; [done|]). intros E. destruct (Ef E) as [F1 F2]. split; [done|]. intros A B. specialize (F2 A B). lia.
  - rewrite S1, S2, S3, S4, S5. do 5 (split; [done|]). split; [lia|]. intros E. lia.
Qed.
Lemma scan_version m c server now id row :
  ledger_inv m c -> now <= server -> m !! id = Some row -> row.(g_NodeID) = n ->
  let g := node_grant (scan_grant now (id, row)) in
  version_of m server g /\ g.(ng_GrantID) = id /\ g.(ng_Revision) = row.(g_Revision).
Proof.
  intros Hi Hn Hr En g. destruct (li_bound _ _ Hi _ _ Hr) as [? _].
  assert (Hg : g.(ng_GrantID) = id /\ g.(ng_AllocationID) = row.(g_AllocationID) /\
    g.(ng_ValidationTokenHash) = row.(g_TokenHash) /\ g.(ng_Purpose) = row.(g_Purpose) /\
    g.(ng_ExpiresAt) = Some (timestamppb_New row.(g_ExpiresAt)) /\ g.(ng_Revision) = row.(g_Revision) /\
    g.(ng_Revoked) = row.(g_Revoked) || (row.(g_ExpiresAt) <=? now)).
  { unfold g, scan_grant, node_grant. simpl. unfold After. rewrite <- Z.leb_antisym.
    destruct (row.(g_ExpiresAt) <=? now); simpl; by rewrite ?orb_true_r, ?orb_false_r. }
  clearbody g. destruct Hg as (Ei & Ea & Eh & Ep & Ee & Er & Ev). split; [|done].
  exists row. rewrite Ei. do 6 (split; [done|]). split; [lia|]. intros _. rewrite Ev. split; [by intros ->|].
  intros -> Hx. simpl in Hx. apply Z.leb_le in Hx. lia.
Qed.

(** *** The invariant *)
(** A response covers the live rows of a window of revisions. *)
Definition covers (m live : gmap string GrantRow) (server : time) (a : Z) (resp : WatchResponse) : Prop :=
  a < resp.(wr_CurrentRevision) /\
  (forall g, Some g ∈ resp.(wr_Grants) -> version_of m server g) /\
  (forall id row, live !! id = Some row -> row.(g_NodeID) = n ->
     a < row.(g_Revision) <= resp.(wr_CurrentRevision) ->
     exists g, Some g ∈ resp.(wr_Grants) /\ g.(ng_GrantID) = id /\ g.(ng_Revision) = row.(g_Revision)).
Fixpoint windows (m live : gmap string GrantRow) (server : time) (a : Z) (flight : list WatchResponse) (b : Z) : Prop :=
  match flight with
  | [] => a = b
  | resp :: rest => covers m live server a resp /\ windows m live server resp.(wr_CurrentRevision) rest b
  end.
Definition settled (s : net) (id : string) (row : GrantRow) : Prop :=
  row.(g_ExpiresAt) <= s.(n_clock) \/
  exists g, s.(n_cache).(byToken) !! row.(g_TokenHash) = Some g /\ g.(ng_GrantID) = id /\
    g.(ng_Revision) = row.(g_Revision).
Record net_inv (s : net) : Prop := {
  ni_lifecycle : inv s.(n_db);
  ni_store : grant_inv s.(n_db);
  ni_apart : s.(n_db).(allocation_access_grants) ##ₘ s.(n_gone);
  ni_ledger : ledger_inv (issued s) (access_cursor s.(n_db));
  ni_dead id row : s.(n_gone) !! id = Some row -> row.(g_Revoked) = true \/ row.(g_ExpiresAt) < s.(n_server);
  ni_drawn : well_drawn (issued s);
  ni_cache : cache_wf s.(n_cache);
  ni_entries : entries (version_of (issued s) s.(n_server)) s.(n_cache);
  ni_settled id row : s.(n_db).(allocation_access_grants) !! id = Some row -> row.(g_NodeID) = n ->
    row.(g_Revision) <= delivered s -> settled s id row;
  ni_cursor : s.(n_revision) <= delivered s <= access_cursor s.(n_db) n;
  ni_link k : s.(n_link) = Some k ->
    windows (issued s) s.(n_db).(allocation_access_grants) s.(n_server) k.(lk_after) k.(lk_flight) k.(lk_sent) /\
    k.(lk_sent) <= access_cursor s.(n_db) n /\
    (forall marked, k.(lk_marked) = Some marked -> access_cursor marked n <= access_cursor s.(n_db) n) }.
Lemma live_issued s id row : s.(n_db).(allocation_access_grants) !! id = Some row -> issued s !! id = Some row.
Proof. intros. by apply lookup_union_Some_l. Qed.

Lemma windows_bound m live server a flight b : windows m live server a flight b -> a <= b.
Proof.
  revert a. induction flight as [|resp rest IH]; simpl; intros a; [lia|]. intros [(? & _) W]. specialize (IH _ W). lia.
Qed.
Lemma windows_le m m' live live' server server' a flight b :
  (forall g, version_of m server g -> version_of m' server' g) -> older b live live' ->
  windows m live server a flight b -> windows m' live' server' a flight b.
Proof.
  intros Hv Ho. revert a. induction flight as [|resp rest IH]; intros a; simpl; [done|].
  intros [(Ha & Hg & Hw) W]. split; [|auto]. pose proof (windows_bound _ _ _ _ _ _ W). split; [done|]. split; [auto|].
  intros id row Hr En Hb. apply (Hw id row); [|done..]. apply Ho; [done..|lia].
Qed.
Lemma windows_app m live server a flight b resp :
  windows m live server a flight b -> covers m live server b resp ->
  windows m live server a (flight ++ [resp]) resp.(wr_CurrentRevision).
Proof. revert a. induction flight as [|r rest IH]; simpl; intros a; [by intros -> ?|]. intros [? ?] ?. auto. Qed.

(** What the handler reads covers the window after its revision. *)
Lemma read_covers m c marked db server now sent resp current :
  ledger_inv m c -> db.(allocation_access_grants) ⊆ m -> now <= server ->
  watch_handler_turn marked db n sent now = Some (Ok (resp, current)) ->
  current = access_cursor marked n /\ resp.(wr_CurrentRevision) = current /\
  covers m db.(allocation_access_grants) server sent resp.
Proof.
  intros Hi Hsub Hn. unfold watch_handler_turn, WatchAllocationAccessGrants_turn, loadAllocationAccessGrants.
  rewrite TrimSpace_idempotent. destruct (sent <? access_cursor marked n) eqn:El; [|done]. simpl. apply Z.ltb_lt in El.
  rewrite (proj2 (Z.leb_gt _ _)) by done. intros [= <- <-]. do 2 (split; [done|]).
  assert (Hin : forall g, Some g ∈ map (fun r => Some (node_grant r)) (map (scan_grant now)
      (sort_slice by_revision (List.filter (fun kv => published sent (access_cursor marked n) n kv.2)
         (map_to_list db.(allocation_access_grants))))) <->
    exists id row, g = node_grant (scan_grant now (id, row)) /\ db.(allocation_access_grants) !! id = Some row /\
      row.(g_NodeID) = n /\ sent < row.(g_Revision) <= access_cursor marked n).
  { intros g. rewrite map_map, list_elem_of_In, in_map_iff. split.
    - intros ([id row] & [= <-] & Hx). apply list_elem_of_In, elem_of_sort_slice, list_elem_of_In, filter_In in Hx as [Hx Hp].
      exists id, row. split; [done|]. split; [by apply elem_of_map_to_list, list_elem_of_In|].
      unfold published in Hp. simpl in Hp. b2p. split; [done|lia].
    - intros (id & row & -> & Hr & En & Hb). exists (id, row). split; [done|].
      apply list_elem_of_In, elem_of_sort_slice, list_elem_of_In, filter_In. split.
      + by apply list_elem_of_In, elem_of_map_to_list.
      + unfold published. simpl. rewrite En, String.eqb_refl. simpl. apply andb_true_iff. split; [apply Z.ltb_lt|apply Z.leb_le]; lia. }
  assert (Hm : forall id row, db.(allocation_access_grants) !! id = Some row -> m !! id = Some row)
    by (intros id row Hr; by eapply lookup_weaken).
  split; [done|]. split; simpl.
  - intros g (id & row & -> & Hr & En & _)%Hin. exact (proj1 (scan_version m c server now id row Hi Hn (Hm _ _ Hr) En)).
  - intros id row Hr En Hb. destruct (scan_version m c server now id row Hi Hn (Hm _ _ Hr) En) as (_ & Ei & Er).
    eexists. split; [apply Hin; by exists id, row|]. done.
Qed.

(** *** Every step keeps it *)
Lemma entry_row m server c id row g :
  well_drawn m -> entries (version_of m server) c -> m !! id = Some row ->
  c.(byToken) !! row.(g_TokenHash) = Some g ->
  g.(ng_GrantID) = id /\ version_of m server g /\ g.(ng_Revision) <= row.(g_Revision).
Proof.
  intros W He Hr Hg. destruct (He _ _ Hg) as [Hv Eh]. assert (E : ng_GrantID g = id).
  { destruct Hv as (row' & Hr' & _ & _ & Eh' & _). eapply (wd_hash _ W); [done|done|congruence]. }
  split; [done|]. split; [done|]. destruct Hv as (row' & Hr' & _ & _ & _ & _ & _ & Hb & _). rewrite E in Hr'.
  simplify_eq. lia.
Qed.
(** A store to start from: in order, and without grants. *)
Definition fresh_store (db : DB) : Prop :=
  inv db /\ db.(allocation_access_grants) = ∅ /\ db.(node_access_grant_cursors) = ∅.
Lemma fresh_inv db clock server : fresh_store db -> net_inv (net_start db clock server).
Proof.
  intros (Hi & Eg & Ec). assert (Ei : issued (net_start db clock server) = ∅) by (unfold issued; simpl; by rewrite Eg, map_empty_union).
  assert (Ea : forall i, access_cursor db i = 0) by (intros i; unfold access_cursor; by rewrite Ec, lookup_empty).
  split; rewrite ?Ei; simpl; rewrite ?Eg; try done.
  - split; intros *; rewrite ?Eg, ?Ea, ?lookup_empty; done.
  - split; intros *; rewrite ?Ea, ?lookup_empty; done.
  - unfold delivered. simpl. rewrite Ea. lia.
Qed.
(** What a transaction or a cleanup leaves to prove: the ledger has moved on, and
    the rows the node may have been told of are where they were. *)
Lemma store_moved s db' gone' :
  net_inv s -> inv db' -> grant_inv db' -> db'.(allocation_access_grants) ##ₘ gone' ->
  ledger_inv (db'.(allocation_access_grants) ∪ gone') (access_cursor db') ->
  ledger_le (issued s) (db'.(allocation_access_grants) ∪ gone') ->
  (forall id row, gone' !! id = Some row -> row.(g_Revoked) = true \/ row.(g_ExpiresAt) < s.(n_server)) ->
  well_drawn (db'.(allocation_access_grants) ∪ gone') -> access_cursor s.(n_db) n <= access_cursor db' n ->
  older (access_cursor s.(n_db) n) s.(n_db).(allocation_access_grants) db'.(allocation_access_grants) ->
  net_inv (mkNet db' gone' s.(n_cache) s.(n_revision) s.(n_link) s.(n_clock) s.(n_server)).
Proof.
  intros [_ _ _ _ _ _ Hc He Hs Hcur Hl] Hi Hg Hap Hled L Hdead W Hle Ho. split; simpl; try done.
  - intros h g Hx. destruct (He _ _ Hx) as [Hv Eh]. split; [|done]. by apply (version_le _ _ _ _ _ L (Z.le_refl _)).
  - intros id row Hr En Hb. unfold delivered in *. simpl in *. apply Hs; [|done..]. apply Ho; [done..|lia].
  - unfold delivered in *. simpl. lia.
  - intros k Hk. destruct (Hl _ Hk) as (Hw & Hb & Hm). split; [|split; [lia|]].
    + eapply windows_le; [|eapply older_le; [|exact Ho]; exact Hb|exact Hw].
      intros g. by apply (version_le _ _ _ _ _ L (Z.le_refl _)).
    + intros marked Em. specialize (Hm _ Em). lia.
Qed.
Lemma transaction_inv s db' :
  net_inv s -> store_step s.(n_db) db' -> db'.(allocation_access_grants) ##ₘ s.(n_gone) ->
  well_drawn (db'.(allocation_access_grants) ∪ s.(n_gone)) ->
  net_inv (mkNet db' s.(n_gone) s.(n_cache) s.(n_revision) s.(n_link) s.(n_clock) s.(n_server)).
Proof.
  intros Hi Hstep Hap W. destruct (store_step_gr _ _ _ _ _ _ _ Hstep (ni_store _ Hi)) as [Hg' L].
  destruct (ledger_step _ _ _ Hg' L Hap (ni_ledger _ Hi)) as [Hled Lle].
  apply store_moved; [done| |done..|by apply ni_dead|done|apply (gl_cursor _ _ L)|by apply grant_le_older].
  eapply moves_inv; [apply (ni_lifecycle _ Hi)|]. eapply step_moves; [apply (ni_lifecycle _ Hi)|by apply keep].
Qed.
Lemma cleanup_inv s enabled cfg now locked clock :
  net_inv s -> sql_time now <= s.(n_server) ->
  let db' := fst (Controller_Cleanup enabled cfg now locked clock s.(n_db)) in
  net_inv (mkNet db' (s.(n_db).(allocation_access_grants) ∖ db'.(allocation_access_grants) ∪ s.(n_gone))
             s.(n_cache) s.(n_revision) s.(n_link) s.(n_clock) s.(n_server)).
Proof.
  intros Hi Hn db'. pose proof (thinner_Cleanup enabled cfg now locked clock s.(n_db)) as Hth. fold db' in Hth.
  destruct (ledger_cleanup _ _ s.(n_gone) Hth) as (Em & Ec & Hsub).
  apply store_moved; rewrite ?Em; [done|..].
  - eapply moves_inv; [apply (ni_lifecycle _ Hi)|]. eapply (step_moves ToASCII NewSHA1 sha256_hex encryptNodeToken decryptNodeToken);
      [apply (ni_lifecycle _ Hi)|apply cleanup].
  - apply Cleanup_grant_inv, Hi.
  - apply map_disjoint_union_r_2; [by apply map_disjoint_difference_r1|].
    by eapply map_disjoint_weaken_l; [apply (ni_apart _ Hi)|].
  - destruct (ni_ledger _ Hi) as [L1 L2]. split; intros *; rewrite Ec; auto. by apply L2.
  - apply ledger_le_refl.
  - intros id row [Hr|[_ Hr]]%lookup_union_Some_raw; [|by apply (ni_dead _ Hi id)].
    apply lookup_difference_Some in Hr as [Hr Hnone].
    destruct (Controller_grant enabled cfg now locked clock _ _ _ (ni_lifecycle _ Hi) Hr) as [Hk|[_ [?|?]]]; [|by left|right; lia].
    fold db' in Hk. congruence.
  - apply (ni_drawn _ Hi).
  - by rewrite Ec.
  - intros id row Hr _ _. by eapply lookup_weaken.
Qed.
Lemma receive_inv s k resp rest :
  net_inv s -> s.(n_link) = Some k -> k.(lk_flight) = resp :: rest ->
  net_inv (mkNet s.(n_db) s.(n_gone) (Apply s.(n_clock) resp.(wr_Grants) s.(n_cache)) s.(n_revision)
             (Some (mkLink k.(lk_sent) k.(lk_marked) rest resp.(wr_CurrentRevision))) s.(n_clock) s.(n_server)).
Proof.
  intros [Hil Hi Hap Hled Hdead W Hc He Hs Hcur Hl] Hk Ef. destruct (Hl _ Hk) as (Hw & Hb & Hm). rewrite Ef in Hw.
  destruct Hw as [(Ha & Hv & Hcov) Hw]. unfold delivered in *. rewrite Hk in *. simpl in *.
  pose proof (windows_bound _ _ _ _ _ _ Hw) as Hwb.
  destruct (Apply_spec (version_of (issued s) s.(n_server)) (fun g => version_wf _ _ g W)
              (fun g g' => version_id _ _ g g' W) s.(n_clock) _ _ Hc He Hv) as (Hc' & He' & Hh & Hkeep).
  split; simpl; try done.
  - intros id row Hr0 En Hb'. unfold delivered in Hb'. simpl in Hb'. pose proof (live_issued _ _ _ Hr0) as Hr.
    assert (Hent : forall g, (Apply s.(n_clock) resp.(wr_Grants) s.(n_cache)).(byToken) !! row.(g_TokenHash) = Some g ->
      row.(g_Revision) <= g.(ng_Revision) -> settled (mkNet s.(n_db) s.(n_gone) (Apply s.(n_clock) resp.(wr_Grants) s.(n_cache))
        s.(n_revision) (Some (mkLink k.(lk_sent) k.(lk_marked) rest resp.(wr_CurrentRevision))) s.(n_clock)
        s.(n_server)) id row).
    { intros g Hg Hle. right. exists g. simpl. destruct (entry_row _ _ _ _ _ _ W He' Hr Hg) as (E & _ & ?).
      split; [done|]. split; [done|lia]. }
    destruct (decide (row.(g_Revision) <= k.(lk_after))) as [Hold|Hnew].
    + destruct (Hs _ _ Hr0 En Hold) as [Hd|(g & Hg & Eg & Er)]; [by left|].
      destruct (grant_alive s.(n_clock) g) eqn:Eal.
      * destruct (Hkeep _ _ Hg Eal) as (g' & Hg' & Hle). apply (Hent g' Hg'). lia.
      * left. simpl. destruct (entry_row _ _ _ _ _ _ W He Hr Hg) as (_ & (row' & Hr' & _ & _ & _ & _ & Ee & _) & _).
        rewrite Eg in Hr'. simplify_eq. unfold grant_alive in Eal. rewrite Ee, AsTime_New in Eal. simpl in Eal.
        unfold After in Eal. apply Z.ltb_ge in Eal. lia.
    + destruct (Hcov _ _ Hr0 En) as (g & Hg & Eg & Er); [lia|]. destruct (Hh _ Hg) as (g' & Hg' & Hle).
      destruct (Hv _ Hg) as (row' & Hr' & _ & _ & Eh & _). rewrite Eg in Hr'. simplify_eq. rewrite Eh in Hg'.
      apply (Hent g' Hg'). lia.
  - unfold delivered. simpl. lia.
  - intros k' [= <-]. simpl. by split.
Qed.
Lemma net_watch_inv s s' : net_inv s -> net_watch s s' -> net_inv s' /\ s'.(n_db) = s.(n_db).
Proof.
  intros Hi [id Hk Ho|k Hk Em|k marked now Hk Em Hn|k resp rest Hk Ef].
  - split; [|done]. destruct Hi as [Hil Hi Hap Hled Hdead W Hc He Hs Hcur _]. unfold delivered in *. rewrite Hk in *.
    split; simpl; try done. intros k [= <-]. simpl. split; [done|]. split; [lia|done].
  - split; [|done]. destruct Hi as [Hil Hi Hap Hled Hdead W Hc He Hs Hcur Hl]. unfold delivered in *. rewrite Hk in *.
    split; simpl; try done. intros k' [= <-]. simpl. destruct (Hl _ eq_refl) as (Hw & Hb & _).
    split; [done|]. split; [done|]. by intros marked [= <-].
  - split; [|done]. destruct Hi as [Hil Hi Hap Hled Hdead W Hc He Hs Hcur Hl]. unfold delivered in *. rewrite Hk in *.
    destruct (Hl _ eq_refl) as (Hw & Hb & Hm). pose proof (Hm _ Em) as Lm.
    destruct (watch_handler_turn marked s.(n_db) n k.(lk_sent) now) as [[[resp current]|e]|] eqn:Et.
    + destruct (read_covers _ _ _ _ s.(n_server) _ _ _ _ Hled (map_union_subseteq_l _ _) Hn Et) as (Ecur & Er & Hcov).
      split; simpl; try done. intros k' [= <-]. simpl. rewrite <- Er in *.
      split; [by apply (windows_app _ _ _ _ _ _ _ Hw)|]. split; [|done]. by rewrite Ecur.
    + split; simpl; try done. by intros k' [= <-].
    + split; simpl; try done. by intros k' [= <-].
  - pose proof (receive_inv _ _ _ _ Hi Hk Ef) as Hr. unfold watch_receive.
    destruct (ni_link _ Hi _ Hk) as (Hw & _). rewrite Ef in Hw. destruct Hw as [(Ha & _) _].
    rewrite (proj2 (Z.ltb_lt _ _)) by done. done.
Qed.
Lemma tick_inv s clock server :
  net_inv s -> s.(n_clock) <= clock -> s.(n_server) <= server ->
  net_inv (mkNet s.(n_db) s.(n_gone) s.(n_cache) s.(n_revision) s.(n_link) clock server).
Proof.
  intros [Hil Hi Hap Hled Hdead W Hca He Hs Hcur Hl] Hc Hsv.
  assert (Hv : forall g, version_of (issued s) s.(n_server) g -> version_of (issued s) server g)
    by (intros g; by apply version_le; [apply ledger_le_refl|]).
  split; simpl; try done.
  - intros id row Hr. destruct (Hdead _ _ Hr); [by left|right; lia].
  - intros h g Hg. destruct (He _ _ Hg) as [Hx Eh]. split; [by apply Hv|done].
  - intros id row Hr En Hb. destruct (Hs _ _ Hr En Hb) as [Hd|Hd]; [left; simpl; lia|by right].
  - intros k Hk. destruct (Hl _ Hk) as (Hw & Hb & Hm). split; [|done].
    eapply windows_le; [exact Hv| |exact Hw]. by intros id row Hr _ _.
Qed.
Lemma net_step_inv s s' : net_inv s -> net_step s s' -> net_inv s'.
Proof.
  intros Hi [db' Hs Hap W|enabled cfg now locked clock Hn|clock server Hc Hsv|s2 Hw|k Hk].
  - by apply transaction_inv.
  - by apply cleanup_inv.
  - by apply tick_inv.
  - by apply net_watch_inv in Hw as [? _].
  - destruct Hi as [Hil Hi Hap Hled Hdead W Hca He Hs Hcur Hl]. unfold delivered in *. rewrite Hk in *.
    assert (E : watch_return k.(lk_after) s.(n_revision) = k.(lk_after)).
    { unfold watch_return. destruct (_ <? _) eqn:El; [done|]. apply Z.ltb_ge in El. lia. }
    split; simpl; try done.
    + intros id row Hr En Hb. unfold delivered in Hb. simpl in Hb. rewrite E in Hb. by apply Hs.
    + unfold delivered. simpl. rewrite E. lia.
Qed.
Lemma net_steps_inv s s' : net_inv s -> rtc net_step s s' -> net_inv s'.
Proof. intros Hi Hs. induction Hs as [|s1 s2 s3 H12 _ IH]; [done|]. apply IH. by eapply net_step_inv. Qed.

(** *** What the node decides *)
(** A grant of [m] lets [token] into an Allocation of this node. *)
Definition granted (m : gmap string GrantRow) (allocationID token : string) (purpose : AccessPurpose) (now : time)
    (id : string) (row : GrantRow) : Prop :=
  m !! id = Some row /\ row.(g_NodeID) = n /\
  row.(g_TokenHash) = accessgrantkernel.HashToken sha256_hex token /\ row.(g_AllocationID) = TrimSpace allocationID /\
  row.(g_Purpose) = purpose /\ now < row.(g_ExpiresAt).
Lemma admits_granted s allocationID token purpose now known :
  net_inv s -> s.(n_clock) <= now ->
  validationState sha256_hex s.(n_cache) allocationID token purpose now = (true, known) ->
  exists id row,
    (granted s.(n_db).(allocation_access_grants) allocationID token purpose now id row /\
     (row.(g_Revoked) = true -> delivered s < row.(g_Revision))) \/
    (granted s.(n_gone) allocationID token purpose now id row /\
     (row.(g_Revoked) = true \/ row.(g_ExpiresAt) < s.(n_server))).
Proof.
  intros [Hil Hi Hap Hled Hdead W Hc He Hs Hcur Hl] Hn. unfold validationState.
  destruct (_ || _); [done|]. destruct (_ !! _) as [g|] eqn:Hg; [|done].
  destruct (String.eqb_spec (ng_AllocationID g) (TrimSpace allocationID)) as [Ea|]; [|done]. simpl.
  intros Hv%(f_equal fst). simpl in Hv. b2p. destruct (He _ _ Hg) as [Hver Eh].
  pose proof Hver as (row & Hr & En & Ea' & Eh' & Ep & Ee & Er & Ef). exists (ng_GrantID g), row.
  assert (Hexp : now < row.(g_ExpiresAt)).
  { unfold grant_alive in *. rewrite Ee, AsTime_New in *. unfold After in *. b2p. lia. }
  assert (Hgr : forall m, m !! ng_GrantID g = Some row -> granted m allocationID token purpose now (ng_GrantID g) row)
    by (intros m Hm; split_and!; try done; [by rewrite <- Eh', <- Eh|congruence..]).
  apply lookup_union_Some_raw in Hr as [Hr|[_ Hr]]; [left|right; split; [by apply Hgr|by apply (Hdead _ _ Hr)]].
  split; [by apply Hgr|]. intros Hrev. apply Z.nle_gt. intros Hle.
  destruct (Hs _ _ Hr En Hle) as [?|(g' & Hg' & _ & Er')]; [lia|].
  rewrite <- Eh', <- Eh in Hg'. rewrite Hg in Hg'. injection Hg' as <-. destruct (Ef Er') as [F _]. rewrite (F Hrev) in *. done.
Qed.
Lemma granted_admits s allocationID token purpose now id row :
  net_inv s -> delivered s = access_cursor s.(n_db) n -> s.(n_clock) <= now -> s.(n_server) <= now ->
  TrimSpace token <> "" ->
  granted s.(n_db).(allocation_access_grants) allocationID token purpose now id row -> row.(g_Revoked) = false ->
  validationState sha256_hex s.(n_cache) allocationID token purpose now = (true, true).
Proof.
  intros [Hil Hi Hap Hled Hdead W Hc He Hs Hcur Hl] Hd Hn Hsn Ht (Hr0 & En & Eh & Ea & Ep & Hx) Hrev.
  pose proof (live_issued _ _ _ Hr0) as Hr.
  destruct (wd_row _ W _ _ Hr) as (_ & _ & Eat & Hane & _). destruct (gi_bound _ Hi _ _ Hr0) as [_ Hb].
  destruct (Hs _ _ Hr0 En) as [?|(g & Hg & Eg & Er)]; [rewrite Hd, <- En; done|lia|].
  destruct (entry_row _ _ _ _ _ _ W He Hr Hg) as (_ & (row' & Hr' & _ & Ea' & _ & Ep' & Ee' & _ & Ef') & _).
  rewrite Eg in Hr'. simplify_eq. destruct (Ef' Er) as [_ F].
  assert (Hf : ng_Revoked g = false) by (destruct (ng_Revoked g) eqn:E; [specialize (F Hrev eq_refl); lia|done]).
  unfold validationState. rewrite <- Ea. rewrite (proj2 (String.eqb_neq _ _) Hane), (proj2 (String.eqb_neq _ _) Ht).
  simpl orb. cbv iota. unfold accessgrantkernel.HashToken in Eh. unfold accessGrantTokenHash. rewrite <- Eh, Hg, Ea', String.eqb_refl.
  simpl. rewrite Ep', Hf, bool_decide_true by done. unfold grant_alive. rewrite Ee', AsTime_New. simpl.
  unfold After. by rewrite (proj2 (Z.ltb_lt _ _) Hx).
Qed.

(** *** Catching up *)
Lemma drain flight s k :
  net_inv s -> s.(n_link) = Some k -> k.(lk_flight) = flight ->
  exists s', rtc net_watch s s' /\ net_inv s' /\ s'.(n_db) = s.(n_db) /\ s'.(n_server) = s.(n_server) /\
    s'.(n_link) = Some (mkLink k.(lk_sent) k.(lk_marked) [] k.(lk_sent)).
Proof.
  revert s k. induction flight as [|resp rest IH]; intros s k Hi Hk Ef.
  - exists s. split; [done|]. split; [done|]. do 2 (split; [done|]). destruct (ni_link _ Hi _ Hk) as (Hw & _).
    rewrite Ef in Hw. simpl in Hw. rewrite Hk. destruct k; simpl in *; congruence.
  - pose proof (receive_inv _ _ _ _ Hi Hk Ef) as Hi'.
    assert (Hstep : net_watch s (mkNet s.(n_db) s.(n_gone) (Apply s.(n_clock) resp.(wr_Grants) s.(n_cache)) s.(n_revision)
      (Some (mkLink k.(lk_sent) k.(lk_marked) rest resp.(wr_CurrentRevision))) s.(n_clock) s.(n_server))).
    { pose proof (net_receive s k resp rest Hk Ef) as Hr. unfold watch_receive in Hr.
      destruct (ni_link _ Hi _ Hk) as (Hw & _). rewrite Ef in Hw. destruct Hw as [(Ha & _) _].
      by rewrite (proj2 (Z.ltb_lt _ _)) in Hr. }
    destruct (IH _ _ Hi' eq_refl eq_refl) as (s' & Hs' & Hi2 & Edb & Esv & El).
    exists s'. split; [by eapply rtc_l|]. done.
Qed.
Lemma read_turn s k marked :
  net_inv s -> s.(n_link) = Some k -> k.(lk_marked) = Some marked ->
  exists s' k', rtc net_watch s s' /\ net_inv s' /\ s'.(n_db) = s.(n_db) /\
    s'.(n_link) = Some k' /\ k'.(lk_marked) = None /\
    k'.(lk_sent) = Z.max k.(lk_sent) (access_cursor marked n).
Proof.
  intros Hi Hk Em. pose proof (net_read s k marked s.(n_server) Hk Em (Z.le_refl _)) as Hr.
  destruct (net_watch_inv _ _ Hi Hr) as [Hi' _].
  destruct (ni_link _ Hi _ Hk) as (_ & _ & Hm).
  destruct (watch_handler_turn marked (n_db s) n (lk_sent k) (n_server s)) as [[[resp current]|e]|] eqn:Et.
  - destruct (read_covers _ _ _ _ _ _ _ _ _ (ni_ledger _ Hi) (map_union_subseteq_l _ _) (Z.le_refl _) Et) as (Ec & Er & Ha & _).
    do 2 eexists. split; [by apply rtc_once|]. do 2 (split; [done|]). simpl. split; [done|]. simpl. split; [done|]. lia.
  - exfalso. unfold watch_handler_turn, WatchAllocationAccessGrants_turn, loadAllocationAccessGrants in Et.
    destruct (_ <? _) eqn:El; [|done]. simpl in Et. apply Z.ltb_lt in El. by rewrite (proj2 (Z.leb_gt _ _)) in Et.
  - do 2 eexists. split; [by apply rtc_once|]. do 2 (split; [done|]). simpl. split; [done|]. simpl. split; [done|].
    unfold watch_handler_turn, WatchAllocationAccessGrants_turn, loadAllocationAccessGrants in Et.
    rewrite TrimSpace_idempotent in Et. destruct (_ <? _) eqn:El; [done|]. apply Z.ltb_ge in El. lia.
Qed.
Lemma catch_up s k :
  net_inv s -> s.(n_link) = Some k ->
  exists s', rtc net_watch s s' /\ s'.(n_db) = s.(n_db) /\ delivered s' = access_cursor s.(n_db) n.
Proof.
  intros Hi Hk.
  assert (Hun : exists s1 k1, rtc net_watch s s1 /\ net_inv s1 /\ s1.(n_db) = s.(n_db) /\ s1.(n_link) = Some k1 /\
    k1.(lk_marked) = None).
  { destruct k.(lk_marked) as [m|] eqn:Em; [|by exists s, k].
    destruct (read_turn _ _ _ Hi Hk Em) as (s1 & k1 & ? & ? & ? & ? & ? & _). by exists s1, k1. }
  destruct Hun as (s1 & k1 & R1 & I1 & D1 & L1 & M1).
  pose proof (net_mark s1 k1 L1 M1) as Hmark. destruct (net_watch_inv _ _ I1 Hmark) as [I2 _].
  destruct (read_turn _ _ _ I2 eq_refl eq_refl) as (s3 & k3 & R3 & I3 & D3 & L3 & _ & S3). simpl in S3, D3.
  destruct (drain _ _ _ I3 L3 eq_refl) as (s4 & R4 & _ & D4 & _ & L4).
  exists s4. split; [|split; [congruence|]].
  - etrans; [exact R1|]. eapply rtc_l; [exact Hmark|]. by etrans.
  - unfold delivered. rewrite L4. simpl. rewrite S3, D1.
    destruct (ni_link _ I1 _ L1) as (_ & Hb & _). rewrite D1 in Hb. lia.
Qed.

(** C6: a node never admits more than the store has granted.  Whatever transactions
    the store runs, retention among them, however the stream is interrupted and
    resumed, and however late its messages arrive: when the node accepts a token
    at a time its clock has reached, an unexpired grant of that token was issued
    for that Allocation, purpose and node.  Either the store still holds it, and
    if the store has revoked it, the revocation has not been delivered to the node
    yet; or retention has deleted it, and then it was revoked or has expired by a
    clock of the store.  In each case the acceptance ends at the latest when the
    grant expires. *)
Theorem access_sound db0 clock server s allocationID token purpose now known :
  fresh_store db0 -> rtc net_step (net_start db0 clock server) s -> s.(n_clock) <= now ->
  validationState sha256_hex s.(n_cache) allocationID token purpose now = (true, known) ->
  exists id row,
    (granted s.(n_db).(allocation_access_grants) allocationID token purpose now id row /\
     (row.(g_Revoked) = true -> delivered s < row.(g_Revision))) \/
    (granted s.(n_gone) allocationID token purpose now id row /\
     (row.(g_Revoked) = true \/ row.(g_ExpiresAt) < s.(n_server))).
Proof.
  intros H0' Hs Hn Hv. eapply admits_granted; eauto. eapply net_steps_inv; [|exact Hs]. by apply fresh_inv.
Qed.

(** C7: a node that has caught up decides as the store does, but for what
    retention has taken from it.  Once the node has been told of the current
    revision, at a time that neither its own clock nor the clocks of the store
    have passed: a token of an unrevoked, unexpired grant of the store is
    accepted; and an accepted token has such a grant, or else an unexpired grant
    that retention deleted after its revocation.  So when retention keeps grants
    at least as long as they live, the two agree exactly.  And the node can
    always catch up: while the store rests, an open stream reaches the current
    revision. *)
Theorem access_agrees db0 clock server s :
  fresh_store db0 -> rtc net_step (net_start db0 clock server) s ->
  (delivered s = access_cursor s.(n_db) n ->
   forall allocationID token purpose now,
     s.(n_clock) <= now -> s.(n_server) <= now -> TrimSpace token <> "" ->
     let accepted := fst (validationState sha256_hex s.(n_cache) allocationID token purpose now) = true in
     let open := exists id row, granted s.(n_db).(allocation_access_grants) allocationID token purpose now id row /\
                                row.(g_Revoked) = false in
     (open -> accepted) /\
     (accepted -> open \/ exists id row, granted s.(n_gone) allocationID token purpose now id row /\ row.(g_Revoked) = true) /\
     ((forall id row, s.(n_gone) !! id = Some row -> row.(g_ExpiresAt) <= now) -> accepted <-> open)) /\
  (is_Some s.(n_link) ->
   exists s', rtc net_watch s s' /\ s'.(n_db) = s.(n_db) /\ delivered s' = access_cursor s'.(n_db) n).
Proof.
  intros H0' Hs. assert (Hi : net_inv s) by (eapply net_steps_inv; [|exact Hs]; by apply fresh_inv). split.
  - intros Hd allocationID token purpose now Hn Hsn Ht accepted open.
    assert (Hto : open -> accepted).
    { intros (id & row & Hg & Hr). unfold accepted. by rewrite (granted_admits _ _ _ _ _ _ _ Hi Hd Hn Hsn Ht Hg Hr). }
    assert (Hof : accepted -> open \/ exists id row, granted s.(n_gone) allocationID token purpose now id row /\ row.(g_Revoked) = true).
    { unfold accepted. destruct (validationState _ _ _ _ _ _) as [v known] eqn:E. simpl. intros ->.
      destruct (admits_granted _ _ _ _ _ _ Hi Hn E) as (id & row & [[Hg Hr]|[Hg Hr]]).
      - left. exists id, row. split; [done|]. destruct (g_Revoked row) eqn:Er; [|done]. specialize (Hr eq_refl).
        destruct Hg as (Hrow & En & _). destruct (gi_bound _ (ni_store _ Hi) _ _ Hrow) as [_ Hb]. rewrite En in Hb. lia.
      - right. exists id, row. split; [done|]. destruct Hr as [?|?]; [done|]. destruct Hg as (_ & _ & _ & _ & _ & Hx). lia. }
    split; [done|]. split; [done|]. intros Hgone. split; [|done]. intros [?|(id & row & (Hrow & _ & _ & _ & _ & Hx) & _)]%Hof; [done|].
    specialize (Hgone _ _ Hrow). lia.
  - intros [k Hk]. destruct (catch_up _ _ Hi Hk) as (s' & R & D & E). exists s'. rewrite D. done.
Qed.
End net.

(** ** Examples: a grant on its way *)
Definition well_drawn_check `{GoRuntime} (m : gmap string GrantRow) : bool :=
  forallb (fun kv : string * GrantRow =>
    String.eqb (TrimSpace kv.1) kv.1 && negb (String.eqb kv.1 "")
    && String.eqb (TrimSpace kv.2.(g_AllocationID)) kv.2.(g_AllocationID) && negb (String.eqb kv.2.(g_AllocationID) "")
    && String.eqb (norm_hash kv.2.(g_TokenHash)) kv.2.(g_TokenHash) && negb (String.eqb kv.2.(g_TokenHash) "")
    && forallb (fun kv' : string * GrantRow =>
         negb (String.eqb kv'.2.(g_TokenHash) kv.2.(g_TokenHash)) || String.eqb kv'.1 kv.1)
         (map_to_list m))
    (map_to_list m).
Lemma well_drawn_check_ok `{GoRuntime} m : well_drawn_check m = true -> well_drawn m.
Proof.
  unfold well_drawn_check. rewrite forallb_forall. intros Hc.
  assert (Hrow : forall id g, m !! id = Some g ->
    In (id, g) (map_to_list m)) by
    (intros id g Hg; by apply list_elem_of_In, elem_of_map_to_list).
  split.
  - intros id g Hg. specialize (Hc _ (Hrow _ _ Hg)). simpl in Hc. rewrite !andb_true_iff, !negb_true_iff in Hc.
    destruct Hc as [[[[[[C1 C2] C3] C4] C5] C6] _]. apply String.eqb_eq in C1, C3, C5.
    apply String.eqb_neq in C2, C4, C6. done.
  - intros id id' g g' Hg Hg' E. specialize (Hc _ (Hrow _ _ Hg)). simpl in Hc. rewrite !andb_true_iff in Hc.
    destruct Hc as [_ C]. rewrite forallb_forall in C. specialize (C _ (Hrow _ _ Hg')). simpl in C.
    rewrite <- E, String.eqb_refl in C. simpl in C. by apply String.eqb_eq in C.
Qed.

Definition ex_granted : DB :=
  fst (@IssueAllocationAccessGrant microseconds "alloc-1" PURPOSE_INTERACTIVE Minute (10 * Second) "grant-1"
         (ex_hash "token-1") ex_bound).
Definition ex_watched : net :=
  let s := mkNet ex_granted ∅ NewAccessGrantCache 0 (Some (mkLink 0 (Some ex_granted) [] 0)) 0 (11 * Second) in
  match @watch_handler_turn ex_granted ex_granted "n1" 0 (11 * Second) with
  | Some (Ok (resp, current)) =>
      mkNet ex_granted ∅ (@Apply amd64 (12 * Second) resp.(wr_Grants) NewAccessGrantCache) 0
        (Some (mkLink current None [] resp.(wr_CurrentRevision))) (12 * Second) (11 * Second)
  | _ => s
  end.
Notation ex_net_step := (@net_step any_id amd64 microseconds Ok id ex_hash id ex_decrypt "n1").
(** The delivery of the first response in flight, evaluated. *)
Ltac ex_receive :=
  match goal with |- @net_watch _ _ ?a ?b =>
    let l := eval cbv in a.(n_link) in
    match l with Some ?k =>
      let f := eval cbv in k.(lk_flight) in
      match f with ?resp :: ?rest =>
        pose proof (@net_receive amd64 "n1" a k resp rest eq_refl eq_refl) as Hr;
        let b' := type of Hr in
        match b' with @net_watch _ _ _ ?c => replace b with c by (vm_compute; reflexivity) end
      end end end;
  match goal with Hr : @net_watch _ _ _ _ |- _ => exact Hr end.
Lemma ex_watched_reachable : rtc ex_net_step (net_start ex_bound 0 0) ex_watched.
Proof.
  eapply rtc_l. { eapply (net_transaction _ _ _ _ _ _ _ ex_granted); [|apply map_disjoint_empty_r|apply well_drawn_check_ok; by vm_compute].
    apply do_IssueGrant. }
  eapply rtc_l. { eapply (net_tick _ _ _ _ _ _ _ (12 * Second) (11 * Second)); simpl; unfold Second; lia. }
  eapply rtc_l. { apply net_watching. eapply (net_open _ _ "n1"); by vm_compute. }
  eapply rtc_l. { apply net_watching. by eapply net_mark. }
  eapply rtc_l. { apply net_watching. eapply (net_read _ _ _ _ (11 * Second)); simpl; [done|done|unfold Second; lia]. }
  match goal with |- rtc ?R ?a ?b =>
    let a' := eval vm_compute in a in replace a with a' by (vm_compute; reflexivity) end.
  apply rtc_once, net_watching. ex_receive.
Qed.

(** The gap that [access_sound] and [access_agrees] leave is real: with a retention
    of grants shorter than their life, a cleanup may delete a revoked grant before
    the node has read the revocation.  The node below has been told of the current
    revision and still accepts the token. *)
Definition ex_short : Config := mkRetention true 0 0 0 0 0 0 Second.
Definition ex_revoked : DB := (@CancelRun microseconds "run-1" (15 * Second) ex_granted).1.
Definition ex_swept : DB := (@Controller_Cleanup microseconds true ex_short (20 * Second) true (20 * Second) ex_revoked).1.
Definition ex_forgotten : net :=
  mkNet ex_swept ex_revoked.(allocation_access_grants)
    (@Apply amd64 (20 * Second) [] ex_watched.(n_cache)) 0 (Some (mkLink 2 None [] 2)) (20 * Second) (20 * Second).
Lemma ex_forgotten_reachable : rtc ex_net_step ex_watched ex_forgotten.
Proof.
  eapply rtc_l. { eapply (net_transaction _ _ _ _ _ _ _ ex_revoked);
    [apply do_CancelRun|apply map_disjoint_empty_r|apply well_drawn_check_ok; by vm_compute]. }
  eapply rtc_l. { eapply (net_tick _ _ _ _ _ _ _ (20 * Second) (20 * Second)); by vm_compute. }
  eapply rtc_l. { eapply (net_cleanup _ _ _ _ _ _ _ true ex_short (20 * Second) true (20 * Second)). by vm_compute. }
  eapply rtc_l. { apply net_watching. by eapply net_mark. }
  eapply rtc_l. { apply net_watching. eapply (net_read _ _ _ _ (20 * Second)); [done|done|by vm_compute]. }
  match goal with |- rtc ?R ?a ?b =>
    let a' := eval vm_compute in a in replace a with a' by (vm_compute; reflexivity) end.
  apply rtc_once, net_watching. ex_receive.
Qed.
Lemma revocation_lost :
  rtc ex_net_step (net_start ex_bound 0 0) ex_forgotten /\
  delivered ex_forgotten = access_cursor ex_forgotten.(n_db) "n1" /\
  fst (validationState ex_hash ex_forgotten.(n_cache) "alloc-1" "token-1" PURPOSE_INTERACTIVE (30 * Second)) = true /\
  ex_forgotten.(n_db).(allocation_access_grants) = ∅ /\
  exists row, @granted ex_hash "n1" ex_forgotten.(n_gone) "alloc-1" "token-1" PURPOSE_INTERACTIVE (30 * Second) "grant-1" row /\
    row.(g_Revoked) = true.
Proof.
  split; [etrans; [exact ex_watched_reachable|exact ex_forgotten_reachable]|].
  split; [by vm_compute|]. split; [by vm_compute|]. split; [by vm_compute|].
  eexists. split; [split; [by vm_compute|by vm_compute]|by vm_compute].
Qed.

Lemma ex_fresh : fresh_store ex_bound.
Proof. split; [apply inv_check_ok; by vm_compute|by vm_compute]. Qed.
Lemma access_sound_witness :
  exists id row,
    (@granted ex_hash "n1" ex_watched.(n_db).(allocation_access_grants) "alloc-1" "token-1" PURPOSE_INTERACTIVE
       (20 * Second) id row /\ (row.(g_Revoked) = true -> delivered ex_watched < row.(g_Revision))) \/
    (@granted ex_hash "n1" ex_watched.(n_gone) "alloc-1" "token-1" PURPOSE_INTERACTIVE (20 * Second) id row /\
     (row.(g_Revoked) = true \/ row.(g_ExpiresAt) < ex_watched.(n_server))).
Proof.
  apply (@access_sound any_id amd64 microseconds Ok id ex_hash id ex_decrypt "n1" ex_bound 0 0 ex_watched "alloc-1"
           "token-1" PURPOSE_INTERACTIVE (20 * Second) true).
  - exact ex_fresh.
  - exact ex_watched_reachable.
  - vm_compute. congruence.
  - by vm_compute.
Defined.
Lemma access_agrees_witness :
  delivered ex_watched = access_cursor ex_watched.(n_db) "n1" /\
  fst (validationState ex_hash ex_watched.(n_cache) "alloc-1" "token-2" PURPOSE_INTERACTIVE (20 * Second)) = false /\
  (exists id row, @granted ex_hash "n1" ex_watched.(n_db).(allocation_access_grants) "alloc-1" "token-1"
     PURPOSE_INTERACTIVE (20 * Second) id row /\ row.(g_Revoked) = false) /\
  exists s', s'.(n_db) = ex_watched.(n_db) /\ delivered s' = access_cursor s'.(n_db) "n1".
Proof.
  destruct (@access_agrees any_id amd64 microseconds Ok id ex_hash id ex_decrypt "n1" ex_bound 0 0 ex_watched) as [Ha Hc];
    [exact ex_fresh|exact ex_watched_reachable|].
  assert (Hd : delivered ex_watched = access_cursor ex_watched.(n_db) (TrimSpace "n1")) by by vm_compute.
  split; [exact Hd|]. split; [by vm_compute|]. split.
  - assert (Hgone : forall id row, ex_watched.(n_gone) !! id = Some row -> row.(g_ExpiresAt) <= 20 * Second) by done.
    destruct (Ha Hd "alloc-1" "token-1" PURPOSE_INTERACTIVE (20 * Second)) as (_ & _ & Hiff);
      [vm_compute; congruence..|by vm_compute|]. apply (Hiff Hgone). by vm_compute.
  - destruct Hc as (s' & _ & D & E); [by vm_compute; eexists|]. by exists s'.
Defined.
