(* ===== verification/Queue.v ===== *)
(** * The FIFO of the node daemon

    [axnoded/pkg/queue/queue.go]: a FIFO without duplicates on a ring buffer that
    grows and shrinks, and its refinement to a duplicate-free list.  The pools of
    the node ([Cgroup]) keep their idle and retiring identifiers in such queues;
    they are modelled there by the list. *)
From S2P Require Import Prelude.

(** ** The ring buffer (pkg/queue/queue.go) *)
Module queue.
Section queue.
Context {T : Type} `{Countable T}.

Definition minQueueLen : nat := 64.
Record Queue := mkQueue {
  buf : list (option T); bufMap : gset T; empty : T; head : nat; tail : nat; count : nat }.

Definition New (emptyObj : T) : Queue := mkQueue (replicate minQueueLen None) ∅ emptyObj 0 0 0.
Definition Length (q : Queue) : nat := q.(count).

(** [copy(dst, src)] and the position of an index in the buffer, whose length is
    a power of two. *)
Definition copy {A} (dst src : list A) : list A := take (length dst) src ++ drop (length src) dst.
Definition copied {A} (dst src : list A) : nat := Nat.min (length dst) (length src).
Definition slot (q : Queue) (i : nat) : nat := Nat.land i (length q.(buf) - 1).

Definition resize (q : Queue) : Queue :=
  let newBuf := replicate (Nat.shiftl q.(count) 1) None in
  let newBuf :=
    if (q.(head) <? q.(tail))%nat
    then copy newBuf (drop q.(head) (take q.(tail) q.(buf)))
    else
      let src := drop q.(head) q.(buf) in
      let n := copied newBuf src in
      let newBuf := copy newBuf src in
      take n newBuf ++ copy (drop n newBuf) (take q.(tail) q.(buf)) in
  mkQueue newBuf q.(bufMap) q.(empty) 0 q.(count) q.(count).

Definition hasUnlocked (q : Queue) (elem : T) : bool := bool_decide (elem ∈ q.(bufMap)).
Definition Has := hasUnlocked.
Definition pushUnlocked (q : Queue) (elem : T) : Queue :=
  let q := if (q.(count) =? length q.(buf))%nat then resize q else q in
  mkQueue (<[q.(tail) := Some elem]> q.(buf)) ({[elem]} ∪ q.(bufMap)) q.(empty) q.(head)
    (slot q (q.(tail) + 1)) (q.(count) + 1).
Definition Push (q : Queue) (elem : T) : Queue := if hasUnlocked q elem then q else pushUnlocked q elem.

(** Reading a slot that holds nothing dereferences a nil pointer: [None]. *)
Definition read (q : Queue) (i : nat) : option T := mjoin (q.(buf) !! i).
Definition Top (q : Queue) : option T := if (q.(count) <=? 0)%nat then Some q.(empty) else read q q.(head).
Definition Get (q : Queue) (i : Z) : option T :=
  let i := if i <? 0 then i + Z.of_nat q.(count) else i in
  if (i <? 0) || (Z.of_nat q.(count) <=? i) then Some q.(empty)
  else read q (slot q (q.(head) + Z.to_nat i)).
Definition take_head (q : Queue) : Queue :=
  mkQueue (<[q.(head) := None]> q.(buf)) q.(bufMap) q.(empty) (slot q (q.(head) + 1)) q.(tail) (q.(count) - 1).
Definition shrink (q : Queue) : Queue :=
  if (minQueueLen <? length q.(buf))%nat && (Nat.shiftl q.(count) 2 =? length q.(buf))%nat then resize q else q.
Definition forget (ret : T) (q : Queue) : Queue :=
  mkQueue q.(buf) (q.(bufMap) ∖ {[ret]}) q.(empty) q.(head) q.(tail) q.(count).
Definition Pop (q : Queue) : option (Queue * T) :=
  if (q.(count) <=? 0)%nat then Some (q, q.(empty))
  else ret ← read q q.(head); Some (forget ret (shrink (take_head q)), ret).
Definition List (q : Queue) : option (list T) :=
  mapM (fun i => read q (slot q (q.(head) + i))) (seq 0 q.(count)).

(** *** What it means: a list without duplicates, oldest first *)
Definition q_push (l : list T) (x : T) : list T := if bool_decide (x ∈ l) then l else l ++ [x].
Definition q_pop (e : T) (l : list T) : list T * T := match l with [] => ([], e) | x :: l => (l, x) end.

Record holds (q : Queue) (l : list T) : Prop := {
  h_size : exists k, length q.(buf) = (2 ^ k)%nat /\ (6 <= k)%nat;
  h_count : q.(count) = length l;
  h_room : (length l <= length q.(buf))%nat;
  h_head : (q.(head) < length q.(buf))%nat;
  h_tail : q.(tail) = ((q.(head) + length l) mod length q.(buf))%nat;
  h_elem i x : l !! i = Some x -> q.(buf) !! ((q.(head) + i) mod length q.(buf))%nat = Some (Some x);
  h_map : q.(bufMap) = list_to_set l;
  h_nodup : NoDup l }.

Lemma slot_mod q l i : holds q l -> slot q i = (i mod length q.(buf))%nat.
Proof.
  intros [(k & Ek & _) _ _ _ _ _ _ _]. unfold slot. rewrite Ek.
  rewrite <- Nat.land_ones, Nat.ones_equiv. by rewrite Nat.sub_1_r.
Qed.
Lemma size_pos q l : holds q l -> (64 <= length q.(buf))%nat.
Proof.
  intros [(k & -> & Hk) _ _ _ _ _ _ _]. replace 64%nat with (2 ^ 6)%nat by reflexivity.
  by apply Nat.pow_le_mono_r.
Qed.
Lemma copy_lookup {A} (dst src : list A) i x :
  src !! i = Some x -> (length src <= length dst)%nat -> copy dst src !! i = Some x.
Proof.
  intros Hi Hl. unfold copy. rewrite take_ge by done. by rewrite lookup_app_l by by eapply lookup_lt_Some.
Qed.
Lemma copy_length {A} (dst src : list A) : (length src <= length dst)%nat -> length (copy dst src) = length dst.
Proof. intros. unfold copy. rewrite take_ge by done. rewrite length_app, length_drop. lia. Qed.

(** The elements of a buffer, moved to the front of a larger one. *)
Lemma resize_elems q l i x :
  length q.(buf) <> O -> (q.(head) < length q.(buf))%nat -> (length l <= length q.(buf))%nat -> q.(count) = length l -> (0 < length l)%nat ->
  q.(tail) = ((q.(head) + length l) mod length q.(buf))%nat ->
  (forall i x, l !! i = Some x -> q.(buf) !! ((q.(head) + i) mod length q.(buf))%nat = Some (Some x)) ->
  length (resize q).(buf) = (2 * length l)%nat /\ (l !! i = Some x -> (resize q).(buf) !! i = Some (Some x)).
Proof.
  intros Hn Hh Hr Ec Hpos Et He. set (n := length q.(buf)) in *.
  assert (Hb : length (replicate (Nat.shiftl q.(count) 1) (@None T)) = (2 * length l)%nat).
  { rewrite length_replicate, Ec, Nat.shiftl_mul_pow2. simpl. lia. }
  unfold resize. cbn [buf]. destruct (Nat.ltb_spec q.(head) q.(tail)) as [Hlt|Hge].
  - assert (Em : (q.(head) + length l < n)%nat).
    { destruct (Nat.lt_ge_cases (q.(head) + length l) n) as [|Hw]; [done|exfalso].
      assert (E : ((q.(head) + length l) mod n = q.(head) + length l - n)%nat).
      { symmetry. apply (Nat.mod_unique _ _ 1); lia. } lia. }
    rewrite Nat.mod_small in Et by done.
    assert (Els : length (drop q.(head) (take q.(tail) q.(buf))) = length l).
    { rewrite length_drop, length_take. fold n. rewrite Nat.min_l by lia. lia. }
    rewrite copy_length by lia. split; [done|]. intros Hi. apply copy_lookup; [|lia].
    rewrite lookup_drop. pose proof (lookup_lt_Some _ _ _ Hi). rewrite lookup_take_lt by lia.
    specialize (He _ _ Hi). rewrite Nat.mod_small in He by lia. done.
  - assert (Em : (n <= q.(head) + length l)%nat).
    { destruct (Nat.lt_ge_cases (q.(head) + length l) n) as [Hw|]; [|done]. rewrite Nat.mod_small in Et; lia. }
    assert (Et' : q.(tail) = (q.(head) + length l - n)%nat).
    { rewrite Et. symmetry. apply (Nat.mod_unique _ _ 1); lia. }
    assert (Els : length (drop q.(head) q.(buf)) = (n - q.(head))%nat) by (by rewrite length_drop).
    assert (Elt : length (take q.(tail) q.(buf)) = q.(tail)) by (rewrite length_take; fold n; lia).
    assert (Ecp : copied (replicate (Nat.shiftl q.(count) 1) (@None T)) (drop q.(head) q.(buf)) = (n - q.(head))%nat)
      by (unfold copied; lia).
    rewrite Ecp. set (nb := copy _ (drop q.(head) q.(buf))).
    assert (Enb : length nb = (2 * length l)%nat) by (unfold nb; rewrite copy_length; lia).
    assert (Edr : length (drop (n - q.(head)) nb) = (2 * length l - (n - q.(head)))%nat) by (rewrite length_drop; lia).
    rewrite length_app, length_take, copy_length by lia. split; [lia|]. intros Hi.
    pose proof (lookup_lt_Some _ _ _ Hi). specialize (He _ _ Hi).
    destruct (Nat.lt_ge_cases i (n - q.(head))) as [Hlt|Hge'].
    + rewrite lookup_app_l by (rewrite length_take; lia). rewrite lookup_take_lt by lia.
      apply copy_lookup; [|lia]. rewrite lookup_drop. rewrite Nat.mod_small in He by lia. done.
    + rewrite lookup_app_r by (rewrite length_take; lia). rewrite length_take, Nat.min_l by lia.
      apply copy_lookup; [|lia]. rewrite lookup_take_lt by lia.
      assert (E : ((q.(head) + i) mod n = i - (n - q.(head)))%nat).
      { symmetry. apply (Nat.mod_unique _ _ 1); lia. }
      by rewrite E in He.
Qed.

Lemma resize_holds q l :
  holds q l -> (32 <= length l)%nat \/ (16 <= length l)%nat /\ (length l < length q.(buf))%nat ->
  (exists k, (2 * length l)%nat = (2 ^ k)%nat /\ (6 <= k)%nat) ->
  holds (resize q) l /\ length (resize q).(buf) = (2 * length l)%nat.
Proof.
  intros Hq Hlen (k & Ek & Hk). pose proof (size_pos _ _ Hq) as Hn. destruct Hq as [_ Hc Hr Hh Ht He Hm Hd].
  assert (Hres : forall i x, length (resize q).(buf) = (2 * length l)%nat /\
    (l !! i = Some x -> (resize q).(buf) !! i = Some (Some x))) by (intros i x; apply resize_elems; try done; lia).
  assert (Hlb : length (resize q).(buf) = (2 * length l)%nat).
  { destruct l as [|y l']; [simpl in *; lia|]. apply (Hres O y). }
  split; [|done]. split; rewrite ?Hlb; try done; simpl; try lia.
  - by exists k.
  - rewrite Nat.mod_small; lia.
  - intros i x Hi. pose proof (lookup_lt_Some _ _ _ Hi). rewrite Nat.mod_small by lia. by apply Hres.
Qed.
Lemma mod_inj n a i j : (i < n)%nat -> (j < n)%nat -> ((a + i) mod n = (a + j) mod n)%nat -> i = j.
Proof.
  intros Hi Hj E. pose proof (Nat.div_mod (a + i) n). pose proof (Nat.div_mod (a + j) n).
  assert (n <> 0%nat) by lia. rewrite E in *.
  assert (((a + i) / n = (a + j) / n)%nat \/ (((a + i) / n <> (a + j) / n)%nat)) as [Ed|Ed] by lia; [rewrite Ed in *; lia|].
  exfalso. destruct (Nat.lt_ge_cases ((a + i) / n) ((a + j) / n)); nia.
Qed.
Lemma pushUnlocked_holds q l x : holds q l -> x ∉ l -> holds (pushUnlocked q x) (l ++ [x]).
Proof.
  intros Hq Hx. unfold pushUnlocked.
  set (q' := if (q.(count) =? length q.(buf))%nat then resize q else q).
  assert (Hq' : holds q' l /\ (length l < length q'.(buf))%nat).
  { unfold q'. destruct (Nat.eqb_spec q.(count) (length q.(buf))) as [E|E].
    - pose proof (size_pos _ _ Hq) as Hn. pose proof Hq as [(k & Ek & Hk) Hc Hr _ _ _ _ _].
      destruct (resize_holds q l Hq) as [? ->]; [lia| |split; [done|lia]].
      exists (S k). rewrite Nat.pow_succ_r'. split; [|lia]. rewrite <- Ek. lia.
    - split; [done|]. destruct Hq as [_ Hc Hr _ _ _ _ _]. lia. }
  clearbody q'. clear Hq. destruct Hq' as [Hq Hlt]. rewrite (slot_mod _ _ _ Hq).
  pose proof (size_pos _ _ Hq) as Hn. destruct Hq as [Hs Hc Hr Hh Ht He Hm Hd].
  split; simpl; rewrite ?length_insert, ?length_app; simpl; try done; try lia.
  - rewrite Ht. rewrite Nat.Div0.add_mod_idemp_l. f_equal. lia.
  - intros i y Hi. rewrite lookup_app in Hi. destruct (l !! i) as [z|] eqn:Hl.
    + simplify_eq. rewrite list_lookup_insert_ne; [by apply He|]. rewrite Ht. intros E.
      pose proof (lookup_lt_Some _ _ _ Hl). apply mod_inj in E; lia.
    + apply lookup_ge_None in Hl. apply list_lookup_singleton_Some in Hi as [Hi ->].
      assert (i = length l) as -> by lia. rewrite <- Ht. apply list_lookup_insert_eq.
      rewrite Ht. apply Nat.mod_upper_bound. lia.
  - rewrite Hm. rewrite list_to_set_app_L. set_solver.
  - apply NoDup_app. split; [done|]. split; [|apply NoDup_singleton]. intros y Hy ->%list_elem_of_singleton. done.
Qed.
Lemma has_spec q l x : holds q l -> hasUnlocked q x = bool_decide (x ∈ l).
Proof. intros Hq. unfold hasUnlocked. rewrite (h_map _ _ Hq). apply bool_decide_ext. by rewrite elem_of_list_to_set. Qed.
Lemma read_slot q l i x : holds q l -> l !! i = Some x -> read q (slot q (q.(head) + i)) = Some x.
Proof. intros Hq Hi. unfold read. rewrite (slot_mod _ _ _ Hq), (h_elem _ _ Hq _ _ Hi). done. Qed.
Lemma slot_head q l : holds q l -> slot q (q.(head) + 0) = q.(head).
Proof. intros Hq. rewrite (slot_mod _ _ _ Hq), Nat.add_0_r. apply Nat.mod_small, (h_head _ _ Hq). Qed.

Lemma Pop_holds q l :
  holds q l -> exists q', Pop q = Some (q', snd (q_pop q.(empty) l)) /\ holds q' (fst (q_pop q.(empty) l)).
Proof.
  intros Hq. unfold Pop. destruct l as [|x l]; simpl.
  { exists q. rewrite (h_count _ _ Hq). done. }
  rewrite (h_count _ _ Hq). simpl Nat.leb. cbv iota.
  pose proof (read_slot q _ O x Hq eq_refl) as Hrd. rewrite (slot_head _ _ Hq) in Hrd. rewrite Hrd. cbn [mbind option_bind].
  pose proof (size_pos _ _ Hq) as Hn.
  assert (Hb : length (take_head q).(buf) = length q.(buf)) by (unfold take_head; cbn [buf]; apply length_insert).
  assert (Hq1 : holds (forget x (take_head q)) l).
  { unfold forget, take_head. rewrite (slot_mod _ _ _ Hq).
    destruct Hq as [Hs Hc Hr Hh Ht He Hm Hd]. apply NoDup_cons in Hd as [Hx Hd]. simpl in Hc, Hr.
    split; simpl; rewrite ?length_insert; try done; try lia.
    - apply Nat.mod_upper_bound. lia.
    - rewrite Ht. simpl. rewrite Nat.Div0.add_mod_idemp_l. f_equal. lia.
    - intros i y Hi. pose proof (lookup_lt_Some _ _ _ Hi). rewrite Nat.Div0.add_mod_idemp_l.
      specialize (He (S i) y Hi). replace (head q + 1 + i)%nat with (head q + S i)%nat by lia.
      rewrite list_lookup_insert_ne; [done|]. intros E.
      assert (head q = ((head q + 0) mod length (buf q))%nat) as E0
        by (symmetry; rewrite Nat.add_0_r; apply Nat.mod_small; lia).
      rewrite E0 in E at 1. apply mod_inj in E; lia.
    - rewrite Hm. simpl. rewrite difference_union_distr_l_L, difference_diag_L, union_empty_l_L.
      apply difference_disjoint_L. set_solver. }
  eexists. split; [done|]. unfold shrink. destruct (_ && _) eqn:Eb; [|done].
  apply andb_true_iff in Eb as [Hmin Heq]. apply Nat.ltb_lt in Hmin. apply Nat.eqb_eq in Heq.
  rewrite Nat.shiftl_mul_pow2 in Heq. change (2 ^ 2)%nat with 4%nat in Heq. unfold minQueueLen in Hmin.
  assert (Ec1 : (take_head q).(count) = length l) by (apply (h_count _ _ Hq1)).
  assert (Hlen : (16 <= length l)%nat /\ (length l < length (forget x (take_head q)).(buf))%nat)
    by (unfold forget; cbn [buf]; lia).
  destruct (resize_holds _ _ Hq1 (or_intror Hlen)) as [Hres _]; [|exact Hres].
  destruct Hq1 as [(k & Ek & Hk) _ _ _ _ _ _ _]. unfold forget in Ek. cbn [buf] in Ek. exists (k - 1)%nat.
  assert (Ek' : (2 ^ k = 2 * 2 ^ (k - 1))%nat) by (rewrite <- Nat.pow_succ_r'; f_equal; lia).
  split; [lia|]. assert (7 <= k)%nat; [|lia]. destruct (Nat.le_gt_cases 7 k); [done|].
  assert (k = 6)%nat as -> by lia. change (2 ^ 6)%nat with 64%nat in Ek. lia.
Qed.
Lemma New_holds e : holds (New e) [].
Proof.
  split; simpl; try done; try lia; [exists 6%nat; by split|apply NoDup_nil_2].
Qed.
Lemma List_holds q l : holds q l -> List q = Some l.
Proof.
  intros Hq. unfold List. rewrite (h_count _ _ Hq).
  assert (Hg : forall m off, (forall i x, m !! i = Some x -> read q (slot q (q.(head) + (off + i))) = Some x) ->
    mapM (fun i => read q (slot q (q.(head) + i))) (seq off (length m)) = Some m).
  { induction m as [|x m IH]; intros off Hm; [done|]. simpl.
    rewrite <- (Nat.add_0_r off) at 1. rewrite (Hm O x eq_refl). simpl. rewrite IH; [done|].
    intros i y Hi. rewrite Nat.add_succ_comm. by apply Hm. }
  apply Hg. intros i x Hi. simpl. by apply (read_slot _ _ _ _ Hq).
Qed.

(** *** Any sequence of operations *)
Inductive op := OpPush (x : T) | OpPop.
Fixpoint run (ops : list op) (q : Queue) : option (Queue * list T) :=
  match ops with
  | [] => Some (q, [])
  | OpPush x :: rest => run rest (Push q x)
  | OpPop :: rest => r ← Pop q; out ← run rest (fst r); Some (fst out, snd r :: snd out)
  end.
Fixpoint run_list (e : T) (ops : list op) (l : list T) : list T * list T :=
  match ops with
  | [] => (l, [])
  | OpPush x :: rest => run_list e rest (q_push l x)
  | OpPop :: rest => let '(l, x) := q_pop e l in let '(l, out) := run_list e rest l in (l, x :: out)
  end.
Lemma Push_holds q l x : holds q l -> holds (Push q x) (q_push l x).
Proof.
  intros Hq. unfold Push, q_push. rewrite (has_spec _ _ _ Hq). case_bool_decide; [done|]. by apply pushUnlocked_holds.
Qed.
Lemma keeps_empty q : (forall x, (Push q x).(empty) = q.(empty)) /\
  (forall q' x, Pop q = Some (q', x) -> q'.(empty) = q.(empty)).
Proof.
  split.
  - intros x. unfold Push, pushUnlocked. repeat case_match; done.
  - intros q' x. unfold Pop. case_match; [by intros [= <- _]|]. intros (r & _ & [= <- _])%bind_Some.
    unfold forget, shrink. cbn [empty]. by case_match.
Qed.

(** C18: the ring buffer is the list it stands for.  Whatever elements are pushed
    and popped, however often the buffer grows and shrinks, no slot is read that
    holds nothing, the elements come out in the order a duplicate-free FIFO list
    gives, and what remains is that list. *)
Theorem queue_refines_list e ops :
  exists q, run ops (New e) = Some (q, snd (run_list e ops [])) /\
    List q = Some (fst (run_list e ops [])) /\ NoDup (fst (run_list e ops [])).
Proof.
  assert (Hg : forall ops q l, holds q l -> q.(empty) = e ->
    exists q', run ops q = Some (q', snd (run_list e ops l)) /\ holds q' (fst (run_list e ops l))).
  { intros ops'. induction ops' as [|[x|] rest IH]; intros q l Hq Ee; simpl.
    - by exists q.
    - apply IH; [by apply Push_holds|]. by rewrite (proj1 (keeps_empty q)).
    - destruct (Pop_holds _ _ Hq) as (q' & E & Hq'). rewrite Ee in *. rewrite E. simpl.
      destruct (q_pop e l) as [l' y] eqn:Ep. simpl in *. apply (proj2 (keeps_empty q)) in E.
      destruct (IH q' l' Hq') as (q'' & E' & Hq''); [congruence|]. rewrite E'. simpl.
      destruct (run_list e rest l') as [l'' out]. simpl in *. by exists q''. }
  destruct (Hg ops (New e) [] (New_holds e) eq_refl) as (q & E & Hq). exists q. split; [done|].
  split; [by apply List_holds|apply Hq].
Qed.
End queue.
End queue.
