(* ===== verification/TruncIndex.v ===== *)
(** * Identifiers of the node daemon

    [axnoded/pkg/truncindex]: the index of the identifiers in use, found by any
    unique prefix, and the generators of fresh ones.  The Patricia trie below the
    index is a third-party library: the class [Trie] holds what the index relies
    on.  [UniqueIdGenerator] is the interface through which the pools use a
    generator; [FixLenGenerator] implements it.  Randomness is an argument. *)
From S2P Require Import Prelude CapabilityFacts Execution NodeAllocation.

(** ** The trie (go-patricia)

    [Insert] keeps an item that is there, [Delete] reports whether there was one
    and [VisitSubtree] visits the keys that start with a prefix, each once. *)
Class Trie (P : Type) := {
  NewTrie : P;
  Insert : string -> P -> P * bool;
  Delete : string -> P -> P * bool;
  VisitSubtree : string -> P -> list string;
  trie_keys : P -> gset string }.
Class TrieLaws (P : Type) `{Trie P} : Prop := {
  trie_new_law : trie_keys NewTrie = ∅;
  trie_insert_law id p : trie_keys (Insert id p).1 = {[id]} ∪ trie_keys p /\
    (Insert id p).2 = bool_decide (id ∉ trie_keys p);
  trie_delete_law id p : trie_keys (Delete id p).1 = trie_keys p ∖ {[id]} /\
    (Delete id p).2 = bool_decide (id ∈ trie_keys p);
  trie_visit_law s p : NoDup (VisitSubtree s p) /\
    forall id, id ∈ VisitSubtree s p <-> id ∈ trie_keys p /\ HasPrefix id s = true }.

(** ** The interface of a generator

    [usable g root]: the identifiers of [g] are paths directly below [root]. *)
Definition legal (id : string) : bool := negb (Contains id " ") && negb (String.eqb id "").
Class UniqueIdGenerator (G : Type) := {
  NewGenerator : string -> list string -> G;
  GetID : (nat -> nat -> nat) -> G -> G * result string;
  ReleaseId : string -> G -> G;
  issued : G -> gset string }.
Class GeneratorLaws (G : Type) `{UniqueIdGenerator G} := {
  usable : G -> string -> Prop;
  new_law root ids : clean_abs root = true ->
    usable (NewGenerator root ids) root /\ issued (NewGenerator root ids) = list_to_set (List.filter legal ids);
  get_law intn (g : G) root : usable g root ->
    usable (GetID intn g).1 root /\
    match (GetID intn g).2 with
    | Err _ => issued (GetID intn g).1 = issued g
    | Ok id => id ∉ issued g /\ legal id = true /\ Dir id = root /\ issued (GetID intn g).1 = {[id]} ∪ issued g
    end;
  release_law id (g : G) root : usable g root -> usable (ReleaseId id g) root /\ issued (ReleaseId id g) = issued g ∖ {[id]} }.

(** ** The index (truncindex.go) *)
Module truncindex.
Definition ErrEmptyPrefix : error := Sentinel "prefix can't be empty".
Definition ErrIllegalChar : error := Sentinel "illegal character: ' '".

Section index.
Context {P : Type} `{Trie P}.
Record TruncIndex := mkIndex { trie : P; ids : gset string }.

Definition addID (id : string) (idx : TruncIndex) : TruncIndex * result () :=
  if Contains id " " then (idx, Err ErrIllegalChar)
  else if String.eqb id "" then (idx, Err ErrEmptyPrefix)
  else if bool_decide (id ∈ idx.(ids)) then (idx, Err (Errorf "id already exists: '%s'" [AStr id]))
  else
    let '(t, inserted) := Insert id idx.(trie) in
    (mkIndex t ({[id]} ∪ idx.(ids)),
     if inserted then Ok () else Err (Errorf "failed to insert id: %s" [AStr id])).
Definition NewTruncIndex (l : list string) : TruncIndex :=
  fold_left (fun idx id => (addID id idx).1) l (mkIndex NewTrie ∅).
Definition Add_ := addID.
Definition Delete_ (id : string) (idx : TruncIndex) : TruncIndex * result () :=
  if bool_decide (id ∉ idx.(ids)) || String.eqb id "" then (idx, Err (Errorf "no such id: '%s'" [AStr id]))
  else
    let '(t, deleted) := Delete id idx.(trie) in
    (mkIndex t (idx.(ids) ∖ {[id]}), if deleted then Ok () else Err (Errorf "no such id: '%s'" [AStr id])).


(** ** The generators (generator.go) *)
Definition letters : string := "abcdefghijklmnopqrstuvwxyzABCDEFGHIJKLMNOPQRSTUVWXYZ1234567890".
(** [rand.Intn(len(letters))] is [intn i mod 62] for the [i]-th letter. *)
Definition letter (n : nat) : ascii := default "a"%char (String.get (n mod String.length letters) letters).
Fixpoint randSeq (n : nat) (intn : nat -> nat) : string :=
  match n with O => "" | S n => String (letter (intn O)) (randSeq n (fun i => intn (S i))) end.
Definition PrefixModifier (prefix : string) : string -> string := fun id => prefix +:+ id.
Definition SuffixModifier (suffix : string) : string -> string := fun id => id +:+ suffix.

Record FixLenGenerator := mkFixLen { idIndex : TruncIndex; len : nat; modifies : list (string -> string) }.
Definition NewFixLenGenerator (len : nat) (l : list string) (modifies : list (string -> string)) : FixLenGenerator :=
  mkFixLen (NewTruncIndex l) len modifies.
(** [turns] draws, of which the [i]-th is [draw i]. *)
Fixpoint first_free (turns : nat) (draw : nat -> string) (idx : TruncIndex) : TruncIndex * result string :=
  match turns with
  | O => (idx, Err (Errorf "failed to generate id" []))
  | S turns =>
      match Add_ (draw O) idx with
      | (idx, Ok _) => (idx, Ok (draw O))
      | (idx, Err _) => first_free turns (fun i => draw (S i)) idx
      end
  end.
Definition FixLen_GetID (intn : nat -> nat -> nat) (f : FixLenGenerator) : FixLenGenerator * result string :=
  let draw i := fold_left (fun id modify => modify id) f.(modifies) (randSeq f.(len) (intn i)) in
  let '(idx, r) := first_free 10000 draw f.(idIndex) in (mkFixLen idx f.(len) f.(modifies), r).
Definition FixLen_ReleaseId (id : string) (f : FixLenGenerator) : FixLenGenerator :=
  mkFixLen (Delete_ id f.(idIndex)).1 f.(len) f.(modifies).

(** [uuid.New] is a draw. *)
Record TruncGenerator := mkTrunc { tg_idIndex : TruncIndex; tg_prefix : string }.
Definition NewTruncGenerator (prefix : string) (l : list string) : TruncGenerator := mkTrunc (NewTruncIndex l) prefix.
Definition Trunc_GetID (uuid : nat -> string) (g : TruncGenerator) : TruncGenerator * result string :=
  let '(idx, r) := first_free 1000 (fun i => g.(tg_prefix) +:+ "-" +:+ uuid i) g.(tg_idIndex) in
  (mkTrunc idx g.(tg_prefix), r).
Definition Trunc_ReleaseId (id : string) (g : TruncGenerator) : TruncGenerator :=
  mkTrunc (Delete_ id g.(tg_idIndex)).1 g.(tg_prefix).

(** *** The index is a set of identifiers *)
Context {LAWS : TrieLaws P}.
Record index_wf (idx : TruncIndex) : Prop := {
  iw_keys : trie_keys idx.(trie) = idx.(ids);
  iw_legal : set_Forall (fun id => legal id = true) idx.(ids) }.
Definition free (id : string) (idx : TruncIndex) : bool := legal id && bool_decide (id ∉ idx.(ids)).

Lemma addID_spec id idx : index_wf idx ->
  index_wf (addID id idx).1 /\ is_Ok (addID id idx).2 = free id idx /\
  (addID id idx).1.(ids) = if free id idx then {[id]} ∪ idx.(ids) else idx.(ids).
Proof.
  intros [Hk Hl]. unfold addID, free. destruct (Contains id " ") eqn:Ec; [by unfold legal; rewrite Ec|].
  unfold legal. rewrite Ec. destruct (String.eqb_spec id "") as [|Hne]; [done|]. cbn [negb andb].
  case_bool_decide as Hin; [rewrite bool_decide_false by (intros Hn; by apply Hn); done|].
  rewrite bool_decide_true by done. destruct (trie_insert_law id idx.(trie)) as [E1 E2].
  destruct (Insert id (trie idx)) as [t' b]. simpl in *. rewrite Hk, bool_decide_true in E2 by done. subst b. split; [|done].
  split; simpl; [by rewrite E1, Hk|]. intros x [->%elem_of_singleton|Hx]%elem_of_union; [|by apply Hl].
  unfold legal. rewrite Ec. by destruct (String.eqb_spec id "").
Qed.
Lemma Delete_spec id idx : index_wf idx ->
  index_wf (Delete_ id idx).1 /\ (Delete_ id idx).1.(ids) = idx.(ids) ∖ {[id]}.
Proof.
  intros [Hk Hl]. unfold Delete_. destruct (bool_decide _ || _) eqn:E; simpl.
  - split; [done|]. symmetry. apply difference_disjoint_L. apply orb_true_iff in E as [E|E].
    + apply bool_decide_eq_true in E. set_solver.
    + apply String.eqb_eq in E as ->. intros x Hx ->%elem_of_singleton. by specialize (Hl _ Hx).
  - destruct (trie_delete_law id idx.(trie)) as [E1 _]. destruct (Delete id (trie idx)) as [t' b]. simpl in *.
    split; [|done]. split; simpl; [by rewrite E1, Hk|]. intros x [Hx _]%elem_of_difference. by apply Hl.
Qed.
Lemma NewTruncIndex_spec l :
  index_wf (NewTruncIndex l) /\ (NewTruncIndex l).(ids) = list_to_set (List.filter legal l).
Proof.
  unfold NewTruncIndex. set (idx := mkIndex NewTrie ∅).
  assert (Hi : index_wf idx) by (split; [apply trie_new_law|done]).
  replace (list_to_set (List.filter legal l)) with (idx.(ids) ∪ list_to_set (List.filter legal l)) by (simpl; set_solver).
  clearbody idx. revert idx Hi. induction l as [|x l IH]; intros idx Hi; simpl; [set_solver|].
  destruct (addID_spec x idx Hi) as (Hi' & _ & E). destruct (IH _ Hi') as [Hw ->]. split; [done|]. rewrite E.
  unfold free. destruct (legal x); cbn [andb]; [|done]. case_bool_decide; set_solver.
Qed.




(** *** The generators issue what is free *)
Lemma first_free_spec turns draw idx : index_wf idx ->
  index_wf (first_free turns draw idx).1 /\
  match (first_free turns draw idx).2 with
  | Ok id => exists n, (n < turns)%nat /\ id = draw n /\ free id idx = true /\
      (forall m, (m < n)%nat -> free (draw m) idx = false) /\
      (first_free turns draw idx).1.(ids) = {[id]} ∪ idx.(ids)
  | Err _ => (forall m, (m < turns)%nat -> free (draw m) idx = false) /\
      (first_free turns draw idx).1.(ids) = idx.(ids)
  end.
Proof.
  revert draw idx. induction turns as [|turns IH]; intros draw idx Hi; simpl; [split; [done|]; split; [lia|done]|].
  destruct (addID_spec (draw O) idx Hi) as (Hi' & Er & E). fold (Add_ (draw O) idx) in *.
  destruct (Add_ (draw O) idx) as [idx' [[]|e]]; simpl in *; symmetry in Er; rewrite Er in E.
  - split; [done|]. exists O. split; [lia|]. split; [done|]. split; [done|]. split; [lia|done].
  - assert (Hf : forall id, free id idx' = free id idx) by (intros; unfold free; by rewrite E).
    destruct (IH (fun i => draw (S i)) idx' Hi') as [Hw Hr]. split; [done|].
    destruct (first_free turns _ idx') as [idx'' [id|e']]; simpl in *.
    + destruct Hr as (n & Hn & -> & Hf' & Hl & E'). exists (S n). split; [lia|]. split; [done|].
      rewrite Hf in Hf'. split; [done|]. rewrite E', E. split; [|done].
      intros [|m] Hm; [done|]. rewrite <- Hf. apply Hl. lia.
    + destruct Hr as [Hl E']. split; [|by rewrite E', E]. intros [|m] Hm; [done|]. rewrite <- Hf. apply Hl. lia.
Qed.

Definition FixLen_draw (intn : nat -> nat -> nat) (f : FixLenGenerator) (i : nat) : string :=
  fold_left (fun id modify => modify id) f.(modifies) (randSeq f.(len) (intn i)).
Lemma FixLen_GetID_spec intn f : index_wf f.(idIndex) ->
  let f' := (FixLen_GetID intn f).1 in
  index_wf f'.(idIndex) /\ f'.(modifies) = f.(modifies) /\ f'.(len) = f.(len) /\
  match (FixLen_GetID intn f).2 with
  | Ok id => exists n, (n < 10000)%nat /\ id = FixLen_draw intn f n /\ free id f.(idIndex) = true /\
      (forall m, (m < n)%nat -> free (FixLen_draw intn f m) f.(idIndex) = false) /\
      f'.(idIndex).(ids) = {[id]} ∪ f.(idIndex).(ids)
  | Err _ => (forall m, (m < 10000)%nat -> free (FixLen_draw intn f m) f.(idIndex) = false) /\
      f'.(idIndex).(ids) = f.(idIndex).(ids)
  end.
Proof.
  intros Hi. unfold FixLen_GetID. fold (FixLen_draw intn f).
  destruct (first_free_spec 10000 (FixLen_draw intn f) _ Hi) as [Hw Hr].
  change (fun i => fold_left _ _ _) with (FixLen_draw intn f). cbv zeta.
  destruct (first_free 10000 (FixLen_draw intn f) (idIndex f)) as [idx r]. by simpl in *.
Qed.

#[export] Instance fixlen_generator : UniqueIdGenerator FixLenGenerator := {
  NewGenerator := fun root l => NewFixLenGenerator 12 l [PrefixModifier (root +:+ "/")];
  GetID := FixLen_GetID;
  ReleaseId := FixLen_ReleaseId;
  issued := fun f => f.(idIndex).(ids) }.
End index.
End truncindex.
Import truncindex.


(** ** Paths below a root *)
Lemma clean_elements_app rooted out l : clean_elements rooted out (l ++ [""]) = clean_elements rooted out l.
Proof.
  revert out. induction l as [|e l IH]; intros out; simpl; [done|].
  destruct (_ || _); [apply IH|]. destruct (String.eqb e ".."); [|apply IH].
  destruct out as [|top out]; [apply IH|]. destruct (String.eqb top ".."); apply IH.
Qed.
Lemma Clean_slash p : p <> "" -> Clean (p +:+ "/") = Clean p.
Proof.
  intros Hp. unfold Clean. assert (HasPrefix (p +:+ "/") "/" = HasPrefix p "/") as ->.
  { destruct p as [|c p]; [done|]. unfold HasPrefix. change (String c p +:+ "/") with (String c (p +:+ "/")). cbn [strip_prefix]. destruct (Ascii.eqb "/" c); reflexivity. }
  rewrite (Split_app "/" p ""). change (Split "/" "") with [""].
  by rewrite clean_elements_app.
Qed.
Lemma drop_to_slash_app a b : Contains_byte "/" a = false -> drop_to_slash (a +:+ String "/" b) = String "/" b.
Proof.
  induction a as [|c a IH]; simpl; [done|]. intros [Hc Ha]%orb_false_iff. rewrite Hc. by apply IH.
Qed.
Lemma Contains_byte_app c a b : Contains_byte c (a +:+ b) = Contains_byte c a || Contains_byte c b.
Proof. induction a as [|x a IH]; simpl; [done|]. by rewrite IH, orb_assoc. Qed.
Lemma Contains_byte_rev c s : Contains_byte c (string_rev s) = Contains_byte c s.
Proof.
  induction s as [|x s IH]; [done|]. rewrite string_rev_cons, Contains_byte_app, IH. simpl.
  by rewrite orb_false_r, orb_comm.
Qed.
Lemma Dir_below root name :
  clean_abs root = true -> Contains_byte "/" name = false -> Dir (root +:+ "/" +:+ name) = root.
Proof.
  intros Hr Hn. unfold Dir. unfold clean_abs in Hr. apply andb_true_iff in Hr as [Hr Hc].
  rewrite !string_rev_app. change (string_rev "/") with "/". rewrite append_assoc.
  change ("/" +:+ string_rev root) with (String "/" (string_rev root)).
  rewrite drop_to_slash_app by by rewrite Contains_byte_rev. rewrite string_rev_cons, string_rev_involutive.
  rewrite Clean_slash; [by apply String.eqb_eq|]. by intros ->.
Qed.
Lemma randSeq_no_slash n intn : Contains_byte "/" (randSeq n intn) = false.
Proof.
  revert intn. induction n as [|n IH]; intros intn; simpl; [done|]. rewrite IH, orb_false_r.
  unfold letter. change (String.length letters) with 62%nat.
  assert (Hlt : (intn O mod 62 < 62)%nat) by (apply Nat.mod_upper_bound; lia).
  revert Hlt. generalize (intn O mod 62)%nat as k.
  assert (Ha : forallb (fun k => negb (Ascii.eqb (default "a"%char (String.get k letters)) "/")) (seq 0 62) = true)
    by (vm_compute; reflexivity).
  intros k Hk. rewrite forallb_forall in Ha. specialize (Ha k). apply negb_true_iff, Ha, in_seq. lia.
Qed.

#[export] Instance fixlen_laws {P} `{Trie P} {LAWS : TrieLaws P} : GeneratorLaws (FixLenGenerator (P := P)).
Proof.
  refine {| usable g root := index_wf g.(idIndex) /\ clean_abs root = true /\
              g.(modifies) = [PrefixModifier (root +:+ "/")] |}.
  - intros root l Hc. destruct (NewTruncIndex_spec l) as [Hw E]. by split.
  - intros intn g root (Hw & Hc & Em). destruct (FixLen_GetID_spec intn g Hw) as (Hw' & Em' & _ & Hr).
    cbn [GetID issued fixlen_generator]. split; [by rewrite Em'|].
    destruct (FixLen_GetID intn g) as [g' [id|e]]; simpl in *; [|by destruct Hr].
    destruct Hr as (n & _ & -> & Hf & _ & E). unfold free in Hf. apply andb_true_iff in Hf as [Hl Hf].
    apply bool_decide_eq_true in Hf. split; [done|]. split; [done|]. split; [|done].
    unfold FixLen_draw. rewrite Em. cbn [fold_left]. unfold PrefixModifier. rewrite append_assoc.
    apply Dir_below; [done|]. apply randSeq_no_slash.
  - intros id g root (Hw & Hc & Em). destruct (Delete_spec id _ Hw) as [Hw' E]. by split.
Defined.

(** *** A trie for the examples: the set of its keys *)
#[export] Instance set_trie : Trie (gset string) := {
  NewTrie := ∅;
  Insert := fun id p => ({[id]} ∪ p, bool_decide (id ∉ p));
  Delete := fun id p => (p ∖ {[id]}, bool_decide (id ∈ p));
  VisitSubtree := fun s p => List.filter (fun id => HasPrefix id s) (elements p);
  trie_keys := id }.
#[export] Instance set_trie_laws : TrieLaws (gset string).
Proof.
  split; try done. intros s p. split; [apply NoDup_ListNoDup, List.NoDup_filter, NoDup_ListNoDup, NoDup_elements|].
  intros x. unfold VisitSubtree, trie_keys, set_trie, id. by rewrite list_elem_of_In, filter_In, <- list_elem_of_In, elem_of_elements.
Qed.

Example generator_example :
  let g := NewGenerator (G := FixLenGenerator (P := gset string)) "/c/axern" ["/c/axern/aaaaaaaaaaaa"; "/c/axern/warm 1"] in
  (GetID (fun i _ => i) g).2 = Ok "/c/axern/bbbbbbbbbbbb" /\
  issued (ReleaseId "/c/axern/aaaaaaaaaaaa" (GetID (fun i _ => i) g).1) = {["/c/axern/bbbbbbbbbbbb"]}.
Proof. split; vm_compute; reflexivity. Qed.

