(* ===== verification/Cgroup.v ===== *)
(** * The cgroup ledger of a node

    [axnoded/internal/resources] ([cgroup_store.go], [cgroup_manager.go],
    [cgroup_pool.go], [cgroup_gc.go], [cgroup_conformance_recovery.go]): one
    cgroup per Allocation, leased from a warm pool, charged against the memory of
    the node, and retired after use; the ledger of the leases is saved with every
    change of ownership.  [SnapshotStore] is the interface to the node's store and
    [UniqueIdGenerator] ([TruncIndex]) the one to fresh identifiers; a queue is the
    list it stands for ([Queue]).  What the kernel answers (cgroup creation, memory
    readings, processes, removal) and the clock are arguments.  Every operation
    runs under the manager's mutex, except where the code gives it up to ask the
    kernel: such an operation is a definition per part. *)
From S2P Require Import Prelude Proto Resource Capability Execution NodeDB NodeAllocation Queue TruncIndex.
Import queue.

(** ** The interface to the store: one message per bucket *)
Class SnapshotStore (S M : Type) := {
  SaveSnapshot : fault -> string -> M -> S -> S * result ();
  LoadSnapshot : fault -> string -> S -> result M;
  saved : S -> string -> option M }.
(** [errord.IsNotFound], which a failure of the store itself never is. *)
Definition IsNotFound (e : error) : bool := errors_Is e "not found".
Definition genuine (f : fault) : Prop := match f with Some e => IsNotFound e = false | None => True end.
Class SnapshotLaws (S M : Type) `{SnapshotStore S M} : Prop := {
  save_law f bucket (m : M) (s s' : S) r : SaveSnapshot f bucket m s = (s', r) ->
    (exists e, r = Err e /\ s' = s) \/ (r = Ok () /\ saved s' bucket = Some m);
  load_law f bucket (s : S) m : LoadSnapshot f bucket s = Ok m -> saved s bucket = Some m;
  load_missing f bucket (s : S) e : genuine f -> LoadSnapshot f bucket s = Err e -> IsNotFound e = true ->
    saved s bucket = None;
  load_commits bucket (s : S) m : bucket <> "" -> saved s bucket = Some m -> LoadSnapshot None bucket s = Ok m }.

(** ** Data (apipb CgroupLease, resource_model.go) *)
Inductive CgroupLifecycleState := CLS_UNSPECIFIED | CLS_IDLE | CLS_ASSIGNED | CLS_RETIRING | CLS_OTHER (n : Z).
#[export] Instance cls_eq_dec : EqDecision CgroupLifecycleState.
Proof. solve_decision. Defined.
Inductive CgroupLeaseOwnerKind := OWNER_UNSPECIFIED | OWNER_WORKLOAD | OWNER_RUNTIME_CONFORMANCE | OWNER_OTHER (n : Z).
#[export] Instance owner_eq_dec : EqDecision CgroupLeaseOwnerKind.
Proof. solve_decision. Defined.
Record CgroupLease := mkLease {
  cl_CgroupID : string; cl_State : CgroupLifecycleState; cl_AllocationID : string;
  cl_MemoryRequestBytes : Z; cl_MemoryLimitBytes : Z; cl_CapacityChargeBytes : Z; cl_OwnerKind : CgroupLeaseOwnerKind;
  cl_AssignedAtUnixNano : Z; cl_RetiringAtUnixNano : Z; cl_CurrentChargedBytes : Z;
  cl_LastCleanupError : string; cl_LastIdentityVerificationError : string;
  cl_CgroupBootID : string; cl_CgroupMountIdentity : string; cl_CgroupParentInode : Z; cl_CgroupLeafInode : Z }.
Record CgroupLedger := mkLedger { cg_Leases : list CgroupLease; cg_MemoryCapacityIdentity : string }.

Record MemoryCapacitySnapshot := mkCapacity {
  mc_Unavailable : bool; mc_EffectiveAllocatableBytes : Z; mc_SandboxCurrentBytes : Z;
  mc_SystemReserveBaseAvailableBytes : Z; mc_SystemReserveAvailableBytes : Z; mc_SystemReserveExhausted : bool;
  mc_CapacityIdentity : string; mc_SampledAt : time }.
Definition no_capacity : MemoryCapacitySnapshot := mkCapacity false 0 0 0 0 false "" zero_time.
Record MemoryCommitment := mkCommitment {
  cm_CommittedBytes : Z; cm_CleanupDebtBytes : Z; cm_ConformanceBytes : Z; cm_ConformanceCleanupDebtBytes : Z;
  cm_RetiringCgroupCount : Z; cm_OldestRetiringAge : Z }.
Record AllocateOption := mkAllocate {
  ao_ContainerID : string; ao_MemoryRequestBytes : Z; ao_MemoryLimitBytes : Z; ao_CapacityChargeBytes : Z;
  ao_CgroupOwnerKind : CgroupLeaseOwnerKind }.
(** [hostlinux.CgroupMemoryDomain], as far as it is compared. *)
Record CgroupMemoryDomain := mkDomain {
  dm_BootID : string; dm_MountIdentity : string; dm_ParentInode : Z; dm_LeafInode : Z;
  dm_LimitBytes : Z; dm_SwapMaxBytes : Z; dm_OOMGroup : bool; dm_LeafLimitBytes : Z; dm_LeafSwapMaxBytes : Z }.

Definition errResourceExhausted : error := Sentinel "resource exhausted".
Definition errNotExist : error := Sentinel "file does not exist".
Definition errMemoryCapacityUnavailable : error :=
  Sentinel "node memory capacity observation is unavailable or stale".
Definition CgroupBucket : string := "cgroups".
Definition DefaultMaxContainerNum : Z := 1000.
Definition memoryCapacityFreshness : Z := 15 * Second.

(** ** Leases (cgroup_store.go) *)
Definition cgroupLeaseHasAnyMemoryIdentity (l : CgroupLease) : bool :=
  negb (String.eqb l.(cl_CgroupBootID) "") || negb (String.eqb l.(cl_CgroupMountIdentity) "")
  || negb (l.(cl_CgroupParentInode) =? 0) || negb (l.(cl_CgroupLeafInode) =? 0).
Definition cgroupLeaseHasMemoryIdentity (l : CgroupLease) : bool :=
  negb (String.eqb l.(cl_CgroupBootID) "") && negb (String.eqb l.(cl_CgroupMountIdentity) "")
  && negb (l.(cl_CgroupParentInode) =? 0) && negb (l.(cl_CgroupLeafInode) =? 0).
Definition validAssignedCgroupOwner (owner : CgroupLeaseOwnerKind) : bool :=
  bool_decide (owner = OWNER_WORKLOAD) || bool_decide (owner = OWNER_RUNTIME_CONFORMANCE).
Definition unowned (l : CgroupLease) : bool :=
  bool_decide (l.(cl_OwnerKind) = OWNER_UNSPECIFIED) && (l.(cl_MemoryRequestBytes) =? 0)
  && (l.(cl_MemoryLimitBytes) =? 0) && (l.(cl_CapacityChargeBytes) =? 0) && (l.(cl_AssignedAtUnixNano) =? 0)
  && negb (cgroupLeaseHasAnyMemoryIdentity l).
(** The charge of a lease; an older ledger left it to the request. *)
Definition capacity_charge (l : CgroupLease) : Z :=
  if l.(cl_CapacityChargeBytes) =? 0 then l.(cl_MemoryRequestBytes) else l.(cl_CapacityChargeBytes).
Definition diagnostic_ok (message : string) : bool := (str_len message <=? 1024) && ValidString message.

Definition validate_lease_state (l : CgroupLease) : result () :=
  let id := [AStr l.(cl_CgroupID)] in
  match l.(cl_State) with
  | CLS_IDLE =>
      if negb (String.eqb l.(cl_AllocationID) "") || negb (l.(cl_RetiringAtUnixNano) =? 0) || negb (unowned l)
      then Err (Errorf "idle cgroup %s contains allocation ownership" id) else Ok ()
  | CLS_ASSIGNED =>
      if String.eqb l.(cl_AllocationID) "" || (l.(cl_AssignedAtUnixNano) <=? 0)
         || negb (l.(cl_RetiringAtUnixNano) =? 0) || negb (validAssignedCgroupOwner l.(cl_OwnerKind))
      then Err (Errorf "assigned cgroup %s has malformed ownership" id) else Ok ()
  | CLS_RETIRING =>
      if l.(cl_RetiringAtUnixNano) <=? 0 then Err (Errorf "retiring cgroup %s has no retirement time" id)
      else if String.eqb l.(cl_AllocationID) "" then
        if negb (unowned l) then Err (Errorf "unowned retiring cgroup %s contains allocation ownership" id) else Ok ()
      else if (l.(cl_AssignedAtUnixNano) <=? 0) || negb (validAssignedCgroupOwner l.(cl_OwnerKind))
      then Err (Errorf "retiring cgroup %s has malformed allocation ownership" id) else Ok ()
  | _ => Err (Errorf "cgroup %s has invalid lifecycle state" id)
  end.
Definition validate_lease_memory (l : CgroupLease) : result () :=
  let id := [AStr l.(cl_CgroupID)] in
  if (l.(cl_MemoryRequestBytes) <? 0) || (l.(cl_MemoryLimitBytes) <? 0) || (l.(cl_CapacityChargeBytes) <? 0)
     || (l.(cl_CurrentChargedBytes) <? 0)
  then Err (Errorf "cgroup %s has negative memory accounting" id)
  else if (0 <? l.(cl_MemoryLimitBytes)) && (l.(cl_MemoryLimitBytes) <? l.(cl_MemoryRequestBytes))
  then Err (Errorf "cgroup %s memory request exceeds its hard limit" id)
  else if negb (bool_decide (l.(cl_State) = CLS_IDLE)) && negb (String.eqb l.(cl_AllocationID) "")
          && (capacity_charge l <? l.(cl_MemoryRequestBytes))
  then Err (Errorf "cgroup %s capacity charge is smaller than its memory request" id)
  else if negb (bool_decide (l.(cl_State) = CLS_IDLE)) && negb (String.eqb l.(cl_AllocationID) "")
          && bool_decide (l.(cl_OwnerKind) = OWNER_WORKLOAD) && negb (capacity_charge l =? l.(cl_MemoryRequestBytes))
  then Err (Errorf "workload cgroup %s capacity charge differs from its memory request" id)
  else Ok ().
Definition validate_lease_identity (l : CgroupLease) : result () :=
  let id := [AStr l.(cl_CgroupID)] in
  if cgroupLeaseHasAnyMemoryIdentity l && negb (cgroupLeaseHasMemoryIdentity l)
  then Err (Errorf "cgroup %s has a partial memory identity" id)
  else if cgroupLeaseHasMemoryIdentity l && (l.(cl_MemoryLimitBytes) <=? 0)
  then Err (Errorf "cgroup %s has memory identity without a hard limit" id)
  else if cgroupLeaseHasMemoryIdentity l
          && ((128 <? str_len l.(cl_CgroupBootID)) || (1024 <? str_len l.(cl_CgroupMountIdentity))
              || (l.(cl_CgroupParentInode) =? l.(cl_CgroupLeafInode)))
  then Err (Errorf "cgroup %s has malformed memory identity" id)
  else if negb (diagnostic_ok l.(cl_LastIdentityVerificationError))
  then Err (Errorf "cgroup %s identity diagnostic is invalid or exceeds 1024 bytes" id)
  else if negb (diagnostic_ok l.(cl_LastCleanupError))
  then Err (Errorf "cgroup %s cleanup diagnostic is invalid or exceeds 1024 bytes" id)
  else Ok ().
Definition validateCgroupLease (l : CgroupLease) : result () :=
  if String.eqb l.(cl_CgroupID) "" then Err (Errorf "cgroup ledger contains an empty lease" [])
  else
    _ ← validate_lease_state l;
    _ ← validate_lease_memory l;
    validate_lease_identity l.

(** *** Roots *)
Definition cgroupPathInCurrentRoot (id workloadRoot conformanceRoot : string) : bool :=
  String.eqb (Dir id) workloadRoot || String.eqb (Dir id) conformanceRoot.
Definition cgroupLeaseInOwnedCurrentRoot (l : CgroupLease) (workloadRoot conformanceRoot : string) : bool :=
  let parent := Dir l.(cl_CgroupID) in
  if bool_decide (l.(cl_OwnerKind) = OWNER_RUNTIME_CONFORMANCE) then String.eqb parent conformanceRoot
  else if bool_decide (l.(cl_OwnerKind) = OWNER_WORKLOAD) || bool_decide (l.(cl_State) = CLS_IDLE)
  then String.eqb parent workloadRoot
  else bool_decide (l.(cl_State) = CLS_RETIRING) && (String.eqb parent workloadRoot || String.eqb parent conformanceRoot).
Definition cgroupIDsUnderRoot (ids : list string) (root : string) : list string :=
  List.filter (fun id => String.eqb (Dir id) root) ids.
Definition staleCgroupLeaseIsRecreatable (l : CgroupLease) : bool :=
  bool_decide (l.(cl_State) = CLS_IDLE)
  || (bool_decide (l.(cl_State) = CLS_RETIRING) && String.eqb l.(cl_AllocationID) "")
  || bool_decide (l.(cl_OwnerKind) = OWNER_RUNTIME_CONFORMANCE).
Definition missingKernelLeaseConverged (state : CgroupLifecycleState) : bool :=
  bool_decide (state = CLS_IDLE) || bool_decide (state = CLS_RETIRING).
Definition keep_lease (resolvedRoot conformanceRoot : string) (l : CgroupLease) : bool :=
  cgroupLeaseInOwnedCurrentRoot l resolvedRoot conformanceRoot || negb (staleCgroupLeaseIsRecreatable l).
Fixpoint reconcileCgroupLeasesForRoots (leases : list CgroupLease) (resolvedRoot conformanceRoot : string) :
    result (list CgroupLease * Z) :=
  match leases with
  | [] => Ok ([], 0)
  | l :: rest =>
      _ ← validateCgroupLease l;
      r ← reconcileCgroupLeasesForRoots rest resolvedRoot conformanceRoot;
      Ok (if keep_lease resolvedRoot conformanceRoot l then (l :: r.1, r.2) else (r.1, r.2 + 1))
  end.

(** *** Diagnostics and identities *)
Fixpoint trim_to_valid (fuel : nat) (message : string) : string :=
  match fuel with
  | O => message
  | S fuel => if ValidString message then message else trim_to_valid fuel (take_bytes (String.length message - 1) message)
  end.
Definition boundedCgroupDiagnostic (message : string) : string :=
  let message := ToValidUTF8 message "" in
  if str_len message <=? 1024 then message else trim_to_valid 1024 (take_bytes 1024 message).
Definition verifyPersistedCgroupParentIdentity (l : CgroupLease) (domain : CgroupMemoryDomain) : result () :=
  if negb (cgroupLeaseHasMemoryIdentity l) then Err (Errorf "complete cgroup memory identity is required" [])
  else if negb (String.eqb domain.(dm_BootID) l.(cl_CgroupBootID))
          || negb (String.eqb domain.(dm_MountIdentity) l.(cl_CgroupMountIdentity))
          || negb (domain.(dm_ParentInode) =? l.(cl_CgroupParentInode))
  then Err (Errorf "allocation cgroup identity changed" [])
  else if negb (domain.(dm_LimitBytes) =? l.(cl_MemoryLimitBytes)) || negb (domain.(dm_SwapMaxBytes) =? 0)
          || negb domain.(dm_OOMGroup)
  then Err (Errorf "sandbox memory controls changed" [])
  else Ok ().
(** [inspected] is what the kernel says of the parent (retiring) or of both. *)
Definition verifyPersistedCgroupIdentity (l : CgroupLease) (inspected : result CgroupMemoryDomain) : result () :=
  if negb (cgroupLeaseHasMemoryIdentity l) then Err (Errorf "complete cgroup memory identity is required" [])
  else
    domain ← inspected;
    _ ← verifyPersistedCgroupParentIdentity l domain;
    if bool_decide (l.(cl_State) = CLS_RETIRING) then Ok ()
    else if negb (domain.(dm_LeafInode) =? l.(cl_CgroupLeafInode)) then Err (Errorf "workload cgroup identity changed" [])
    else if negb (domain.(dm_LeafLimitBytes) =? l.(cl_MemoryLimitBytes)) || negb (domain.(dm_LeafSwapMaxBytes) =? 0)
    then Err (Errorf "OCI workload memory contract changed" [])
    else Ok ().

(** ** Field updates *)
Definition lease_idle (id : string) : CgroupLease :=
  mkLease id CLS_IDLE "" 0 0 0 OWNER_UNSPECIFIED 0 0 0 "" "" "" "" 0 0.
(** The fields [Allocate] sets, and the ones it resets when saving fails. *)
Definition lease_assigned (opt : AllocateOption) (kind : CgroupLeaseOwnerKind) (charge assignedAt : Z) (l : CgroupLease) :
    CgroupLease :=
  mkLease l.(cl_CgroupID) CLS_ASSIGNED opt.(ao_ContainerID) opt.(ao_MemoryRequestBytes) opt.(ao_MemoryLimitBytes)
    charge kind assignedAt l.(cl_RetiringAtUnixNano) l.(cl_CurrentChargedBytes) l.(cl_LastCleanupError)
    l.(cl_LastIdentityVerificationError) l.(cl_CgroupBootID) l.(cl_CgroupMountIdentity) l.(cl_CgroupParentInode)
    l.(cl_CgroupLeafInode).
Definition lease_unassigned (state : CgroupLifecycleState) (retiringAt : Z) (l : CgroupLease) : CgroupLease :=
  mkLease l.(cl_CgroupID) state "" 0 0 0 OWNER_UNSPECIFIED 0 retiringAt l.(cl_CurrentChargedBytes)
    l.(cl_LastCleanupError) l.(cl_LastIdentityVerificationError) l.(cl_CgroupBootID) l.(cl_CgroupMountIdentity)
    l.(cl_CgroupParentInode) l.(cl_CgroupLeafInode).
Definition lease_retiring (retiringAt charged : Z) (cleanupError : string) (l : CgroupLease) : CgroupLease :=
  mkLease l.(cl_CgroupID) CLS_RETIRING l.(cl_AllocationID) l.(cl_MemoryRequestBytes) l.(cl_MemoryLimitBytes)
    l.(cl_CapacityChargeBytes) l.(cl_OwnerKind) l.(cl_AssignedAtUnixNano) retiringAt charged cleanupError
    l.(cl_LastIdentityVerificationError) l.(cl_CgroupBootID) l.(cl_CgroupMountIdentity) l.(cl_CgroupParentInode)
    l.(cl_CgroupLeafInode).
Definition set_charged (charged : Z) (l : CgroupLease) : CgroupLease :=
  mkLease l.(cl_CgroupID) l.(cl_State) l.(cl_AllocationID) l.(cl_MemoryRequestBytes) l.(cl_MemoryLimitBytes)
    l.(cl_CapacityChargeBytes) l.(cl_OwnerKind) l.(cl_AssignedAtUnixNano) l.(cl_RetiringAtUnixNano) charged
    l.(cl_LastCleanupError) l.(cl_LastIdentityVerificationError) l.(cl_CgroupBootID) l.(cl_CgroupMountIdentity)
    l.(cl_CgroupParentInode) l.(cl_CgroupLeafInode).
Definition set_cleanup_error (message : string) (l : CgroupLease) : CgroupLease :=
  mkLease l.(cl_CgroupID) l.(cl_State) l.(cl_AllocationID) l.(cl_MemoryRequestBytes) l.(cl_MemoryLimitBytes)
    l.(cl_CapacityChargeBytes) l.(cl_OwnerKind) l.(cl_AssignedAtUnixNano) l.(cl_RetiringAtUnixNano)
    l.(cl_CurrentChargedBytes) message l.(cl_LastIdentityVerificationError) l.(cl_CgroupBootID)
    l.(cl_CgroupMountIdentity) l.(cl_CgroupParentInode) l.(cl_CgroupLeafInode).
Definition set_identity (bootID mountIdentity : string) (parentInode leafInode : Z) (message : string) (l : CgroupLease) :
    CgroupLease :=
  mkLease l.(cl_CgroupID) l.(cl_State) l.(cl_AllocationID) l.(cl_MemoryRequestBytes) l.(cl_MemoryLimitBytes)
    l.(cl_CapacityChargeBytes) l.(cl_OwnerKind) l.(cl_AssignedAtUnixNano) l.(cl_RetiringAtUnixNano)
    l.(cl_CurrentChargedBytes) l.(cl_LastCleanupError) message bootID mountIdentity parentInode leafInode.
Definition set_identity_error (message : string) (l : CgroupLease) : CgroupLease :=
  set_identity l.(cl_CgroupBootID) l.(cl_CgroupMountIdentity) l.(cl_CgroupParentInode) l.(cl_CgroupLeafInode) message l.

(** ** The manager (cgroup_manager.go) *)
Record CgroupManager (S G : Type) := mkManager {
  mg_size : Z; mg_cacheSize : Z; mg_rootName : string; mg_conformanceRoot : string;
  mg_usingID : gset string; mg_idleID : list string; mg_leases : gmap string CgroupLease;
  mg_allocationLeases : gmap string string; mg_cgroups : gset string;
  mg_generator : G; mg_conformanceGenerator : G; mg_db : S; mg_storeMark : bool; mg_gcQueue : list string;
  mg_memoryCapacity : MemoryCapacitySnapshot; mg_memoryCapacityIdentity : string;
  mg_memoryIdentityConflict : bool; mg_memoryAdmissionRequired : bool }.
Arguments mkManager {S G}.
Arguments mg_size {S G}. Arguments mg_cacheSize {S G}. Arguments mg_rootName {S G}.
Arguments mg_conformanceRoot {S G}. Arguments mg_usingID {S G}. Arguments mg_idleID {S G}.
Arguments mg_leases {S G}. Arguments mg_allocationLeases {S G}. Arguments mg_cgroups {S G}.
Arguments mg_generator {S G}. Arguments mg_conformanceGenerator {S G}. Arguments mg_db {S G}.
Arguments mg_storeMark {S G}. Arguments mg_gcQueue {S G}. Arguments mg_memoryCapacity {S G}.
Arguments mg_memoryCapacityIdentity {S G}. Arguments mg_memoryIdentityConflict {S G}.
Arguments mg_memoryAdmissionRequired {S G}.

Definition committed_state (s : CgroupLifecycleState) : bool :=
  bool_decide (s = CLS_ASSIGNED) || bool_decide (s = CLS_RETIRING).
Definition saturatingMemoryAdd (current delta : Z) : Z :=
  if delta <=? 0 then current else if MaxInt64 - delta <? current then MaxInt64 else current + delta.
(** What one lease holds of the node's memory. *)
Definition lease_charge (l : CgroupLease) : Z :=
  let charge := capacity_charge l in
  if bool_decide (l.(cl_State) = CLS_RETIRING) && (charge <? l.(cl_CurrentChargedBytes))
  then l.(cl_CurrentChargedBytes) else charge.
Definition commit_lease (now : time) (r : MemoryCommitment) (l : CgroupLease) : MemoryCommitment :=
  let charge := lease_charge l in
  let retiring := bool_decide (l.(cl_State) = CLS_RETIRING) in
  if negb (committed_state l.(cl_State)) then r
  else if bool_decide (l.(cl_OwnerKind) = OWNER_RUNTIME_CONFORMANCE)
  then mkCommitment r.(cm_CommittedBytes) r.(cm_CleanupDebtBytes) (saturatingMemoryAdd r.(cm_ConformanceBytes) charge)
         (if retiring then saturatingMemoryAdd r.(cm_ConformanceCleanupDebtBytes) charge
          else r.(cm_ConformanceCleanupDebtBytes))
         r.(cm_RetiringCgroupCount) r.(cm_OldestRetiringAge)
  else mkCommitment (saturatingMemoryAdd r.(cm_CommittedBytes) charge)
         (if retiring then saturatingMemoryAdd r.(cm_CleanupDebtBytes) charge else r.(cm_CleanupDebtBytes))
         r.(cm_ConformanceBytes) r.(cm_ConformanceCleanupDebtBytes)
         (if retiring then wrap64 (r.(cm_RetiringCgroupCount) + 1) else r.(cm_RetiringCgroupCount))
         (if retiring && (0 <? l.(cl_RetiringAtUnixNano))
          then Z.max r.(cm_OldestRetiringAge) (Sub now l.(cl_RetiringAtUnixNano)) else r.(cm_OldestRetiringAge)).
Definition no_commitment : MemoryCommitment := mkCommitment 0 0 0 0 0 0.

Section manager.
Context {S G : Type} `{SnapshotStore S CgroupLedger} `{UniqueIdGenerator G}.
#[local] Notation CgroupManager := (CgroupManager S G).

Definition set_leases (x : gmap string CgroupLease) (c : CgroupManager) : CgroupManager :=
  let 'mkManager a b r r' u i _ al cg g g' d m q mc id cf rq := c in mkManager a b r r' u i x al cg g g' d m q mc id cf rq.
Definition set_using (x : gset string) (c : CgroupManager) : CgroupManager :=
  let 'mkManager a b r r' _ i l al cg g g' d m q mc id cf rq := c in mkManager a b r r' x i l al cg g g' d m q mc id cf rq.
Definition set_idle (x : list string) (c : CgroupManager) : CgroupManager :=
  let 'mkManager a b r r' u _ l al cg g g' d m q mc id cf rq := c in mkManager a b r r' u x l al cg g g' d m q mc id cf rq.
Definition set_owners (x : gmap string string) (c : CgroupManager) : CgroupManager :=
  let 'mkManager a b r r' u i l _ cg g g' d m q mc id cf rq := c in mkManager a b r r' u i l x cg g g' d m q mc id cf rq.
Definition set_cgroups (x : gset string) (c : CgroupManager) : CgroupManager :=
  let 'mkManager a b r r' u i l al _ g g' d m q mc id cf rq := c in mkManager a b r r' u i l al x g g' d m q mc id cf rq.
Definition set_generators (x x' : G) (c : CgroupManager) : CgroupManager :=
  let 'mkManager a b r r' u i l al cg _ _ d m q mc id cf rq := c in mkManager a b r r' u i l al cg x x' d m q mc id cf rq.
Definition set_db (x : S) (mark : bool) (c : CgroupManager) : CgroupManager :=
  let 'mkManager a b r r' u i l al cg g g' _ _ q mc id cf rq := c in mkManager a b r r' u i l al cg g g' x mark q mc id cf rq.
Definition set_gc (x : list string) (c : CgroupManager) : CgroupManager :=
  let 'mkManager a b r r' u i l al cg g g' d m _ mc id cf rq := c in mkManager a b r r' u i l al cg g g' d m x mc id cf rq.
Definition set_capacity (mc : MemoryCapacitySnapshot) (id : string) (cf : bool) (c : CgroupManager) : CgroupManager :=
  let 'mkManager a b r r' u i l al cg g g' d m q _ _ _ rq := c in mkManager a b r r' u i l al cg g g' d m q mc id cf rq.
Definition set_lease (l : CgroupLease) (c : CgroupManager) : CgroupManager :=
  set_leases (<[l.(cl_CgroupID) := l]> c.(mg_leases)) c.

(** [storeLocked]: every lease, in order of its identifier. *)
Definition ledger (c : CgroupManager) : CgroupLedger :=
  mkLedger (omap (fun id => c.(mg_leases) !! id) (sort_slice string_lt (map fst (map_to_list c.(mg_leases)))))
    c.(mg_memoryCapacityIdentity).
Definition storeLocked (f : fault) (c : CgroupManager) : CgroupManager * result () :=
  match SaveSnapshot f CgroupBucket (ledger c) c.(mg_db) with
  | (db, Ok _) => (set_db db false c, Ok ())
  | (db, Err e) => (set_db db true c, Err (Wrapf "save cgroup ownership ledger: %w" [] e))
  end.

Definition lease_list (c : CgroupManager) : list CgroupLease := map snd (map_to_list c.(mg_leases)).
Definition hasCommittedMemoryLeaseLocked (c : CgroupManager) : bool :=
  existsb (fun l => committed_state l.(cl_State)) (lease_list c).
(** The leases are visited in no particular order; see [commitment_order]. *)
Definition memoryCommitmentLocked (now : time) (c : CgroupManager) : MemoryCommitment :=
  fold_left (commit_lease now) (lease_list c) no_commitment.
Definition MaxSizeLimit (c : CgroupManager) : Z :=
  if c.(mg_size) =? 0 then DefaultMaxContainerNum else c.(mg_size).
Definition AllocationResource (allocationID : string) (c : CgroupManager) : option string :=
  let allocationID := TrimSpace allocationID in
  if String.eqb allocationID "" then None else c.(mg_allocationLeases) !! allocationID.
Definition UnavailableNum (c : CgroupManager) : nat :=
  length (List.filter (fun l => bool_decide (l.(cl_State) = CLS_RETIRING)) (lease_list c)).

(** *** Capacity *)
Definition validate_capacity (s : MemoryCapacitySnapshot) : result () :=
  if s.(mc_EffectiveAllocatableBytes) <=? 0 then Err (Errorf "effective sandbox memory capacity must be positive" [])
  else if String.eqb s.(mc_CapacityIdentity) "" then Err (Errorf "memory capacity identity is required" [])
  else if negb (String.eqb s.(mc_CapacityIdentity) (TrimSpace s.(mc_CapacityIdentity)))
          || negb (ValidString s.(mc_CapacityIdentity)) || (1024 <? str_len s.(mc_CapacityIdentity))
  then Err (Errorf "memory capacity identity is invalid or exceeds 1024 bytes" [])
  else if s.(mc_SandboxCurrentBytes) <? 0 then Err (Errorf "sandbox current memory cannot be negative" [])
  else if s.(mc_SystemReserveAvailableBytes) <? 0
  then Err (Errorf "system reserve available memory cannot be negative" [])
  else if s.(mc_SystemReserveBaseAvailableBytes) <? s.(mc_SystemReserveAvailableBytes)
  then Err (Errorf "system reserve base headroom cannot be below current headroom" [])
  else if IsZero s.(mc_SampledAt) then Err (Errorf "memory capacity sample time is required" [])
  else Ok ().
Definition forget_capacity (conflict : bool) (c : CgroupManager) : CgroupManager :=
  set_capacity no_capacity c.(mg_memoryCapacityIdentity) conflict c.
Definition UpdateMemoryCapacity (f : fault) (s : MemoryCapacitySnapshot) (c : CgroupManager) :
    CgroupManager * result () :=
  if s.(mc_Unavailable) then (forget_capacity c.(mg_memoryIdentityConflict) c, Ok ())
  else
    match validate_capacity s with
    | Err e => (forget_capacity c.(mg_memoryIdentityConflict) c, Err e)
    | Ok _ =>
        let hasCommitment := hasCommittedMemoryLeaseLocked c in
        if c.(mg_memoryIdentityConflict) && hasCommitment
        then (forget_capacity true c,
              Err (Errorf "node memory capacity identity conflict remains until all allocation commitments retire" []))
        else
          let conflict := if hasCommitment then c.(mg_memoryIdentityConflict) else false in
          let previousIdentity := c.(mg_memoryCapacityIdentity) in
          if negb (String.eqb previousIdentity "") && negb (String.eqb previousIdentity s.(mc_CapacityIdentity)) && hasCommitment
          then (forget_capacity true c,
                Err (Errorf "node memory capacity identity changed while allocation commitments remain" []))
          else
            let c' := set_capacity s s.(mc_CapacityIdentity) false c in
            if String.eqb previousIdentity s.(mc_CapacityIdentity) then (c', Ok ())
            else match storeLocked f c' with
                 | (c', Ok _) => (c', Ok ())
                 | (c', Err e) =>
                     (set_capacity c.(mg_memoryCapacity) previousIdentity conflict c',
                      Err (Wrapf "persist node memory capacity identity: %w" [] e))
                 end
    end.

(** *** The warm pool (cgroup_pool.go) *)
Definition hasActiveConformanceLeaseLocked (c : CgroupManager) : bool :=
  existsb (fun l => bool_decide (l.(cl_OwnerKind) = OWNER_RUNTIME_CONFORMANCE) && committed_state l.(cl_State))
    (lease_list c).
Definition counts_as_workload (c : CgroupManager) (id : string) : bool :=
  negb match c.(mg_leases) !! id with
       | Some l => bool_decide (l.(cl_OwnerKind) = OWNER_RUNTIME_CONFORMANCE) | None => false end
  && negb (String.eqb (Dir id) c.(mg_conformanceRoot)).
Definition workloadCgroupCountLocked (c : CgroupManager) : Z :=
  Z.of_nat (length (List.filter (counts_as_workload c) (elements c.(mg_cgroups)))).

(** [created] is the answer of the cgroup driver. *)
Definition createOneLocked (owner : CgroupLeaseOwnerKind) (intn : nat -> nat -> nat) (created : string -> result ())
    (c : CgroupManager) : CgroupManager * result string :=
  let conformance := bool_decide (owner = OWNER_RUNTIME_CONFORMANCE) in
  if negb conformance && (MaxSizeLimit c <=? workloadCgroupCountLocked c) then (c, Err errResourceExhausted)
  else
    let with_generator g := if conformance then set_generators c.(mg_generator) g c
                            else set_generators g c.(mg_conformanceGenerator) c in
    match GetID intn (if conformance then c.(mg_conformanceGenerator) else c.(mg_generator)) with
    | (g, Err e) => (with_generator g, Err e)
    | (g, Ok id) =>
        match created id with
        | Err e => (with_generator (ReleaseId id g), Err e)
        | Ok _ =>
            let c := with_generator g in
            (set_lease (lease_idle id) (set_cgroups ({[id]} ∪ c.(mg_cgroups)) c), Ok id)
        end
    end.
Fixpoint addLocked (draws : list (nat -> nat -> nat)) (created : string -> result ()) (c : CgroupManager) :
    CgroupManager * nat :=
  match draws with
  | [] => (c, 0%nat)
  | d :: rest =>
      match createOneLocked OWNER_WORKLOAD d created c with
      | (c, Err _) => addLocked rest created c
      | (c, Ok id) =>
          let '(c, n) := addLocked rest created (set_idle (q_push c.(mg_idleID) id) c) in (c, Datatypes.S n)
      end
  end.
(** [Add num], with the draws of each of its [num] turns. *)
Definition Add (f : fault) (draws : list (nat -> nat -> nat)) (created : string -> result ()) (c : CgroupManager) :
    CgroupManager * nat :=
  let '(c, added) := addLocked draws created c in
  if (0 <? added)%nat then ((storeLocked f c).1, added) else (c, added).
Fixpoint shrinkLocked (num : nat) (now : Z) (c : CgroupManager) : CgroupManager :=
  match num with
  | O => c
  | Datatypes.S num =>
      let '(idle, id) := q_pop "" c.(mg_idleID) in
      let c := set_idle idle c in
      if String.eqb id "" then c
      else match c.(mg_leases) !! id with
           | None => shrinkLocked num now c
           | Some l =>
               shrinkLocked num now
                 (set_gc (q_push c.(mg_gcQueue) id)
                    (set_lease (lease_retiring now l.(cl_CurrentChargedBytes) l.(cl_LastCleanupError) l) c))
           end
  end.
Definition Del (f : fault) (num : nat) (now : time) (c : CgroupManager) : CgroupManager :=
  (storeLocked f (shrinkLocked num (UnixNano now) c)).1.

(** *** Allocate (cgroup_pool.go) *)
Definition allocate_kind (opt : AllocateOption) : CgroupLeaseOwnerKind :=
  if bool_decide (opt.(ao_CgroupOwnerKind) = OWNER_UNSPECIFIED) then OWNER_WORKLOAD else opt.(ao_CgroupOwnerKind).
Definition allocate_charge (opt : AllocateOption) : Z :=
  if opt.(ao_CapacityChargeBytes) =? 0 then opt.(ao_MemoryRequestBytes) else opt.(ao_CapacityChargeBytes).
Definition validate_allocate (opt : AllocateOption) : result () :=
  let kind := allocate_kind opt in
  let capacityCharge := allocate_charge opt in
  if String.eqb opt.(ao_ContainerID) "" then Err (Errorf "cgroup allocation requires allocation ownership" [])
  else if opt.(ao_MemoryRequestBytes) <? 0 then Err (Errorf "cgroup memory request cannot be negative" [])
  else if (opt.(ao_MemoryLimitBytes) <? 0) || (opt.(ao_CapacityChargeBytes) <? 0)
  then Err (Errorf "cgroup memory limit and capacity charge cannot be negative" [])
  else if (0 <? opt.(ao_MemoryLimitBytes)) && (opt.(ao_MemoryLimitBytes) <? opt.(ao_MemoryRequestBytes))
  then Err (Errorf "cgroup memory request cannot exceed its hard limit" [])
  else if negb (validAssignedCgroupOwner kind) then Err (Errorf "cgroup allocation owner kind is invalid" [])
  else if bool_decide (kind = OWNER_WORKLOAD) && negb (capacityCharge =? opt.(ao_MemoryRequestBytes))
  then Err (Errorf "workload capacity charge must equal its memory request" [])
  else if bool_decide (kind = OWNER_RUNTIME_CONFORMANCE) && (capacityCharge <? opt.(ao_MemoryRequestBytes))
  then Err (Errorf "runtime conformance capacity charge cannot be smaller than its memory request" [])
  else Ok ().

(** The binding the Allocation already has, if the request repeats it. *)
Definition same_binding (opt : AllocateOption) (l : CgroupLease) : bool :=
  bool_decide (l.(cl_State) = CLS_ASSIGNED) && bool_decide (l.(cl_OwnerKind) = allocate_kind opt)
  && (l.(cl_MemoryRequestBytes) =? opt.(ao_MemoryRequestBytes)) && (l.(cl_MemoryLimitBytes) =? opt.(ao_MemoryLimitBytes))
  && (l.(cl_CapacityChargeBytes) =? allocate_charge opt).
Definition existing_binding (opt : AllocateOption) (existing : string) (c : CgroupManager) : result string :=
  match c.(mg_leases) !! existing with
  | Some l => if same_binding opt l then Ok existing
              else Err (Errorf "allocation %s already has a different or retiring cgroup binding" [AStr opt.(ao_ContainerID)])
  | None => Err (Errorf "allocation %s already has a different or retiring cgroup binding" [AStr opt.(ao_ContainerID)])
  end.

Definition capacityFresh (now : time) (capacity : MemoryCapacitySnapshot) : bool :=
  negb (IsZero capacity.(mc_SampledAt)) && (Sub now capacity.(mc_SampledAt) <=? memoryCapacityFreshness)
  && negb (After capacity.(mc_SampledAt) (Prelude.Add now Minute)).
(** Go's [-] on int64 wraps. *)
Definition admit_conformance (now : time) (charge : Z) (c : CgroupManager) : result () :=
  let capacity := c.(mg_memoryCapacity) in
  if charge <=? 0 then Err (Errorf "runtime conformance requires an explicit memory charge" [])
  else
    let conformanceCommitted := (memoryCommitmentLocked now c).(cm_ConformanceBytes) in
    let commitmentHeadroom := Z.max (wrap64 (capacity.(mc_SystemReserveBaseAvailableBytes) - conformanceCommitted)) 0 in
    if commitmentHeadroom <? charge
    then Err (Wrapf "runtime conformance memory charge %d exceeds system reserve commitment headroom %d: %w"
                [AInt charge; AInt commitmentHeadroom] errResourceExhausted)
    else if capacity.(mc_SystemReserveAvailableBytes) <? charge
    then Err (Wrapf "runtime conformance memory charge %d exceeds system reserve headroom %d: %w"
                [AInt charge; AInt capacity.(mc_SystemReserveAvailableBytes)] errResourceExhausted)
    else Ok ().
Definition admit_workload (now : time) (request : Z) (c : CgroupManager) : result () :=
  let capacity := c.(mg_memoryCapacity) in
  if 0 <? request then
    let committed := (memoryCommitmentLocked now c).(cm_CommittedBytes) in
    if wrap64 (capacity.(mc_EffectiveAllocatableBytes) - committed) <? request
    then Err (Wrapf "sandbox memory request %d exceeds node-local available commitment %d: %w"
                [AInt request; AInt (Z.max (wrap64 (capacity.(mc_EffectiveAllocatableBytes) - committed)) 0)] errResourceExhausted)
    else if wrap64 (capacity.(mc_EffectiveAllocatableBytes) - capacity.(mc_SandboxCurrentBytes)) <? request
    then Err (Wrapf "sandbox memory request %d exceeds current safe headroom %d: %w"
                [AInt request; AInt (Z.max (wrap64 (capacity.(mc_EffectiveAllocatableBytes) - capacity.(mc_SandboxCurrentBytes))) 0)]
                errResourceExhausted)
    else Ok ()
  else Ok ().
Definition admit_memory (now : time) (opt : AllocateOption) (c : CgroupManager) : result () :=
  if negb c.(mg_memoryAdmissionRequired) then Ok ()
  else if negb (capacityFresh now c.(mg_memoryCapacity)) then Err errMemoryCapacityUnavailable
  else if c.(mg_memoryCapacity).(mc_SystemReserveExhausted)
  then Err (Wrapf "node memory system reserve is exhausted: %w" [] errResourceExhausted)
  else if bool_decide (allocate_kind opt = OWNER_RUNTIME_CONFORMANCE) then admit_conformance now (allocate_charge opt) c
  else admit_workload now opt.(ao_MemoryRequestBytes) c.

(** A warm object, or a new one. *)
Definition obtain (kind : CgroupLeaseOwnerKind) (intn : nat -> nat -> nat) (created : string -> result ()) (c : CgroupManager) :
    CgroupManager * result string :=
  let '(idle, id) := if bool_decide (kind = OWNER_RUNTIME_CONFORMANCE) then (c.(mg_idleID), "") else q_pop "" c.(mg_idleID) in
  let c := set_idle idle c in
  if negb (String.eqb id "") then (c, Ok id) else createOneLocked kind intn created c.

Definition assign (f : fault) (assignedAt : time) (opt : AllocateOption) (id : string) (c : CgroupManager) :
    CgroupManager * result string :=
  let kind := allocate_kind opt in
  match c.(mg_leases) !! id with
  | Some l =>
      if negb (bool_decide (l.(cl_State) = CLS_IDLE)) then (c, Err (Errorf "cgroup %s is not a durable idle lease" [AStr id]))
      else
        let l := lease_assigned opt kind (allocate_charge opt) (UnixNano assignedAt) l in
        let c := set_owners (<[opt.(ao_ContainerID) := id]> c.(mg_allocationLeases))
                   (set_using ({[id]} ∪ c.(mg_usingID)) (set_leases (<[id := l]> c.(mg_leases)) c)) in
        match storeLocked f c with
        | (c, Ok _) => (c, Ok id)
        | (c, Err e) =>
            let c := set_owners (delete opt.(ao_ContainerID) c.(mg_allocationLeases))
                       (set_using (c.(mg_usingID) ∖ {[id]}) c) in
            if bool_decide (kind = OWNER_RUNTIME_CONFORMANCE)
            then (set_gc (q_push c.(mg_gcQueue) id)
                    (set_leases (<[id := lease_unassigned CLS_RETIRING (UnixNano assignedAt) l]> c.(mg_leases)) c), Err e)
            else (set_idle (q_push c.(mg_idleID) id)
                    (set_leases (<[id := lease_unassigned CLS_IDLE l.(cl_RetiringAtUnixNano) l]> c.(mg_leases)) c), Err e)
        end
  | None => (c, Err (Errorf "cgroup %s is not a durable idle lease" [AStr id]))
  end.
Definition Allocate (f : fault) (now assignedAt : time) (intn : nat -> nat -> nat) (created : string -> result ())
    (opt : AllocateOption) (c : CgroupManager) : CgroupManager * result string :=
  match validate_allocate opt with
  | Err e => (c, Err e)
  | Ok _ =>
      match c.(mg_allocationLeases) !! opt.(ao_ContainerID) with
      | Some existing => (c, existing_binding opt existing c)
      | None =>
          match admit_memory now opt c with
          | Err e => (c, Err e)
          | Ok _ =>
              if bool_decide (allocate_kind opt = OWNER_RUNTIME_CONFORMANCE) && hasActiveConformanceLeaseLocked c
              then (c, Err (Wrapf "runtime conformance cgroup is already assigned or retiring: %w" [] errResourceExhausted))
              else match obtain (allocate_kind opt) intn created c with
                   | (c, Err e) => (c, Err e)
                   | (c, Ok id) => assign f assignedAt opt id c
                   end
          end
      end
  end.

(** *** Recycle: before, during and after asking the kernel *)
Definition Recycle_begin (id : string) (c : CgroupManager) : result (option CgroupLease) :=
  match c.(mg_leases) !! id with
  | None => Ok None
  | Some l =>
      match l.(cl_State) with
      | CLS_RETIRING => Ok None
      | CLS_ASSIGNED => Ok (Some l)
      | _ => Err (Errorf "cgroup %s cannot retire from state %s" [AStr id])
      end
  end.
Definition is_not_exist (e : error) : bool := errors_Is e "file does not exist".
(** [domain] and [currentBytes] are the kernel's answers. *)
Definition Recycle_inspect (id : string) (assigned : CgroupLease) (domain : result CgroupMemoryDomain)
    (currentBytes : result Z) : result Z :=
  match domain with
  | Err e => if is_not_exist e then Ok 0 else Err (Wrapf "inspect cgroup %s before retirement: %w" [AStr id] e)
  | Ok d =>
      _ ← (if cgroupLeaseHasMemoryIdentity assigned
           then wrap_err "verify cgroup %s before retirement: %w" [AStr id] (verifyPersistedCgroupParentIdentity assigned d)
           else Ok ());
      match currentBytes with
      | Err e => if is_not_exist e then Ok 0 else Err (Wrapf "sample cgroup %s before retirement: %w" [AStr id] e)
      | Ok charged =>
          if charged <? 0
          then Err (Errorf "sample cgroup %s before retirement: negative memory.current %d" [AStr id; AInt charged])
          else Ok charged
      end
  end.
Definition Recycle_finish (f : fault) (now : time) (id : string) (assigned : CgroupLease) (charged : Z) (c : CgroupManager) :
    CgroupManager * result () :=
  match c.(mg_leases) !! id with
  | None => (c, Err (Errorf "cgroup %s ownership disappeared during retirement" [AStr id]))
  | Some l =>
      if bool_decide (l.(cl_State) = CLS_RETIRING) then (c, Ok ())
      else if negb (bool_decide (l.(cl_State) = CLS_ASSIGNED))
              || negb (String.eqb l.(cl_AllocationID) assigned.(cl_AllocationID))
              || negb (l.(cl_AssignedAtUnixNano) =? assigned.(cl_AssignedAtUnixNano))
      then (c, Err (Errorf "cgroup %s ownership changed during retirement" [AStr id]))
      else
        let c := set_using (c.(mg_usingID) ∖ {[id]})
                   (set_leases (<[id := lease_retiring (UnixNano now) charged "" l]> c.(mg_leases)) c) in
        match storeLocked f c with
        | (c, Err e) => (set_using ({[id]} ∪ c.(mg_usingID)) (set_leases (<[id := l]> c.(mg_leases)) c), Err e)
        | (c, Ok _) => (set_gc (q_push c.(mg_gcQueue) id) c, Ok ())
        end
  end.

(** *** Binding the kernel identity (cgroup_store.go) *)
Definition BindMemoryDomain (f : fault) (cgroupID allocationID : string) (limitBytes : Z) (bootID mountIdentity : string)
    (parentInode leafInode : Z) (c : CgroupManager) : CgroupManager * result () :=
  if String.eqb cgroupID "" || String.eqb allocationID "" || (limitBytes <=? 0) || String.eqb bootID ""
     || String.eqb mountIdentity "" || (parentInode =? 0) || (leafInode =? 0) || (parentInode =? leafInode)
  then (c, Err (Errorf "complete allocation cgroup memory identity is required" []))
  else match c.(mg_leases) !! cgroupID with
  | None => (c, Err (Errorf "cgroup %s is not the matching assigned allocation lease" [AStr cgroupID]))
  | Some l =>
      if negb (bool_decide (l.(cl_State) = CLS_ASSIGNED)) || negb (String.eqb l.(cl_AllocationID) allocationID)
         || negb (l.(cl_MemoryLimitBytes) =? limitBytes)
      then (c, Err (Errorf "cgroup %s is not the matching assigned allocation lease" [AStr cgroupID]))
      else
        let same := String.eqb l.(cl_CgroupBootID) bootID && String.eqb l.(cl_CgroupMountIdentity) mountIdentity
                    && (l.(cl_CgroupParentInode) =? parentInode) && (l.(cl_CgroupLeafInode) =? leafInode) in
        let write l' message :=
          match storeLocked f (set_leases (<[cgroupID := l']> c.(mg_leases)) c) with
          | (c, Ok _) => (c, Ok ())
          | (c, Err e) => (set_leases (<[cgroupID := l]> c.(mg_leases)) c, Err (Wrapf message [] e))
          end in
        if cgroupLeaseHasAnyMemoryIdentity l then
          if negb same then (c, Err (Errorf "cgroup %s is already bound to a different kernel identity" [AStr cgroupID]))
          else if String.eqb l.(cl_LastIdentityVerificationError) "" then (c, Ok ())
          else write (set_identity_error "" l) "clear allocation cgroup identity diagnostic: %w"
        else write (set_identity bootID mountIdentity parentInode leafInode "" l) "persist allocation cgroup memory identity: %w"
  end.

(** *** Queries *)
Record RetiringMemoryLease := mkRetiring {
  rm_CgroupID : string; rm_AllocationID : string; rm_MemoryRequest : Z; rm_MemoryLimit : Z; rm_BootID : string;
  rm_MountIdentity : string; rm_ParentInode : Z; rm_LeafInode : Z }.
Definition retiring_lease (l : CgroupLease) : RetiringMemoryLease :=
  mkRetiring l.(cl_CgroupID) l.(cl_AllocationID) l.(cl_MemoryRequestBytes) l.(cl_MemoryLimitBytes) l.(cl_CgroupBootID)
    l.(cl_CgroupMountIdentity) l.(cl_CgroupParentInode) l.(cl_CgroupLeafInode).
Definition RetiringMemoryLeases (c : CgroupManager) : list RetiringMemoryLease :=
  sort_slice (fun a b => string_lt a.(rm_AllocationID) b.(rm_AllocationID))
    (map retiring_lease
       (List.filter (fun l => bool_decide (l.(cl_State) = CLS_RETIRING) && negb (String.eqb l.(cl_AllocationID) ""))
          (lease_list c))).
Definition AllocationLeaseCleanupStatus (allocationID : string) (c : CgroupManager) : bool * string :=
  if String.eqb allocationID "" then (false, "")
  else match List.find (fun l => String.eqb l.(cl_AllocationID) allocationID) (lease_list c) with
       | Some l => (true, l.(cl_LastCleanupError))
       | None => (false, "")
       end.

(** *** The conformance binding (cgroup_conformance_recovery.go) *)
Definition normalizeGroup (group : string) : string :=
  if String.eqb group "" then "/"
  else
    let group := Clean ("/" +:+ TrimPrefix group "/") in
    if String.eqb group "." then "/" else group.
(** [filepath.Join] of two non-empty elements, in unified mode. *)
Definition WorkloadGroup (group : string) : string := Clean (normalizeGroup group +:+ "/" +:+ "workload").
Definition VerifyRuntimeConformanceBinding (allocationID : string) (manifest : option AllocationEnforcementManifest)
    (c : CgroupManager) : result () :=
  match manifest with
  | None => Err (Errorf "runtime conformance cleanup requires exact allocation and manifest" [])
  | Some m =>
      if String.eqb allocationID "" || negb (String.eqb (TrimSpace allocationID) allocationID)
      then Err (Errorf "runtime conformance cleanup requires exact allocation and manifest" [])
      else
        let path := m.(em_CgroupPath) in
        if negb (IsAbs path) || negb (String.eqb (Clean path) path) || negb (String.eqb (TrimSpace path) path)
           || String.eqb c.(mg_conformanceRoot) "" || negb (String.eqb (Dir path) c.(mg_conformanceRoot))
           || negb (String.eqb m.(em_RuntimeCgroupPath) (WorkloadGroup path))
        then Err (Errorf "runtime conformance cgroup is outside its owned domain" [])
        else match c.(mg_leases) !! path with
        | None => Err (Errorf "runtime conformance cleanup requires its exact typed cgroup lease" [])
        | Some l =>
            if negb (String.eqb l.(cl_CgroupID) path) || negb (String.eqb l.(cl_AllocationID) allocationID)
               || negb (bool_decide (l.(cl_OwnerKind) = OWNER_RUNTIME_CONFORMANCE))
            then Err (Errorf "runtime conformance cleanup requires its exact typed cgroup lease" [])
            else
              _ ← wrap_err "invalid runtime conformance ownership: %w" [] (validateCgroupLease l);
              if negb (committed_state l.(cl_State)) then Err (Errorf "runtime conformance cgroup is not owned" [])
              else if negb (l.(cl_MemoryLimitBytes) =? m.(em_MemoryLimitBytes))
                      || negb (String.eqb l.(cl_CgroupBootID) m.(em_CgroupBootID))
                      || negb (String.eqb l.(cl_CgroupMountIdentity) m.(em_CgroupMountIdentity))
                      || negb (l.(cl_CgroupParentInode) =? m.(em_CgroupParentInode))
                      || negb (l.(cl_CgroupLeafInode) =? m.(em_CgroupLeafInode))
              then Err (Errorf "runtime conformance projection differs from its durable cgroup lease" [])
              else Ok ()
        end
  end.

(** *** Retirement (cgroup_gc.go)

    One worker takes an identifier from the queue and asks the kernel; the mutex
    is given up between the parts. *)
Definition gc_pop (c : CgroupManager) : CgroupManager * string :=
  let '(queue, id) := q_pop "" c.(mg_gcQueue) in (set_gc queue c, id).
Definition converge_begin (id : string) (c : CgroupManager) : result (option CgroupLease) :=
  match c.(mg_leases) !! id with
  | None => Ok None
  | Some l =>
      if negb (bool_decide (l.(cl_State) = CLS_RETIRING))
      then Err (Errorf "cgroup %s cleanup requested from state %s" [AStr id]) else Ok (Some l)
  end.
Definition gc_staleRoot (id : string) (c : CgroupManager) : bool :=
  negb (String.eqb c.(mg_rootName) "") && negb (cgroupPathInCurrentRoot id c.(mg_rootName) c.(mg_conformanceRoot)).
(** [true] when the kernel object is known to be gone. [staleProcesses],
    [inspected] and [currentBytes] are the kernel's answers. *)
Definition converge_verify (id : string) (l : CgroupLease) (staleProcesses : result Z)
    (inspected : result CgroupMemoryDomain) (currentBytes : result Z) (c : CgroupManager) : result (option Z) :=
  if gc_staleRoot id c && negb (cgroupLeaseHasMemoryIdentity l) then
    if match staleProcesses with Err e => is_not_exist e | Ok _ => false end then Ok None
    else Err (Errorf "retiring cgroup %s outside the current delegation has no durable kernel identity" [AStr id])
  else
    let read :=
      match currentBytes with
      | Ok bytes => Ok (Some bytes)
      | Err e => if is_not_exist e then Ok None else Err (Wrapf "read retiring cgroup memory: %w" [] e)
      end in
    if cgroupLeaseHasMemoryIdentity l then
      match verifyPersistedCgroupIdentity l inspected with
      | Err e => if is_not_exist e then Ok None else Err (Wrapf "verify retiring cgroup identity: %w" [] e)
      | Ok _ => read
      end
    else read.
Definition converge_charge (id : string) (charged : Z) (c : CgroupManager) : CgroupManager * result () :=
  match c.(mg_leases) !! id with
  | Some l =>
      if bool_decide (l.(cl_State) = CLS_RETIRING)
      then (set_leases (<[id := set_charged charged l]> c.(mg_leases)) c, Ok ())
      else (c, Err (Errorf "cgroup %s retirement ownership changed during cleanup" [AStr id]))
  | None => (c, Err (Errorf "cgroup %s retirement ownership changed during cleanup" [AStr id]))
  end.
(** [processes] is how many processes the cgroup has, [removed] the outcome of
    removing it. *)
Definition converge_end (id : string) (processes : result Z) (removed : result ()) : result () :=
  match processes with
  | Err e => if is_not_exist e then Ok () else Err (Wrapf "inventory retiring cgroup processes: %w" [] e)
  | Ok n =>
      if negb (n =? 0) then Err (Errorf "retiring cgroup still contains %d process(es)" [AInt n])
      else match removed with
           | Ok _ => Ok ()
           | Err e => if is_not_exist e then Ok () else Err (Wrapf "delete cgroup %s: %w" [AStr id] e)
           end
  end.
Definition recordRetiringFailure (f : fault) (id message : string) (c : CgroupManager) : CgroupManager :=
  let c := match c.(mg_leases) !! id with
           | Some l => set_leases (<[id := set_cleanup_error (boundedCgroupDiagnostic message) l]> c.(mg_leases)) c
           | None => c
           end in
  (storeLocked f c).1.
Definition release_id (id : string) (c : CgroupManager) : CgroupManager :=
  if String.eqb (Dir id) c.(mg_conformanceRoot)
  then set_generators c.(mg_generator) (ReleaseId id c.(mg_conformanceGenerator)) c
  else set_generators (ReleaseId id c.(mg_generator)) c.(mg_conformanceGenerator) c.
Definition completeRetiringCgroup (f : fault) (id : string) (c : CgroupManager) : CgroupManager * result () :=
  match c.(mg_leases) !! id with
  | None => (c, Ok ())
  | Some l =>
      let owner := l.(cl_AllocationID) in
      let c := set_using (c.(mg_usingID) ∖ {[id]})
                 (set_cgroups (c.(mg_cgroups) ∖ {[id]}) (set_leases (delete id c.(mg_leases)) c)) in
      let c := if negb (String.eqb owner "") then set_owners (delete owner c.(mg_allocationLeases)) c else c in
      match storeLocked f c with
      | (c, Ok _) => (release_id id c, Ok ())
      | (c, Err e) =>
          let c := set_cgroups ({[id]} ∪ c.(mg_cgroups)) (set_leases (<[id := l]> c.(mg_leases)) c) in
          (if negb (String.eqb owner "") then set_owners (<[owner := id]> c.(mg_allocationLeases)) c else c,
           Err (Wrapf "persist completed cgroup retirement: %w" [] e))
      end
  end.
Definition gc_push (id : string) (c : CgroupManager) : CgroupManager := set_gc (q_push c.(mg_gcQueue) id) c.

(** *** The periodic store loop (keepStoring) *)
Definition keepStoring_tick (f : fault) (c : CgroupManager) : CgroupManager :=
  if c.(mg_storeMark) then (storeLocked f c).1 else c.

(** ** Start (NewCgroupManager)

    [inspect] is the kernel's answer for the identity of a lease, [kernel] the
    groups found below the two roots. *)
Record loading := mkLoading {
  ld_idle : list string; ld_using : gset string; ld_leases : gmap string CgroupLease; ld_owners : gmap string string;
  ld_gc : list string; ld_cgroups : gset string }.
Definition own (l : CgroupLease) (ld : loading) : result (gmap string string) :=
  match ld.(ld_owners) !! l.(cl_AllocationID) with
  | Some existing => Err (Errorf "allocation %s owns multiple cgroups: %s and %s"
                            [AStr l.(cl_AllocationID); AStr existing; AStr l.(cl_CgroupID)])
  | None => Ok (<[l.(cl_AllocationID) := l.(cl_CgroupID)]> ld.(ld_owners))
  end.
(** The lease to keep: [None] when the object can be recreated or has converged. *)
Definition recover_lease (stale present : bool) (inspected : result CgroupMemoryDomain) (error_text : error -> string)
    (l : CgroupLease) : option CgroupLease :=
  if negb (stale || present) then
    if missingKernelLeaseConverged l.(cl_State) then None
    else Some (set_identity_error "assigned cgroup kernel object is missing" l)
  else if cgroupLeaseHasMemoryIdentity l then
    match verifyPersistedCgroupIdentity l inspected with
    | Err e => Some (set_identity_error (boundedCgroupDiagnostic (error_text e)) l)
    | Ok _ => Some (set_identity_error "" l)
    end
  else Some l.
Definition load_lease (resolvedRoot conformanceRoot : string) (inspect : CgroupLease -> result CgroupMemoryDomain)
    (error_text : error -> string) (ld : loading) (l : CgroupLease) : result loading :=
  let id := l.(cl_CgroupID) in
  let stale := negb (cgroupPathInCurrentRoot id resolvedRoot conformanceRoot) in
  let present := bool_decide (id ∈ ld.(ld_cgroups)) in
  match recover_lease stale present (inspect l) error_text l with
  | None => Ok ld
  | Some copy =>
      let cgroups := if negb (stale || present) then {[id]} ∪ ld.(ld_cgroups) else ld.(ld_cgroups) in
      let leases := <[id := copy]> ld.(ld_leases) in
      match copy.(cl_State) with
      | CLS_IDLE => Ok (mkLoading (q_push ld.(ld_idle) id) ld.(ld_using) leases ld.(ld_owners) ld.(ld_gc) cgroups)
      | CLS_ASSIGNED =>
          owners ← own copy ld;
          Ok (mkLoading ld.(ld_idle) ({[id]} ∪ ld.(ld_using)) leases owners ld.(ld_gc) cgroups)
      | CLS_RETIRING =>
          owners ← (if String.eqb copy.(cl_AllocationID) "" then Ok ld.(ld_owners) else own copy ld);
          Ok (mkLoading ld.(ld_idle) ld.(ld_using) leases owners (q_push ld.(ld_gc) id) cgroups)
      | _ => Ok (mkLoading ld.(ld_idle) ld.(ld_using) leases ld.(ld_owners) ld.(ld_gc) cgroups)
      end
  end.
Definition unexplained_lease (now : Z) (id : string) : CgroupLease :=
  mkLease id CLS_RETIRING "" 0 0 0 OWNER_UNSPECIFIED 0 now 0 "cgroup has no durable ownership record" "" "" "" 0 0.
Definition load_unexplained (now : Z) (ld : loading) (id : string) : loading :=
  match ld.(ld_leases) !! id with
  | Some _ => ld
  | None => mkLoading ld.(ld_idle) ld.(ld_using) (<[id := unexplained_lease now id]> ld.(ld_leases)) ld.(ld_owners)
              (q_push ld.(ld_gc) id) ld.(ld_cgroups)
  end.
Definition identity_canonical (identity : string) : result () :=
  let trimmed := TrimSpace identity in
  if (1024 <? str_len trimmed) || negb (ValidString trimmed)
  then Err (Errorf "cgroup ledger memory capacity identity is invalid or exceeds 1024 bytes" [])
  else if negb (String.eqb trimmed identity) then Err (Errorf "cgroup ledger memory capacity identity is not canonical" [])
  else Ok ().
(** [filepath.Join(filepath.Dir(resolvedRoot), "conformance")]. *)
Definition conformance_root (resolvedRoot : string) : string := Clean (Dir resolvedRoot +:+ "/" +:+ "conformance").
Definition load_ledger (read : fault) (db : S) : result CgroupLedger :=
  match LoadSnapshot read CgroupBucket db with
  | Ok m => Ok m
  | Err e => if IsNotFound e then Ok (mkLedger [] "") else Err (Wrapf "load cgroup ownership ledger: %w" [] e)
  end.
Definition load_pools (resolvedRoot : string) (kernel : gset string) (inspect : CgroupLease -> result CgroupMemoryDomain)
    (error_text : error -> string) (now : time) (stored : CgroupLedger) : result loading :=
  let conformanceRoot := conformance_root resolvedRoot in
  _ ← identity_canonical stored.(cg_MemoryCapacityIdentity);
  reconciled ← reconcileCgroupLeasesForRoots stored.(cg_Leases) resolvedRoot conformanceRoot;
  ld ← fold_left (fun r l => ld ← r; load_lease resolvedRoot conformanceRoot inspect error_text ld l) reconciled.1
         (Ok (mkLoading [] ∅ ∅ ∅ [] kernel));
  Ok (fold_left (load_unexplained (UnixNano now)) (elements ld.(ld_cgroups)) ld).
Definition new_manager (size cacheSize : Z) (resolvedRoot : string) (memoryAdmissionRequired : bool) (db : S)
    (identity : string) (ld : loading) : CgroupManager :=
  let conformanceRoot := conformance_root resolvedRoot in
  mkManager size cacheSize resolvedRoot conformanceRoot ld.(ld_using) ld.(ld_idle) ld.(ld_leases)
    ld.(ld_owners) ld.(ld_cgroups)
    (NewGenerator resolvedRoot (cgroupIDsUnderRoot (elements ld.(ld_cgroups)) resolvedRoot))
    (NewGenerator conformanceRoot (cgroupIDsUnderRoot (elements ld.(ld_cgroups)) conformanceRoot))
    db false ld.(ld_gc) no_capacity identity false memoryAdmissionRequired.
Definition NewCgroupManager (read write : fault) (size cacheSize : Z) (resolvedRoot : string)
    (kernel : gset string) (inspect : CgroupLease -> result CgroupMemoryDomain) (error_text : error -> string)
    (now : time) (memoryAdmissionRequired : bool) (db : S) : S * result CgroupManager :=
  let build :=
    stored ← load_ledger read db;
    ld ← load_pools resolvedRoot kernel inspect error_text now stored;
    let c := new_manager size cacheSize resolvedRoot memoryAdmissionRequired db stored.(cg_MemoryCapacityIdentity) ld in
    if memoryAdmissionRequired && hasCommittedMemoryLeaseLocked c && String.eqb c.(mg_memoryCapacityIdentity) ""
    then Err (Errorf "cgroup ledger has allocation commitments without a durable node memory identity" [])
    else Ok c in
  match build with
  | Err e => (db, Err e)
  | Ok c => match storeLocked write c with
            | (c, Ok _) => (c.(mg_db), Ok c)
            | (c, Err e) => (c.(mg_db), Err e)
            end
  end.
End manager.
