(* ===== verification/CgroupFacts.v ===== *)
(** * What the cgroup ledger keeps

    The pools of [Cgroup] describe the ledger exactly, every lease in it is one
    that [validateCgroupLease] accepts, and what owns memory is always on disk.
    The moves of one lease are lemmas; each operation is a few of them. *)
From S2P Require Import Prelude Proto Resource Capability CapabilityFacts Execution NodeDB NodeAllocation Queue TruncIndex Cgroup.
Import queue.

(** ** Diagnostics *)
Lemma to_valid_utf8_drop fuel b s : utf8 (to_valid_utf8_fuel fuel b "" s).
Proof.
  revert b s. induction fuel as [|fuel IH]; intros b s; [constructor|].
  destruct s as [|c s]; [constructor|]. cbn [to_valid_utf8_fuel].
  destruct (rune_len (String c s)) as [n|] eqn:Hn; [by apply utf8_app|]. by destruct b; [|apply IH].
Qed.
Lemma trim_to_valid_spec fuel m : (String.length m <= fuel)%nat ->
  ValidString (trim_to_valid fuel m) = true /\ (String.length (trim_to_valid fuel m) <= fuel)%nat.
Proof.
  revert m. induction fuel as [|fuel IH]; intros m Hm; [by destruct m; [|simpl in Hm; lia]|]. simpl.
  destruct (ValidString m) eqn:Ev; [done|].
  pose proof (take_bytes_length (String.length m - 1) m).
  destruct (IH (take_bytes (String.length m - 1) m)) as [? ?]; [lia|]. split; [done|lia].
Qed.
Lemma boundedCgroupDiagnostic_ok m : diagnostic_ok (boundedCgroupDiagnostic m) = true.
Proof.
  unfold boundedCgroupDiagnostic, diagnostic_ok. set (s := ToValidUTF8 m "").
  assert (Hs : ValidString s = true) by (apply ValidString_utf8, to_valid_utf8_drop).
  destruct (Z.leb_spec (str_len s) 1024) as [Hl|Hl].
  - apply andb_true_iff. split; [by apply Z.leb_le|done].
  - destruct (trim_to_valid_spec 1024 (take_bytes 1024 s)) as [Hv Hn]; [apply take_bytes_length|].
    apply andb_true_iff. split; [|done]. apply Z.leb_le. unfold str_len. lia.
Qed.

(** ** A valid lease *)
Definition assigned_by (l : CgroupLease) : Prop :=
  0 < l.(cl_AssignedAtUnixNano) /\ validAssignedCgroupOwner l.(cl_OwnerKind) = true.
Definition state_wf (l : CgroupLease) : Prop :=
  match l.(cl_State) with
  | CLS_IDLE => l.(cl_AllocationID) = "" /\ l.(cl_RetiringAtUnixNano) = 0 /\ unowned l = true
  | CLS_ASSIGNED => l.(cl_AllocationID) <> "" /\ assigned_by l /\ l.(cl_RetiringAtUnixNano) = 0
  | CLS_RETIRING => 0 < l.(cl_RetiringAtUnixNano) /\
      (l.(cl_AllocationID) = "" /\ unowned l = true \/ l.(cl_AllocationID) <> "" /\ assigned_by l)
  | _ => False
  end.
Definition identity_wf (l : CgroupLease) : Prop :=
  cgroupLeaseHasAnyMemoryIdentity l = true ->
  cgroupLeaseHasMemoryIdentity l = true /\ 0 < l.(cl_MemoryLimitBytes) /\ str_len l.(cl_CgroupBootID) <= 128 /\
  str_len l.(cl_CgroupMountIdentity) <= 1024 /\ l.(cl_CgroupParentInode) <> l.(cl_CgroupLeafInode).
Record memory_wf (l : CgroupLease) : Prop := {
  mw_request : 0 <= l.(cl_MemoryRequestBytes);
  mw_limit : 0 <= l.(cl_MemoryLimitBytes);
  mw_charge : 0 <= l.(cl_CapacityChargeBytes);
  mw_current : 0 <= l.(cl_CurrentChargedBytes);
  mw_fits : 0 < l.(cl_MemoryLimitBytes) -> l.(cl_MemoryRequestBytes) <= l.(cl_MemoryLimitBytes);
  mw_owner : l.(cl_AllocationID) <> "" -> l.(cl_MemoryRequestBytes) <= capacity_charge l /\
    (l.(cl_OwnerKind) = OWNER_WORKLOAD -> capacity_charge l = l.(cl_MemoryRequestBytes)) }.
Record lease_wf (l : CgroupLease) : Prop := {
  lw_id : l.(cl_CgroupID) <> "";
  lw_state : state_wf l;
  lw_memory : memory_wf l;
  lw_identity : identity_wf l;
  lw_identity_error : diagnostic_ok l.(cl_LastIdentityVerificationError) = true;
  lw_cleanup_error : diagnostic_ok l.(cl_LastCleanupError) = true }.

Lemma has_any_identity l : cgroupLeaseHasMemoryIdentity l = true -> cgroupLeaseHasAnyMemoryIdentity l = true.
Proof. unfold cgroupLeaseHasMemoryIdentity, cgroupLeaseHasAnyMemoryIdentity. by destruct (String.eqb _ ""). Qed.
(** Each conditional of a check, decided in turn. *)
Ltac check_one :=
  match goal with
  | |- context [String.eqb ?a ?b] => destruct (String.eqb_spec a b)
  | |- context [?a <=? ?b] => destruct (Z.leb_spec a b)
  | |- context [?a <? ?b] => destruct (Z.ltb_spec a b)
  | |- context [?a =? ?b] => destruct (Z.eqb_spec a b)
  | |- context [bool_decide ?P] => destruct (bool_decide_reflect P)
  end.
Ltac checks :=
  repeat (check_one; cbn [orb andb negb];
    try lazymatch goal with
    | |- Err _ = Ok _ -> _ => discriminate 1
    | |- Ok () = Ok () => reflexivity
    end).
Lemma validate_state_wf l : validate_lease_state l = Ok () <-> state_wf l.
Proof.
  unfold validate_lease_state, state_wf, assigned_by. destruct (cl_State l).
  - split; done.
  - destruct (unowned l); checks; simpl; intuition done.
  - destruct (validAssignedCgroupOwner _); checks; simpl; intuition (done || lia).
  - destruct (validAssignedCgroupOwner _), (unowned l); checks; simpl; intuition (done || lia).
  - split; done.
Qed.
Lemma validate_memory_wf l : state_wf l -> validate_lease_memory l = Ok () <-> memory_wf l.
Proof.
  intros Hst. assert (Hni : l.(cl_AllocationID) <> "" -> l.(cl_State) <> CLS_IDLE)
    by (unfold state_wf in Hst; intros Ha E; rewrite E in Hst; by destruct Hst).
  unfold validate_lease_memory. split.
  - checks; simpl; try done; intros _; split; try lia; intros; tauto || (split; [lia|intros; tauto || lia]).
  - intros [H1 H2 H3 H4 Hf Ho]. checks; simpl; try done; try lia; exfalso; destruct Ho; auto; lia.
Qed.
Lemma validate_identity_wf l :
  validate_lease_identity l = Ok () <->
  identity_wf l /\ diagnostic_ok l.(cl_LastIdentityVerificationError) = true /\ diagnostic_ok l.(cl_LastCleanupError) = true.
Proof.
  unfold validate_lease_identity, identity_wf. pose proof (has_any_identity l) as Hh.
  destruct (diagnostic_ok (cl_LastIdentityVerificationError l)), (diagnostic_ok (cl_LastCleanupError l)),
    (cgroupLeaseHasAnyMemoryIdentity l), (cgroupLeaseHasMemoryIdentity l);
    try (by specialize (Hh eq_refl)); checks; simpl; intuition (done || lia).
Qed.
Lemma validate_wf l : validateCgroupLease l = Ok () <-> lease_wf l.
Proof.
  unfold validateCgroupLease. destruct (String.eqb_spec l.(cl_CgroupID) "") as [|Hid]; [split; [done|by intros []]|]. split.
  - destruct (validate_lease_state l) as [[]|] eqn:Es; [cbn|done]. apply validate_state_wf in Es.
    destruct (validate_lease_memory l) as [[]|] eqn:Em; [cbn|done]. apply (validate_memory_wf _ Es) in Em.
    intros (? & ? & ?)%validate_identity_wf. done.
  - intros [_ Es Em Ei ? ?]. rewrite (proj2 (validate_state_wf l) Es), (proj2 (validate_memory_wf l Es) Em). cbn.
    by apply validate_identity_wf.
Qed.

(** ** Moves of one lease *)
Lemma unowned_facts l : unowned l = true ->
  l.(cl_OwnerKind) = OWNER_UNSPECIFIED /\ l.(cl_MemoryRequestBytes) = 0 /\ l.(cl_MemoryLimitBytes) = 0 /\
  l.(cl_CapacityChargeBytes) = 0 /\ l.(cl_AssignedAtUnixNano) = 0 /\ cgroupLeaseHasAnyMemoryIdentity l = false.
Proof.
  unfold unowned. intros Hu. b2p. repeat match goal with H : (_ =? _) = true |- _ => apply Z.eqb_eq in H end. done.
Qed.
Lemma idle_facts l : lease_wf l -> l.(cl_State) = CLS_IDLE ->
  l.(cl_AllocationID) = "" /\ l.(cl_RetiringAtUnixNano) = 0 /\ unowned l = true.
Proof. intros Hw E. pose proof (lw_state _ Hw) as Hs. unfold state_wf in Hs. by rewrite E in Hs. Qed.

Lemma lease_idle_wf id : id <> "" -> lease_wf (lease_idle id).
Proof. intros Hid. split; simpl; try done; try (split; simpl; done || lia). Qed.
Lemma lease_assigned_wf opt at_ l :
  lease_wf l -> l.(cl_State) = CLS_IDLE -> validate_allocate opt = Ok () -> 0 < at_ ->
  lease_wf (lease_assigned opt (allocate_kind opt) (allocate_charge opt) at_ l).
Proof.
  intros Hw Ei Hv Hat. destruct (idle_facts _ Hw Ei) as (Ha & Hr & Hu). apply unowned_facts in Hu as (_ & _ & _ & _ & _ & Hid).
  unfold validate_allocate in Hv. revert Hv. unfold allocate_charge.
  destruct (validAssignedCgroupOwner (allocate_kind opt)) eqn:Eo; checks; simpl; try done; intros _;
    (split; simpl; [exact (lw_id _ Hw)|unfold state_wf, assigned_by; simpl; by rewrite Hr| |intros Hi; change (cgroupLeaseHasAnyMemoryIdentity l = true) in Hi; congruence
      |exact (lw_identity_error _ Hw)|exact (lw_cleanup_error _ Hw)]);
    (split; simpl; unfold capacity_charge; simpl; checks; try lia; try (apply (mw_current _ (lw_memory _ Hw)));
     intros; try (split; [lia|]); intros; try lia; try congruence);
    exfalso; revert Eo; unfold validAssignedCgroupOwner; by rewrite !bool_decide_false.
Qed.
Lemma lease_unassigned_wf state opt kind charge at_ retiringAt l :
  lease_wf l -> l.(cl_State) = CLS_IDLE ->
  (state = CLS_IDLE /\ retiringAt = 0 \/ state = CLS_RETIRING /\ 0 < retiringAt) ->
  lease_wf (lease_unassigned state retiringAt (lease_assigned opt kind charge at_ l)).
Proof.
  intros Hw Ei Hs. destruct (idle_facts _ Hw Ei) as (Ha & Hr & Hu). apply unowned_facts in Hu as (_ & _ & _ & _ & _ & Hid).
  assert (Hun : unowned (lease_unassigned state retiringAt (lease_assigned opt kind charge at_ l)) = true)
    by (unfold unowned; apply andb_true_iff; split; [done|]; apply negb_true_iff; exact Hid).
  split; simpl; try apply Hw; [|split; simpl; try done; apply (mw_current _ (lw_memory _ Hw))|intros Hi; change (cgroupLeaseHasAnyMemoryIdentity l = true) in Hi; congruence].
  unfold state_wf. simpl. destruct Hs as [[-> ->]|[-> Hp]]; [done|]. split; [done|]. by left.
Qed.
(** A retiring lease keeps what it owned. *)
Lemma lease_retiring_wf retiringAt charged message l :
  lease_wf l -> l.(cl_State) = CLS_IDLE \/ l.(cl_State) = CLS_ASSIGNED -> 0 < retiringAt -> 0 <= charged ->
  diagnostic_ok message = true -> lease_wf (lease_retiring retiringAt charged message l).
Proof.
  intros [Hid Hst [H1 H2 H3 H4 Hf Ho] Hi Hd1 Hd2] Hs Hr Hc Hm.
  split; simpl; try done. unfold state_wf in *. simpl. split; [done|].
  destruct Hs as [E|E]; rewrite E in Hst; [left|right]; destruct Hst as (? & ? & ?); by split.
Qed.
Lemma set_charged_wf charged l : lease_wf l -> 0 <= charged -> lease_wf (set_charged charged l).
Proof. intros [Hid Hst [H1 H2 H3 H4 Hf Ho] Hi Hd1 Hd2] Hc. split; simpl; done. Qed.
Lemma set_cleanup_error_wf message l : lease_wf l -> diagnostic_ok message = true -> lease_wf (set_cleanup_error message l).
Proof. intros [Hid Hst [H1 H2 H3 H4 Hf Ho] Hi Hd1 Hd2] Hc. split; simpl; done. Qed.
Lemma set_identity_error_wf message l : lease_wf l -> diagnostic_ok message = true -> lease_wf (set_identity_error message l).
Proof. intros [Hid Hst [H1 H2 H3 H4 Hf Ho] Hi Hd1 Hd2] Hc. split; simpl; done. Qed.
Lemma set_identity_wf bootID mountIdentity parentInode leafInode l :
  lease_wf l -> l.(cl_State) = CLS_ASSIGNED -> 0 < l.(cl_MemoryLimitBytes) ->
  bootID <> "" -> mountIdentity <> "" -> parentInode <> 0 -> leafInode <> 0 -> parentInode <> leafInode ->
  str_len bootID <= 128 -> str_len mountIdentity <= 1024 ->
  lease_wf (set_identity bootID mountIdentity parentInode leafInode "" l).
Proof.
  intros [Hid Hst [H1 H2 H3 H4 Hf Ho] Hi Hd1 Hd2] E Hl Hb Hm Hp Hlf Hne Hbl Hml.
  split; simpl; try done.
  - unfold state_wf in *. simpl. by rewrite E in *.
  - intros _. unfold cgroupLeaseHasMemoryIdentity. simpl. split_and!; try done. checks; done.
Qed.
Lemma unexplained_wf now id : id <> "" -> 0 < now -> lease_wf (unexplained_lease now id).
Proof.
  intros Hid Hn. split; try done; try (split; simpl; done || lia).
  unfold state_wf. simpl. split; [done|]. by left.
Qed.

(** ** The ledger of a map of leases *)
(** What a lease holds; diagnostics and the current charge are left out. *)
Definition holding (l : CgroupLease) : CgroupLease := set_cleanup_error "" (set_identity_error "" (set_charged 0 l)).
Definition owned (l : CgroupLease) : option CgroupLease :=
  if String.eqb l.(cl_AllocationID) "" then None else Some (holding l).
Definition holdings (m : gmap string CgroupLease) : gmap string CgroupLease := omap owned m.
Definition conformance_active (l : CgroupLease) : bool :=
  bool_decide (l.(cl_OwnerKind) = OWNER_RUNTIME_CONFORMANCE) && committed_state l.(cl_State).
Record leases_ok (m : gmap string CgroupLease) : Prop := {
  lo_key id l : m !! id = Some l -> l.(cl_CgroupID) = id /\ lease_wf l;
  lo_owner id id' l l' : m !! id = Some l -> m !! id' = Some l' -> l.(cl_AllocationID) <> "" ->
    l.(cl_AllocationID) = l'.(cl_AllocationID) -> id = id';
  lo_conformance id id' l l' : m !! id = Some l -> m !! id' = Some l' -> conformance_active l = true ->
    conformance_active l' = true -> id = id' }.

Lemma leases_ok_empty : leases_ok ∅.
Proof. split; intros *; rewrite lookup_empty; done. Qed.
(** A lease changes, keeping its owner or giving it up. *)
Lemma leases_ok_update m id l l' :
  leases_ok m -> m !! id = Some l -> l'.(cl_CgroupID) = id -> lease_wf l' ->
  (l'.(cl_AllocationID) = "" \/ l'.(cl_AllocationID) = l.(cl_AllocationID)) ->
  (conformance_active l' = true -> conformance_active l = true) -> leases_ok (<[id := l']> m).
Proof.
  intros [Hk Ho Hc] Hl Hid Hw Ha Hcf. split.
  - intros x lx [[<- <-]|[_ Hx]]%lookup_insert_Some; [done|by apply Hk].
  - intros x y lx ly [[<- <-]|[Nx Hx]]%lookup_insert_Some [[<- <-]|[Ny Hy]]%lookup_insert_Some Hne E; try done.
    + destruct Ha as [Ha|Ha]; [done|]. apply (Ho _ _ l ly); try done; congruence.
    + destruct Ha as [Ha|Ha]; [congruence|]. apply (Ho _ _ lx l); try done; congruence.
    + by apply (Ho _ _ lx ly).
  - intros x y lx ly [[<- <-]|[Nx Hx]]%lookup_insert_Some [[<- <-]|[Ny Hy]]%lookup_insert_Some Cx Cy; try done.
    + by apply (Hc _ _ l ly); [|done|apply Hcf|].
    + by apply (Hc _ _ lx l); [| |done|apply Hcf].
    + by apply (Hc _ _ lx ly).
Qed.
Lemma holdings_empty m : holdings m = ∅ <-> forall id l, m !! id = Some l -> l.(cl_AllocationID) = "".
Proof.
  split.
  - intros E id l Hl. apply (f_equal (.!! id)) in E. unfold holdings in E. rewrite lookup_omap, lookup_empty, Hl in E.
    simpl in E. unfold owned in E. by destruct (String.eqb_spec (cl_AllocationID l) "").
  - intros Ha. apply map_eq. intros id. unfold holdings. rewrite lookup_omap, lookup_empty. destruct (m !! id) as [l|] eqn:Hl; [|done].
    simpl. unfold owned. by rewrite (Ha _ _ Hl).
Qed.
(** A new owner, which had no lease. *)
Lemma leases_ok_claim m id l' :
  leases_ok m -> l'.(cl_CgroupID) = id -> lease_wf l' ->
  (forall x lx, m !! x = Some lx -> x <> id -> lx.(cl_AllocationID) = l'.(cl_AllocationID) -> l'.(cl_AllocationID) = "") ->
  (forall x lx, m !! x = Some lx -> x <> id -> conformance_active lx = true -> conformance_active l' = false) ->
  leases_ok (<[id := l']> m).
Proof.
  intros [Hk Ho Hc] Hid Hw Ha Hcf. split.
  - intros x lx [[<- <-]|[_ Hx]]%lookup_insert_Some; [done|by apply Hk].
  - intros x y lx ly [[<- <-]|[Nx Hx]]%lookup_insert_Some [[<- <-]|[Ny Hy]]%lookup_insert_Some Hne E; try done.
    + exfalso. apply Hne, (Ha _ _ Hy); done.
    + exfalso. apply Hne. rewrite E. apply (Ha _ _ Hx); done.
    + by apply (Ho _ _ lx ly).
  - intros x y lx ly [[<- <-]|[Nx Hx]]%lookup_insert_Some [[<- <-]|[Ny Hy]]%lookup_insert_Some Cx Cy; try done.
    + rewrite (Hcf _ _ Hy) in Cx; done.
    + rewrite (Hcf _ _ Hx) in Cy; done.
    + by apply (Hc _ _ lx ly).
Qed.
Lemma leases_ok_sub m m' : leases_ok m -> m' ⊆ m -> leases_ok m'.
Proof.
  intros [Hk Ho Hc] Hs. split; intros.
  - eapply Hk, lookup_weaken; done.
  - eapply Ho; [eapply lookup_weaken; done..|done|done].
  - eapply Hc; [eapply lookup_weaken; done..|done|done].
Qed.
Lemma holdings_update m id l l' : m !! id = Some l -> owned l' = owned l -> holdings (<[id := l']> m) = holdings m.
Proof.
  intros Hl E. apply map_eq. intros x. unfold holdings. rewrite !lookup_omap.
  destruct (decide (x = id)) as [->|]; [|by rewrite lookup_insert_ne]. rewrite lookup_insert_eq, Hl. simpl. done.
Qed.
Lemma holdings_fresh m id l' : m !! id = None -> owned l' = None -> holdings (<[id := l']> m) = holdings m.
Proof.
  intros Hl E. apply map_eq. intros x. unfold holdings. rewrite !lookup_omap.
  destruct (decide (x = id)) as [->|]; [|by rewrite lookup_insert_ne]. by rewrite lookup_insert_eq, Hl.
Qed.

(** ** The pools and the ledger *)
Definition state_of (m : gmap string CgroupLease) (id : string) : option CgroupLifecycleState := cl_State <$> m !! id.
Definition owner_of (m : gmap string CgroupLease) (a id : string) : Prop :=
  a <> "" /\ exists l, m !! id = Some l /\ l.(cl_AllocationID) = a.
Definition roots_ok (root conformance : string) : Prop :=
  clean_abs root = true /\ clean_abs conformance = true /\ root <> conformance.
Definition capacity_ok (mc : MemoryCapacitySnapshot) (identity : string) : Prop :=
  mc = no_capacity \/ validate_capacity mc = Ok () /\ identity = mc.(mc_CapacityIdentity).

Lemma q_push_elem {A} `{Countable A} (l : list A) x y : y ∈ q_push l x <-> y ∈ l \/ y = x.
Proof. unfold q_push. case_bool_decide; [|rewrite elem_of_app, list_elem_of_singleton; done]. split; [auto|]. by intros [ | ->]. Qed.
Lemma q_push_nodup {A} `{Countable A} (l : list A) x : NoDup l -> NoDup (q_push l x).
Proof.
  intros Hl. unfold q_push. case_bool_decide; [done|]. apply NoDup_app. split; [done|]. split; [|apply NoDup_singleton].
  intros y Hy ->%list_elem_of_singleton. done.
Qed.
Lemma state_of_update m id l x : state_of (<[id := l]> m) x = if decide (x = id) then Some l.(cl_State) else state_of m x.
Proof. unfold state_of. destruct (decide (x = id)) as [->|]; [by rewrite lookup_insert_eq|by rewrite lookup_insert_ne]. Qed.
Lemma owner_of_update m id l x a : owner_of (<[id := l]> m) a x <->
  if decide (x = id) then a <> "" /\ l.(cl_AllocationID) = a else owner_of m a x.
Proof.
  unfold owner_of. destruct (decide (x = id)) as [->|].
  - rewrite lookup_insert_eq. split; [intros (? & ? & [= <-] & ?); done|intros (? & ?); eauto].
  - by rewrite lookup_insert_ne.
Qed.

Lemma insert_same_dom (m : gmap string CgroupLease) id l l' x :
  m !! id = Some l -> is_Some (<[id := l']> m !! x) <-> is_Some (m !! x).
Proof.
  intros Hl. destruct (decide (x = id)) as [->|]; [rewrite lookup_insert_eq, Hl|by rewrite lookup_insert_ne].
  split; intros _; eauto.
Qed.

Section pools.
Context {S G : Type} `{SnapshotStore S CgroupLedger} `{UniqueIdGenerator G} {GL : GeneratorLaws G}.
#[local] Notation CgroupManager := (CgroupManager S G).

(** [h] is an idle object an operation holds, [w] what the worker holds. *)
Record pools (h w : option string) (c : CgroupManager) : Prop := {
  p_leases : leases_ok c.(mg_leases);
  p_using id : id ∈ c.(mg_usingID) <-> state_of c.(mg_leases) id = Some CLS_ASSIGNED;
  p_idle id : (id ∈ c.(mg_idleID) \/ h = Some id) <-> state_of c.(mg_leases) id = Some CLS_IDLE;
  p_gc id : (id ∈ c.(mg_gcQueue) \/ w = Some id) <-> state_of c.(mg_leases) id = Some CLS_RETIRING;
  p_owners a id : c.(mg_allocationLeases) !! a = Some id <-> owner_of c.(mg_leases) a id;
  p_held id : h = Some id -> id ∉ c.(mg_idleID);
  p_working id : w = Some id -> id ∉ c.(mg_gcQueue);
  p_idle_nodup : NoDup c.(mg_idleID);
  p_gc_nodup : NoDup c.(mg_gcQueue);
  p_cgroups id : id ∈ c.(mg_cgroups) -> is_Some (c.(mg_leases) !! id);
  p_current id : is_Some (c.(mg_leases) !! id) -> cgroupPathInCurrentRoot id c.(mg_rootName) c.(mg_conformanceRoot) = true ->
    id ∈ c.(mg_cgroups);
  p_roots : roots_ok c.(mg_rootName) c.(mg_conformanceRoot);
  p_usable : usable c.(mg_generator) c.(mg_rootName) /\ usable c.(mg_conformanceGenerator) c.(mg_conformanceRoot);
  p_issued id : is_Some (c.(mg_leases) !! id) -> legal id = true ->
    (Dir id = c.(mg_rootName) -> id ∈ issued c.(mg_generator)) /\
    (Dir id = c.(mg_conformanceRoot) -> id ∈ issued c.(mg_conformanceGenerator));
  p_capacity : capacity_ok c.(mg_memoryCapacity) c.(mg_memoryCapacityIdentity);
  p_identity : identity_canonical c.(mg_memoryCapacityIdentity) = Ok ();
  p_required : c.(mg_memoryAdmissionRequired) = true -> holdings c.(mg_leases) <> ∅ -> c.(mg_memoryCapacityIdentity) <> "" }.

(** *** Moves *)
Lemma pools_set_db h w x mark c : pools h w (set_db x mark c) <-> pools h w c.
Proof. destruct c. split; intros [? ? ? ? ? ? ? ? ? ? ? ? ? ? ? ? ?]; by split. Qed.

Ltac pool_start c Hp :=
  destruct c as [size cache root croot us idl m al cg g g' db mk gq mc ident cf rq];
  destruct Hp as [Hle Hu Hi Hg Ho Hh Hw Hni Hng Hc Hcu Hr Hus His Hca Hid Hrq]; simpl in *.

Lemma take_idle w c id rest : pools None w c -> c.(mg_idleID) = id :: rest ->
  pools (Some id) w (set_idle rest c).
Proof.
  intros Hp E. pool_start c Hp. subst. apply NoDup_cons in Hni as [Hn1 Hn2]. split; simpl; try done.
  - intros x. rewrite <- Hi, elem_of_cons. split; [intros [ | [= ->] ]|intros [[-> | ] | ]]; auto. done.
  - by intros x [= <-].
Qed.
Lemma put_idle w c id : pools (Some id) w c -> pools None w (set_idle (q_push c.(mg_idleID) id) c).
Proof.
  intros Hp. pool_start c Hp. split; simpl; try done.
  - intros x. rewrite q_push_elem, <- Hi. split; [intros [[ | ->] | ]|intros [ | [= ->] ]]; auto. done.
  - by apply q_push_nodup.
Qed.
Lemma take_gc h c id rest : pools h None c -> c.(mg_gcQueue) = id :: rest -> pools h (Some id) (set_gc rest c).
Proof.
  intros Hp E. pool_start c Hp. subst. apply NoDup_cons in Hng as [Hn1 Hn2]. split; simpl; try done.
  - intros x. rewrite <- Hg, elem_of_cons. split; [intros [ | [= ->] ]|intros [[-> | ] | ]]; auto. done.
  - by intros x [= <-].
Qed.
Lemma put_gc h c id : pools h (Some id) c -> pools h None (gc_push id c).
Proof.
  intros Hp. pool_start c Hp. split; simpl; try done.
  - intros x. rewrite q_push_elem, <- Hg. split; [intros [[ | ->] | ]|intros [ | [= ->] ]]; auto. done.
  - by apply q_push_nodup.
Qed.

(** A lease changes and stays in its pool. *)
Lemma pools_update h w c id l l' :
  pools h w c -> c.(mg_leases) !! id = Some l -> l'.(cl_CgroupID) = id -> lease_wf l' ->
  l'.(cl_State) = l.(cl_State) -> l'.(cl_AllocationID) = l.(cl_AllocationID) -> l'.(cl_OwnerKind) = l.(cl_OwnerKind) ->
  pools h w (set_leases (<[id := l']> c.(mg_leases)) c).
Proof.
  intros Hp Hl Eid Hwf Est Ea Eo. pool_start c Hp.
  assert (Hst : forall x, state_of (<[id := l']> m) x = state_of m x).
  { intros x. rewrite state_of_update. destruct (decide (x = id)) as [->|]; [|done]. unfold state_of. by rewrite Hl, Est. }
  pose proof (fun x => insert_same_dom m id l l' x Hl) as Hsome.
  split; simpl; try done; try (intros x; rewrite ?Hst, ?Hsome; auto; done).
  - apply (leases_ok_update _ _ l); try done; [by right|]. unfold conformance_active. by rewrite Est, Eo.
  - intros a x. rewrite Ho, owner_of_update. destruct (decide (x = id)) as [->|]; [|done]. unfold owner_of. rewrite Hl, Ea.
    split; [intros (? & ? & [= <-] & ?); done|intros []; eauto].
  - intros Hq Hne. apply Hrq; [done|]. intros E. apply Hne. apply holdings_empty.
    intros x lx [[<- <-]|[_ Hx]]%lookup_insert_Some; [rewrite Ea|]; by eapply holdings_empty.
Qed.

(** A held idle object gets an owner. *)
Lemma pools_assign w c id l l' a :
  pools (Some id) w c -> c.(mg_leases) !! id = Some l -> l'.(cl_CgroupID) = id -> lease_wf l' ->
  l'.(cl_State) = CLS_ASSIGNED -> l'.(cl_AllocationID) = a -> a <> "" -> c.(mg_allocationLeases) !! a = None ->
  (conformance_active l' = true -> hasActiveConformanceLeaseLocked c = false) ->
  (c.(mg_memoryAdmissionRequired) = true -> c.(mg_memoryCapacityIdentity) <> "") ->
  pools None w (set_owners (<[a := id]> c.(mg_allocationLeases))
    (set_using ({[id]} ∪ c.(mg_usingID)) (set_leases (<[id := l']> c.(mg_leases)) c))).
Proof.
  intros Hp Hl Eid Hwf Est Ea Hane Hfree Hconf Hident. unfold hasActiveConformanceLeaseLocked, lease_list in Hconf.
  pool_start c Hp.
  assert (Hidle : state_of m id = Some CLS_IDLE) by (apply Hi; auto).
  assert (Hno : forall x lx, m !! x = Some lx -> lx.(cl_AllocationID) <> a).
  { intros x lx Hx E. assert (Hs : al !! a = Some x) by (apply Ho; split; eauto). congruence. }
  split; simpl; try done.
  - apply leases_ok_claim; try done.
    + intros x lx Hx _ E. exfalso. apply (Hno _ _ Hx). congruence.
    + intros x lx Hx _ Hcx. destruct (conformance_active l') eqn:Ec; [|done]. specialize (Hconf eq_refl).
      assert (existsb conformance_active (map snd (map_to_list m)) = true) as E; [|unfold conformance_active in E; congruence].
      apply existsb_exists. exists lx. split; [|done]. apply in_map_iff. exists (x, lx). split; [done|].
      by apply list_elem_of_In, elem_of_map_to_list.
  - intros x. rewrite state_of_update. destruct (decide (x = id)) as [->|]; [rewrite Est; set_solver|].
    rewrite elem_of_union, Hu. set_solver.
  - intros x. rewrite state_of_update. destruct (decide (x = id)) as [->|Hx].
    + rewrite Est. split; [intros [Hin|]; [by destruct (Hh id eq_refl)|done]|done].
    + rewrite <- Hi. split; [intros []; [by left|done]|intros [|[= ->]]; auto; done].
  - intros x. rewrite Hg, state_of_update. destruct (decide (x = id)) as [->|]; [|done]. rewrite Est, Hidle. done.
  - intros b x. rewrite owner_of_update. destruct (decide (b = a)) as [->|Hb].
    + rewrite lookup_insert_eq. destruct (decide (x = id)) as [->|]; [done|].
      split; [by intros [= ->]|]. intros (_ & lx & Hx & E). by destruct (Hno _ _ Hx).
    + rewrite lookup_insert_ne by done. rewrite Ho. destruct (decide (x = id)) as [->|]; [|done].
      split; [|intros [_ E]; congruence]. intros (Hb' & lx & Hx & E). destruct (lo_key _ Hle _ _ Hx) as [_ Hwx].
      unfold state_of in Hidle. rewrite Hx in Hidle. simpl in Hidle. simplify_eq.
      destruct (idle_facts _ Hwx Hidle) as [E _]. congruence.
  - intros x Hx. by apply (insert_same_dom _ _ l), Hc.
  - intros x Hx. apply Hcu. by apply (insert_same_dom _ _ l) in Hx.
  - intros x Hx. apply His. by apply (insert_same_dom _ _ l) in Hx.
  - intros Hq _. by apply Hident.
Qed.

(** An object goes to the worker's queue: [l] is assigned, or idle and held. *)
Lemma pools_retire h w c id l l' :
  pools h w c -> c.(mg_leases) !! id = Some l -> l'.(cl_CgroupID) = id -> lease_wf l' ->
  l'.(cl_State) = CLS_RETIRING -> l'.(cl_AllocationID) = l.(cl_AllocationID) -> l'.(cl_OwnerKind) = l.(cl_OwnerKind) ->
  (l.(cl_State) = CLS_ASSIGNED \/ l.(cl_State) = CLS_IDLE /\ h = Some id) ->
  pools (if decide (l.(cl_State) = CLS_IDLE) then None else h) w
    (set_gc (q_push c.(mg_gcQueue) id)
       (set_using (c.(mg_usingID) ∖ {[id]}) (set_leases (<[id := l']> c.(mg_leases)) c))).
Proof.
  intros Hp Hl Eid Hwf Est Ea Eo Hs. pool_start c Hp.
  assert (Hold : state_of m id = Some l.(cl_State)) by (unfold state_of; by rewrite Hl).
  destruct (lo_key _ Hle _ _ Hl) as [_ Hwl].
  assert (Hcf : conformance_active l' = true -> conformance_active l = true).
  { unfold conformance_active. rewrite Eo, Est. intros [Hk _]%andb_true_iff. rewrite Hk. destruct Hs as [->|[E _]]; [done|].
    destruct (idle_facts _ Hwl E) as (_ & _ & Hu'). apply unowned_facts in Hu' as [Hu' _]. by rewrite Hu' in Hk. }
  split; simpl; try done.
  - apply (leases_ok_update _ _ l); try done. by right.
  - intros x. rewrite state_of_update. destruct (decide (x = id)) as [->|]; [rewrite Est; set_solver|].
    rewrite elem_of_difference, Hu. set_solver.
  - intros x. rewrite state_of_update. destruct (decide (x = id)) as [->|Hx].
    + rewrite Est. split; [|done]. destruct Hs as [E|[E ->]]; rewrite E in *; destruct (decide _) as [E'|]; try done.
      * intros Hin. apply Hi in Hin. congruence.
      * intros [Hin|]; [|done]. by destruct (Hh id eq_refl).
    + rewrite <- Hi. destruct Hs as [E|[E ->]]; rewrite E; destruct (decide _) as [E'|]; try done.
      split; [intros []; [by left|done]|intros [| [= ->] ]; auto; done].
  - intros x. rewrite q_push_elem, state_of_update. destruct (decide (x = id)) as [->|Hx]; [rewrite Est; tauto|].
    rewrite <- Hg. tauto.
  - intros b x. rewrite owner_of_update. rewrite Ho. destruct (decide (x = id)) as [->|]; [|done]. unfold owner_of. rewrite Hl, Ea.
    split; [intros (? & ? & [= <-] & ?); done|intros []; eauto].
  - intros x. destruct (decide _); [done|apply Hh].
  - intros x Ex Hx%q_push_elem. destruct Hx as [ | ->]; [by apply (Hw x)|].
    assert (E : state_of m id = Some CLS_RETIRING) by (apply Hg; by right). destruct Hs as [E'|[E' _]]; congruence.
  - by apply q_push_nodup.
  - intros x Hx. by apply (insert_same_dom _ _ l), Hc.
  - intros x Hx. apply Hcu. by apply (insert_same_dom _ _ l) in Hx.
  - intros x Hx. apply His. by apply (insert_same_dom _ _ l) in Hx.
  - intros Hq Hne. apply Hrq; [done|]. intros E. apply Hne, holdings_empty.
    intros x lx [[<- <-]|[_ Hx]]%lookup_insert_Some; [rewrite Ea|]; by eapply holdings_empty.
Qed.

(** The worker lets go of an object that is gone. *)
Lemma release_id_issued (c : CgroupManager) id root croot :
  usable c.(mg_generator) root -> usable c.(mg_conformanceGenerator) croot ->
  let c' := release_id id c in
  usable c'.(mg_generator) root /\ usable c'.(mg_conformanceGenerator) croot /\
  (forall x, x <> id -> x ∈ issued c.(mg_generator) -> x ∈ issued c'.(mg_generator)) /\
  (forall x, x <> id -> x ∈ issued c.(mg_conformanceGenerator) -> x ∈ issued c'.(mg_conformanceGenerator)) /\
  c' = set_generators c'.(mg_generator) c'.(mg_conformanceGenerator) c.
Proof.
  intros Hu1 Hu2. destruct (release_law id c.(mg_conformanceGenerator) croot Hu2) as [U2 E2].
  destruct (release_law id c.(mg_generator) root Hu1) as [U1 E1].
  unfold release_id. destruct (String.eqb _ _), c; simpl in *; split_and!; try done; intros.
  - rewrite E2. set_solver.
  - rewrite E1. set_solver.
Qed.
Lemma pools_free h c id l :
  pools h (Some id) c -> c.(mg_leases) !! id = Some l ->
  let c1 := set_using (c.(mg_usingID) ∖ {[id]}) (set_cgroups (c.(mg_cgroups) ∖ {[id]}) (set_leases (delete id c.(mg_leases)) c)) in
  pools h None (release_id id (if negb (String.eqb l.(cl_AllocationID) "")
                               then set_owners (delete l.(cl_AllocationID) c1.(mg_allocationLeases)) c1 else c1)).
Proof.
  intros Hp Hl c1. set (c2 := if negb _ then _ else c1).
  assert (E2 : c2 = set_owners (delete l.(cl_AllocationID) c.(mg_allocationLeases)) c1).
  { unfold c2. destruct (String.eqb_spec (cl_AllocationID l) "") as [E|]; cbn [negb]; [|by destruct c].
    rewrite delete_id; [by destruct c|]. rewrite E. destruct (mg_allocationLeases c !! "") as [x|] eqn:Ex; [|done].
    apply (p_owners _ _ _ Hp) in Ex as [Ex _]. done. }
  clearbody c2. subst c2 c1.
  destruct (p_usable _ _ _ Hp) as [Hu1 Hu2].
  destruct (release_id_issued c id _ _ Hu1 Hu2) as (Hr1 & Hr2 & Hs1 & Hs2 & Er).
  set (g1 := mg_generator (release_id id c)) in *. set (g2 := mg_conformanceGenerator (release_id id c)) in *.
  match goal with |- pools _ _ (release_id id ?x) => assert (Eg : release_id id x = set_generators g1 g2 x) end.
  { unfold g1, g2, release_id. destruct c. simpl. by destruct (String.eqb _ _). }
  rewrite Eg. clear Eg Er. clearbody g1 g2. pool_start c Hp.
  assert (Hret : state_of m id = Some CLS_RETIRING) by (apply Hg; auto).
  assert (Hst : forall x, state_of (delete id m) x = if decide (x = id) then None else state_of m x).
  { intros x. unfold state_of. destruct (decide (x = id)) as [->|]; [by rewrite lookup_delete_eq|by rewrite lookup_delete_ne]. }
  assert (Hsub : forall x, is_Some (delete id m !! x) <-> x <> id /\ is_Some (m !! x)).
  { intros x. destruct (decide (x = id)) as [->|]; [rewrite lookup_delete_eq|rewrite lookup_delete_ne by done].
    - split; [by intros []|tauto].
    - tauto. }
  assert (Hl' : lease_wf l) by (by apply (lo_key _ Hle) in Hl as []).
  split; simpl; try done.
  - apply (leases_ok_sub m); [done|]. apply delete_subseteq.
  - intros x. rewrite Hst. destruct (decide (x = id)) as [->|]; [set_solver|]. rewrite <- Hu. set_solver.
  - intros x. rewrite Hst, Hi. destruct (decide (x = id)) as [->|]; [|done]. by rewrite Hret.
  - intros x. rewrite Hst. destruct (decide (x = id)) as [->|Hx].
    + split; [|done]. intros [Hin|]; [|done]. by destruct (Hw id eq_refl).
    + rewrite <- Hg. split; [intros []; [by left|done]|intros [| [= ->] ]; auto; done].
  - intros a x. unfold owner_of. destruct (decide (a = cl_AllocationID l)) as [->|Ha].
    + rewrite lookup_delete_eq. split; [done|]. intros (Hne & lx & [Hx Hlx]%lookup_delete_Some & E).
      destruct Hx. symmetry. by apply (lo_owner _ Hle _ _ lx l); [| |rewrite E|].
    + rewrite lookup_delete_ne by done. rewrite Ho. unfold owner_of. split; intros (Hne & lx & Hx & E).
      * split; [done|]. exists lx. split; [|done]. apply lookup_delete_Some. split; [|done]. intros ->. congruence.
      * apply lookup_delete_Some in Hx as [_ Hx]. eauto.
  - intros x [Hx Hne]%elem_of_difference. apply Hsub. split; [set_solver|by apply Hc].
  - intros x [Hne Hx]%Hsub Hcr. apply elem_of_difference. split; [by apply Hcu|set_solver].
  - intros x [Hne Hx]%Hsub Hlg. destruct (His x Hx Hlg). split; auto.
  - intros Hq Hne. apply Hrq; [done|]. intros E. apply Hne, holdings_empty. intros x lx [_ Hx]%lookup_delete_Some.
    by eapply holdings_empty.
Qed.

(** The two generators move. *)
Lemma pools_generators h w c g1 g2 :
  pools h w c -> usable g1 c.(mg_rootName) -> usable g2 c.(mg_conformanceRoot) ->
  issued c.(mg_generator) ⊆ issued g1 -> issued c.(mg_conformanceGenerator) ⊆ issued g2 -> pools h w (set_generators g1 g2 c).
Proof.
  intros Hp U1 U2 S1 S2. pool_start c Hp. split; simpl; try done. intros x Hx Hlg. destruct (His x Hx Hlg). split; auto.
Qed.
Lemma pools_capacity h w c capacity identity conflict :
  pools h w c -> capacity_ok capacity identity -> identity_canonical identity = Ok () ->
  (c.(mg_memoryCapacityIdentity) <> "" -> identity <> "") -> pools h w (set_capacity capacity identity conflict c).
Proof. intros Hp Hcap Hcan Hne. pool_start c Hp. split; simpl; try done. auto. Qed.

(** A fresh object, which its maker holds. *)
Lemma pools_create w c id :
  pools None w c -> c.(mg_leases) !! id = None -> legal id = true -> id <> "" ->
  (Dir id = c.(mg_rootName) \/ Dir id = c.(mg_conformanceRoot)) ->
  (Dir id = c.(mg_rootName) -> id ∈ issued c.(mg_generator)) ->
  (Dir id = c.(mg_conformanceRoot) -> id ∈ issued c.(mg_conformanceGenerator)) ->
  pools (Some id) w (set_lease (lease_idle id) (set_cgroups ({[id]} ∪ c.(mg_cgroups)) c)) /\
  holdings (set_lease (lease_idle id) (set_cgroups ({[id]} ∪ c.(mg_cgroups)) c)).(mg_leases) = holdings c.(mg_leases).
Proof.
  intros Hp Hf Hlg Hne Hd Hd1 Hd2. pool_start c Hp. unfold set_lease. simpl. split; [|by apply holdings_fresh].
  assert (Hnone : state_of m id = None) by (unfold state_of; by rewrite Hf).
  split; simpl; try done.
  - apply leases_ok_claim; [done|done|by apply lease_idle_wf|done|done].
  - intros x. rewrite Hu, state_of_update. destruct (decide (x = id)) as [->|]; [by rewrite Hnone|done].
  - intros x. rewrite state_of_update. destruct (decide (x = id)) as [->|Hx]; [split; auto|]. rewrite <- Hi.
    split; [intros [| [= ->] ]; auto; done|intros []; [by left|done]].
  - intros x. rewrite Hg, state_of_update. destruct (decide (x = id)) as [->|]; [by rewrite Hnone|done].
  - intros a x. rewrite Ho, owner_of_update. destruct (decide (x = id)) as [->|]; [|done].
    unfold owner_of. rewrite Hf. split; [by intros (_ & ? & ? & _)|intros [Ha E]; done].
  - intros x [= <-] Hin. assert (E : state_of m id = Some CLS_IDLE) by (apply Hi; auto). congruence.
  - intros x [->%elem_of_singleton|Hx]%elem_of_union; [rewrite lookup_insert_eq; eauto|].
    destruct (decide (x = id)) as [->|]; [rewrite lookup_insert_eq; eauto|rewrite lookup_insert_ne; auto].
  - intros x Hx Hcr. destruct (decide (x = id)) as [->|]; [set_solver|]. rewrite lookup_insert_ne in Hx by done.
    apply elem_of_union_r. by apply Hcu.
  - intros x Hx Hl. destruct (decide (x = id)) as [->|]; [done|]. rewrite lookup_insert_ne in Hx by done. by apply His.
  - intros Hq Hne'. apply Hrq; [done|]. intros E. apply Hne', holdings_empty.
    intros x lx [[<- <-]|[_ Hx]]%lookup_insert_Some; [done|by eapply holdings_empty].
Qed.

(** *** Disk *)
Definition ledger_of (m : gmap string CgroupLease) (identity : string) : CgroupLedger :=
  mkLedger (omap (fun id => m !! id) (sort_slice string_lt (map fst (map_to_list m)))) identity.
(** The saved ledger holds what memory holds. *)
Definition disk_ok (c : CgroupManager) : Prop :=
  exists m', saved c.(mg_db) CgroupBucket = Some (ledger_of m' c.(mg_memoryCapacityIdentity)) /\ leases_ok m' /\
    holdings m' = holdings c.(mg_leases).
Definition inv (h w : option string) (c : CgroupManager) : Prop := pools h w c /\ disk_ok c.

(** What an operation that moves no ownership leaves alone. *)
Record frame (c c' : CgroupManager) : Prop := {
  fr_db : c'.(mg_db) = c.(mg_db);
  fr_identity : c'.(mg_memoryCapacityIdentity) = c.(mg_memoryCapacityIdentity);
  fr_holdings : holdings c'.(mg_leases) = holdings c.(mg_leases) }.
#[export] Instance frame_preorder : PreOrder frame.
Proof. split; [by intros c|]. intros a b c [] []. split; congruence. Qed.
Lemma frame_disk c c' : frame c c' -> disk_ok c -> disk_ok c'.
Proof. intros [E1 E2 E3] (m' & ? & ? & ?). exists m'. by rewrite E1, E2, E3. Qed.
Context {SL : SnapshotLaws S CgroupLedger}.

Lemma store_spec f c c' r h w : storeLocked f c = (c', r) -> pools h w c ->
  exists db mark, c' = set_db db mark c /\
    (r = Ok () /\ disk_ok c' /\ pools h w c' \/ exists e, r = Err e /\ db = c.(mg_db)).
Proof.
  unfold storeLocked. destruct (SaveSnapshot f CgroupBucket (ledger c) (mg_db c)) as [db r'] eqn:E. intros Es Hp.
  apply save_law in E as [(e & -> & ->)|[-> Hs]]; injection Es as <- <-; eexists _, _; (split; [done|]); [right; eauto|].
  left. split; [done|]. split; [|by apply pools_set_db]. exists c.(mg_leases). destruct c. simpl in *.
  split; [done|]. split; [apply Hp|done].
Qed.
(** Saving for its own sake: the outcome does not matter. *)
Lemma store_inv f h w c : pools h w c -> disk_ok c -> inv h w (storeLocked f c).1.
Proof.
  intros Hp Hd. destruct (storeLocked f c) as [c' r] eqn:E.
  destruct (store_spec _ _ _ _ _ _ E Hp) as (db & mk & -> & [(_ & Hd' & Hp')|(e & _ & ->)]); [done|]. simpl.
  split; [by apply pools_set_db|]. apply (frame_disk c); [|done]. by destruct c.
Qed.

(** *** The warm pool *)
Definition in_hand (r : result string) : option string := match r with Ok id => Some id | Err _ => None end.
(** Whoever holds conformance still does. *)
Definition same_claims (c c' : CgroupManager) : Prop :=
  c'.(mg_allocationLeases) = c.(mg_allocationLeases) /\
  c'.(mg_memoryAdmissionRequired) = c.(mg_memoryAdmissionRequired) /\
  (hasActiveConformanceLeaseLocked c = false -> hasActiveConformanceLeaseLocked c' = false).
Lemma no_conformance (c : CgroupManager) : hasActiveConformanceLeaseLocked c = false <->
  forall id l, c.(mg_leases) !! id = Some l -> conformance_active l = false.
Proof.
  unfold hasActiveConformanceLeaseLocked, lease_list. split.
  - intros E id l Hl. destruct (conformance_active l) eqn:Ec; [|done].
    assert (existsb conformance_active (map snd (map_to_list c.(mg_leases))) = true) as E'; [|unfold conformance_active in E'; congruence].
    apply existsb_exists. exists l. split; [|done]. apply in_map_iff. exists (id, l). split; [done|].
    by apply list_elem_of_In, elem_of_map_to_list.
  - intros Ha. apply not_true_is_false. intros (l & [[id l'] [<- Hin]]%in_map_iff & Hc)%existsb_exists.
    apply list_elem_of_In, elem_of_map_to_list in Hin. specialize (Ha _ _ Hin). unfold conformance_active in Ha. simpl in *. congruence.
Qed.
Lemma below_nonempty id root : clean_abs root = true -> Dir id = root -> id <> "".
Proof. intros Hr <- ->. done. Qed.
(** An identifier just drawn has no lease. *)
Lemma draw_fresh (conf : bool) intn w (c : CgroupManager) g id : pools None w c ->
  GetID intn (if conf then c.(mg_conformanceGenerator) else c.(mg_generator)) = (g, Ok id) -> c.(mg_leases) !! id = None.
Proof.
  intros Hp E. destruct (p_usable _ _ _ Hp) as [U1 U2].
  set (root := if conf then c.(mg_conformanceRoot) else c.(mg_rootName)).
  assert (U : usable (if conf then c.(mg_conformanceGenerator) else c.(mg_generator)) root) by (unfold root; by destruct conf).
  destruct (get_law intn _ _ U) as [_ Hg]. rewrite E in Hg. destruct Hg as (Hfresh & Hlegal & Hdir & _).
  destruct (mg_leases c !! id) as [lx|] eqn:Hx; [|done]. exfalso. apply Hfresh.
  destruct (p_issued _ _ _ Hp id) as [I1 I2]; [eauto|done|]. unfold root in Hdir. destruct conf; auto.
Qed.
Lemma createOne_inv kind intn created w c c' r :
  createOneLocked kind intn created c = (c', r) -> pools None w c ->
  pools (in_hand r) w c' /\ frame c c' /\ same_claims c c'.
Proof.
  unfold createOneLocked. set (conf := bool_decide (kind = OWNER_RUNTIME_CONFORMANCE)).
  destruct (_ && _); [by intros [= <- <-]|]. intros E Hp. destruct (p_usable _ _ _ Hp) as [U1 U2].
  destruct (p_roots _ _ _ Hp) as (R1 & R2 & R12).
  set (root := if conf then c.(mg_conformanceRoot) else c.(mg_rootName)).
  assert (U : usable (if conf then c.(mg_conformanceGenerator) else c.(mg_generator)) root) by (unfold root; by destruct conf).
  destruct (get_law intn _ _ U) as [Ug Hg].
  destruct (GetID intn _) as [g [id|e]] eqn:Eget; simpl in Ug, Hg.
  - destruct Hg as (Hfresh & Hlegal & Hdir & Eg). destruct (created id) as [[]|e].
    + injection E as <- <-. set (c1 := if conf then set_generators c.(mg_generator) g c else set_generators g c.(mg_conformanceGenerator) c).
      assert (Hp1 : pools None w c1) by (unfold c1, root in *; destruct conf; apply pools_generators; try done; rewrite Eg; set_solver).
      assert (Hne : id <> "") by (apply (below_nonempty _ root); [unfold root; by destruct conf|done]).
      assert (Hnone : c1.(mg_leases) !! id = None).
      { assert (E1 : c1.(mg_leases) = c.(mg_leases)) by (unfold c1; destruct conf, c; done). rewrite E1.
        by apply (draw_fresh conf intn w c g). }
      assert (Hroots : c1.(mg_rootName) = c.(mg_rootName) /\ c1.(mg_conformanceRoot) = c.(mg_conformanceRoot))
        by (unfold c1; destruct conf, c; done).
      destruct Hroots as [Er1 Er2].
      destruct (pools_create w c1 id Hp1 Hnone Hlegal Hne) as [Hpc Hhold].
      * rewrite Er1, Er2. unfold root in Hdir. destruct conf; auto.
      * rewrite Er1. intros Ed. unfold c1, root in *. destruct conf; [congruence|]. destruct c. simpl. rewrite Eg. set_solver.
      * rewrite Er2. intros Ed. unfold c1, root in *. destruct conf; [|congruence]. destruct c. simpl. rewrite Eg. set_solver.
      * split; [exact Hpc|]. split; [|split_and!].
        -- split; [| |rewrite Hhold]; unfold c1; destruct conf, c; done.
        -- unfold c1. destruct conf, c; done.
        -- unfold c1. destruct conf, c; done.
        -- rewrite !no_conformance. intros Ha x lx Hx.
           assert (Hx' : (<[id := lease_idle id]> c1.(mg_leases)) !! x = Some lx) by (revert Hx; unfold set_lease; destruct c1; done).
           apply lookup_insert_Some in Hx' as [[_ <-]|[_ Hx']]; [done|]. apply (Ha x). revert Hx'. unfold c1. destruct conf, c; done.
    + injection E as <- <-. destruct (release_law id g root Ug) as [Ur Er].
      assert (Hsub : forall X : gset string, X ⊆ issued g -> id ∉ X -> X ⊆ issued (ReleaseId id g)) by (intros X ? ?; rewrite Er; set_solver).
      split; [|split; [|split_and!]]; [|unfold root in *; destruct conf, c; done..].
      unfold root in *; destruct conf; apply pools_generators; try done; apply Hsub; rewrite ?Eg; set_solver.
  - injection E as <- <-. split; [|split; [|split_and!]]; [|unfold root in *; destruct conf, c; done..].
    unfold root in *; destruct conf; apply pools_generators; try done; rewrite Hg; done.
Qed.

Lemma same_claims_refl c c' : c'.(mg_allocationLeases) = c.(mg_allocationLeases) ->
  c'.(mg_memoryAdmissionRequired) = c.(mg_memoryAdmissionRequired) -> c'.(mg_leases) = c.(mg_leases) -> same_claims c c'.
Proof. intros E1 E2 E3. split; [done|]. split; [done|]. unfold hasActiveConformanceLeaseLocked, lease_list. by rewrite E3. Qed.
Lemma obtain_inv kind intn created w c c' r :
  obtain kind intn created c = (c', r) -> pools None w c ->
  pools (in_hand r) w c' /\ frame c c' /\ same_claims c c'.
Proof.
  intros E Hp. unfold obtain in E. destruct (if bool_decide _ then _ else _) as [idle id] eqn:Eq.
  assert (Hcase : idle = c.(mg_idleID) /\ id = "" \/ c.(mg_idleID) = id :: idle).
  { destruct (bool_decide _); [injection Eq as <- <-; by left|]. destruct (mg_idleID c); injection Eq as <- <-; auto. }
  assert (Hcreate : idle = c.(mg_idleID) -> createOneLocked kind intn created (set_idle idle c) = (c', r) ->
    pools (in_hand r) w c' /\ frame c c' /\ same_claims c c').
  { intros -> Ec. assert (set_idle (mg_idleID c) c = c) as Es by (by destruct c). rewrite Es in Ec. by eapply createOne_inv. }
  destruct Hcase as [[Ei ->]|Ei]; [by apply Hcreate|].
  assert (Hne : id <> "").
  { assert (Hs : state_of c.(mg_leases) id = Some CLS_IDLE) by (apply (p_idle _ _ _ Hp); left; rewrite Ei; set_solver).
    unfold state_of in Hs. destruct (mg_leases c !! id) as [l|] eqn:Hl; [|done].
    destruct (lo_key _ (p_leases _ _ _ Hp) _ _ Hl) as [<- Hw]. apply Hw. }
  destruct (String.eqb_spec id ""); [done|]. injection E as <- <-.
  split; [by apply take_idle|]. split; [by split; destruct c|]. by apply same_claims_refl; destruct c.
Qed.

(** A failed save takes the assignment back. *)
Lemma assign_undo w c id l opt kind charge at_ (l2 := lease_assigned opt kind charge at_ l) :
  pools (Some id) w c -> c.(mg_leases) !! id = Some l -> l.(cl_State) = CLS_IDLE -> 0 < at_ ->
  (forall m', pools None w (set_idle (q_push c.(mg_idleID) id)
     (set_leases (<[id := lease_unassigned CLS_IDLE l2.(cl_RetiringAtUnixNano) l2]> (<[id := m']> c.(mg_leases))) c))) /\
  (forall m', pools None w (set_gc (q_push c.(mg_gcQueue) id)
     (set_leases (<[id := lease_unassigned CLS_RETIRING at_ l2]> (<[id := m']> c.(mg_leases))) c))) /\
  forall m' state t, holdings (<[id := lease_unassigned state t l2]> (<[id := m']> c.(mg_leases))) = holdings c.(mg_leases).
Proof.
  intros Hp Hl Es Hat. destruct (lo_key _ (p_leases _ _ _ Hp) _ _ Hl) as [Eid Hw].
  destruct (idle_facts _ Hw Es) as (Ea & Er & Hu). pose proof (unowned_facts _ Hu) as (Ek & _).
  assert (Hui : id ∉ c.(mg_usingID)).
  { rewrite (p_using _ _ _ Hp). unfold state_of. rewrite Hl. simpl. by rewrite Es. }
  split; [|split]; intros m'; [..|intros state t]; rewrite insert_insert_eq.
  - set (l' := lease_unassigned _ _ l2).
    assert (Hw' : lease_wf l') by (apply lease_unassigned_wf; [done|done|left; by rewrite <- Er]).
    pose proof (pools_update _ _ _ _ l l' Hp Hl Eid Hw' (eq_sym Es) (eq_sym Ea) (eq_sym Ek)) as Hp'.
    apply put_idle in Hp'. by destruct c.
  - set (l' := lease_unassigned _ _ l2).
    assert (Hw' : lease_wf l') by (apply lease_unassigned_wf; [done|done|by right]).
    pose proof (pools_retire _ _ _ _ l l' Hp Hl Eid Hw' eq_refl (eq_sym Ea) (eq_sym Ek) (or_intror (conj Es eq_refl))) as Hp'.
    rewrite decide_True in Hp' by done. rewrite difference_disjoint_L in Hp' by set_solver. by destruct c.
  - apply (holdings_update _ _ l); [done|]. unfold owned. simpl. by rewrite Ea.
Qed.

Lemma assign_inv f assignedAt opt id w c :
  pools (Some id) w c -> disk_ok c -> validate_allocate opt = Ok () -> 0 < UnixNano assignedAt ->
  c.(mg_allocationLeases) !! opt.(ao_ContainerID) = None ->
  (bool_decide (allocate_kind opt = OWNER_RUNTIME_CONFORMANCE) && hasActiveConformanceLeaseLocked c = false) ->
  (c.(mg_memoryAdmissionRequired) = true -> c.(mg_memoryCapacityIdentity) <> "") ->
  inv None w (assign f assignedAt opt id c).1.
Proof.
  intros Hp Hd Hv Hat Hfree Hconf Hident. unfold assign.
  assert (Hidle : state_of c.(mg_leases) id = Some CLS_IDLE) by (apply (p_idle _ _ _ Hp); auto).
  unfold state_of in Hidle. destruct (mg_leases c !! id) as [l|] eqn:Hl; [|done]. injection Hidle as Es.
  destruct (lo_key _ (p_leases _ _ _ Hp) _ _ Hl) as [Eid Hw].
  rewrite (bool_decide_true _ Es). cbn [negb].
  set (l2 := lease_assigned _ _ _ _ l).
  assert (Hne : ao_ContainerID opt <> "").
  { unfold validate_allocate in Hv. by destruct (String.eqb_spec (ao_ContainerID opt) ""). }
  assert (Hp1 : pools None w (set_owners (<[ao_ContainerID opt := id]> c.(mg_allocationLeases))
    (set_using ({[id]} ∪ c.(mg_usingID)) (set_leases (<[id := l2]> c.(mg_leases)) c)))).
  { apply (pools_assign _ _ _ l); try done; [by apply lease_assigned_wf|].
    unfold conformance_active. simpl. rewrite andb_true_r. intros Hk. by rewrite Hk in Hconf. }
  destruct (storeLocked f _) as [c' r] eqn:E. destruct (store_spec _ _ _ _ _ _ E Hp1) as (db & mk & -> & Hr).
  destruct Hr as [(-> & Hd' & Hp')|(e & -> & ->)]; [by split|].
  destruct (assign_undo w c id l opt (allocate_kind opt) (allocate_charge opt) (UnixNano assignedAt) Hp Hl Es Hat) as (Hi & Hg & Hh).
  assert (Hui : id ∉ c.(mg_usingID)).
  { rewrite (p_using _ _ _ Hp). unfold state_of. rewrite Hl. simpl. by rewrite Es. }
  destruct Hd as (m' & Hs & Hok & Eh). destruct (bool_decide _); cbn [fst]; split.
  - specialize (Hg l2). apply (pools_set_db _ _ c.(mg_db) mk) in Hg. destruct c. simpl in *.
    rewrite delete_insert_id by done. rewrite difference_union_distr_l_L, difference_diag_L, union_empty_l_L, difference_disjoint_L by set_solver. done.
  - exists m'. destruct c. simpl in *. split_and!; try done. rewrite Eh. symmetry. apply Hh.
  - specialize (Hi l2). apply (pools_set_db _ _ c.(mg_db) mk) in Hi. destruct c. simpl in *.
    rewrite delete_insert_id by done. rewrite difference_union_distr_l_L, difference_diag_L, union_empty_l_L, difference_disjoint_L by set_solver. done.
  - exists m'. destruct c. simpl in *. split_and!; try done. rewrite Eh. symmetry. apply Hh.
Qed.
Lemma fresh_identity now (c : CgroupManager) capacity : capacity_ok capacity c.(mg_memoryCapacityIdentity) ->
  capacityFresh now capacity = true -> validate_capacity capacity = Ok () /\ c.(mg_memoryCapacityIdentity) <> "".
Proof.
  intros [->|[Hv ->]] Hf; [done|]. split; [done|]. unfold validate_capacity in Hv.
  destruct (_ <=? 0); [done|]. by destruct (String.eqb_spec (mc_CapacityIdentity capacity) "").
Qed.
Lemma Allocate_inv f now assignedAt intn created opt w c :
  inv None w c -> 0 < UnixNano assignedAt -> inv None w (Allocate f now assignedAt intn created opt c).1.
Proof.
  intros [Hp Hd] Hat. unfold Allocate. destruct (validate_allocate opt) as [[]|] eqn:Hv; [|done].
  destruct (mg_allocationLeases c !! _) as [existing|] eqn:Hfree; [done|].
  destruct (admit_memory now opt c) as [[]|] eqn:Hadm; [|done].
  destruct (bool_decide _ && _) eqn:Hconf; [done|].
  destruct (obtain _ intn created c) as [c' r] eqn:Eo.
  destruct (obtain_inv _ _ _ _ _ _ _ Eo Hp) as (Hp' & Hf & Hsc). pose proof (frame_disk _ _ Hf Hd) as Hd'.
  destruct r as [id|e]; [|done]. destruct Hsc as (E1 & E2 & E3).
  apply assign_inv; try done; [by rewrite E1|..].
  - apply andb_false_iff in Hconf as [Hc|Hc]; apply andb_false_iff; auto.
  - rewrite E2, (fr_identity _ _ Hf). intros Hrq. unfold admit_memory in Hadm. rewrite Hrq in Hadm. cbn [negb] in Hadm.
    destruct (capacityFresh now _) eqn:Hcf; [|done]. by eapply fresh_identity; [apply Hp|].
Qed.

Lemma addLocked_inv draws created w c : pools None w c ->
  pools None w (addLocked draws created c).1 /\ frame c (addLocked draws created c).1.
Proof.
  revert c. induction draws as [|d draws IH]; intros c Hp; simpl; [done|].
  destruct (createOneLocked OWNER_WORKLOAD d created c) as [c1 r] eqn:E.
  destruct (createOne_inv _ _ _ _ _ _ _ E Hp) as (Hp1 & Hf & _). destruct r as [id|e]; simpl in Hp1.
  - apply put_idle in Hp1. destruct (IH _ Hp1) as [Hp2 Hf2].
    destruct (addLocked draws created (set_idle _ c1)) as [c2 n]. simpl in *. split; [done|]. etrans; [exact Hf|].
    etrans; [|exact Hf2]. by split; destruct c1.
  - destruct (IH _ Hp1) as [Hp2 Hf2]. split; [done|]. by etrans.
Qed.
Lemma Add_inv f draws created w c : inv None w c -> inv None w (Add f draws created c).1.
Proof.
  intros [Hp Hd]. unfold Add. destruct (addLocked_inv draws created w c Hp) as [Hp' Hf].
  destruct (addLocked draws created c) as [c' n]. simpl in *. apply (frame_disk _ _ Hf) in Hd.
  destruct (0 <? n)%nat; [by apply store_inv|done].
Qed.
Lemma shrink_inv num now w c : 0 < now -> pools None w c ->
  pools None w (shrinkLocked num now c) /\ frame c (shrinkLocked num now c).
Proof.
  intros Hn. revert c. induction num as [|num IH]; intros c Hp; simpl; [done|].
  destruct (mg_idleID c) as [|id rest] eqn:Ei; simpl.
  { assert (set_idle [] c = c) as -> by (destruct c; simpl in *; by subst). done. }
  assert (Hs : state_of c.(mg_leases) id = Some CLS_IDLE) by (apply (p_idle _ _ _ Hp); left; rewrite Ei; set_solver).
  unfold state_of in Hs. destruct (mg_leases c !! id) as [l|] eqn:Hl; [|done]. injection Hs as Es.
  destruct (lo_key _ (p_leases _ _ _ Hp) _ _ Hl) as [Eid Hw].
  destruct (String.eqb_spec id "") as [->|_]; [by destruct (lw_id _ Hw)|].
  assert (El : mg_leases (set_idle rest c) !! id = Some l) by (by destruct c). rewrite El.
  pose proof (take_idle _ _ _ _ Hp Ei) as Hp1.
  set (l' := lease_retiring now _ _ l).
  assert (Hw' : lease_wf l') by (apply lease_retiring_wf; [done|by left|done|apply Hw|apply Hw]).
  pose proof (pools_retire _ _ _ _ l l' Hp1 El Eid Hw' eq_refl eq_refl eq_refl (or_intror (conj Es eq_refl))) as Hp2.
  rewrite decide_True in Hp2 by done.
  assert (Hui : id ∉ c.(mg_usingID)) by (rewrite (p_using _ _ _ Hp); unfold state_of; rewrite Hl; simpl; by rewrite Es).
  destruct (idle_facts _ Hw Es) as (Ea & _).
  match goal with |- pools _ _ (shrinkLocked _ _ ?x) /\ _ => set (c2 := x) end.
  assert (Ec : c2 = set_gc (q_push c.(mg_gcQueue) id) (set_using (c.(mg_usingID) ∖ {[id]})
                      (set_leases (<[id := l']> c.(mg_leases)) (set_idle rest c)))).
  { unfold c2, set_lease. simpl. rewrite Eid. destruct c. simpl in *. by rewrite difference_disjoint_L by set_solver. }
  assert (Hp3 : pools None w c2) by (rewrite Ec; by destruct c).
  destruct (IH c2 Hp3) as [Hp4 Hf]. split; [done|]. etrans; [|exact Hf]. rewrite Ec. split; [by destruct c..|].
  assert (E : mg_leases (set_gc (q_push c.(mg_gcQueue) id) (set_using (c.(mg_usingID) ∖ {[id]})
    (set_leases (<[id := l']> c.(mg_leases)) (set_idle rest c)))) = <[id := l']> c.(mg_leases)) by (by destruct c).
  rewrite E. apply (holdings_update _ _ l); [done|]. unfold owned. simpl. by rewrite Ea.
Qed.
Lemma Del_inv f num now w c : 0 < UnixNano now -> inv None w c -> inv None w (Del f num now c).
Proof.
  intros Hn [Hp Hd]. destruct (shrink_inv num (UnixNano now) w c Hn Hp) as [Hp' Hf]. apply store_inv; [done|].
  by apply (frame_disk _ _ Hf).
Qed.

(** *** Ownership changes on disk first *)
Lemma Recycle_finish_inv f now id assigned charged w c :
  0 < UnixNano now -> 0 <= charged -> inv None w c -> inv None w (Recycle_finish f now id assigned charged c).1.
Proof.
  intros Hn Hch [Hp Hd]. unfold Recycle_finish. destruct (mg_leases c !! id) as [l|] eqn:Hl; [|done].
  case_bool_decide as Er; [done|]. case_bool_decide as Es; cbn [negb orb]; [|done]. destruct (_ || _); [done|].
  destruct (lo_key _ (p_leases _ _ _ Hp) _ _ Hl) as [Eid Hw]. set (l' := lease_retiring _ _ _ l).
  assert (Hw' : lease_wf l') by (apply lease_retiring_wf; [done|by right|done|done|done]).
  pose proof (pools_retire _ _ _ _ l l' Hp Hl Eid Hw' eq_refl eq_refl eq_refl (or_introl Es)) as Hp1.
  rewrite decide_False in Hp1 by congruence.
  set (c1 := set_using _ _). destruct (storeLocked f c1) as [c2 r] eqn:E.
  unfold storeLocked in E. destruct (SaveSnapshot f CgroupBucket (ledger c1) (mg_db c1)) as [db r'] eqn:Es'.
  apply save_law in Es' as [(e & -> & ->)|[-> Hs]]; injection E as <- <-.
  - simpl. assert (Hu : id ∈ c.(mg_usingID)) by (apply (p_using _ _ _ Hp); unfold state_of; rewrite Hl; by rewrite <- Es).
    assert (Eu : {[id]} ∪ c.(mg_usingID) ∖ {[id]} = c.(mg_usingID)) by (rewrite union_comm_L, difference_union_L; set_solver).
    assert (Ec : set_using ({[id]} ∪ mg_usingID (set_db (mg_db c1) true c1))
      (set_leases (<[id := l]> (mg_leases (set_db (mg_db c1) true c1))) (set_db (mg_db c1) true c1)) = set_db (mg_db c) true c).
    { unfold c1. destruct c. simpl in *. rewrite insert_insert_eq, insert_id by done.
      by rewrite Eu. }
    rewrite Ec. split; [by apply pools_set_db|]. apply (frame_disk c); [|done]. by destruct c.
  - simpl. split.
    + apply (pools_set_db _ _ db false) in Hp1. unfold c1. by destruct c.
    + exists c1.(mg_leases). unfold c1 in *. destruct c. simpl in *. split_and!; [done| |done]. apply Hp1.
Qed.

(** A lease rewritten in place, saved or put back. *)
Lemma rewrite_inv f id l l' w c (wrap : error -> error) :
  inv None w c -> c.(mg_leases) !! id = Some l -> l'.(cl_CgroupID) = id -> lease_wf l' ->
  l'.(cl_State) = l.(cl_State) -> l'.(cl_AllocationID) = l.(cl_AllocationID) -> l'.(cl_OwnerKind) = l.(cl_OwnerKind) ->
  inv None w (match storeLocked f (set_leases (<[id := l']> c.(mg_leases)) c) with
              | (c, Ok _) => (c, Ok ())
              | (c, Err e) => (set_leases (<[id := l]> c.(mg_leases)) c, Err (wrap e))
              end).1.
Proof.
  intros [Hp Hd] Hl Eid Hw Es Ea Ek. pose proof (pools_update _ _ _ _ l l' Hp Hl Eid Hw Es Ea Ek) as Hp1.
  destruct (storeLocked f _) as [c' r] eqn:E. destruct (store_spec _ _ _ _ _ _ E Hp1) as (db & mk & -> & Hr).
  destruct Hr as [(-> & Hd' & Hp')|(e & -> & ->)]; [by split|]. simpl.
  assert (Ec : set_leases (<[id := l]> (mg_leases (set_db (mg_db (set_leases (<[id := l']> c.(mg_leases)) c)) mk
     (set_leases (<[id := l']> c.(mg_leases)) c)))) (set_db (mg_db (set_leases (<[id := l']> c.(mg_leases)) c)) mk
     (set_leases (<[id := l']> c.(mg_leases)) c)) = set_db c.(mg_db) mk c).
  { destruct c. simpl in *. by rewrite insert_insert_eq, insert_id. }
  rewrite Ec. split; [by apply pools_set_db|]. apply (frame_disk c); [|done]. by destruct c.
Qed.
Lemma BindMemoryDomain_inv f cgroupID allocationID limitBytes bootID mountIdentity parentInode leafInode w c :
  str_len bootID <= 128 -> str_len mountIdentity <= 1024 -> inv None w c ->
  inv None w (BindMemoryDomain f cgroupID allocationID limitBytes bootID mountIdentity parentInode leafInode c).1.
Proof.
  intros Hb Hm Hi. unfold BindMemoryDomain. destruct (_ || _) eqn:Eg; [done|].
  destruct (mg_leases c !! cgroupID) as [l|] eqn:Hl; [|done]. destruct (negb _ || _ || _) eqn:Eg2; [done|].
  destruct (lo_key _ (p_leases _ _ _ (proj1 Hi)) _ _ Hl) as [Eid Hw]. b2p.
  destruct (cgroupLeaseHasAnyMemoryIdentity l).
  - destruct (negb _); [done|]. destruct (String.eqb _ _); [done|].
    apply (rewrite_inv f cgroupID l _ w c (fun e => Wrapf _ [] e)); try done. by apply set_identity_error_wf.
  - apply (rewrite_inv f cgroupID l _ w c (fun e => Wrapf _ [] e)); try done. apply set_identity_wf; try done; lia.
Qed.

(** *** Capacity *)
Lemma validate_capacity_identity s : validate_capacity s = Ok () ->
  s.(mc_CapacityIdentity) <> "" /\ identity_canonical s.(mc_CapacityIdentity) = Ok ().
Proof.
  unfold validate_capacity, identity_canonical. destruct (_ <=? 0); [done|].
  destruct (String.eqb_spec (mc_CapacityIdentity s) ""); [done|].
  destruct (String.eqb_spec (mc_CapacityIdentity s) (TrimSpace (mc_CapacityIdentity s))) as [E|]; [|done]. rewrite <- E.
  destruct (ValidString _); [|done]. destruct (1024 <? _); [done|]. by rewrite String.eqb_refl.
Qed.
Lemma capacity_disk c capacity conflict :
  disk_ok c -> disk_ok (set_capacity capacity c.(mg_memoryCapacityIdentity) conflict c).
Proof. apply frame_disk. split; by destruct c. Qed.
Lemma forget_inv h w conflict c : inv h w c -> inv h w (forget_capacity conflict c).
Proof.
  intros [Hp Hd]. split; [|by apply capacity_disk]. apply pools_capacity; [done|by left|apply Hp|done].
Qed.
Lemma UpdateMemoryCapacity_inv f s h w c : inv h w c -> inv h w (UpdateMemoryCapacity f s c).1.
Proof.
  intros Hi. unfold UpdateMemoryCapacity. destruct (mc_Unavailable s); [by apply forget_inv|].
  destruct (validate_capacity s) as [[]|] eqn:Hv; [|by apply forget_inv].
  destruct (validate_capacity_identity _ Hv) as [Hne Hcan].
  destruct (_ && hasCommittedMemoryLeaseLocked c); [by apply forget_inv|].
  destruct (_ && _ && _); [by apply forget_inv|]. destruct Hi as [Hp Hd].
  assert (Hp1 : pools h w (set_capacity s (mc_CapacityIdentity s) false c)) by (apply pools_capacity; [done|by right|done|done]).
  destruct (String.eqb_spec (mg_memoryCapacityIdentity c) (mc_CapacityIdentity s)) as [E|_].
  { split; [done|]. rewrite <- E. by apply capacity_disk. }
  destruct (storeLocked f _) as [c' r] eqn:E. destruct (store_spec _ _ _ _ _ _ E Hp1) as (db & mk & -> & Hr).
  destruct Hr as [(-> & Hd' & Hp')|(e & -> & ->)]; [by split|]. simpl. split.
  - match goal with |- pools _ _ (set_capacity ?a ?b ?cf ?x) =>
      assert (Ec : set_capacity a b cf x = set_db (mg_db c) mk (set_capacity a b cf c)) by (by destruct c) end.
    rewrite Ec. apply pools_set_db, pools_capacity; [done|apply Hp|apply Hp|done].
  - eapply frame_disk; [|exact Hd]. split; by destruct c.
Qed.

(** *** The worker *)
Lemma worker_lease h id c : pools h (Some id) c ->
  exists l, c.(mg_leases) !! id = Some l /\ l.(cl_State) = CLS_RETIRING /\ l.(cl_CgroupID) = id /\ lease_wf l.
Proof.
  intros Hp. assert (Hs : state_of c.(mg_leases) id = Some CLS_RETIRING) by (apply (p_gc _ _ _ Hp); auto).
  unfold state_of in Hs. destruct (mg_leases c !! id) as [l|] eqn:Hl; [|done]. injection Hs as Es.
  exists l. split; [done|]. split; [done|]. by apply (lo_key _ (p_leases _ _ _ Hp)).
Qed.
Lemma gc_pop_inv c : inv None None c -> (gc_pop c).2 <> "" -> inv None (Some (gc_pop c).2) (gc_pop c).1.
Proof.
  intros [Hp Hd] Hne. unfold gc_pop in *. destruct (mg_gcQueue c) as [|id rest] eqn:E; simpl in *; [done|].
  split; [by apply take_gc|]. apply (frame_disk c); [|done]. split; by destruct c.
Qed.
Lemma gc_push_inv id c : inv None (Some id) c -> inv None None (gc_push id c).
Proof. intros [Hp Hd]. split; [by apply put_gc|]. apply (frame_disk c); [|done]. split; by destruct c. Qed.
(** A rewrite of what is not owned needs no save. *)
Lemma touch_inv h w id l l' c :
  inv h w c -> c.(mg_leases) !! id = Some l -> l'.(cl_CgroupID) = id -> lease_wf l' ->
  l'.(cl_State) = l.(cl_State) -> l'.(cl_AllocationID) = l.(cl_AllocationID) -> l'.(cl_OwnerKind) = l.(cl_OwnerKind) ->
  owned l' = owned l -> inv h w (set_leases (<[id := l']> c.(mg_leases)) c).
Proof.
  intros [Hp Hd] Hl Eid Hw Es Ea Ek Ho. split; [by apply (pools_update _ _ _ _ l)|].
  apply (frame_disk c); [|done]. split; [by destruct c..|].
  assert (E : mg_leases (set_leases (<[id := l']> (mg_leases c)) c) = <[id := l']> (mg_leases c)) by (by destruct c).
  rewrite E. by apply (holdings_update _ _ l).
Qed.
Lemma converge_charge_inv id charged h w c : 0 <= charged -> inv h w c -> inv h w (converge_charge id charged c).1.
Proof.
  intros Hch Hi. unfold converge_charge. destruct (mg_leases c !! id) as [l|] eqn:Hl; [|done].
  case_bool_decide; [|done]. destruct (lo_key _ (p_leases _ _ _ (proj1 Hi)) _ _ Hl) as [Eid Hw].
  apply (touch_inv _ _ _ l); try done. by apply set_charged_wf.
Qed.
Lemma recordRetiringFailure_inv f id message h w c : inv h w c -> inv h w (recordRetiringFailure f id message c).
Proof.
  intros Hi. unfold recordRetiringFailure. destruct (mg_leases c !! id) as [l|] eqn:Hl; [|by apply store_inv; apply Hi].
  destruct (lo_key _ (p_leases _ _ _ (proj1 Hi)) _ _ Hl) as [Eid Hw].
  destruct (touch_inv h w id l (set_cleanup_error (boundedCgroupDiagnostic message) l) c) as [Hp' Hd']; try done;
    [apply set_cleanup_error_wf; [done|apply boundedCgroupDiagnostic_ok]|]. by apply store_inv.
Qed.
Lemma keepStoring_inv f h w c : inv h w c -> inv h w (keepStoring_tick f c).
Proof. intros [Hp Hd]. unfold keepStoring_tick. destruct (mg_storeMark c); [by apply store_inv|done]. Qed.

(** What [completeRetiringCgroup] takes out, and puts back when saving fails. *)
Definition taken_out (id : string) (l : CgroupLease) (c : CgroupManager) : CgroupManager :=
  let c := set_using (c.(mg_usingID) ∖ {[id]}) (set_cgroups (c.(mg_cgroups) ∖ {[id]}) (set_leases (delete id c.(mg_leases)) c)) in
  if negb (String.eqb l.(cl_AllocationID) "") then set_owners (delete l.(cl_AllocationID) c.(mg_allocationLeases)) c else c.
Definition put_back (id : string) (l : CgroupLease) (c : CgroupManager) : CgroupManager :=
  let c := set_cgroups ({[id]} ∪ c.(mg_cgroups)) (set_leases (<[id := l]> c.(mg_leases)) c) in
  if negb (String.eqb l.(cl_AllocationID) "") then set_owners (<[l.(cl_AllocationID) := id]> c.(mg_allocationLeases)) c else c.
Lemma put_back_out id l mark c : pools None (Some id) c -> c.(mg_leases) !! id = Some l -> l.(cl_State) = CLS_RETIRING ->
  put_back id l (set_db c.(mg_db) mark (taken_out id l c)) = set_db c.(mg_db) mark (set_cgroups ({[id]} ∪ c.(mg_cgroups)) c).
Proof.
  intros Hp Hl Es.
  assert (Hui : id ∉ c.(mg_usingID)) by (rewrite (p_using _ _ _ Hp); unfold state_of; rewrite Hl; simpl; by rewrite Es).
  assert (Ecg : {[id]} ∪ c.(mg_cgroups) ∖ {[id]} = {[id]} ∪ c.(mg_cgroups))
    by (rewrite (union_comm_L {[id]} (_ ∖ _)), difference_union_L, union_comm_L; done).
  assert (Eus : c.(mg_usingID) ∖ {[id]} = c.(mg_usingID)) by (apply difference_disjoint_L; set_solver).
  assert (Eal : l.(cl_AllocationID) <> "" -> <[cl_AllocationID l := id]> (delete (cl_AllocationID l) c.(mg_allocationLeases)) = c.(mg_allocationLeases)).
  { intros Hne. apply insert_delete_id, (p_owners _ _ _ Hp). split; [done|]. by exists l. }
  clear Hp Hui. unfold put_back, taken_out. destruct (String.eqb_spec (cl_AllocationID l) "") as [|Hne]; cbn [negb];
    destruct c; simpl in *; rewrite insert_delete_id by done; rewrite ?Ecg, ?Eus, ?Eal; done.
Qed.
Lemma release_id_fields id db mark (c : CgroupManager) :
  release_id id (set_db db mark c) = set_db db mark (release_id id c) /\
  mg_leases (set_db db mark (release_id id c)) = mg_leases c /\
  mg_memoryCapacityIdentity (set_db db mark (release_id id c)) = mg_memoryCapacityIdentity c /\
  mg_db (set_db db mark (release_id id c)) = db.
Proof. unfold release_id. destruct c; simpl. by destruct (String.eqb _ _). Qed.
(** The lease is on disk until its removal is. *)
Lemma complete_inv f id c : inv None (Some id) c ->
  match completeRetiringCgroup f id c with
  | (c', Ok _) => inv None None c'
  | (c', Err _) => inv None (Some id) c'
  end.
Proof.
  intros [Hp Hd]. destruct (worker_lease _ _ _ Hp) as (l & Hl & Es & Eid & Hw). unfold completeRetiringCgroup. rewrite Hl.
  cbv zeta. fold (taken_out id l c). pose proof (pools_free None c id l Hp Hl) as Hf. cbv zeta in Hf. fold (taken_out id l c) in Hf.
  unfold storeLocked. destruct (SaveSnapshot f CgroupBucket _ _) as [db r'] eqn:Es'.
  assert (Edb : mg_db (taken_out id l c) = mg_db c) by (unfold taken_out; destruct c; simpl; by destruct (negb _)).
  apply save_law in Es' as [(e & -> & ->)|[-> Hs]].
  - rewrite Edb. fold (put_back id l (set_db (mg_db c) true (taken_out id l c))). rewrite (put_back_out _ _ _ _ Hp Hl Es). split.
    + apply pools_set_db. destruct Hp. destruct c. simpl in *. split; simpl; try done; [|set_solver].
      intros x [->%elem_of_singleton|Hx]%elem_of_union; eauto.
    + apply (frame_disk c); [|done]. split; by destruct c.
  - destruct (release_id_fields id db false (taken_out id l c)) as (-> & E1 & E2 & E3).
    apply (pools_set_db _ _ db false) in Hf. split; [done|]. exists (taken_out id l c).(mg_leases). rewrite E1, E2, E3.
    split; [done|]. split; [|done]. rewrite <- E1. apply Hf.
Qed.
End pools.
