(* ===== verification/CgroupStart.v ===== *)
(** * The next start of the cgroup manager

    [NewCgroupManager] rebuilds the pools from the saved ledger and from what the
    kernel still has.  [start_sound]: a start that succeeds satisfies the
    invariant of [CgroupFacts] and keeps exactly the holdings that survive;
    [start_succeeds]: with a store and a kernel that answer, it succeeds. *)
From S2P Require Import Prelude Proto Resource Capability CapabilityFacts Execution NodeDB NodeAllocation Queue TruncIndex Cgroup CgroupFacts.
Import queue.

(** ** Loading *)
(** What survives a restart: [present] says that the kernel still has the object. *)
Definition survives (root croot : string) (kernel : gset string) (l : CgroupLease) : bool :=
  keep_lease root croot l
  && (negb (cgroupPathInCurrentRoot l.(cl_CgroupID) root croot) || bool_decide (l.(cl_CgroupID) ∈ kernel)
      || negb (missingKernelLeaseConverged l.(cl_State))).
Lemma holding_fields l l0 : holding l = holding l0 ->
  l.(cl_CgroupID) = l0.(cl_CgroupID) /\ l.(cl_State) = l0.(cl_State) /\ l.(cl_AllocationID) = l0.(cl_AllocationID) /\
  l.(cl_OwnerKind) = l0.(cl_OwnerKind).
Proof. unfold holding. destruct l, l0. simpl. by intros [= <- <- <- <- <- <- <- <- <- <- <- <- <-]. Qed.
Lemma owned_holding l l0 : holding l = holding l0 -> owned l = owned l0.
Proof. intros E. unfold owned. destruct (holding_fields _ _ E) as (_ & _ & -> & _). by rewrite E. Qed.
Lemma recover_lease_spec stale present inspected error_text l l' :
  recover_lease stale present inspected error_text l = Some l' -> holding l' = holding l /\ (lease_wf l -> lease_wf l').
Proof.
  unfold recover_lease. destruct (negb _).
  - destruct (missingKernelLeaseConverged _); [done|]. intros [= <-]. split; [done|]. intros Hw. by apply set_identity_error_wf.
  - destruct (cgroupLeaseHasMemoryIdentity l); [|by intros [= <-]].
    destruct (verifyPersistedCgroupIdentity l inspected); intros [= <-]; (split; [done|]); intros Hw;
      apply set_identity_error_wf; try done. apply boundedCgroupDiagnostic_ok.
Qed.
Lemma recover_lease_survives stale present inspected error_text l :
  recover_lease stale present inspected error_text l <> None <-> stale || present || negb (missingKernelLeaseConverged l.(cl_State)) = true.
Proof.
  unfold recover_lease. destruct (stale || present); simpl; [|by destruct (missingKernelLeaseConverged _)].
  destruct (cgroupLeaseHasMemoryIdentity l); [|done]. by destruct (verifyPersistedCgroupIdentity l inspected).
Qed.

Record piles (ld : loading) : Prop := {
  l_using id : id ∈ ld.(ld_using) <-> state_of ld.(ld_leases) id = Some CLS_ASSIGNED;
  l_idle id : id ∈ ld.(ld_idle) <-> state_of ld.(ld_leases) id = Some CLS_IDLE;
  l_gc id : id ∈ ld.(ld_gc) <-> state_of ld.(ld_leases) id = Some CLS_RETIRING;
  l_owners a id : ld.(ld_owners) !! a = Some id <-> owner_of ld.(ld_leases) a id;
  l_idle_nodup : NoDup ld.(ld_idle);
  l_gc_nodup : NoDup ld.(ld_gc) }.
(** A lease with a new identifier goes to its pile. *)
Lemma piles_insert ld id l idle inuse owners gc cgroups :
  piles ld -> ld.(ld_leases) !! id = None -> lease_wf l ->
  inuse = (if bool_decide (l.(cl_State) = CLS_ASSIGNED) then {[id]} ∪ ld.(ld_using) else ld.(ld_using)) ->
  idle = (if bool_decide (l.(cl_State) = CLS_IDLE) then q_push ld.(ld_idle) id else ld.(ld_idle)) ->
  gc = (if bool_decide (l.(cl_State) = CLS_RETIRING) then q_push ld.(ld_gc) id else ld.(ld_gc)) ->
  owners = (if String.eqb l.(cl_AllocationID) "" then ld.(ld_owners) else <[l.(cl_AllocationID) := id]> ld.(ld_owners)) ->
  (l.(cl_AllocationID) <> "" -> ld.(ld_owners) !! l.(cl_AllocationID) = None) ->
  piles (mkLoading idle inuse (<[id := l]> ld.(ld_leases)) owners gc cgroups).
Proof.
  intros [Hu Hi Hg Ho Hni Hng] Hf Hw -> -> -> -> Hfree.
  assert (Hnone : state_of ld.(ld_leases) id = None) by (unfold state_of; by rewrite Hf).
  split; simpl.
  - intros x. rewrite state_of_update. destruct (decide (x = id)) as [->|Hx]; case_bool_decide.
    + split; [intros _; by f_equal|set_solver].
    + rewrite Hu, Hnone. split; [done|]. by intros [= ?].
    + rewrite elem_of_union, Hu. set_solver.
    + apply Hu.
  - intros x. rewrite state_of_update. destruct (decide (x = id)) as [->|Hx]; case_bool_decide.
    + rewrite q_push_elem. split; [intros _; by f_equal|auto].
    + rewrite Hi, Hnone. split; [done|]. by intros [= ?].
    + rewrite q_push_elem, Hi. tauto.
    + apply Hi.
  - intros x. rewrite state_of_update. destruct (decide (x = id)) as [->|Hx]; case_bool_decide.
    + rewrite q_push_elem. split; [intros _; by f_equal|auto].
    + rewrite Hg, Hnone. split; [done|]. by intros [= ?].
    + rewrite q_push_elem, Hg. tauto.
    + apply Hg.
  - intros a x. rewrite owner_of_update.
    assert (Hold : ld.(ld_owners) !! a = Some id -> False).
    { intros E. apply Ho in E as (_ & lx & E & _). congruence. }
    destruct (String.eqb_spec (cl_AllocationID l) "") as [E|Hne].
    + destruct (decide (x = id)) as [->|]; [|apply Ho]. split; [done|]. intros [Ha Ea]. congruence.
    + specialize (Hfree Hne). destruct (decide (a = cl_AllocationID l)) as [->|Ha].
      * rewrite lookup_insert_eq. destruct (decide (x = id)) as [->|Hx]; [done|]. rewrite <- Ho, Hfree.
        split; [by intros [= ->]|done].
      * rewrite lookup_insert_ne by done. destruct (decide (x = id)) as [->|]; [|apply Ho].
        split; [done|]. intros [_ E]. congruence.
  - case_bool_decide; [by apply q_push_nodup|done].
  - case_bool_decide; [by apply q_push_nodup|done].
Qed.

(** Kernel objects that nobody owns. *)
Record explained (ld ld' : loading) : Prop := {
  ex_piles : piles ld';
  ex_sub : ld.(ld_leases) ⊆ ld'.(ld_leases);
  ex_new id l : ld'.(ld_leases) !! id = Some l -> ld.(ld_leases) !! id = Some l \/
    l.(cl_CgroupID) = id /\ lease_wf l /\ l.(cl_AllocationID) = "" /\ l.(cl_OwnerKind) = OWNER_UNSPECIFIED /\
    l.(cl_State) = CLS_RETIRING /\ id ∈ ld.(ld_cgroups);
  ex_cgroups : ld'.(ld_cgroups) = ld.(ld_cgroups) }.
Lemma load_unexplained_ok now ids ld : piles ld -> 0 < now -> "" ∉ ids -> (forall id, id ∈ ids -> id ∈ ld.(ld_cgroups)) ->
  let ld' := fold_left (load_unexplained now) ids ld in
  explained ld ld' /\ forall id, id ∈ ids -> is_Some (ld'.(ld_leases) !! id).
Proof.
  intros Hp Hn Hne Hsub ld'. assert (Hbase : explained ld ld) by (split; auto).
  assert (Hg : forall mid, explained ld mid -> explained ld (fold_left (load_unexplained now) ids mid) /\
    forall id, id ∈ ids \/ is_Some (mid.(ld_leases) !! id) -> is_Some ((fold_left (load_unexplained now) ids mid).(ld_leases) !! id)).
  2: { destruct (Hg ld Hbase) as [? Hs]. split; [done|]. intros. apply Hs. by left. }
  clear ld' Hbase. induction ids as [|id ids IH]; intros mid He; simpl; [split; [done|]; intros id [Hin|]; [set_solver|done]|].
  set (mid' := load_unexplained now mid id).
  assert (Hmid : explained ld mid' /\ is_Some (mid'.(ld_leases) !! id) /\ mid.(ld_leases) ⊆ mid'.(ld_leases)).
  { unfold mid', load_unexplained. destruct (ld_leases mid !! id) as [l|] eqn:E; [by split_and!; eauto|].
    destruct He as [Hpl Hs Hnew Hcg]. simpl. split; [|split; [rewrite lookup_insert_eq; eauto|by apply insert_subseteq]]. split; simpl.
    - apply (piles_insert mid id (unexplained_lease now id)); try done. apply unexplained_wf; [|done]. set_solver.
    - etrans; [done|]. by apply insert_subseteq.
    - intros x l [[<- <-]|[_ Hx]]%lookup_insert_Some; [|by apply Hnew]. right. split_and!; try done.
      + apply unexplained_wf; [|done]. set_solver.
      + apply Hsub. by left.
    - done. }
  destruct Hmid as (Hm1 & Hm2 & Hm3). destruct (IH ltac:(set_solver) ltac:(intros; apply Hsub; by right) mid' Hm1) as [H1 H2].
  split; [done|]. intros x [[->|Hx]%elem_of_cons|[lx Hx]]; apply H2; auto. right. exists lx. by eapply lookup_weaken.
Qed.

Section loading.
Context (root croot : string) (kernel : gset string) (inspect : CgroupLease -> result CgroupMemoryDomain).
Context (error_text : error -> string) (src : gmap string CgroupLease) (Hsrc : leases_ok src).
Definition found (l : CgroupLease) : bool :=
  negb (cgroupPathInCurrentRoot l.(cl_CgroupID) root croot) || bool_decide (l.(cl_CgroupID) ∈ kernel)
  || negb (missingKernelLeaseConverged l.(cl_State)).
Record load_inv (visited : list string) (ld : loading) : Prop := {
  li_piles : piles ld;
  li_from id l : ld.(ld_leases) !! id = Some l -> id ∈ visited /\ lease_wf l /\ found l = true /\
    exists l0, src !! id = Some l0 /\ holding l = holding l0;
  li_kept id l0 : id ∈ visited -> src !! id = Some l0 -> found l0 = true -> is_Some (ld.(ld_leases) !! id);
  li_cgroups id : id ∈ ld.(ld_cgroups) -> id ∈ kernel \/ is_Some (ld.(ld_leases) !! id);
  li_kernel : kernel ⊆ ld.(ld_cgroups);
  li_current id : is_Some (ld.(ld_leases) !! id) -> cgroupPathInCurrentRoot id root croot = true -> id ∈ ld.(ld_cgroups) }.

Lemma own_free visited ld l : load_inv visited ld -> src !! l.(cl_CgroupID) = Some l -> l.(cl_CgroupID) ∉ visited ->
  l.(cl_AllocationID) <> "" -> ld.(ld_owners) !! l.(cl_AllocationID) = None.
Proof.
  intros Hi Hl Hv Ha. destruct (ld_owners ld !! cl_AllocationID l) as [id|] eqn:E; [|done]. exfalso.
  apply (l_owners _ (li_piles _ _ Hi)) in E as (_ & l' & Hl' & Ea).
  destruct (li_from _ _ Hi _ _ Hl') as (Hv' & _ & _ & l0 & Hl0 & Eh). destruct (holding_fields _ _ Eh) as (_ & _ & Ea' & _).
  apply Hv. by rewrite (lo_owner _ Hsrc _ _ _ _ Hl Hl0) by congruence.
Qed.
Lemma load_lease_ok visited ld l : load_inv visited ld -> src !! l.(cl_CgroupID) = Some l -> l.(cl_CgroupID) ∉ visited ->
  exists ld', load_lease root croot inspect error_text ld l = Ok ld' /\ load_inv (l.(cl_CgroupID) :: visited) ld'.
Proof.
  intros Hi Hl Hv. set (id := cl_CgroupID l) in *. destruct (lo_key _ Hsrc _ _ Hl) as [_ Hw].
  assert (Hnew : ld.(ld_leases) !! id = None).
  { destruct (ld_leases ld !! id) as [lx|] eqn:E; [|done]. by apply (li_from _ _ Hi) in E as [E _]. }
  assert (Hpres : bool_decide (id ∈ ld.(ld_cgroups)) = bool_decide (id ∈ kernel)).
  { apply bool_decide_ext. split; [|apply (li_kernel _ _ Hi)]. intros [|[lx E]]%(li_cgroups _ _ Hi); [done|congruence]. }
  unfold load_lease. fold id. rewrite Hpres. set (stale := negb (cgroupPathInCurrentRoot id root croot)).
  pose proof (recover_lease_survives stale (bool_decide (id ∈ kernel)) (inspect l) error_text l) as Hfd.
  change (_ || _ || _) with (found l) in Hfd.
  destruct (recover_lease stale (bool_decide (id ∈ kernel)) (inspect l) error_text l) as [copy|] eqn:Er.
  2: { exists ld. split; [done|]. destruct Hi as [Hp Hfrom Hk Hc Hke Hcu]. split; try done.
       - intros x lx Hx. destruct (Hfrom _ _ Hx) as [? ?]. split; [by right|done].
       - intros x l0 [->|Hx]%elem_of_cons Hx0 Hf; [|by eapply Hk]. assert (l0 = l) as -> by congruence.
         by destruct (proj2 Hfd Hf). }
  assert (Hfound : found l = true) by (by apply Hfd). clear Hfd.
  destruct (recover_lease_spec _ _ _ _ _ _ Er) as [Eh Hwc]. specialize (Hwc Hw).
  destruct (holding_fields _ _ Eh) as (Eid & Est & Ea & Ek). fold id in Eid.
  assert (Hfree : copy.(cl_AllocationID) <> "" -> ld.(ld_owners) !! copy.(cl_AllocationID) = None).
  { rewrite Ea. intros Ha. by apply (own_free visited). }
  set (cgroups := if negb (stale || bool_decide (id ∈ kernel)) then {[id]} ∪ ld.(ld_cgroups) else ld.(ld_cgroups)).
  assert (Hcg : (forall x, x ∈ cgroups -> x = id \/ x ∈ ld.(ld_cgroups)) /\ forall x, x ∈ ld.(ld_cgroups) -> x ∈ cgroups).
  { unfold cgroups. destruct (negb (stale || _)); split; intros x Hx; [|by apply elem_of_union_r|by right|done].
    apply elem_of_union in Hx as [->%elem_of_singleton|]; auto. }
  destruct Hcg as [Hcg Hcg'].
  assert (Hfc : found copy = true) by (unfold found in *; by rewrite Eid, Est; fold id in Hfound).
  assert (Hgo : forall idle inuse owners gc, piles (mkLoading idle inuse (<[id := copy]> ld.(ld_leases)) owners gc cgroups) ->
    load_inv (id :: visited) (mkLoading idle inuse (<[id := copy]> ld.(ld_leases)) owners gc cgroups)).
  { intros idle inuse owners gc Hpl. destruct Hi as [Hp Hfrom Hk Hc Hke Hcu]. split; simpl; [done|..].
    - intros x lx [[<- <-]|[_ Hx]]%lookup_insert_Some.
      + split; [by left|]. split; [done|]. split; [done|]. by exists l.
      + destruct (Hfrom _ _ Hx) as [? ?]. split; [by right|done].
    - intros x l0 Hx Hx0 Hf. destruct (decide (x = id)) as [->|]; [rewrite lookup_insert_eq; eauto|].
      rewrite lookup_insert_ne by done. apply (Hk x l0); try done. by apply elem_of_cons in Hx as [|].
    - intros x Hx. destruct (decide (x = id)) as [->|]; [rewrite lookup_insert_eq; eauto|]. rewrite lookup_insert_ne by done.
      apply Hc. by destruct (Hcg x Hx).
    - intros x Hx. by apply Hcg', Hke.
    - intros x Hx Hcur. destruct (decide (x = id)) as [->|].
      + unfold cgroups, stale. rewrite Hcur. simpl.
        case_bool_decide; simpl; [by apply Hke|]. by apply elem_of_union_l, elem_of_singleton.
      + rewrite lookup_insert_ne in Hx by done. by apply Hcg', Hcu. }
  pose proof (piles_insert ld id copy _ _ _ _ cgroups (li_piles _ _ Hi) Hnew Hwc eq_refl eq_refl eq_refl eq_refl Hfree) as Hpl.
  pose proof (lw_state _ Hwc) as Hst. unfold state_wf in Hst. unfold own. rewrite Eid.
  destruct (cl_State copy); try done.
  - destruct Hst as [Ha _]. rewrite Ha in Hpl. eexists. split; [done|]. by apply Hgo.
  - destruct Hst as [Ha _]. destruct (String.eqb_spec (cl_AllocationID copy) ""); [done|]. rewrite (Hfree Ha). simpl.
    eexists. split; [done|]. by apply Hgo.
  - destruct (String.eqb_spec (cl_AllocationID copy) "") as [|Ha]; [simpl; eexists; split; [done|]; by apply Hgo|].
    rewrite (Hfree Ha). simpl. eexists. split; [done|]. by apply Hgo.
Qed.
Lemma load_all_ok leases visited ld : load_inv visited ld ->
  (forall l, l ∈ leases -> src !! l.(cl_CgroupID) = Some l) -> NoDup (map cl_CgroupID leases) ->
  (forall l, l ∈ leases -> l.(cl_CgroupID) ∉ visited) ->
  exists ld', fold_left (fun r l => ld ← r; load_lease root croot inspect error_text ld l) leases (Ok ld) = Ok ld' /\
    load_inv (rev (map cl_CgroupID leases) ++ visited) ld'.
Proof.
  revert visited ld. induction leases as [|l leases IH]; intros visited ld Hi Hin Hnd Hv; simpl; [by exists ld|].
  simpl in Hnd. apply NoDup_cons in Hnd as [Hn1 Hn2].
  destruct (load_lease_ok visited ld l Hi) as (ld1 & -> & Hi1); [apply Hin; by left|apply Hv; by left|].
  destruct (IH (l.(cl_CgroupID) :: visited) ld1 Hi1) as (ld2 & E & Hi2).
  - intros x Hx. apply Hin. by right.
  - done.
  - intros x Hx [E|Hx']%elem_of_cons; [|by apply (Hv x); [by right|]]. apply Hn1. rewrite <- E.
    apply list_elem_of_In, in_map, list_elem_of_In, Hx.
  - exists ld2. split; [done|]. by rewrite <- app_assoc.
Qed.
End loading.

(** ** The saved list *)
Lemma ids_of (m : gmap string CgroupLease) ks : (forall id, id ∈ ks -> exists l, m !! id = Some l /\ l.(cl_CgroupID) = id) ->
  map cl_CgroupID (omap (fun id => m !! id) ks) = ks.
Proof.
  induction ks as [|k ks IH]; intros Hk; simpl; [done|]. destruct (Hk k) as (l & -> & E); [by left|]. simpl.
  rewrite E. f_equal. apply IH. intros id Hid. apply Hk. by right.
Qed.
Lemma ledger_of_spec m identity : leases_ok m ->
  (forall l, l ∈ (ledger_of m identity).(cg_Leases) -> m !! l.(cl_CgroupID) = Some l) /\
  (forall id l, m !! id = Some l -> l ∈ (ledger_of m identity).(cg_Leases)) /\
  NoDup (map cl_CgroupID (ledger_of m identity).(cg_Leases)).
Proof.
  intros [Hk _ _]. change (cg_Leases (ledger_of m identity)) with
    (omap (fun id => m !! id) (sort_slice string_lt (map fst (map_to_list m)))).
  assert (Hks : forall id, id ∈ sort_slice string_lt (map fst (map_to_list m)) <-> is_Some (m !! id)).
  { intros id. rewrite elem_of_sort_slice. change (map fst) with (fmap (M := list) (@fst string CgroupLease)).
    rewrite list_elem_of_fmap. split.
    - intros ([x l] & -> & Hx%elem_of_map_to_list). by exists l.
    - intros [l Hl]. exists (id, l). split; [done|]. by apply elem_of_map_to_list. }
  split; [|split].
  - intros l (id & Hid & Hl)%list_elem_of_omap. by destruct (Hk _ _ Hl) as [-> _].
  - intros id l Hl. apply list_elem_of_omap. exists id. split; [|done]. apply Hks. eauto.
  - rewrite ids_of; [|intros id [l Hl]%Hks; exists l; split; [done|]; by apply Hk].
    rewrite sort_slice_perm. apply NoDup_fst_map_to_list.
Qed.
Lemma reconcile_spec root croot leases : Forall lease_wf leases ->
  exists n, reconcileCgroupLeasesForRoots leases root croot = Ok (List.filter (keep_lease root croot) leases, n).
Proof.
  induction 1 as [|l leases Hw _ [n IH]]; simpl; [by exists 0|]. rewrite (proj2 (validate_wf l) Hw). cbn. rewrite IH. cbn.
  destruct (keep_lease root croot l); eexists; done.
Qed.

(** ** The next start *)
Lemma bind_Ok' {A B} (a : A) (f : A -> result B) : (Ok a ≫= f) = f a.
Proof. reflexivity. Qed.
Section start.
Context {S G : Type} `{SnapshotStore S CgroupLedger} `{UniqueIdGenerator G} {GL : GeneratorLaws G} {SL : SnapshotLaws S CgroupLedger}.
#[local] Notation CgroupManager := (CgroupManager S G).

(** The saved ledger, an absent one included. *)
Definition saved_as (db : S) (m : gmap string CgroupLease) (identity : string) : Prop :=
  saved db CgroupBucket = Some (ledger_of m identity) \/ saved db CgroupBucket = None /\ m = ∅ /\ identity = "".
Definition saved_ok (db : S) : Prop :=
  exists m identity, saved_as db m identity /\ leases_ok m /\ identity_canonical identity = Ok ().
Definition kernel_ok (root : string) (kernel : gset string) : Prop :=
  forall id, id ∈ kernel -> cgroupPathInCurrentRoot id root (conformance_root root) = true.
Lemma load_ledger_spec read db m identity stored : genuine read -> saved_as db m identity ->
  load_ledger read db = Ok stored -> stored = ledger_of m identity.
Proof.
  unfold load_ledger, saved_as. intros Hg Hs. destruct (LoadSnapshot read CgroupBucket db) as [s|e] eqn:E.
  - apply load_law in E. intros [= <-]. destruct Hs as [Hs|[Hs _]]; congruence.
  - destruct (IsNotFound e) eqn:En; [|done]. intros [= <-]. apply load_missing in E; [|done|done].
    destruct Hs as [Hs|(_ & -> & ->)]; [congruence|done].
Qed.
Lemma current_nonempty id root croot : roots_ok root croot -> cgroupPathInCurrentRoot id root croot = true -> id <> "".
Proof.
  intros (R1 & R2 & _) Hc ->. unfold cgroupPathInCurrentRoot in Hc. change (Dir "") with "." in Hc.
  apply orb_true_iff in Hc as [E%String.eqb_eq|E%String.eqb_eq]; by subst.
Qed.
Lemma load_pools_spec root kernel inspect error_text now m identity :
  leases_ok m -> identity_canonical identity = Ok () -> roots_ok root (conformance_root root) -> kernel_ok root kernel ->
  0 < UnixNano now ->
  exists ld1 ld, load_pools root kernel inspect error_text now (ledger_of m identity) = Ok ld /\ explained ld1 ld /\
    load_inv root (conformance_root root) kernel m
      (rev (map cl_CgroupID (List.filter (keep_lease root (conformance_root root)) (ledger_of m identity).(cg_Leases)))) ld1 /\
    forall id, id ∈ ld1.(ld_cgroups) -> is_Some (ld.(ld_leases) !! id).
Proof.
  intros Hm Hcan Hr Hk Hn. set (croot := conformance_root root) in *. unfold load_pools. fold croot.
  destruct (ledger_of_spec m identity Hm) as (Hin & Hall & Hnd).
  change (cg_MemoryCapacityIdentity (ledger_of m identity)) with identity. rewrite Hcan, bind_Ok'.
  set (leases := cg_Leases (ledger_of m identity)) in *.
  destruct (reconcile_spec root croot leases) as [n ->].
  { apply Forall_forall. intros l Hl. apply Hin in Hl. by apply (lo_key _ Hm) in Hl as [_ Hw]. }
  rewrite bind_Ok'. cbn [fst]. set (kept := List.filter (keep_lease root croot) leases).
  assert (Hkept : forall l, l ∈ kept -> l ∈ leases) by (intros l Hl; by apply list_elem_of_In, filter_In in Hl as [Hl%list_elem_of_In _]).
  set (start := mkLoading [] ∅ ∅ ∅ [] kernel).
  assert (Hs : load_inv root croot kernel m [] start).
  { assert (Hn0 : forall id, (∅ : gmap string CgroupLease) !! id = None) by (intros; apply lookup_empty).
    assert (Hst : forall id s, state_of ∅ id = Some s -> False) by (intros id s; unfold state_of; by rewrite Hn0).
    split; simpl; [|by intros id l; rewrite Hn0|by intros id l0 Hid%elem_of_nil|by left|done|by intros id; rewrite Hn0; intros []].
    split; simpl; try apply NoDup_nil_2; intros; (split; [try set_solver|try by intros ?%Hst]).
    unfold owner_of. intros (_ & l & Hl & _). by rewrite Hn0 in Hl. }
  destruct (load_all_ok root croot kernel inspect error_text m Hm kept [] start Hs) as (ld1 & El & Hi1).
  - intros l Hl. apply Hin, Hkept, Hl.
  - assert (Hsl : sublist kept leases).
    { unfold kept. clear. induction leases as [|l ls IH]; simpl; [constructor|]. destruct (keep_lease root croot l); by constructor. }
    eapply sublist_NoDup; [exact Hnd|]. revert Hsl. clear. induction 1; simpl; by constructor.
  - intros l _. set_solver.
  - rewrite app_nil_r in Hi1.
    rewrite El, bind_Ok'. eexists ld1, _. split; [done|].
    destruct (load_unexplained_ok (UnixNano now) (elements ld1.(ld_cgroups)) ld1 (li_piles _ _ _ _ _ _ Hi1) Hn) as [He Hex].
    + intros Hx%elem_of_elements. apply (li_cgroups _ _ _ _ _ _ Hi1) in Hx as [Hx|[l Hl]].
      * by apply Hk, (current_nonempty _ _ _ Hr) in Hx.
      * apply (li_from _ _ _ _ _ _ Hi1) in Hl as (_ & _ & _ & l0 & Hl0 & _). apply (lo_key _ Hm) in Hl0 as [E Hw]. by apply (lw_id _ Hw).
    + intros id. by rewrite elem_of_elements.
    + split; [done|]. split; [done|]. intros id Hid. apply Hex. by apply elem_of_elements.
Qed.
Lemma survives_holding root croot kernel l l0 : holding l = holding l0 ->
  survives root croot kernel l = survives root croot kernel l0 /\ keep_lease root croot l = keep_lease root croot l0.
Proof.
  intros Eh. destruct (holding_fields _ _ Eh) as (E1 & E2 & E3 & E4).
  assert (Ek : keep_lease root croot l = keep_lease root croot l0)
    by (unfold keep_lease, cgroupLeaseInOwnedCurrentRoot, staleCgroupLeaseIsRecreatable; by rewrite E1, E2, E3, E4).
  split; [|done]. unfold survives. by rewrite Ek, E1, E2.
Qed.
Lemma holding_holding l : holding (holding l) = holding l.
Proof. by destruct l. Qed.
Lemma holdings_lookup m id h : holdings m !! id = Some h <->
  exists l, m !! id = Some l /\ l.(cl_AllocationID) <> "" /\ h = holding l.
Proof.
  unfold holdings. rewrite lookup_omap. destruct (m !! id) as [l|]; simpl; [|split; [done|by intros (? & ? & _)]].
  unfold owned. destruct (String.eqb_spec (cl_AllocationID l) "") as [E|E].
  - split; [done|]. intros (l' & [= <-] & ? & _). done.
  - split; [intros [= <-]; eauto|]. by intros (l' & [= <-] & _ & ->).
Qed.

Section reload.
Context (root : string) (kernel : gset string) (m : gmap string CgroupLease) (identity : string) (ld1 ld : loading).
#[local] Notation croot := (conformance_root root).
#[local] Notation kept := (List.filter (keep_lease root croot) (ledger_of m identity).(cg_Leases)).
Context (Hm : leases_ok m) (He : explained ld1 ld) (Hi : load_inv root croot kernel m (rev (map cl_CgroupID kept)) ld1).
Lemma reloaded id l : ld.(ld_leases) !! id = Some l ->
  l.(cl_CgroupID) = id /\ lease_wf l /\
  (l.(cl_AllocationID) <> "" \/ l.(cl_OwnerKind) <> OWNER_UNSPECIFIED ->
   exists l0, m !! id = Some l0 /\ holding l = holding l0 /\ survives root croot kernel l0 = true).
Proof.
  intros Hl. destruct (ex_new _ _ He _ _ Hl) as [Hl1|(E & Hw & Ea & Ek & _)]; [|split_and!; try done; by intros []].
  destruct (li_from _ _ _ _ _ _ Hi _ _ Hl1) as (Hv & Hw & Hf & l0 & Hl0 & Eh).
  destruct (holding_fields _ _ Eh) as (E1 & E2 & _). destruct (lo_key _ Hm _ _ Hl0) as [E _].
  split; [congruence|]. split; [done|]. intros _. exists l0. split; [done|]. split; [done|].
  apply list_elem_of_In, in_rev, in_map_iff in Hv as (lk & Ek & [Hk1 Hk2]%filter_In).
  destruct (ledger_of_spec m identity Hm) as (Hin & _). apply list_elem_of_In, Hin in Hk1. rewrite Ek in Hk1.
  assert (lk = l0) as -> by congruence.
  unfold survives. rewrite Hk2. cbn [andb]. unfold found in Hf. rewrite <- E1, <- E2. done.
Qed.
Lemma reload_holdings id h :
  holdings ld.(ld_leases) !! id = Some h <-> holdings m !! id = Some h /\ survives root croot kernel h = true.
Proof.
  rewrite !holdings_lookup. split.
  - intros (l & Hl & Ha & ->). destruct (reloaded _ _ Hl) as (_ & _ & Hex). destruct Hex as (l0 & Hl0 & Eh & Hs); [by left|].
    destruct (holding_fields _ _ Eh) as (_ & _ & E3 & _). split; [exists l0; by rewrite <- E3|].
    by rewrite (proj1 (survives_holding root croot kernel (holding l) l0 (eq_trans (holding_holding l) Eh))).
  - intros [(l0 & Hl0 & Ha & ->) Hs].
    rewrite (proj1 (survives_holding root croot kernel (holding l0) l0 (holding_holding l0))) in Hs.
    pose proof Hs as Hs'. unfold survives in Hs'.  apply andb_true_iff in Hs' as [Hk Hf].
    destruct (lo_key _ Hm _ _ Hl0) as [E0 _]. destruct (ledger_of_spec m identity Hm) as (_ & Hall & _).
    assert (Hv : id ∈ rev (map cl_CgroupID kept)).
    { apply list_elem_of_In. rewrite <- in_rev. apply in_map_iff. exists l0. split; [done|]. apply filter_In. split; [|done].
      apply list_elem_of_In. by eapply Hall. }
    destruct (li_kept _ _ _ _ _ _ Hi id l0 Hv Hl0 Hf) as [l Hl].
    destruct (li_from _ _ _ _ _ _ Hi _ _ Hl) as (_ & _ & _ & l0' & Hl0' & Eh).
    assert (l0' = l0) as -> by congruence.
    destruct (holding_fields _ _ Eh) as (_ & _ & E3 & _). exists l. split; [|by rewrite E3].
    eapply lookup_weaken; [done|]. apply (ex_sub _ _ He).
Qed.
Lemma reload_leases_ok : leases_ok ld.(ld_leases).
Proof.
  split.
  - intros id l Hl. by destruct (reloaded _ _ Hl) as (? & ? & _).
  - intros id id' l l' Hl Hl' Ha E. destruct (reloaded _ _ Hl) as (_ & _ & Hex). destruct (reloaded _ _ Hl') as (_ & _ & Hex').
    destruct Hex as (l0 & X0 & Eh & _); [by left|]. destruct Hex' as (l0' & X0' & Eh' & _); [left; congruence|].
    destruct (holding_fields _ _ Eh) as (_ & _ & E3 & _). destruct (holding_fields _ _ Eh') as (_ & _ & E3' & _).
    apply (lo_owner _ Hm _ _ _ _ X0 X0'); congruence.
  - intros id id' l l' Hl Hl' Hc Hc'.
    assert (Hg : forall x lx, ld.(ld_leases) !! x = Some lx -> conformance_active lx = true ->
      exists l0, m !! x = Some l0 /\ conformance_active l0 = true).
    { intros x lx Hx Hcx. destruct (reloaded _ _ Hx) as (_ & _ & Hex). unfold conformance_active in Hcx.
      apply andb_true_iff in Hcx as [Hk Hs]. apply bool_decide_eq_true in Hk.
      destruct Hex as (l0 & X0 & Eh & _); [right; by rewrite Hk|]. exists l0. split; [done|].
      destruct (holding_fields _ _ Eh) as (_ & E2 & _ & E4). unfold conformance_active. rewrite <- E2, <- E4, Hk.
      by rewrite bool_decide_true. }
    destruct (Hg _ _ Hl Hc) as (l0 & X0 & C0). destruct (Hg _ _ Hl' Hc') as (l0' & X0' & C0').
    by apply (lo_conformance _ Hm _ _ _ _ X0 X0').
Qed.
Lemma reload_current id : is_Some (ld.(ld_leases) !! id) -> cgroupPathInCurrentRoot id root croot = true ->
  id ∈ ld.(ld_cgroups).
Proof.
  intros [l Hl] Hc. rewrite (ex_cgroups _ _ He). destruct (ex_new _ _ He _ _ Hl) as [Hl1|(_ & _ & _ & _ & _ & Hin)]; [|done].
  apply (li_current _ _ _ _ _ _ Hi); eauto.
Qed.
End reload.

Lemma new_manager_pools root kernel m identity ld1 ld size cacheSize required db :
  leases_ok m -> explained ld1 ld -> roots_ok root (conformance_root root) -> identity_canonical identity = Ok () ->
  load_inv root (conformance_root root) kernel m
    (rev (map cl_CgroupID (List.filter (keep_lease root (conformance_root root)) (ledger_of m identity).(cg_Leases)))) ld1 ->
  (forall id, id ∈ ld1.(ld_cgroups) -> is_Some (ld.(ld_leases) !! id)) ->
  (required = true -> holdings ld.(ld_leases) <> ∅ -> identity <> "") ->
  pools None None (new_manager size cacheSize root required db identity ld : CgroupManager).
Proof.
  intros Hm He Hr Hcan Hi Hex Hreq. pose proof (ex_piles _ _ He) as [Hu Hid Hg Ho Hn1 Hn2].
  pose proof (reload_current root kernel m identity ld1 ld He Hi) as Hcur. destruct Hr as (R1 & R2 & R12).
  destruct (new_law root (cgroupIDsUnderRoot (elements ld.(ld_cgroups)) root) R1) as [U1 I1].
  destruct (new_law (conformance_root root) (cgroupIDsUnderRoot (elements ld.(ld_cgroups)) (conformance_root root)) R2) as [U2 I2].
  assert (Hiss : forall r id, id ∈ ld.(ld_cgroups) -> legal id = true -> Dir id = r ->
    id ∈ (list_to_set (List.filter legal (cgroupIDsUnderRoot (elements ld.(ld_cgroups)) r)) : gset string)).
  { intros r id Hin Hl Hd. apply elem_of_list_to_set, list_elem_of_In, filter_In. split; [|done].
    unfold cgroupIDsUnderRoot. apply filter_In. split; [by apply list_elem_of_In, elem_of_elements|by apply String.eqb_eq]. }
  unfold new_manager. split; simpl; try done.
  - by apply (reload_leases_ok root kernel m identity ld1).
  - intros id. rewrite <- Hid. split; [by intros []|auto].
  - intros id. rewrite <- Hg. split; [by intros []|auto].
  - intros id. rewrite (ex_cgroups _ _ He). apply Hex.
  - intros id Hs Hl. rewrite I1, I2. split; intros Hd; apply Hiss; try done; apply Hcur; try done;
      unfold cgroupPathInCurrentRoot; apply orb_true_iff; [left|right]; by apply String.eqb_eq.
  - by left.
Qed.

Lemma store_same f (c c' : CgroupManager) r : storeLocked f c = (c', r) ->
  exists db mark, c' = set_db db mark c /\
    (r = Ok () /\ saved db CgroupBucket = Some (ledger c) \/ exists e, r = Err e /\ db = c.(mg_db)).
Proof.
  unfold storeLocked. destruct (SaveSnapshot f CgroupBucket (ledger c) (mg_db c)) as [db r'] eqn:E. intros Es.
  apply save_law in E as [(e & -> & ->)|[-> Hs]]; injection Es as <- <-; eexists _, _; (split; [done|]); [right|left]; eauto.
Qed.
Lemma committed_unless_required (c : CgroupManager) : hasCommittedMemoryLeaseLocked c = false -> pools None None c -> holdings c.(mg_leases) = ∅.
Proof.
  intros Hc Hp. apply holdings_empty. intros id l Hl. destruct (lo_key _ (p_leases _ _ _ Hp) _ _ Hl) as [_ Hw].
  assert (Hcs : committed_state l.(cl_State) = false).
  { apply not_true_is_false. intros Ht. rewrite <- not_true_iff_false in Hc. apply Hc. unfold hasCommittedMemoryLeaseLocked, lease_list.
    apply existsb_exists. exists l. split; [|done]. apply in_map_iff. exists (id, l). split; [done|].
    by apply list_elem_of_In, elem_of_map_to_list. }
  pose proof (lw_state _ Hw) as Hs. unfold state_wf in Hs. unfold committed_state in Hcs.
  destruct (cl_State l) eqn:Es; try done; try (by destruct Hs); by rewrite bool_decide_true in Hcs by done.
Qed.
Lemma start_sound read write size cacheSize root kernel inspect error_text now required db db' r m identity :
  NewCgroupManager read write size cacheSize root kernel inspect error_text now required db = (db', r) ->
  genuine read -> saved_as db m identity -> leases_ok m -> identity_canonical identity = Ok () ->
  roots_ok root (conformance_root root) -> kernel_ok root kernel -> 0 < UnixNano now ->
  match r with
  | Err _ => db' = db
  | Ok c => mg_db c = db' /\ inv None None (c : CgroupManager) /\ c.(mg_memoryCapacityIdentity) = identity /\
      forall id h, holdings c.(mg_leases) !! id = Some h <-> holdings m !! id = Some h /\ survives root (conformance_root root) kernel h = true
  end.
Proof.
  unfold NewCgroupManager. intros E Hg Hs Hm Hcan Hr Hk Hn.
  destruct (load_ledger read db) as [stored|e] eqn:El; [|by injection E as <- <-].
  apply (load_ledger_spec _ _ _ _ _ Hg Hs) in El as ->. rewrite bind_Ok' in E.
  destruct (load_pools_spec root kernel inspect error_text now m identity Hm Hcan Hr Hk Hn) as (ld1 & ld & El & He & Hi & Hex).
  rewrite El, bind_Ok' in E. change (cg_MemoryCapacityIdentity (ledger_of m identity)) with identity in E.
  set (c0 := new_manager size cacheSize root required db identity ld) in E.
  destruct (required && _ && _) eqn:Echeck; [by injection E as <- <-|].
  pose proof (reload_holdings root kernel m identity ld1 ld Hm He Hi) as Hh.
  assert (Hp0 : pools None None c0).
  { assert (Hp1 : pools None None (new_manager size cacheSize root false db identity ld : CgroupManager))
      by (by eapply new_manager_pools).
    eapply new_manager_pools; try done. intros -> Hne Hid. cbn [andb] in Echeck. apply andb_false_iff in Echeck as [Ec|Ec].
    - apply Hne. apply (committed_unless_required (new_manager size cacheSize root false db identity ld)); done.
    - unfold c0 in Ec. simpl in Ec. by rewrite Hid in Ec. }
  destruct (storeLocked write c0) as [c1 r1] eqn:Est. destruct (store_same _ _ _ _ Est) as (db1 & mk & -> & Hr1).
  destruct Hr1 as [[-> Hsv]|(e & -> & ->)]; injection E as <- <-; [|done].
  split; [done|]. split; [|by split].
  split; [exact (proj2 (pools_set_db None None db1 mk c0) Hp0)|]. exists ld.(ld_leases). split; [done|]. split; [apply Hp0|done].
Qed.
(** With a store and a kernel that answer, the next start succeeds. *)
Lemma start_succeeds write size cacheSize root kernel inspect error_text now required db m identity :
  saved db CgroupBucket = Some (ledger_of m identity) -> leases_ok m -> identity_canonical identity = Ok () ->
  roots_ok root (conformance_root root) -> kernel_ok root kernel -> 0 < UnixNano now ->
  (required = true -> identity <> "") -> (forall l, (SaveSnapshot write CgroupBucket l db).2 = Ok ()) ->
  is_Ok (NewCgroupManager (G := G) None write size cacheSize root kernel inspect error_text now required db).2 = true.
Proof.
  intros Hs Hm Hcan Hr Hk Hn Hreq Hw. unfold NewCgroupManager, load_ledger. rewrite (load_commits CgroupBucket db (ledger_of m identity) ltac:(discriminate) Hs), bind_Ok'.
  destruct (load_pools_spec root kernel inspect error_text now m identity Hm Hcan Hr Hk Hn) as (ld1 & ld & -> & _).
  rewrite bind_Ok'. change (cg_MemoryCapacityIdentity (ledger_of m identity)) with identity.
  set (c0 := new_manager size cacheSize root required db identity ld).
  assert (required && hasCommittedMemoryLeaseLocked c0 && String.eqb (mg_memoryCapacityIdentity c0) "" = false) as ->.
  { destruct required; [|done]. unfold c0. simpl. destruct (String.eqb_spec identity ""); [by destruct Hreq|]. by rewrite andb_false_r. }
  unfold storeLocked. specialize (Hw (ledger c0)). change (mg_db c0) with db.
  destruct (SaveSnapshot write CgroupBucket (ledger c0) db) as [db1 r1]. simpl in Hw. by subst r1.
Qed.
End start.
