(* ===== verification/CgroupSafety.v ===== *)
(** * The cgroup manager as a system

    [cgroup_step] is the manager with its worker: every operation in any order,
    failed saves, a crash at any point and the next start.  What owns memory is
    never forgotten and never reused, the saved ledger always names it, and what
    is admitted stays within the capacity sample that admitted it. *)
From S2P Require Import Prelude Proto Resource Capability CapabilityFacts Execution NodeDB NodeAllocation Queue TruncIndex Cgroup CgroupFacts CgroupStart.
Import queue truncindex.

(** ** How a holding evolves *)
Record lease_le (h h' : CgroupLease) : Prop := {
  le_id : h'.(cl_CgroupID) = h.(cl_CgroupID);
  le_owner : h'.(cl_AllocationID) = h.(cl_AllocationID);
  le_kind : h'.(cl_OwnerKind) = h.(cl_OwnerKind);
  le_memory : h'.(cl_MemoryRequestBytes) = h.(cl_MemoryRequestBytes) /\ h'.(cl_MemoryLimitBytes) = h.(cl_MemoryLimitBytes) /\
    h'.(cl_CapacityChargeBytes) = h.(cl_CapacityChargeBytes);
  le_assigned : h'.(cl_AssignedAtUnixNano) = h.(cl_AssignedAtUnixNano);
  le_state : h'.(cl_State) = h.(cl_State) /\ h'.(cl_RetiringAtUnixNano) = h.(cl_RetiringAtUnixNano) \/
    h.(cl_State) = CLS_ASSIGNED /\ h'.(cl_State) = CLS_RETIRING;
  le_identity : cgroupLeaseHasAnyMemoryIdentity h = true ->
    h'.(cl_CgroupBootID) = h.(cl_CgroupBootID) /\ h'.(cl_CgroupMountIdentity) = h.(cl_CgroupMountIdentity) /\
    h'.(cl_CgroupParentInode) = h.(cl_CgroupParentInode) /\ h'.(cl_CgroupLeafInode) = h.(cl_CgroupLeafInode) }.
Lemma lease_le_refl h : lease_le h h.
Proof. split; auto. Qed.
Definition evolves (m m' : gmap string CgroupLease) : Prop :=
  forall id h, holdings m !! id = Some h -> exists h', holdings m' !! id = Some h' /\ lease_le h h'.
Lemma evolves_eq m m' : holdings m' = holdings m -> evolves m m'.
Proof. intros E id h Hh. exists h. rewrite E. split; [done|apply lease_le_refl]. Qed.
(** One lease changes, one way. *)
Lemma evolves_update m id l l' : m !! id = Some l ->
  (l.(cl_AllocationID) <> "" -> l'.(cl_AllocationID) <> "" /\ lease_le (holding l) (holding l')) -> evolves m (<[id := l']> m).
Proof.
  intros Hl Hle x h Hh. apply holdings_lookup in Hh as (lx & Hx & Ha & ->). destruct (decide (x = id)) as [->|].
  - assert (lx = l) as -> by congruence. destruct (Hle Ha) as [Ha' Hle']. exists (holding l'). split; [|done].
    apply holdings_lookup. exists l'. by rewrite lookup_insert_eq.
  - exists (holding lx). split; [|apply lease_le_refl]. apply holdings_lookup. exists lx. by rewrite lookup_insert_ne.
Qed.

Section moves.
Context {S G : Type} `{SnapshotStore S CgroupLedger} `{UniqueIdGenerator G} {GL : GeneratorLaws G} {SL : SnapshotLaws S CgroupLedger}.
#[local] Notation CgroupManager := (CgroupManager S G).

Lemma store_leases f (c : CgroupManager) : mg_leases (storeLocked f c).1 = mg_leases c.
Proof. unfold storeLocked. destruct (SaveSnapshot _ _ _ _) as [db [[]|e]]; by destruct c. Qed.
Lemma Add_evolves f draws created w (c : CgroupManager) : pools None w c -> evolves c.(mg_leases) (Add f draws created c).1.(mg_leases).
Proof.
  intros Hp. apply evolves_eq. unfold Add. destruct (addLocked_inv draws created w c Hp) as [_ [_ _ Hh]].
  destruct (addLocked draws created c) as [c' n]. simpl in Hh. destruct (0 <? n)%nat; simpl; [|done]. by rewrite store_leases.
Qed.
Lemma Del_evolves f num now w (c : CgroupManager) : 0 < UnixNano now -> pools None w c -> evolves c.(mg_leases) (Del f num now c).(mg_leases).
Proof.
  intros Hn Hp. apply evolves_eq. unfold Del. rewrite store_leases. by destruct (shrink_inv num _ w c Hn Hp) as [_ [_ _ ?]].
Qed.
Lemma capacity_leases f s (c : CgroupManager) : mg_leases (UpdateMemoryCapacity f s c).1 = mg_leases c.
Proof.
  assert (Hf : forall b, mg_leases (forget_capacity b c) = mg_leases c) by (by destruct c).
  unfold UpdateMemoryCapacity. destruct (mc_Unavailable s); [apply Hf|]. destruct (validate_capacity s); [|apply Hf].
  destruct (_ && hasCommittedMemoryLeaseLocked c); [apply Hf|]. destruct (_ && _ && _); [apply Hf|].
  assert (Hc : forall a b d (x : CgroupManager), mg_leases (set_capacity a b d x) = mg_leases x) by (intros; by destruct x).
  destruct (String.eqb _ _); [apply Hc|]. pose proof (store_leases f (set_capacity s (mc_CapacityIdentity s) false c)) as E.
  destruct (storeLocked f _) as [c' [[]|e]]; simpl in *; by rewrite ?Hc, E, Hc.
Qed.
Lemma set_leases_eq m (c : CgroupManager) : mg_leases (set_leases m c) = m.
Proof. by destruct c. Qed.

Lemma assign_evolves f assignedAt opt id w (c : CgroupManager) :
  pools (Some id) w c -> validate_allocate opt = Ok () -> 0 < UnixNano assignedAt ->
  evolves c.(mg_leases) (assign f assignedAt opt id c).1.(mg_leases).
Proof.
  intros Hp Hv Hat. unfold assign.
  assert (Hidle : state_of c.(mg_leases) id = Some CLS_IDLE) by (apply (p_idle _ _ _ Hp); auto).
  unfold state_of in Hidle. destruct (mg_leases c !! id) as [l|] eqn:Hl; [|done]. injection Hidle as Es.
  destruct (lo_key _ (p_leases _ _ _ Hp) _ _ Hl) as [Eid Hw]. destruct (idle_facts _ Hw Es) as (Ea & _).
  rewrite (bool_decide_true _ Es). cbn [negb]. set (l2 := lease_assigned _ _ _ _ l). set (c1 := set_owners _ _).
  assert (E1 : mg_leases c1 = <[id := l2]> (mg_leases c)) by (unfold c1; by destruct c).
  pose proof (store_leases f c1) as Ec. destruct (storeLocked f c1) as [c2 [[]|e]]; simpl in Ec.
  - simpl. rewrite Ec, E1. apply (evolves_update _ _ l); [done|]. intros Hne. congruence.
  - destruct (assign_undo w c id l opt (allocate_kind opt) (allocate_charge opt) (UnixNano assignedAt) Hp Hl Es Hat) as (_ & _ & Hh).
    destruct (bool_decide _); apply evolves_eq; simpl.
    + replace (mg_leases (set_gc _ _)) with (<[id := lease_unassigned CLS_RETIRING (UnixNano assignedAt) l2]> (mg_leases c2))
        by (by destruct c2). rewrite Ec, E1. apply Hh.
    + replace (mg_leases (set_idle _ _)) with (<[id := lease_unassigned CLS_IDLE (cl_RetiringAtUnixNano l2) l2]> (mg_leases c2))
        by (by destruct c2). rewrite Ec, E1. apply Hh.
Qed.
Lemma Allocate_evolves f now assignedAt intn created opt w (c : CgroupManager) :
  pools None w c -> 0 < UnixNano assignedAt ->
  evolves c.(mg_leases) (Allocate f now assignedAt intn created opt c).1.(mg_leases).
Proof.
  intros Hp Hat. unfold Allocate. destruct (validate_allocate opt) as [[]|] eqn:Hv; [|by apply evolves_eq].
  destruct (mg_allocationLeases c !! _); [by apply evolves_eq|]. destruct (admit_memory now opt c); [|by apply evolves_eq].
  destruct (_ && _); [by apply evolves_eq|]. destruct (obtain _ intn created c) as [c' r] eqn:Eo.
  destruct (obtain_inv _ _ _ _ _ _ _ Eo Hp) as (Hp' & [_ _ Hh] & _). destruct r as [id|e]; [|by apply evolves_eq].
  intros x h Hx. rewrite <- Hh in Hx. by apply (assign_evolves f assignedAt opt id w c').
Qed.
Lemma Recycle_finish_evolves f now id assigned charged (c : CgroupManager) :
  evolves c.(mg_leases) (Recycle_finish f now id assigned charged c).1.(mg_leases).
Proof.
  unfold Recycle_finish. destruct (mg_leases c !! id) as [l|] eqn:Hl; [|by apply evolves_eq].
  case_bool_decide; [by apply evolves_eq|]. case_bool_decide as Es; cbn [negb orb]; [|by apply evolves_eq].
  destruct (_ || _); [by apply evolves_eq|]. set (l' := lease_retiring _ _ _ l). set (c1 := set_using _ _).
  assert (E1 : mg_leases c1 = <[id := l']> (mg_leases c)) by (unfold c1; by destruct c).
  pose proof (store_leases f c1) as Ec. destruct (storeLocked f c1) as [c2 [[]|e]]; simpl in Ec.
  - match goal with |- evolves _ ?m => assert (Em : m = mg_leases c2) by (by destruct c2) end. rewrite Em, Ec, E1.
    apply (evolves_update _ _ l); [done|]. intros Ha. split; [done|]. split; try done. by right.
  - match goal with |- evolves _ ?m => assert (Em : m = <[id := l]> (mg_leases c2)) by (by destruct c2) end.
    apply evolves_eq. by rewrite Em, Ec, E1, insert_insert_eq, insert_id.
Qed.
Lemma rewrite_evolves f id l l' (c : CgroupManager) (wrap : error -> error) :
  c.(mg_leases) !! id = Some l -> (l.(cl_AllocationID) <> "" -> l'.(cl_AllocationID) <> "" /\ lease_le (holding l) (holding l')) ->
  evolves c.(mg_leases) (match storeLocked f (set_leases (<[id := l']> c.(mg_leases)) c) with
              | (c, Ok _) => (c, Ok ())
              | (c, Err e) => (set_leases (<[id := l]> c.(mg_leases)) c, Err (wrap e))
              end).1.(mg_leases).
Proof.
  intros Hl Hle. pose proof (store_leases f (set_leases (<[id := l']> c.(mg_leases)) c)) as Ec. rewrite set_leases_eq in Ec.
  destruct (storeLocked f _) as [c2 [[]|e]]; simpl in *.
  - rewrite Ec. by apply (evolves_update _ _ l).
  - apply evolves_eq. by rewrite set_leases_eq, Ec, insert_insert_eq, insert_id.
Qed.
Lemma BindMemoryDomain_evolves f cgroupID allocationID limitBytes bootID mountIdentity parentInode leafInode (c : CgroupManager) :
  evolves c.(mg_leases)
    (BindMemoryDomain f cgroupID allocationID limitBytes bootID mountIdentity parentInode leafInode c).1.(mg_leases).
Proof.
  unfold BindMemoryDomain. destruct (_ || _); [by apply evolves_eq|].
  destruct (mg_leases c !! cgroupID) as [l|] eqn:Hl; [|by apply evolves_eq]. destruct (negb _ || _ || _); [by apply evolves_eq|].
  destruct (cgroupLeaseHasAnyMemoryIdentity l) eqn:Ei.
  - destruct (negb _); [by apply evolves_eq|]. destruct (String.eqb _ _); [by apply evolves_eq|].
    apply (rewrite_evolves f cgroupID l _ c (fun e => Wrapf _ [] e)); [done|]. intros Ha. split; [done|].
    split; try done. by left.
  - apply (rewrite_evolves f cgroupID l _ c (fun e => Wrapf _ [] e)); [done|]. intros Ha. split; [done|].
    split; try done; [by left|]. change (cgroupLeaseHasAnyMemoryIdentity (holding l)) with (cgroupLeaseHasAnyMemoryIdentity l). congruence.
Qed.
Lemma touch_evolves id l l' (c : CgroupManager) : c.(mg_leases) !! id = Some l -> owned l' = owned l ->
  evolves c.(mg_leases) (set_leases (<[id := l']> c.(mg_leases)) c).(mg_leases).
Proof. intros Hl Ho. apply evolves_eq. rewrite set_leases_eq. by apply (holdings_update _ _ l). Qed.
Lemma converge_charge_evolves id charged (c : CgroupManager) : evolves c.(mg_leases) (converge_charge id charged c).1.(mg_leases).
Proof.
  unfold converge_charge. destruct (mg_leases c !! id) as [l|] eqn:Hl; [|by apply evolves_eq].
  case_bool_decide; [|by apply evolves_eq]. by apply (touch_evolves id l).
Qed.
Lemma recordRetiringFailure_evolves f id message (c : CgroupManager) :
  evolves c.(mg_leases) (recordRetiringFailure f id message c).(mg_leases).
Proof.
  unfold recordRetiringFailure. rewrite store_leases. destruct (mg_leases c !! id) as [l|] eqn:Hl; [|by apply evolves_eq].
  by apply (touch_evolves id l).
Qed.
(** Only the worker lets go, and only of what it has seen converge. *)
Lemma complete_evolves f id (c : CgroupManager) x h : pools None (Some id) c -> holdings c.(mg_leases) !! x = Some h ->
  (exists h', holdings (completeRetiringCgroup f id c).1.(mg_leases) !! x = Some h' /\ lease_le h h') \/
  x = id /\ h.(cl_State) = CLS_RETIRING /\ holdings (completeRetiringCgroup f id c).1.(mg_leases) !! x = None.
Proof.
  intros Hp Hx. destruct (worker_lease _ _ _ Hp) as (l & Hl & Es & _). unfold completeRetiringCgroup. rewrite Hl. cbv zeta.
  fold (taken_out id l c).
  assert (Et : mg_leases (taken_out id l c) = delete id (mg_leases c) /\ mg_db (taken_out id l c) = mg_db c)
    by (unfold taken_out; destruct c; simpl; by destruct (negb _)). destruct Et as [Et Edb].
  destruct (storeLocked f (taken_out id l c)) as [c2 r] eqn:E. destruct (store_same _ _ _ _ E) as (db & mk & -> & Hr).
  destruct Hr as [[-> _]|(e & -> & ->)]; cbn [fst].
  - destruct (release_id_fields id db mk (taken_out id l c)) as (-> & -> & _). rewrite Et.
    destruct (decide (x = id)) as [->|Hne].
    + right. apply holdings_lookup in Hx as (lx & Hlx & _ & ->). assert (lx = l) as -> by congruence.
      split; [done|]. split; [done|]. unfold holdings. by rewrite lookup_omap, lookup_delete_eq.
    + left. exists h. split; [|apply lease_le_refl]. unfold holdings in *. rewrite lookup_omap in *. by rewrite lookup_delete_ne.
  - left. rewrite Edb. fold (put_back id l (set_db (mg_db c) mk (taken_out id l c))). rewrite (put_back_out _ _ _ _ Hp Hl Es).
    exists h. split; [|apply lease_le_refl]. by destruct c.
Qed.
End moves.

(** ** The system *)
(** What the worker is at: see [cgroup_gc.go]. *)
Inductive phase := Resting | Taken (id : string) | Charged (id : string) | Converged (id : string)
  | Failed (id : string) | Recorded (id : string).
Definition working (w : phase) : option string :=
  match w with
  | Resting => None | Taken id | Charged id | Converged id | Failed id | Recorded id => Some id
  end.
Inductive sys (S G : Type) := Up (c : CgroupManager S G) (w : phase) | Down (db : S).
Arguments Up {S G}. Arguments Down {S G}.

Section system.
Context {S G : Type} `{SnapshotStore S CgroupLedger} `{UniqueIdGenerator G} {GL : GeneratorLaws G} {SL : SnapshotLaws S CgroupLedger}.
#[local] Notation CgroupManager := (CgroupManager S G).

(** What a caller or the worker does under the mutex.  The kernel
    identities are as short as [internal/hostlinux] makes them. *)
Inductive manager_step : CgroupManager -> phase -> CgroupManager -> phase -> Prop :=
| do_allocate f now assignedAt intn created opt c w : 0 < UnixNano assignedAt ->
    manager_step c w (Allocate f now assignedAt intn created opt c).1 w
| do_recycle f now id assigned domain currentBytes charged c w : 0 < UnixNano now ->
    Recycle_inspect id assigned domain currentBytes = Ok charged ->
    manager_step c w (Recycle_finish f now id assigned charged c).1 w
| do_bind f cgroupID allocationID limitBytes bootID mountIdentity parentInode leafInode c w :
    str_len bootID <= 128 -> str_len mountIdentity <= 1024 ->
    manager_step c w (BindMemoryDomain f cgroupID allocationID limitBytes bootID mountIdentity parentInode leafInode c).1 w
| do_capacity f s c w : manager_step c w (UpdateMemoryCapacity f s c).1 w
| do_add f draws created c w : manager_step c w (Add f draws created c).1 w
| do_del f num now c w : 0 < UnixNano now -> manager_step c w (Del f num now c) w
| do_tick f c w : manager_step c w (keepStoring_tick f c) w
| gc_take c : (gc_pop c).2 <> "" -> manager_step c Resting (gc_pop c).1 (Taken (gc_pop c).2)
| gc_gone id l staleProcesses inspected currentBytes c :
    converge_begin id c = Ok (Some l) -> converge_verify id l staleProcesses inspected currentBytes c = Ok None ->
    manager_step c (Taken id) c (Converged id)
| gc_absent id c : converge_begin id c = Ok None -> manager_step c (Taken id) c (Converged id)
| gc_charge id l staleProcesses inspected currentBytes bytes c : 0 <= bytes ->
    converge_begin id c = Ok (Some l) -> converge_verify id l staleProcesses inspected currentBytes c = Ok (Some bytes) ->
    manager_step c (Taken id) (converge_charge id bytes c).1
      (match (converge_charge id bytes c).2 with Ok _ => Charged id | Err _ => Failed id end)
| gc_end id processes removed c : manager_step c (Charged id) c
    (match converge_end id processes removed with Ok _ => Converged id | Err _ => Failed id end)
| gc_give_up id c : manager_step c (Taken id) c (Failed id)
| gc_complete f id c : manager_step c (Converged id) (completeRetiringCgroup f id c).1
    (match (completeRetiringCgroup f id c).2 with Ok _ => Resting | Err _ => Failed id end)
| gc_record f id message c : manager_step c (Failed id) (recordRetiringFailure f id message c) (Recorded id)
| gc_back id c : manager_step c (Recorded id) (gc_push id c) Resting.

Inductive cgroup_step : sys S G -> sys S G -> Prop :=
| step_up c w c' w' : manager_step c w c' w' -> cgroup_step (Up c w) (Up c' w')
| step_crash c w : cgroup_step (Up c w) (Down c.(mg_db))
| step_start read write size cacheSize root kernel inspect error_text now required db db' r :
    genuine read -> roots_ok root (conformance_root root) -> kernel_ok root kernel -> 0 < UnixNano now ->
    NewCgroupManager read write size cacheSize root kernel inspect error_text now required db = (db', r) ->
    cgroup_step (Down db) (match r with Ok c => Up c Resting | Err _ => Down db' end).
(** The first start finds no ledger. *)
Definition reachable (s : sys S G) : Prop :=
  exists db, saved db CgroupBucket = None /\ rtc cgroup_step (Down db) s.
Definition sys_inv (s : sys S G) : Prop :=
  match s with Up c w => inv None (working w) c | Down db => saved_ok db end.

Lemma Recycle_inspect_charged id assigned domain currentBytes charged :
  Recycle_inspect id assigned domain currentBytes = Ok charged -> 0 <= charged.
Proof.
  unfold Recycle_inspect. destruct domain as [d|e]; [|destruct (is_not_exist e); [intros [= <-]; lia|done]].
  destruct (if cgroupLeaseHasMemoryIdentity assigned then _ else _) as [[]|]; [cbn|done].
  destruct currentBytes as [b|e]; [|destruct (is_not_exist e); [intros [= <-]; lia|done]].
  destruct (Z.ltb_spec b 0); [done|]. intros [= <-]. lia.
Qed.
Lemma manager_step_inv c w c' w' : manager_step c w c' w' -> inv None (working w) c -> inv None (working w') c'.
Proof.
  intros Hst Hi. destruct Hst; simpl in *.
  - by apply Allocate_inv.
  - apply Recycle_finish_inv; [done| |done]. by eapply Recycle_inspect_charged.
  - by apply BindMemoryDomain_inv.
  - by apply UpdateMemoryCapacity_inv.
  - by apply Add_inv.
  - by apply Del_inv.
  - by apply keepStoring_inv.
  - by apply gc_pop_inv.
  - done.
  - done.
  - apply (converge_charge_inv id bytes) in Hi; [|done]. by destruct (converge_charge id bytes c) as [? []].
  - by destruct (converge_end _ _ _).
  - done.
  - pose proof (complete_inv f id c Hi) as Hc. by destruct (completeRetiringCgroup f id c) as [? []].
  - by apply recordRetiringFailure_inv.
  - by apply gc_push_inv.
Qed.
Lemma inv_saved h w c : inv h w (c : CgroupManager) -> exists m, saved_as c.(mg_db) m c.(mg_memoryCapacityIdentity) /\
  leases_ok m /\ identity_canonical c.(mg_memoryCapacityIdentity) = Ok () /\ holdings m = holdings c.(mg_leases).
Proof. intros [Hp (m & Hs & Hm & Hh)]. exists m. split; [by left|]. split; [done|]. split; [apply Hp|done]. Qed.
Lemma cgroup_step_inv s s' : cgroup_step s s' -> sys_inv s -> sys_inv s'.
Proof.
  destruct 1 as [c w c' w' Hst|c w|read write size cacheSize root kernel inspect error_text now required db db' r Hg Hr Hk Hn E].
  - by apply manager_step_inv.
  - intros (m & ? & ? & ? & _)%inv_saved. by exists m, c.(mg_memoryCapacityIdentity).
  - intros (m & identity & Hs & Hm & Hc). pose proof (start_sound _ _ _ _ _ _ _ _ _ _ _ _ _ _ _ E Hg Hs Hm Hc Hr Hk Hn) as Hst.
    destruct r as [c|e]; simpl; [by destruct Hst as (_ & ? & _)|]. subst. by exists m, identity.
Qed.
Lemma manager_reachable_inv s : reachable s -> sys_inv s.
Proof.
  intros (db & Hdb & Hr). assert (Hs : sys_inv (Down db)).
  { exists ∅, "". split; [by right|]. split; [apply leases_ok_empty|]. vm_compute. reflexivity. }
  clear Hdb. induction Hr as [|x y z Hxy _ IH]; [done|]. apply IH. by eapply cgroup_step_inv.
Qed.
End system.

(** ** Memory *)
(** What one lease adds to the commitment of workloads, or of conformance. *)
Definition charge_of (conformance : bool) (l : CgroupLease) : Z :=
  if committed_state l.(cl_State) && Bool.eqb (bool_decide (l.(cl_OwnerKind) = OWNER_RUNTIME_CONFORMANCE)) conformance
  then lease_charge l else 0.
Definition sum_charges (conformance : bool) (ls : list CgroupLease) : Z := foldr (fun l n => charge_of conformance l + n) 0 ls.
Definition total (conformance : bool) (m : gmap string CgroupLease) : Z :=
  sum_charges conformance (map snd (map_to_list m)).

Lemma lease_charge_nonneg l : lease_wf l -> 0 <= lease_charge l.
Proof.
  intros Hw. destruct (lw_memory _ Hw). unfold lease_charge, capacity_charge.
  destruct (cl_CapacityChargeBytes l =? 0); destruct (_ && _); lia.
Qed.
Lemma charge_of_nonneg b l : lease_wf l -> 0 <= charge_of b l.
Proof. intros Hw. unfold charge_of. destruct (_ && _); [by apply lease_charge_nonneg|lia]. Qed.
Lemma sum_charges_nonneg b ls : Forall lease_wf ls -> 0 <= sum_charges b ls.
Proof. induction 1 as [|l ls Hw _ IH]; simpl; [lia|]. pose proof (charge_of_nonneg b l Hw). lia. Qed.
Lemma saturating_spec a d : 0 <= a <= MaxInt64 -> 0 <= d -> saturatingMemoryAdd a d = Z.min MaxInt64 (a + d).
Proof. intros Ha Hd. unfold saturatingMemoryAdd. checks; lia. Qed.
Lemma commit_lease_spec now r l : lease_wf l -> 0 <= r.(cm_CommittedBytes) <= MaxInt64 -> 0 <= r.(cm_ConformanceBytes) <= MaxInt64 ->
  (commit_lease now r l).(cm_CommittedBytes) = Z.min MaxInt64 (r.(cm_CommittedBytes) + charge_of false l) /\
  (commit_lease now r l).(cm_ConformanceBytes) = Z.min MaxInt64 (r.(cm_ConformanceBytes) + charge_of true l).
Proof.
  intros Hw Hr1 Hr2. pose proof (lease_charge_nonneg l Hw) as Hc. unfold commit_lease, charge_of.
  destruct (committed_state (cl_State l)); cbn [negb andb]; [|split; lia].
  destruct (bool_decide _); cbn [Bool.eqb cm_CommittedBytes cm_ConformanceBytes]; rewrite saturating_spec by done; split; lia.
Qed.
(** The commitment is the sum, cut at the largest int64, in whatever order the
    leases are visited. *)
Lemma commitment_spec now ls r : Forall lease_wf ls ->
  0 <= r.(cm_CommittedBytes) <= MaxInt64 -> 0 <= r.(cm_ConformanceBytes) <= MaxInt64 ->
  (fold_left (commit_lease now) ls r).(cm_CommittedBytes) = Z.min MaxInt64 (r.(cm_CommittedBytes) + sum_charges false ls) /\
  (fold_left (commit_lease now) ls r).(cm_ConformanceBytes) = Z.min MaxInt64 (r.(cm_ConformanceBytes) + sum_charges true ls).
Proof.
  intros Hls. revert r. induction Hls as [|l ls Hw Hls IH]; intros r H1 H2; simpl; [split; lia|].
  destruct (commit_lease_spec now r l Hw H1 H2) as [E1 E2].
  pose proof (charge_of_nonneg false l Hw). pose proof (charge_of_nonneg true l Hw).
  pose proof (sum_charges_nonneg false ls Hls). pose proof (sum_charges_nonneg true ls Hls).
  assert (0 <= MaxInt64) by (unfold MaxInt64; lia).
  destruct (IH (commit_lease now r l)) as [-> ->]; [rewrite E1; lia|rewrite E2; lia|]. rewrite E1, E2. split; lia.
Qed.
Lemma sum_charges_perm b ls ls' : ls ≡ₚ ls' -> sum_charges b ls = sum_charges b ls'.
Proof. induction 1; simpl; lia. Qed.
Lemma total_fresh b m id l : m !! id = None -> total b (<[id := l]> m) = charge_of b l + total b m.
Proof.
  intros Hn. unfold total.
  rewrite (sum_charges_perm b _ (map snd ((id, l) :: map_to_list m))); [done|]. apply Permutation_map. by apply map_to_list_insert.
Qed.
Lemma total_update b m id l l' : m !! id = Some l -> total b (<[id := l']> m) = charge_of b l' + total b m - charge_of b l.
Proof.
  intros Hl. rewrite <- (insert_delete_id m id l Hl) at 2. rewrite (total_fresh b (delete id m)) by apply lookup_delete_eq.
  rewrite <- insert_delete_eq, total_fresh by apply lookup_delete_eq. lia.
Qed.
Lemma wf_list m : leases_ok m -> Forall lease_wf (map snd (map_to_list m)).
Proof.
  intros Hm. apply Forall_forall. intros l Hl. apply list_elem_of_In, in_map_iff in Hl as ([id l'] & <- & Hin).
  apply list_elem_of_In, elem_of_map_to_list in Hin. by apply (lo_key _ Hm) in Hin as [_ ?].
Qed.

Section admission.
Context {S G : Type} `{SnapshotStore S CgroupLedger} `{UniqueIdGenerator G} {GL : GeneratorLaws G} {SL : SnapshotLaws S CgroupLedger}.
#[local] Notation CgroupManager := (CgroupManager S G).
Lemma commitment_total now (c : CgroupManager) : leases_ok c.(mg_leases) ->
  (memoryCommitmentLocked now c).(cm_CommittedBytes) = Z.min MaxInt64 (total false c.(mg_leases)) /\
  (memoryCommitmentLocked now c).(cm_ConformanceBytes) = Z.min MaxInt64 (total true c.(mg_leases)).
Proof.
  intros Hm. unfold memoryCommitmentLocked, lease_list.
  assert (0 <= MaxInt64) by (unfold MaxInt64; lia).
  destruct (commitment_spec now (map snd (map_to_list c.(mg_leases))) no_commitment) as [-> ->]; [by apply wf_list|simpl; lia..|].
  done.
Qed.
Lemma createOne_total b kind intn created w (c c' : CgroupManager) id :
  createOneLocked kind intn created c = (c', Ok id) -> pools None w c ->
  total b c'.(mg_leases) = total b c.(mg_leases) /\ c'.(mg_memoryCapacity) = c.(mg_memoryCapacity).
Proof.
  unfold createOneLocked. set (conf := bool_decide (kind = OWNER_RUNTIME_CONFORMANCE)). destruct (_ && _); [done|]. intros E Hp.
  destruct (GetID intn _) as [g [x|e]] eqn:Eg; [|done]. destruct (created x) as [[]|e]; [|done]. injection E as <- <-.
  pose proof (draw_fresh conf intn w c g x Hp Eg) as Hf. unfold set_lease. rewrite set_leases_eq. split.
  - assert (E : mg_leases (set_cgroups ({[x]} ∪ mg_cgroups (if conf then set_generators (mg_generator c) g c else set_generators g (mg_conformanceGenerator c) c))
      (if conf then set_generators (mg_generator c) g c else set_generators g (mg_conformanceGenerator c) c)) = mg_leases c)
      by (destruct conf, c; done). rewrite E. rewrite total_fresh by done. unfold charge_of. simpl. lia.
  - destruct conf, c; done.
Qed.
Lemma obtain_total b kind intn created w (c c' : CgroupManager) id :
  obtain kind intn created c = (c', Ok id) -> pools None w c ->
  total b c'.(mg_leases) = total b c.(mg_leases) /\ c'.(mg_memoryCapacity) = c.(mg_memoryCapacity).
Proof.
  intros E Hp. unfold obtain in E. destruct (bool_decide _).
  - cbn [negb String.eqb] in E. assert (set_idle (mg_idleID c) c = c) as Es by (by destruct c). rewrite Es in E. by eapply createOne_total.
  - destruct (mg_idleID c) as [|x rest] eqn:Ei; simpl in E.
    + assert (set_idle [] c = c) as Es by (destruct c; simpl in *; by subst). rewrite Es in E. by eapply createOne_total.
    + destruct (String.eqb_spec x "") as [->|]; [|injection E as <- <-; by destruct c].
      assert (Hs : state_of c.(mg_leases) "" = Some CLS_IDLE) by (apply (p_idle _ _ _ Hp); left; rewrite Ei; set_solver).
      unfold state_of in Hs. destruct (mg_leases c !! "") as [l|] eqn:Hl; [|done].
      destruct (lo_key _ (p_leases _ _ _ Hp) _ _ Hl) as [Eid Hw]. by destruct (lw_id _ Hw).
Qed.
Lemma assign_total b f assignedAt opt id w (c c' : CgroupManager) x :
  assign f assignedAt opt id c = (c', Ok x) -> pools (Some id) w c ->
  x = id /\ total b c'.(mg_leases) = total b c.(mg_leases) +
    (if Bool.eqb (bool_decide (allocate_kind opt = OWNER_RUNTIME_CONFORMANCE)) b
     then if allocate_charge opt =? 0 then opt.(ao_MemoryRequestBytes) else allocate_charge opt else 0).
Proof.
  intros E Hp. unfold assign in E. destruct (mg_leases c !! id) as [l|] eqn:Hl; [|done].
  case_bool_decide as Es; cbn [negb] in E; [|done]. set (l2 := lease_assigned _ _ _ _ l) in E. set (c1 := set_owners _ _) in E.
  assert (E1 : mg_leases c1 = <[id := l2]> (mg_leases c)) by (unfold c1; by destruct c).
  pose proof (store_leases f c1) as Ec. destruct (storeLocked f c1) as [c2 [[]|e]]; simpl in Ec.
  - injection E as <- <-. split; [done|]. rewrite Ec, E1, (total_update b _ _ l) by done.
    assert (charge_of b l = 0) as -> by (unfold charge_of; by rewrite Es).
    unfold charge_of, lease_charge, capacity_charge. simpl. destruct (Bool.eqb _ b); lia.
  - by destruct (bool_decide _).
Qed.
(** The fields of a capacity sample are int64. *)
Definition capacity_int64 (mc : MemoryCapacitySnapshot) : Prop :=
  Forall int64
    [mc.(mc_EffectiveAllocatableBytes); mc.(mc_SandboxCurrentBytes); mc.(mc_SystemReserveBaseAvailableBytes);
     mc.(mc_SystemReserveAvailableBytes)].
Definition allocate_total (opt : AllocateOption) : Z :=
  if allocate_charge opt =? 0 then opt.(ao_MemoryRequestBytes) else allocate_charge opt.
Lemma valid_charge opt : validate_allocate opt = Ok () ->
  0 <= opt.(ao_MemoryRequestBytes) /\ allocate_total opt = allocate_charge opt /\ 0 <= allocate_charge opt /\
  (allocate_kind opt = OWNER_WORKLOAD \/ allocate_kind opt = OWNER_RUNTIME_CONFORMANCE) /\
  (allocate_kind opt = OWNER_WORKLOAD -> allocate_charge opt = opt.(ao_MemoryRequestBytes)).
Proof.
  unfold validate_allocate, allocate_total, validAssignedCgroupOwner, allocate_charge.
  checks; simpl; try done; intros _; (split; [lia|split; [lia|split; [lia|split; [auto|intros; congruence || lia]]]]).
Qed.
Lemma admitted_conformance now charge (c : CgroupManager) : leases_ok c.(mg_leases) -> capacity_int64 c.(mg_memoryCapacity) ->
  validate_capacity c.(mg_memoryCapacity) = Ok () -> admit_conformance now charge c = Ok () ->
  0 < charge /\ total true c.(mg_leases) + charge <= c.(mg_memoryCapacity).(mc_SystemReserveBaseAvailableBytes) /\
  charge <= c.(mg_memoryCapacity).(mc_SystemReserveAvailableBytes).
Proof.
  intros Hm Hint Hv. unfold admit_conformance. destruct (commitment_total now c Hm) as [_ ->].
  apply Forall_cons in Hint as [? Hint]. apply Forall_cons in Hint as [? Hint]. apply Forall_cons in Hint as [? Hint].
  apply Forall_cons in Hint as [? _].
  pose proof (sum_charges_nonneg true _ (wf_list _ Hm)) as Hn. fold (total true c.(mg_leases)) in Hn.
  unfold validate_capacity in Hv. revert Hv. destruct (_ <=? 0); [done|]. destruct (String.eqb _ ""); [done|].
  destruct (_ || _ || _); [done|]. destruct (_ <? 0); [done|]. destruct (Z.ltb_spec (mc_SystemReserveAvailableBytes (mg_memoryCapacity c)) 0); [done|].
  destruct (Z.ltb_spec (mc_SystemReserveBaseAvailableBytes (mg_memoryCapacity c)) (mc_SystemReserveAvailableBytes (mg_memoryCapacity c))); [done|].
  intros _. rewrite wrap64_id by (unfold int64, MinInt64, MaxInt64 in *; lia). checks; try done. intros _. unfold int64, MinInt64, MaxInt64 in *. lia.
Qed.
Lemma admitted_workload now request (c : CgroupManager) : leases_ok c.(mg_leases) -> capacity_int64 c.(mg_memoryCapacity) ->
  validate_capacity c.(mg_memoryCapacity) = Ok () -> 0 < request -> admit_workload now request c = Ok () ->
  total false c.(mg_leases) + request <= c.(mg_memoryCapacity).(mc_EffectiveAllocatableBytes) /\
  c.(mg_memoryCapacity).(mc_SandboxCurrentBytes) + request <= c.(mg_memoryCapacity).(mc_EffectiveAllocatableBytes).
Proof.
  intros Hm Hint Hv Hpos. unfold admit_workload. destruct (commitment_total now c Hm) as [-> _].
  apply Forall_cons in Hint as [? Hint]. apply Forall_cons in Hint as [? Hint].
  pose proof (sum_charges_nonneg false _ (wf_list _ Hm)) as Hn. fold (total false c.(mg_leases)) in Hn.
  unfold validate_capacity in Hv. revert Hv.
  destruct (Z.leb_spec (mc_EffectiveAllocatableBytes (mg_memoryCapacity c)) 0); [done|]. destruct (String.eqb _ ""); [done|].
  destruct (_ || _ || _); [done|]. destruct (Z.ltb_spec (mc_SandboxCurrentBytes (mg_memoryCapacity c)) 0); [done|].
  intros _. rewrite !wrap64_id by (unfold int64, MinInt64, MaxInt64 in *; lia). checks; done || (intros _; unfold int64, MinInt64, MaxInt64 in *; lia).
Qed.

(** C17: the cgroup manager never admits more memory than its capacity sample
    allows.  When admission is required and an Allocation without a cgroup gets
    one, the sample was fresh, and the exact sum of all commitments (not the
    saturated counter), which grows by exactly the charge of the request, stays
    within the allocatable memory for a workload that asks for memory, which also
    fits beside the current usage; and within the system reserve for conformance,
    which must name a positive charge. *)
Theorem Allocate_within_capacity f now assignedAt intn created opt w (c c' : CgroupManager) id :
  inv None w c -> capacity_int64 c.(mg_memoryCapacity) -> c.(mg_memoryAdmissionRequired) = true ->
  c.(mg_allocationLeases) !! opt.(ao_ContainerID) = None ->
  Allocate f now assignedAt intn created opt c = (c', Ok id) ->
  let mc := c.(mg_memoryCapacity) in
  capacityFresh now mc = true /\ mc.(mc_SystemReserveExhausted) = false /\
  (allocate_kind opt = OWNER_WORKLOAD ->
     total false c'.(mg_leases) = total false c.(mg_leases) + opt.(ao_MemoryRequestBytes) /\
     total true c'.(mg_leases) = total true c.(mg_leases) /\
     (0 < opt.(ao_MemoryRequestBytes) ->
        total false c'.(mg_leases) <= mc.(mc_EffectiveAllocatableBytes) /\
        mc.(mc_SandboxCurrentBytes) + opt.(ao_MemoryRequestBytes) <= mc.(mc_EffectiveAllocatableBytes))) /\
  (allocate_kind opt = OWNER_RUNTIME_CONFORMANCE ->
     total true c'.(mg_leases) = total true c.(mg_leases) + allocate_charge opt /\ 0 < allocate_charge opt /\
     total false c'.(mg_leases) = total false c.(mg_leases) /\
     total true c'.(mg_leases) <= mc.(mc_SystemReserveBaseAvailableBytes) /\
     allocate_charge opt <= mc.(mc_SystemReserveAvailableBytes)).
Proof.
  intros [Hp Hd] Hint Hreq Hfree. unfold Allocate. destruct (validate_allocate opt) as [[]|] eqn:Hv; [|done].
  rewrite Hfree. destruct (admit_memory now opt c) as [[]|] eqn:Hadm; [|done].
  destruct (_ && _); [done|]. destruct (obtain _ intn created c) as [c1 r] eqn:Eo. destruct r as [x|e]; [|done]. intros E.
  destruct (obtain_inv _ _ _ _ _ _ _ Eo Hp) as (Hp1 & _).
  destruct (obtain_total false _ _ _ _ _ _ _ Eo Hp) as [Ef _]. destruct (obtain_total true _ _ _ _ _ _ _ Eo Hp) as [Et _].
  destruct (assign_total false _ _ _ _ _ _ _ _ E Hp1) as [_ Af]. destruct (assign_total true _ _ _ _ _ _ _ _ E Hp1) as [_ At].
  fold (allocate_total opt) in Af, At. destruct (valid_charge opt Hv) as (Hr & Ec & Hc & Hk & Hwk). rewrite Ec in Af, At.
  unfold admit_memory in Hadm. rewrite Hreq in Hadm. cbn [negb] in Hadm.
  destruct (capacityFresh now (mg_memoryCapacity c)) eqn:Hfr; [cbn [negb] in Hadm|done].
  destruct (fresh_identity now c _ (p_capacity _ _ _ Hp) Hfr) as [Hvc _].
  destruct (mc_SystemReserveExhausted (mg_memoryCapacity c)) eqn:Hex; [done|].
  split; [done|]. split; [done|]. split; intros Ek; rewrite Ek in *.
  - rewrite bool_decide_false in Hadm, Af, At by done. cbn [Bool.eqb] in Af, At. rewrite (Hwk eq_refl) in Af.
    split; [lia|]. split; [lia|]. intros Hpos.
    destruct (admitted_workload now _ c (p_leases _ _ _ Hp) Hint Hvc Hpos Hadm) as [H1 H2]. split; [lia|done].
  - rewrite bool_decide_true in Hadm, Af, At by done. cbn [Bool.eqb] in Af, At.
    destruct (admitted_conformance now _ c (p_leases _ _ _ Hp) Hint Hvc Hadm) as (H1 & H2 & H3). split_and!; lia.
Qed.
End admission.

(** ** The properties of the system *)
Section properties.
Context {S G : Type} `{SnapshotStore S CgroupLedger} `{UniqueIdGenerator G} {GL : GeneratorLaws G} {SL : SnapshotLaws S CgroupLedger}.
#[local] Notation CgroupManager := (CgroupManager S G).

(** C14: in every reachable state, whatever operations ran, whatever saves failed
    and however often the daemon crashed and started again, the pools describe
    the ledger exactly.  Every lease is one the ledger accepts at the next start;
    the objects in use, idle and retiring are those whose lease says so, each in
    one pool and each retiring one in the queue of the worker or in its hands; the
    owner index finds the one lease of an Allocation; at most one conformance run
    holds memory; and the saved ledger names exactly the holdings in memory. *)
Theorem cgroup_ledger (c : CgroupManager) w : reachable (Up c w) ->
  (forall id l, c.(mg_leases) !! id = Some l -> l.(cl_CgroupID) = id /\ validateCgroupLease l = Ok ()) /\
  (forall id, id ∈ c.(mg_usingID) <-> state_of c.(mg_leases) id = Some CLS_ASSIGNED) /\
  (forall id, id ∈ c.(mg_idleID) <-> state_of c.(mg_leases) id = Some CLS_IDLE) /\
  (forall id, id ∈ c.(mg_gcQueue) \/ working w = Some id <-> state_of c.(mg_leases) id = Some CLS_RETIRING) /\
  NoDup c.(mg_idleID) /\ NoDup c.(mg_gcQueue) /\ (forall id, working w = Some id -> id ∉ c.(mg_gcQueue)) /\
  (forall a id, c.(mg_allocationLeases) !! a = Some id <-> owner_of c.(mg_leases) a id) /\
  (forall id id' l l', c.(mg_leases) !! id = Some l -> c.(mg_leases) !! id' = Some l' ->
     conformance_active l = true -> conformance_active l' = true -> id = id') /\
  exists m, saved c.(mg_db) CgroupBucket = Some (ledger_of m c.(mg_memoryCapacityIdentity)) /\
    (forall id l, m !! id = Some l -> l.(cl_CgroupID) = id /\ validateCgroupLease l = Ok ()) /\
    holdings m = holdings c.(mg_leases).
Proof.
  intros [Hp (m & Hs & Hm & Hh)]%manager_reachable_inv.
  assert (Hok : forall m, leases_ok m -> forall id l, m !! id = Some l -> l.(cl_CgroupID) = id /\ validateCgroupLease l = Ok ()).
  { intros m' Hm' id l Hl. destruct (lo_key _ Hm' _ _ Hl) as [E Hw]. split; [done|]. by apply validate_wf. }
  pose proof (p_idle _ _ _ Hp) as Hidle. pose proof (p_leases _ _ _ Hp) as Hle.
  destruct Hp. split_and!; try done; [by apply Hok| |by apply lo_conformance|].
  - intros id. rewrite <- Hidle. split; [auto|by intros []].
  - exists m. split_and!; [done|by apply Hok|done].
Qed.

(** C15: ownership survives a crash at any point.  Take whatever the manager has
    reached, and suppose that the identity of a memory capacity has been recorded,
    or that the next start is not required to admit by it (otherwise a leftover
    cgroup can block the start, as the last theorem of this file shows).  With a
    store and a kernel that answer, the next start succeeds, and it holds exactly
    the memory held before: every assigned lease of a workload, found in the
    kernel or not, and every other holding unless its kernel object is gone while
    retiring, or it is a conformance run of an earlier delegation root. *)
Theorem ownership_survives (c : CgroupManager) w write size cacheSize root kernel inspect error_text now required :
  reachable (Up c w) -> roots_ok root (conformance_root root) -> kernel_ok root kernel -> 0 < UnixNano now ->
  (required = true -> c.(mg_memoryCapacityIdentity) <> "") ->
  (forall l, (SaveSnapshot write CgroupBucket l c.(mg_db)).2 = Ok ()) ->
  exists db' (c' : CgroupManager),
    NewCgroupManager None write size cacheSize root kernel inspect error_text now required c.(mg_db) = (db', Ok c') /\
    inv None None c' /\
    (forall id h, holdings c'.(mg_leases) !! id = Some h <->
       holdings c.(mg_leases) !! id = Some h /\ survives root (conformance_root root) kernel h = true) /\
    (forall id h, holdings c.(mg_leases) !! id = Some h -> h.(cl_State) = CLS_ASSIGNED -> h.(cl_OwnerKind) = OWNER_WORKLOAD ->
       holdings c'.(mg_leases) !! id = Some h).
Proof.
  intros [Hp (m & Hs & Hm & Hh)]%manager_reachable_inv Hr Hk Hn Hid Hw.
  pose proof (start_succeeds write size cacheSize root kernel inspect error_text now required c.(mg_db) m
    c.(mg_memoryCapacityIdentity) Hs Hm (p_identity _ _ _ Hp) Hr Hk Hn Hid Hw) as Hok.
  destruct (NewCgroupManager None write _ _ _ _ _ _ _ _ _) as [db' [c'|e]] eqn:E; [|done].
  destruct (start_sound _ _ _ _ _ _ _ _ _ _ _ _ _ _ _ E I (or_introl Hs) Hm (p_identity _ _ _ Hp) Hr Hk Hn) as (_ & Hi & _ & Hold).
  exists db', c'. split; [done|]. split; [done|]. rewrite Hh in Hold. split; [done|].
  intros id h Hx Hst Hkd. apply Hold. split; [done|].
  unfold survives, keep_lease, staleCgroupLeaseIsRecreatable, missingKernelLeaseConverged. rewrite Hst, Hkd. cbn.
  by rewrite !orb_true_r.
Qed.

(** C16: a cgroup that held memory for an Allocation is never reused.  Whatever
    the manager or its worker does next, a holding keeps its cgroup, its
    Allocation and its memory; its state moves only from assigned to retiring; a
    kernel identity, once bound, is never replaced; and it ends in one way only:
    the worker has seen the retiring object gone and its removal is on disk. *)
Theorem holding_one_way (c c' : CgroupManager) w w' id h :
  reachable (Up c w) -> manager_step c w c' w' -> holdings c.(mg_leases) !! id = Some h ->
  (exists h', holdings c'.(mg_leases) !! id = Some h' /\ lease_le h h') \/
  (w = Converged id /\ w' = Resting /\ h.(cl_State) = CLS_RETIRING /\ holdings c'.(mg_leases) !! id = None /\
   exists m, saved c'.(mg_db) CgroupBucket = Some (ledger_of m c'.(mg_memoryCapacityIdentity)) /\ holdings m = holdings c'.(mg_leases)).
Proof.
  intros Hi%manager_reachable_inv Hst Hh. pose proof (manager_step_inv _ _ _ _ Hst Hi) as Hi'. destruct Hi as [Hp Hd].
  assert (Hev : evolves c.(mg_leases) c'.(mg_leases) -> exists h', holdings c'.(mg_leases) !! id = Some h' /\ lease_le h h')
    by (intros He; by apply He).
  destruct Hst as [f now assignedAt intn created opt c w Hat|f now x assigned domain cur charged c w Hn Hx
    |f cid aid lim b mi pi li c w Hb Hm|f s c w|f draws created c w|f num now c w Hn|f c w|c Hne| | | |x processes removed c| |f x c|f x msg c|x c];
    try (left; apply Hev; by apply evolves_eq).
  - left. apply Hev. by eapply Allocate_evolves.
  - left. apply Hev, Recycle_finish_evolves.
  - left. apply Hev, BindMemoryDomain_evolves.
  - left. apply Hev, evolves_eq. by rewrite capacity_leases.
  - left. apply Hev. by eapply Add_evolves.
  - left. apply Hev. by eapply Del_evolves.
  - left. apply Hev, evolves_eq. unfold keepStoring_tick. destruct (mg_storeMark c); [by rewrite store_leases|done].
  - left. apply Hev, evolves_eq. unfold gc_pop. destruct (q_pop "" (mg_gcQueue c)). by destruct c.
  - left. apply Hev, converge_charge_evolves.
  - destruct (complete_evolves f x c id h Hp Hh) as [He|(-> & Hs & Hnone)]; [by left|right].
    destruct (completeRetiringCgroup f x c) as [c1 [[]|e]] eqn:E; simpl in *.
    + split_and!; try done. destruct Hi' as [_ (m & ? & ? & ?)]. by exists m.
    + exfalso. unfold completeRetiringCgroup in E. destruct (worker_lease _ _ _ Hp) as (l & Hl & Es & _). rewrite Hl in E. cbv zeta in E.
      fold (taken_out x l c) in E. destruct (storeLocked f (taken_out x l c)) as [c2 r] eqn:Est.
      destruct (store_same _ _ _ _ Est) as (db & mk & -> & Hr). destruct Hr as [[-> _]|(e' & -> & ->)]; [done|].
      injection E as <- _. revert Hnone.
      assert (Edb : mg_db (taken_out x l c) = mg_db c) by (unfold taken_out; destruct c; simpl; by destruct (negb _)). rewrite Edb.
      fold (put_back x l (set_db (mg_db c) mk (taken_out x l c))). rewrite (put_back_out _ _ _ _ Hp Hl Es).
      replace (mg_leases _) with (mg_leases c) by (by destruct c). congruence.
  - left. apply Hev, recordRetiringFailure_evolves.
  - left. apply Hev, evolves_eq. by destruct c.
Qed.

(** C37: a leftover kernel object keeps a node from starting.  On a node whose
    ledger has no leases and no capacity identity yet (as its first start writes
    it, or none at all), a cgroup below the root (the daemon crashed between
    creating it for the warm pool and saving the ledger) is recovered as cleanup debt without an owner; but it counts as a
    commitment, and a commitment without a saved capacity identity is refused.
    Every start fails, and the worker that would remove it never runs. *)
Theorem leftover_blocks_start read write size cacheSize root kernel inspect error_text now (db : S) id :
  saved_as db ∅ "" -> genuine read -> roots_ok root (conformance_root root) -> kernel_ok root kernel ->
  0 < UnixNano now -> id ∈ kernel ->
  exists e, NewCgroupManager (G := G) read write size cacheSize root kernel inspect error_text now true db = (db, Err e).
Proof.
  intros Hdb Hg Hr Hk Hn Hid. unfold NewCgroupManager.
  destruct (load_ledger read db) as [stored|e] eqn:El; [|by exists e].
  apply (load_ledger_spec read db ∅ "") in El as ->; [|done|done]. rewrite bind_Ok'.
  destruct (load_pools_spec root kernel inspect error_text now ∅ "" leases_ok_empty ltac:(vm_compute; reflexivity) Hr Hk Hn)
    as (ld1 & ld & -> & He & Hi & Hex).
  rewrite bind_Ok'. set (c0 := new_manager _ _ _ _ _ _ ld).
  destruct (Hex id (li_kernel _ _ _ _ _ _ Hi _ Hid)) as [l Hl].
  assert (Hst : l.(cl_State) = CLS_RETIRING).
  { destruct (ex_new _ _ He _ _ Hl) as [Hl1|(_ & _ & _ & _ & E & _)]; [|done].
    apply (li_from _ _ _ _ _ _ Hi) in Hl1 as (_ & _ & _ & l0 & Hl0 & _). by rewrite lookup_empty in Hl0. }
  assert (hasCommittedMemoryLeaseLocked c0 = true) as ->.
  { unfold hasCommittedMemoryLeaseLocked, lease_list. apply existsb_exists. exists l. split; [|by rewrite Hst].
    apply in_map_iff. exists (id, l). split; [done|]. by apply list_elem_of_In, elem_of_map_to_list. }
  eexists. reflexivity.
Qed.
End properties.

(** ** The interface on the node's store *)
Section snapshots.
Context {M B : Type} (Marshal : M -> result B) (Unmarshal : B -> result M).
Context (codec : forall m b, Marshal m = Ok b -> Unmarshal b = Ok m).
Context (no_alias : forall b e, Unmarshal b = Err e -> IsNotFound e = false).
Definition node_snapshots : SnapshotStore (NodeDB B) M := {|
  SaveSnapshot := fun f bucket m db => nodestate.SaveSnapshot Marshal f bucket (Some m) db;
  LoadSnapshot := fun f bucket db => nodestate.LoadSnapshot Unmarshal f bucket db;
  saved := fun db bucket => b ← db !! bucket; v ← b !! nodestate.snapshotKey; match Unmarshal v with Ok m => Some m | Err _ => None end |}.
Lemma node_snapshots_laws : @SnapshotLaws _ _ node_snapshots.
Proof.
  split; simpl.
  - intros f bucket m s s' r. unfold nodestate.SaveSnapshot, nodestate.PutRecord.
    destruct (validateAddress bucket nodestate.snapshotKey) as [[]|e]; [|intros [= <- <-]; left; eauto].
    destruct (Marshal m) as [b|e] eqn:Em; [|intros [= <- <-]; left; eauto]. simpl.
    destruct f as [e|]; intros [= <- <-]; [left; eauto|right]. split; [done|].
    rewrite lookup_insert_eq. simpl. rewrite lookup_insert_eq. simpl. by rewrite (codec _ _ Em).
  - intros f bucket s m. unfold nodestate.LoadSnapshot, nodestate.GetRecord, nodestate.GetRecordBytes.
    destruct (validateAddress bucket nodestate.snapshotKey); [|done]. destruct f; [done|].
    destruct (s !! bucket) as [b|]; [|done]. simpl. destruct (b !! nodestate.snapshotKey) as [v|]; [|done]. simpl.
    destruct (Unmarshal v); [|done]. by intros [= <-].
  - intros f bucket s e Hf. unfold nodestate.LoadSnapshot, nodestate.GetRecord, nodestate.GetRecordBytes.
    unfold validateAddress, validateName. destruct (String.eqb bucket ""); [by intros [= <-]|]. simpl.
    destruct f as [e'|]; [simpl; intros [= <-]; by rewrite Hf|].
    destruct (s !! bucket) as [b|]; [|done]. simpl. destruct (b !! nodestate.snapshotKey) as [v|]; [|done]. simpl.
    destruct (Unmarshal v) as [m|e'] eqn:Eu; [done|]. simpl. intros [= <-] Hn. pose proof (no_alias _ _ Eu) as Hu. unfold IsNotFound in *. simpl in Hn. congruence.
  - intros bucket s m Hne. unfold nodestate.LoadSnapshot, nodestate.GetRecord, nodestate.GetRecordBytes.
    unfold validateAddress, validateName. destruct (String.eqb_spec bucket ""); [done|]. simpl.
    destruct (s !! bucket) as [b|]; [|done]. simpl. destruct (b !! nodestate.snapshotKey) as [v|]; [|done]. simpl.
    destruct (Unmarshal v); [|done]. by intros [= <-].
Qed.
End snapshots.

(** ** A node *)
#[local] Existing Instance node_snapshots.
#[local] Instance ex_snapshots : SnapshotStore (NodeDB CgroupLedger) CgroupLedger := node_snapshots Ok Ok.
#[local] Instance ex_snapshots_laws : SnapshotLaws (NodeDB CgroupLedger) CgroupLedger.
Proof. apply node_snapshots_laws; [by intros m b [= <-]|done]. Qed.
#[local] Notation ex_generator := (truncindex.FixLenGenerator (P := gset string)).
Definition ex_root : string := "/axern/axern".
Definition ex_inspect (l : CgroupLease) : result CgroupMemoryDomain := Err errNotExist.
Definition ex_text (e : error) : string := "".
Definition ex_start (kernel : gset string) (db : NodeDB CgroupLedger) :
    NodeDB CgroupLedger * result (CgroupManager (NodeDB CgroupLedger) ex_generator) :=
  NewCgroupManager None None 2 1 ex_root kernel ex_inspect ex_text 1000 true db.
Definition ex_c0 : CgroupManager (NodeDB CgroupLedger) ex_generator :=
  match (ex_start ∅ ∅).2 with Ok c => c | Err _ => new_manager 0 0 "" true ∅ "" (mkLoading [] ∅ ∅ ∅ [] ∅) end.
Definition ex_sample : MemoryCapacitySnapshot := mkCapacity false 1000 100 500 400 false "host-a" 1500.
Definition ex_c1 := (UpdateMemoryCapacity None ex_sample ex_c0).1.
Definition ex_intn (round letter : nat) : nat := round.
Definition ex_option : AllocateOption := mkAllocate "alloc-1" 300 400 0 OWNER_UNSPECIFIED.
Definition ex_allocated := Allocate None 2000 2000 ex_intn (fun _ => Ok ()) ex_option ex_c1.
Definition ex_id : string := "/axern/axern/aaaaaaaaaaaa".
Definition ex_lease : CgroupLease := default (lease_idle "") (ex_allocated.1.(mg_leases) !! ex_id).
Definition ex_retired := Recycle_finish None 3000 ex_id ex_lease 350 ex_allocated.1.

Lemma ex_roots : roots_ok ex_root (conformance_root ex_root).
Proof. split_and!; by vm_compute. Qed.
Lemma ex_c0_reachable : reachable (Up ex_c0 Resting).
Proof.
  exists ∅. split; [done|]. eapply rtc_l; [|apply rtc_refl].
  apply (step_start None None 2 1 ex_root ∅ ex_inspect ex_text 1000 true ∅ (ex_start ∅ ∅).1 (Ok ex_c0));
    [done|apply ex_roots|by intros id ?%not_elem_of_empty|done|vm_compute; reflexivity].
Qed.
Lemma reachable_step (c c' : CgroupManager (NodeDB CgroupLedger) ex_generator) w w' :
  reachable (Up c w) -> manager_step c w c' w' -> reachable (Up c' w').
Proof. intros (db & Hdb & Hr) Hst. exists db. split; [done|]. eapply rtc_r; [done|]. by constructor. Qed.
Lemma ex_c1_reachable : reachable (Up ex_c1 Resting).
Proof. eapply reachable_step; [apply ex_c0_reachable|]. apply do_capacity. Qed.
Lemma ex_allocated_reachable : reachable (Up ex_allocated.1 Resting).
Proof. eapply reachable_step; [apply ex_c1_reachable|]. by apply do_allocate. Qed.
Example ex_allocated_result : ex_allocated.2 = Ok ex_id /\ ex_allocated.1.(mg_usingID) = {[ex_id]} /\ ex_retired.2 = Ok () /\
  ex_retired.1.(mg_gcQueue) = [ex_id] /\ (memoryCommitmentLocked 4000 ex_retired.1).(cm_CleanupDebtBytes) = 350.
Proof. split_and!; vm_compute; reflexivity. Qed.

Lemma ex_allocate_ok :
  Allocate None 2000 2000 ex_intn (fun _ => Ok ()) ex_option ex_c1 = (ex_allocated.1, Ok ex_id).
Proof. vm_compute. reflexivity. Qed.
Lemma ex_capacity : mg_memoryCapacity ex_c1 = ex_sample.
Proof. vm_compute. reflexivity. Qed.
Lemma ex_required : mg_memoryAdmissionRequired ex_c1 = true /\ mg_allocationLeases ex_c1 !! ao_ContainerID ex_option = None /\
  allocate_kind ex_option = OWNER_WORKLOAD.
Proof. split_and!; vm_compute; reflexivity. Qed.
Lemma ex_sample_int64 : capacity_int64 ex_sample.
Proof. repeat constructor; by vm_compute. Qed.
Lemma ex_owned : state_of ex_allocated.1.(mg_leases) ex_id = Some CLS_ASSIGNED.
Proof. vm_compute. reflexivity. Qed.
Lemma ex_db_identity : mg_memoryCapacityIdentity ex_allocated.1 <> "".
Proof. vm_compute. discriminate. Qed.
Lemma ex_holding : holdings ex_allocated.1.(mg_leases) !! ex_id = Some ex_lease.
Proof. vm_compute. reflexivity. Qed.
Lemma ex_lease_state : cl_State ex_lease = CLS_ASSIGNED /\ cl_OwnerKind ex_lease = OWNER_WORKLOAD.
Proof. split; vm_compute; reflexivity. Qed.
Lemma ex_inspected : Recycle_inspect ex_id ex_lease (Ok (mkDomain "" "" 0 0 0 0 false 0 0)) (Ok 350) = Ok 350.
Proof. vm_compute. reflexivity. Qed.

Lemma Allocate_within_capacity_witness :
  ex_allocated = (ex_allocated.1, Ok ex_id) /\
  total false ex_allocated.1.(mg_leases) = total false ex_c1.(mg_leases) + 300 /\
  total false ex_allocated.1.(mg_leases) <= 1000.
Proof.
  destruct ex_required as (Hreq & Hnone & Hkind).
  pose proof ex_sample_int64 as Hint. rewrite <- ex_capacity in Hint.
  destruct (Allocate_within_capacity None 2000 2000 ex_intn (fun _ => Ok ()) ex_option None ex_c1 ex_allocated.1 ex_id
    (manager_reachable_inv _ ex_c1_reachable) Hint Hreq Hnone ex_allocate_ok) as (_ & _ & Hw & _).
  destruct (Hw Hkind) as (E1 & _ & E2). rewrite ex_capacity in E2. split; [exact ex_allocate_ok|].
  split; [exact E1|]. apply E2. reflexivity.
Defined.
Lemma cgroup_ledger_witness :
  reachable (Up ex_allocated.1 Resting) /\ state_of ex_allocated.1.(mg_leases) ex_id = Some CLS_ASSIGNED /\
  ex_id ∈ ex_allocated.1.(mg_usingID).
Proof.
  split; [exact ex_allocated_reachable|]. split; [exact ex_owned|].
  apply (proj1 (proj2 (cgroup_ledger ex_allocated.1 Resting ex_allocated_reachable))). exact ex_owned.
Defined.
(** The daemon dies; its cgroup is gone from the kernel too, the lease is not. *)
Lemma ownership_survives_witness :
  exists db' (c' : CgroupManager (NodeDB CgroupLedger) ex_generator),
    ex_start ∅ ex_allocated.1.(mg_db) = (db', Ok c') /\ holdings c'.(mg_leases) !! ex_id = Some ex_lease.
Proof.
  destruct (ownership_survives ex_allocated.1 Resting None 2 1 ex_root ∅ ex_inspect ex_text 1000 true ex_allocated_reachable ex_roots)
    as (db' & c' & E & _ & _ & Hh).
  - by intros id ?%not_elem_of_empty.
  - done.
  - intros _. exact ex_db_identity.
  - intros l. reflexivity.
  - exists db', c'. split; [exact E|]. destruct ex_lease_state as [E1 E2]. exact (Hh ex_id ex_lease ex_holding E1 E2).
Defined.
Lemma holding_one_way_witness :
  exists h', holdings ex_allocated.1.(mg_leases) !! ex_id = Some ex_lease /\ holdings ex_retired.1.(mg_leases) !! ex_id = Some h' /\
    lease_le ex_lease h'.
Proof.
  assert (Hst : manager_step ex_allocated.1 Resting ex_retired.1 Resting).
  { unfold ex_retired. apply (do_recycle None 3000 ex_id ex_lease (Ok (mkDomain "" "" 0 0 0 0 false 0 0)) (Ok 350) 350);
      [done|exact ex_inspected]. }
  destruct (holding_one_way ex_allocated.1 ex_retired.1 Resting Resting ex_id ex_lease ex_allocated_reachable Hst ex_holding)
    as [(h' & Eh' & Hle)|(Hc & _)]; [|discriminate Hc].
  exists h'. split; [exact ex_holding|]. split; [exact Eh'|exact Hle].
Defined.
(** The first start saves an empty ledger; a crash leaves one cgroup behind. *)
Lemma ex_first_ledger : saved_as ex_c0.(mg_db) ∅ "".
Proof. left. vm_compute. reflexivity. Qed.
Lemma leftover_blocks_start_witness :
  (exists c, (ex_start ∅ ∅).2 = Ok c /\ c.(mg_db) = ex_c0.(mg_db)) /\
  exists e, ex_start {["/axern/axern/leftover"]} ex_c0.(mg_db) = (ex_c0.(mg_db), Err e).
Proof.
  split; [exists ex_c0; split; vm_compute; reflexivity|].
  apply (leftover_blocks_start None None 2 1 ex_root {["/axern/axern/leftover"]} ex_inspect ex_text 1000 ex_c0.(mg_db)
    "/axern/axern/leftover"); [exact ex_first_ledger|done|exact ex_roots| |done|set_solver].
  intros id ->%elem_of_singleton. by vm_compute.
Defined.
