(* ===== verification/Consistency.v ===== *)
(** * The consistency checker (kernel/consistency, postgres/consistency)

    A report on the store: how much is in use, and which access grants and
    tunnel sessions are still open although their Allocation has ended.  The rows
    of a query carry their primary key; where the order of a query leaves rows
    equal, the order of the table is kept. *)
From S2P Require Import Prelude Proto Resource Allocation Capability Node Execution Store Reconcile RunStore.

Module consistency.

(** ** The report (snapshot.go) *)
Definition StatusOK : string := "ok".
Definition StatusInconsistent : string := "inconsistent".
Definition SeverityError : string := "error".
Definition IssueActiveAccessGrantOnEndedAllocation : string := "active_access_grant_on_ended_allocation".
Definition IssueActiveTunnelOnEndedAllocation : string := "active_tunnel_on_ended_allocation".

Record Counts := mkCounts {
  ActiveAllocations : Z; ActiveAccessGrants : Z; ActiveTunnels : Z; ReconcileQueue : Z; IssueCount : Z }.
Record Issue := mkIssue {
  is_Code : string; is_Severity : string; is_AllocationID : string; is_RunID : string; is_NodeID : string;
  is_DependentID : string; is_Status : string; is_Detail : string }.
Record Snapshot := mkSnapshot {
  sn_Status : string; sn_Counts : Counts; sn_Issues : list Issue; sn_Truncated : bool }.

Definition NewSnapshot (counts : Counts) (issues : list Issue) (truncated : bool) : Snapshot :=
  mkSnapshot (if (0 <? length issues)%nat then StatusInconsistent else StatusOK)
    (mkCounts counts.(ActiveAllocations) counts.(ActiveAccessGrants) counts.(ActiveTunnels)
       counts.(ReconcileQueue) (Z.of_nat (length issues)))
    issues truncated.

(** ** The queries (checker.go) *)
Inductive dependentResource := dependentResourceAccessGrant | dependentResourceTunnel.
Definition dependentResource_String (r : dependentResource) : string :=
  match r with dependentResourceAccessGrant => "active_access_grant" | dependentResourceTunnel => "active_tunnel" end.
Definition defaultIssueLimit : Z := 200.
Definition dependentIssueCode (r : dependentResource) : string :=
  match r with
  | dependentResourceAccessGrant => IssueActiveAccessGrantOnEndedAllocation
  | dependentResourceTunnel => IssueActiveTunnelOnEndedAllocation
  end.
Definition terminalAllocationLifecycleStates : list AllocationLifecycleState := [ALS_RELEASING; ALS_RELEASED].
Definition ended_row (a : AllocRow) : bool := bool_decide (a.(a_State) ∈ terminalAllocationLifecycleStates).

Definition count {A} (p : A -> bool) (m : gmap string A) : Z :=
  Z.of_nat (length (List.filter (fun kv : string * A => p kv.2) (map_to_list m))).
Definition loadCounts (db : DB) (now : time) : Counts :=
  mkCounts
    (count (fun a => negb (bool_decide (a.(a_State) = ALS_RELEASED))) db.(allocations))
    (count (fun g => negb g.(g_Revoked) && (now <? g.(g_ExpiresAt))) db.(allocation_access_grants))
    (count active_tunnel db.(tunnel_sessions))
    (count (fun _ => true) db.(allocation_reconcile_queue)) 0.

(** [WHERE] keeps a row only when its condition is true: with no output
    deadline the last condition is unknown for a grant to read outputs. *)
Definition stale_grant (now : time) (g : GrantRow) (a : AllocRow) : bool :=
  negb g.(g_Revoked) && (now <? g.(g_ExpiresAt)) && ended_row a
  && (if bool_decide (g.(g_Purpose) = PURPOSE_RUN_OUTPUT)
      then match a.(a_OutputExpiresAt) with
           | None => false
           | Some t => negb ((now <? t) && (g.(g_ExpiresAt) <=? t))
           end
      else true).
Definition stale_tunnel (t : TunnelRow) (a : AllocRow) : bool := active_tunnel t && ended_row a.

(** A selected row: its creation time orders it, the rest is scanned. *)
Record dependent := mkDependent {
  dp_CreatedAt : time; dp_ID : string; dp_AllocationID : string; dp_NodeID : string; dp_Status : string;
  dp_RunID : string }.
Definition dependent_less (x y : dependent) : bool :=
  (x.(dp_CreatedAt) <? y.(dp_CreatedAt))
  || ((x.(dp_CreatedAt) =? y.(dp_CreatedAt)) && string_lt x.(dp_AllocationID) y.(dp_AllocationID)).
Definition join {A} (allocation_of : A -> string) (created : A -> time) (stale : A -> AllocRow -> bool) (db : DB)
    (kv : string * A) : option dependent :=
  a ← db.(allocations) !! allocation_of kv.2;
  if stale kv.2 a
  then Some (mkDependent (created kv.2) kv.1 (allocation_of kv.2) a.(a_NodeID)
               (AllocationLifecycleState_String a.(a_State)) a.(a_RunID))
  else None.
Definition grant_rows (db : DB) (now : time) : list dependent :=
  sort_slice dependent_less
    (omap (join g_AllocationID g_CreatedAt (stale_grant now) db) (map_to_list db.(allocation_access_grants))).
Definition tunnel_rows (db : DB) : list dependent :=
  sort_slice dependent_less
    (omap (join t_AllocationID t_CreatedAt stale_tunnel db) (map_to_list db.(tunnel_sessions))).

Definition dependent_issue (r : dependentResource) (d : dependent) : Issue :=
  mkIssue (dependentIssueCode r) SeverityError d.(dp_AllocationID) d.(dp_RunID) d.(dp_NodeID) d.(dp_ID)
    d.(dp_Status) (dependentResource_String r +:+ " remains after allocation ended").
Fixpoint scan_rows (r : dependentResource) (limit : nat) (out : list Issue) (rows : list dependent) : list Issue * bool :=
  match rows with
  | [] => (out, false)
  | d :: rest =>
      if (length out =? limit)%nat then (out, true) else scan_rows r limit (out ++ [dependent_issue r d]) rest
  end.
Definition scanDependentIssues (rows : list dependent) (r : dependentResource) (limit : nat) : list Issue * bool :=
  scan_rows r limit [] rows.
Definition loadActiveAccessGrantIssues (db : DB) (now : time) (limit : nat) : list Issue * bool :=
  scanDependentIssues (take (limit + 1) (grant_rows db now)) dependentResourceAccessGrant limit.
Definition loadActiveTunnelIssues (db : DB) (_ : time) (limit : nat) : list Issue * bool :=
  scanDependentIssues (take (limit + 1) (tunnel_rows db)) dependentResourceTunnel limit.

Definition loader : Type := DB -> time -> nat -> list Issue * bool.
Fixpoint run_loaders (loaders : list loader) (db : DB) (now : time) (limit : Z) (issues : list Issue) : list Issue * bool :=
  match loaders with
  | [] => (issues, false)
  | load :: rest =>
      let remaining := limit - Z.of_nat (length issues) in
      if remaining <=? 0 then (issues, true)
      else let '(more, moreTruncated) := load db now (Z.to_nat remaining) in
           if moreTruncated then (issues ++ more, true) else run_loaders rest db now limit (issues ++ more)
  end.
Definition SnapshotWithLimit `{SqlTime} (db : DB) (now : time) (issueLimit : Z) : Snapshot :=
  let issueLimit := if issueLimit <=? 0 then defaultIssueLimit else issueLimit in
  let now := sql_time now in
  let '(issues, truncated) := run_loaders [loadActiveAccessGrantIssues; loadActiveTunnelIssues] db now issueLimit [] in
  NewSnapshot (loadCounts db now) issues truncated.
Definition Snapshot_ `{SqlTime} (db : DB) (now : time) : Snapshot := SnapshotWithLimit db now defaultIssueLimit.

(** ** What a report says *)
Section facts.
Context `{SqlTime}.
Definition stale_rows (db : DB) (now : time) : list Issue :=
  map (dependent_issue dependentResourceAccessGrant) (grant_rows db now)
  ++ map (dependent_issue dependentResourceTunnel) (tunnel_rows db).

Lemma scan_rows_spec r limit rows : forall out, (length out <= limit)%nat ->
  scan_rows r limit out rows =
    (out ++ take (limit - length out) (map (dependent_issue r) rows),
     (limit <? length out + length rows)%nat).
Proof.
  induction rows as [|d rows IH]; intros out Hl; simpl.
  - rewrite take_nil, app_nil_r. f_equal. symmetry. apply Nat.ltb_ge. lia.
  - destruct (Nat.eqb_spec (length out) limit) as [<-|Hne].
    + rewrite Nat.sub_diag. simpl. rewrite app_nil_r. f_equal. symmetry. apply Nat.ltb_lt. lia.
    + rewrite IH; rewrite length_app; simpl; [|lia].
      replace (limit - length out)%nat with (S (limit - (length out + 1))) by lia. simpl. rewrite <- app_assoc. simpl.
      f_equal. f_equal. lia.
Qed.
Lemma scan_spec r limit rows :
  scanDependentIssues (take (limit + 1) rows) r limit =
    (take limit (map (dependent_issue r) rows), (limit <? length rows)%nat).
Proof.
  unfold scanDependentIssues. rewrite scan_rows_spec by (simpl; lia). simpl. rewrite Nat.sub_0_r. f_equal.
  - rewrite !firstn_map, take_take. f_equal. f_equal. lia.
  - rewrite length_take. destruct (Nat.ltb_spec limit (length rows)); [apply Nat.ltb_lt|apply Nat.ltb_ge]; lia.
Qed.

Definition report_limit (issueLimit : Z) : Z := if issueLimit <=? 0 then defaultIssueLimit else issueLimit.
Lemma report_eq (db : DB) (now : time) (issueLimit : Z) :
  let limit := report_limit issueLimit in
  let stale := stale_rows db (sql_time now) in
  SnapshotWithLimit db now issueLimit =
    NewSnapshot (loadCounts db (sql_time now)) (take (Z.to_nat limit) stale)
      ((limit <? Z.of_nat (length stale)) || (limit <=? Z.of_nat (length (grant_rows db (sql_time now))))).
Proof.
  intros limit stale.
  assert (Hl : 0 < limit) by (unfold limit, report_limit, defaultIssueLimit; destruct (Z.leb_spec issueLimit 0); lia).
  set (gr := grant_rows db (sql_time now)) in *. set (tr := tunnel_rows db).
  assert (Elen : length stale = (length gr + length tr)%nat) by (unfold stale, stale_rows; by rewrite length_app, !length_map).
  assert (Hrun : run_loaders [loadActiveAccessGrantIssues; loadActiveTunnelIssues] db (sql_time now) limit [] =
    (take (Z.to_nat limit) stale, (limit <? Z.of_nat (length stale)) || (limit <=? Z.of_nat (length gr)))).
  { unfold run_loaders, loadActiveAccessGrantIssues, loadActiveTunnelIssues. rewrite !scan_spec. fold gr tr. rewrite Z.sub_0_r.
    destruct (Z.leb_spec limit 0) as [?|_]; [lia|]. unfold stale, stale_rows. fold gr tr. simpl.
    destruct (Nat.ltb_spec (Z.to_nat limit) (length gr)) as [Hg|Hg].
    - rewrite take_app_le by (rewrite length_map; lia). f_equal. symmetry. apply orb_true_iff. right. apply Z.leb_le. lia.
    - rewrite (take_ge (map _ gr)) by (rewrite length_map; lia). rewrite length_map.
      destruct (Z.leb_spec (limit - Z.of_nat (length gr)) 0) as [Hf|Hf].
      + rewrite take_app_le, take_ge by (rewrite length_map; lia). f_equal. symmetry. apply orb_true_iff. right. apply Z.leb_le. lia.
      + rewrite take_app_ge by (rewrite length_map; lia). rewrite length_map, length_app, !length_map.
        replace (Z.to_nat (limit - Z.of_nat (length gr))) with (Z.to_nat limit - length gr)%nat by lia.
        assert ((limit <=? Z.of_nat (length gr)) = false) as -> by (apply Z.leb_gt; lia). rewrite orb_false_r.
        destruct (Nat.ltb_spec (Z.to_nat limit - length gr) (length tr)); f_equal; symmetry; [apply Z.ltb_lt|apply Z.ltb_ge]; lia. }
  unfold SnapshotWithLimit. fold (report_limit issueLimit). fold limit. by rewrite Hrun.
Qed.
Lemma report_issues db now issueLimit :
  (SnapshotWithLimit db now issueLimit).(sn_Issues) = take (Z.to_nat (report_limit issueLimit)) (stale_rows db (sql_time now)).
Proof. by rewrite report_eq. Qed.
Lemma report_limit_pos issueLimit : 0 < report_limit issueLimit.
Proof. unfold report_limit, defaultIssueLimit. destruct (Z.leb_spec issueLimit 0); lia. Qed.
Lemma report_status db now issueLimit :
  (SnapshotWithLimit db now issueLimit).(sn_Status) =
    if bool_decide (stale_rows db (sql_time now) = []) then StatusOK else StatusInconsistent.
Proof.
  rewrite report_eq. unfold NewSnapshot. cbn [sn_Status]. rewrite length_take. pose proof (report_limit_pos issueLimit).
  destruct (stale_rows db (sql_time now)) as [|i l]; cbn [length]; [by rewrite Nat.min_0_r|].
  assert (0 <? Nat.min (Z.to_nat (report_limit issueLimit)) (S (length l)) = true)%nat as -> by (apply Nat.ltb_lt; lia). done.
Qed.

(** C23: what a report contains.  The issues are the first [limit] of the rows
    that remain open on an ended Allocation, access grants before tunnel sessions,
    each by age; the status is ok exactly when there is none; nothing is left out
    of a report that is not marked truncated.  A report that the access grants
    alone fill is marked truncated whether or not a session is left out. *)
Theorem Snapshot_exact (db : DB) (now : time) (issueLimit : Z) :
  let limit := report_limit issueLimit in
  let stale := stale_rows db (sql_time now) in
  let s := SnapshotWithLimit db now issueLimit in
  s.(sn_Issues) = take (Z.to_nat limit) stale /\
  (s.(sn_Status) = StatusOK <-> stale = []) /\
  s.(sn_Counts).(IssueCount) = Z.min limit (Z.of_nat (length stale)) /\
  (s.(sn_Truncated) = true <->
     limit < Z.of_nat (length stale) \/ limit <= Z.of_nat (length (grant_rows db (sql_time now)))) /\
  (s.(sn_Truncated) = false -> s.(sn_Issues) = stale).
Proof.
  intros limit stale s. pose proof (report_limit_pos issueLimit) as Hl. fold limit in Hl.
  split; [apply report_issues|]. split.
  { unfold s. rewrite report_status. fold stale. by case_bool_decide. }
  unfold s. rewrite report_eq. fold limit stale. unfold NewSnapshot. simpl. rewrite length_take. split; [lia|]. split.
  - rewrite orb_true_iff, Z.ltb_lt, Z.leb_le. done.
  - rewrite orb_false_iff, Z.ltb_ge, Z.leb_gt. intros [? _]. apply take_ge. lia.
Qed.

Lemma elem_of_grant_rows db now i :
  i ∈ map (dependent_issue dependentResourceAccessGrant) (grant_rows db now) <->
  exists id g a, db.(allocation_access_grants) !! id = Some g /\ db.(allocations) !! g.(g_AllocationID) = Some a /\
    stale_grant now g a = true /\
    i = dependent_issue dependentResourceAccessGrant
          (mkDependent g.(g_CreatedAt) id g.(g_AllocationID) a.(a_NodeID)
             (AllocationLifecycleState_String a.(a_State)) a.(a_RunID)).
Proof.
  rewrite list_elem_of_fmap. unfold grant_rows. setoid_rewrite elem_of_sort_slice. setoid_rewrite list_elem_of_omap. split.
  - intros (d & -> & [id g] & Hin & Hj). apply elem_of_map_to_list in Hin. unfold join in Hj. simpl in Hj.
    destruct (allocations db !! g_AllocationID g) as [a|] eqn:Ha; [|done]. simpl in Hj.
    destruct (stale_grant now g a) eqn:Es; [|done]. injection Hj as <-. by exists id, g, a.
  - intros (id & g & a & Hg & Ha & Es & ->). eexists. split; [done|]. exists (id, g).
    split; [by apply elem_of_map_to_list|]. unfold join. simpl. rewrite Ha. simpl. by rewrite Es.
Qed.
Lemma elem_of_tunnel_rows db i :
  i ∈ map (dependent_issue dependentResourceTunnel) (tunnel_rows db) <->
  exists id t a, db.(tunnel_sessions) !! id = Some t /\ db.(allocations) !! t.(t_AllocationID) = Some a /\
    stale_tunnel t a = true /\
    i = dependent_issue dependentResourceTunnel
          (mkDependent t.(t_CreatedAt) id t.(t_AllocationID) a.(a_NodeID)
             (AllocationLifecycleState_String a.(a_State)) a.(a_RunID)).
Proof.
  rewrite list_elem_of_fmap. unfold tunnel_rows. setoid_rewrite elem_of_sort_slice. setoid_rewrite list_elem_of_omap. split.
  - intros (d & -> & [id t] & Hin & Hj). apply elem_of_map_to_list in Hin. unfold join in Hj. simpl in Hj.
    destruct (allocations db !! t_AllocationID t) as [a|] eqn:Ha; [|done]. simpl in Hj.
    destruct (stale_tunnel t a) eqn:Es; [|done]. injection Hj as <-. by exists id, t, a.
  - intros (id & t & a & Ht & Ha & Es & ->). eexists. split; [done|]. exists (id, t).
    split; [by apply elem_of_map_to_list|]. unfold join. simpl. rewrite Ha. simpl. by rewrite Es.
Qed.
End facts.
End consistency.
