(* ===== verification/ConsistencyFacts.v ===== *)
(** * What the consistency checker can find

    Along every sequence of transactions, interactive access (grants and tunnel
    sessions) ends with its Allocation.  [calm] transactions end no Allocation and
    open no access; the others are followed through their statements.  The one
    exception is [MarkAllocationCreateFailed]. *)
From S2P Require Import Prelude Proto Resource Allocation Capability CapabilityFacts Node Placement Execution Store Reconcile RunStore StoreFacts Admission AdmissionFacts Retention RetentionFacts Tunnel TunnelFacts Safety Consistency.
Import retention tunnel consistency.

Lemma ended_row_cleanup a : ended_row a = IsCleanupState a.(a_State).
Proof. unfold ended_row. by destruct (a_State a). Qed.

(** ** Open access on an ended Allocation *)
Definition ended (db : DB) (id : string) : Prop :=
  exists a, db.(allocations) !! id = Some a /\ ended_row a = true.
Definition open_grant (db : DB) (id : string) : Prop :=
  exists gid g, db.(allocation_access_grants) !! gid = Some g /\ open_interactive id g = true.
Definition open_tunnel (db : DB) (id : string) : Prop :=
  exists sid t, db.(tunnel_sessions) !! sid = Some t /\ t.(t_AllocationID) = id /\ active_tunnel t = true.
#[export] Instance ended_dec db id : Decision (ended db id).
Proof.
  destruct (allocations db !! id) as [a|] eqn:Ha; [|right; intros (a & E & _); congruence].
  destruct (ended_row a) eqn:He; [left; by exists a|right; intros (b & E & ?); congruence].
Defined.
(** What is open on [id] in [db'] although it ended was so in [db]. *)
Record settles (id : string) (db db' : DB) : Prop := {
  st_grant : ended db' id -> open_grant db' id -> ended db id /\ open_grant db id;
  st_tunnel : ended db' id -> open_tunnel db' id -> ended db id /\ open_tunnel db id }.
Record calmer (db db' : DB) : Prop := {
  cm_ended id : ended db' id -> ended db id;
  cm_grant id : open_grant db' id -> open_grant db id;
  cm_tunnel id : open_tunnel db' id -> open_tunnel db id }.
#[export] Instance calmer_preorder : PreOrder calmer.
Proof. split; [by intros db; split|]. intros a b c [? ? ?] [? ? ?]. split; auto. Qed.
#[export] Instance settles_preorder id : PreOrder (settles id).
Proof.
  split; [by intros db; split|]. intros a b c [G1 T1] [G2 T2].
  split; intros He Ho; [destruct (G2 He Ho)|destruct (T2 He Ho)]; auto.
Qed.
Lemma calmer_settles id db db' : calmer db db' -> settles id db db'.
Proof. intros [? ? ?]. split; auto. Qed.
Definition untouched (db db' : DB) : Prop :=
  db'.(allocations) = db.(allocations) /\ db'.(allocation_access_grants) = db.(allocation_access_grants) /\
  db'.(tunnel_sessions) = db.(tunnel_sessions).
Lemma untouched_calmer db db' : untouched db db' -> calmer db db'.
Proof. intros (Ea & Eg & Et). split; intros id; unfold ended, open_grant, open_tunnel; by rewrite ?Ea, ?Eg, ?Et. Qed.
Lemma untouched_refl db : untouched db db.
Proof. done. Qed.
Lemma untouched_setters db :
  (forall x, untouched db (set_runs db x)) /\ (forall x, untouched db (set_queue db x)) /\
  (forall x, untouched db (set_cursors db x)) /\ (forall x, untouched db (set_run_secrets db x)) /\
  (forall x, untouched db (set_environments db x)) /\ (forall x, untouched db (set_requirements db x)) /\
  (forall x, untouched db (set_conditions db x)) /\ (forall x, untouched db (set_quota_events db x)) /\
  (forall x, untouched db (set_audit_events db x)) /\ (forall x, untouched db (set_enrollments db x)) /\
  (forall x y, untouched db (set_tunnels db db.(tunnel_sessions) x y)).
Proof. by destruct db. Qed.
Lemma access_fields db :
  (forall x, allocations (set_allocations db x) = x /\
     allocation_access_grants (set_allocations db x) = allocation_access_grants db /\
     tunnel_sessions (set_allocations db x) = tunnel_sessions db) /\
  (forall x, allocations (set_grants db x) = allocations db /\ allocation_access_grants (set_grants db x) = x /\
     tunnel_sessions (set_grants db x) = tunnel_sessions db) /\
  (forall x y z, allocations (set_tunnels db x y z) = allocations db /\
     allocation_access_grants (set_tunnels db x y z) = allocation_access_grants db /\
     tunnel_sessions (set_tunnels db x y z) = x).
Proof. by destruct db. Qed.
Lemma calmer_grants db x : (forall gid g, x !! gid = Some g -> exists g0,
    db.(allocation_access_grants) !! gid = Some g0 /\ (forall id, open_interactive id g = true -> open_interactive id g0 = true)) ->
  calmer db (set_grants db x).
Proof.
  intros Hx. destruct (proj1 (proj2 (access_fields db)) x) as (Ea & Eg & Et).
  split; intros id; unfold ended, open_grant, open_tunnel; rewrite ?Ea, ?Eg, ?Et; try done.
  intros (gid & g & Hg & Ho). destruct (Hx _ _ Hg) as (g0 & Hg0 & Hi). exists gid, g0. auto.
Qed.
Lemma calmer_tunnels db x y z : (forall sid t, x !! sid = Some t -> active_tunnel t = true -> exists t0,
    db.(tunnel_sessions) !! sid = Some t0 /\ t0.(t_AllocationID) = t.(t_AllocationID) /\ active_tunnel t0 = true) ->
  calmer db (set_tunnels db x y z).
Proof.
  intros Hx. destruct (proj2 (proj2 (access_fields db)) x y z) as (Ea & Eg & Et).
  split; intros id; unfold ended, open_grant, open_tunnel; rewrite ?Ea, ?Eg, ?Et; try done.
  intros (sid & t & Ht & <- & Ho). destruct (Hx _ _ Ht Ho) as (t0 & Ht0 & Hi & Ho0). by exists sid, t0.
Qed.
Lemma calmer_allocations db x : (forall id a, x !! id = Some a -> ended_row a = true -> ended db id) ->
  calmer db (set_allocations db x).
Proof.
  intros Hx. destruct (proj1 (access_fields db) x) as (Ea & Eg & Et).
  split; intros id; unfold ended, open_grant, open_tunnel; rewrite ?Ea, ?Eg, ?Et; try done.
  intros (a & Ha & He). by apply (Hx id a).
Qed.

(** ** Calm transactions *)
Lemma respects_on_error {R : relation DB} {A} f (m : Tx A) : respects R m -> respects R (on_error f m).
Proof. intros Hm db. specialize (Hm db). unfold on_error. by destruct (m db) as [d [a|e]]. Qed.
Notation calm := (respects calmer).
Lemma calm_same {A} (m : Tx A) : (forall db, untouched db (fst (m db))) -> calm m.
Proof. intros Hm db. by apply untouched_calmer. Qed.

(** A transaction that rolls back need only be followed where it succeeds. *)
Lemma settles_withTx {A} id (m : Tx A) db : plain m ->
  (forall db' a, m db = (db', Ok a) -> settles id db db') -> settles id db (fst (withTx m db)).
Proof. intros Hp Hm. destruct (withTx_plain m db Hp) as [(db' & a & E & ->)|(e & ->)]; simpl; [by eapply Hm|done]. Qed.
Lemma settles_withTx_admin {A} id (m : Tx A) db :
  (forall db' a, m db = (db', Ok a) -> settles id db db') -> settles id db (fst (withTx_admin m db)).
Proof. intros Hm. destruct (withTx_admin_cases m db) as [(db' & a & E & ->)|(e & ->)]; simpl; [by eapply Hm|done]. Qed.
Lemma settles_bind {A B} id (m : Tx A) (f : A -> Tx B) db :
  settles id db (fst (m db)) -> (forall a d, settles id d (fst (f a d))) -> settles id db (fst ((x ← m; f x) db)).
Proof.
  intros Hm Hf. unfold mbind, tx_bind. destruct (m db) as [d [a|e]]; [|done]. simpl in *. etrans; [exact Hm|apply Hf].
Qed.
Lemma settles_for {A} id (body : A -> Tx ()) l : (forall x d, settles id d (fst (body x d))) ->
  forall db, settles id db (fst (for_tx body l db)).
Proof. intros Hb. induction l as [|x l IH]; intros db; simpl; [done|]. by apply settles_bind. Qed.

Section statements.
Context `{GoRuntime} `{SqlTime}.
Ltac calm_statement :=
  apply calm_same; intros ?; repeat (case_match; simpl); first [apply untouched_refl | apply untouched_setters].

Lemma calm_update_run id g f : calm (update_run id g f).
Proof. unfold update_run. calm_statement. Qed.
Lemma calm_update_queue id g f : calm (update_queue id g f).
Proof. unfold update_queue. calm_statement. Qed.
Lemma calm_delete_queue id g : calm (delete_queue id g).
Proof. unfold delete_queue. calm_statement. Qed.
Lemma calm_ScheduleReconcile r n : calm (ScheduleReconcile r n).
Proof. unfold ScheduleReconcile. calm_statement. Qed.
Lemma calm_ClaimDue l o n t d : calm (ClaimDueReconcileItems l o n t d).
Proof. unfold ClaimDueReconcileItems. calm_statement. Qed.
Lemma calm_NextRevision n : calm (NextAccessGrantRevision n).
Proof. unfold NextAccessGrantRevision. calm_statement. Qed.
Lemma calm_audit e : calm (insertAdminAuditEvent e).
Proof. unfold insertAdminAuditEvent. calm_statement. Qed.
Lemma calm_insert_environment e : calm (insert_environment e).
Proof. unfold insert_environment. calm_statement. Qed.
Lemma calm_insert_run id r : calm (insert_run id r).
Proof. unfold insert_run. calm_statement. Qed.
Lemma calm_deleteSecrets id : calm (deleteRunSecretReferences id).
Proof. unfold deleteRunSecretReferences, modify. calm_statement. Qed.
Lemma calm_deleteAllocationSecrets id : calm (deleteAllocationRunSecretReferences id).
Proof. unfold deleteAllocationRunSecretReferences, modify. calm_statement. Qed.
Lemma calm_nextRevision : calm nextRevision.
Proof. unfold nextRevision. calm_statement. Qed.
Lemma calm_insertEvent e : calm (insertEventTx e).
Proof. unfold insertEventTx. calm_statement. Qed.
Lemma calm_lock_session id g : calm (lock_session id g).
Proof. unfold lock_session. calm_statement. Qed.
Lemma calm_requireActiveNode n : calm (requireActiveNode n).
Proof. unfold requireActiveNode. calm_statement. Qed.

(** A row that is written is ended only if it was. *)
Lemma calm_update_allocation id g f :
  (forall a, g a = true -> ended_row (f a) = true -> ended_row a = true) -> calm (update_allocation id g f).
Proof.
  intros Hf db. unfold update_allocation. destruct (allocations db !! id) as [a|] eqn:Ha; [|done].
  destruct (g a) eqn:Hg; [|done]. cbv zeta. destruct (check_alloc _); [|done]. simpl. apply calmer_allocations.
  intros i b. destruct (decide (i = id)) as [->|Hne].
  - rewrite lookup_insert_eq. intros [= <-] He. exists a. split; [done|]. by apply Hf.
  - rewrite lookup_insert_ne by done. intros Hb He. by exists b.
Qed.
Lemma calm_insert_allocation id a : ended_row a = false -> calm (insert_allocation id a).
Proof.
  intros Hn db. unfold insert_allocation. cbv zeta. destruct (negb _); [done|]. destruct (_ || _); [done|].
  repeat (case_match; try done). simpl. apply calmer_allocations. intros i b. destruct (decide (i = id)) as [->|Hne].
  - rewrite lookup_insert_eq. intros [= <-] He. rewrite ended_row_cleanup in Hn, He. simpl in He. congruence.
  - rewrite lookup_insert_ne by done. intros Hb He. by exists b.
Qed.
(** Ending an Allocation ends no other, and leaves access as it is. *)
Lemma update_allocation_ends id g f db db' n : update_allocation id g f db = (db', Ok n) ->
  (forall i, ended db' i -> ended db i \/ i = id /\ exists a, db.(allocations) !! id = Some a /\ g a = true) /\
  (forall i, open_grant db' i -> open_grant db i) /\ (forall i, open_tunnel db' i -> open_tunnel db i).
Proof.
  intros Hx. apply update_allocation_Ok in Hx as [(a & Ha & Hg & _ & _ & ->)|(-> & _)]; [|auto].
  destruct (proj1 (access_fields db) (<[id:=freeze_allocation_output_expiry (a_OutputExpiresAt a) (f a)]> (allocations db)))
    as (Ea & Eg & Et). unfold ended, open_grant, open_tunnel. rewrite Ea, Eg, Et. split; [|done].
  intros i (b & Hb & He). destruct (decide (i = id)) as [->|Hne]; [right; eauto|left].
  rewrite lookup_insert_ne in Hb by done. by exists b.
Qed.

(** *** Revocation *)
Lemma open_interactive_revoked r id g : open_interactive id (revoke_grant r g) = false.
Proof. unfold open_interactive. simpl. by rewrite andb_false_r. Qed.
Lemma grant_map_spec id r db gid g :
  ((fun g => if open_interactive id g then revoke_grant r g else g) <$> db.(allocation_access_grants)) !! gid = Some g ->
  exists g0, db.(allocation_access_grants) !! gid = Some g0 /\
    (forall i, open_interactive i g = true -> open_interactive i g0 = true) /\ open_interactive id g = false.
Proof.
  rewrite lookup_fmap. destruct (allocation_access_grants db !! gid) as [g0|]; [|done]. intros [= <-]. exists g0. split; [done|].
  destruct (open_interactive id g0) eqn:Eo; [|done]. split; [|apply open_interactive_revoked].
  intros i. by rewrite open_interactive_revoked.
Qed.
Lemma calm_RevokeInteractive id : calm (RevokeInteractiveAccessGrants id).
Proof.
  apply respects_bind; [apply respects_gets|]. intros [|[gid g] l]; [apply respects_ret|].
  apply respects_bind; [apply calm_NextRevision|]. intros r db. unfold modify. simpl. apply calmer_grants.
  intros i g' (g0 & ? & ? & _)%grant_map_spec. eauto.
Qed.
Lemma RevokeInteractive_closes id db db' u :
  RevokeInteractiveAccessGrants id db = (db', Ok u) -> ~ open_grant db' id.
Proof.
  unfold RevokeInteractiveAccessGrants. intros Hx. tx_inv. intros (gid & g & Hg & Ho).
  destruct (List.filter _ _) as [|[i g1] l] eqn:El.
  - tx_inv. enough (Hin : In (gid, g) []) by done. rewrite <- El. apply filter_In. split; [|done].
    by apply list_elem_of_In, elem_of_map_to_list.
  - tx_inv. unfold modify in Hx. injection Hx as <- _.
    match type of Hg with allocation_access_grants (set_grants ?d ?m) !! _ = _ =>
      rewrite (proj1 (proj2 (proj1 (proj2 (access_fields d)) m))) in Hg end.
    apply grant_map_spec in Hg as (g0 & _ & _ & Hf). congruence.
Qed.

Lemma close_map_spec due s reason r n db sid t : closing s = true ->
  ((fun t => if due t : bool then tunnel_set_status s reason t.(t_BoundAddr) r n t else t) <$> db.(tunnel_sessions)) !! sid = Some t ->
  active_tunnel t = true ->
  exists t0, db.(tunnel_sessions) !! sid = Some t0 /\ t0.(t_AllocationID) = t.(t_AllocationID) /\ active_tunnel t0 = true /\
    due t = false.
Proof.
  intros Hs. rewrite lookup_fmap. destruct (tunnel_sessions db !! sid) as [t0|]; [|done]. intros [= <-].
  destruct (due t0) eqn:Ed; [by rewrite closing_inactive|eauto].
Qed.
Lemma calm_close due s r ty c n : closing s = true -> calm (close_tunnels due s r ty c n).
Proof.
  intros Hs db. unfold close_tunnels. cbv zeta. destruct (_ =? _)%nat; [done|]. destruct (_ && _); [|done]. simpl.
  apply calmer_tunnels. intros sid t Ht Ha. destruct (close_map_spec _ _ _ _ _ _ _ _ Hs Ht Ha) as (t0 & ? & ? & ? & _). eauto.
Qed.
Lemma calm_RevokeActive ids r c n : calm (RevokeActiveForAllocationsTx ids r c n).
Proof. unfold RevokeActiveForAllocationsTx. case_match; [apply respects_ret|]. by apply calm_close. Qed.
Lemma calm_expireDue now : calm (expireDue now).
Proof. by apply calm_close. Qed.
Lemma RevokeActive_closes id r c n db db' u :
  RevokeActiveForAllocationsTx [id] r c n db = (db', Ok u) -> ~ open_tunnel db' id.
Proof.
  unfold RevokeActiveForAllocationsTx, close_tunnels. simpl. cbv zeta. intros Hx (sid & t & Ht & Ei & Ha).
  set (due := fun t : TunnelRow => bool_decide (t_AllocationID t ∈ [id]) && active_tunnel t) in *.
  assert (Hdue : due t = true) by (unfold due; rewrite Ha, andb_true_r; apply bool_decide_eq_true; rewrite Ei; by left).
  destruct (_ =? _)%nat eqn:El.
  - injection Hx as <- _. apply Nat.eqb_eq in El. rewrite sort_slice_perm in El.
    assert (Hin : In (sid, t) (List.filter (fun kv : string * TunnelRow => due kv.2) (map_to_list (tunnel_sessions db)))).
    { apply filter_In. split; [|done]. by apply list_elem_of_In, elem_of_map_to_list. }
    destruct (List.filter _ _); [done|]. simpl in El. lia.
  - destruct (_ && _); [|done]. injection Hx as <- _.
    match type of Ht with tunnel_sessions (set_tunnels ?d ?x ?y ?z) !! _ = _ =>
      rewrite (proj2 (proj2 (proj2 (proj2 (access_fields d)) x y z))) in Ht end.
    destruct (close_map_spec due TUNNEL_REVOKED _ _ _ _ _ _ eq_refl Ht Ha) as (_ & _ & _ & _ & Hd). congruence.
Qed.
(** An Allocation ends, then its access is closed. *)
Lemma settles_ends id aid db d db' :
  (forall i, ended d i -> ended db i \/ i = aid) -> (forall i, open_grant d i -> open_grant db i) ->
  (forall i, open_tunnel d i -> open_tunnel db i) -> calmer d db' -> ~ open_grant db' aid -> ~ open_tunnel db' aid ->
  settles id db db'.
Proof.
  intros He Hg Ht [Ce Cg Ct] Ng Nt. split; intros Hen Hop.
  - destruct (He _ (Ce _ Hen)) as [?| ->]; [auto|done].
  - destruct (He _ (Ce _ Hen)) as [?| ->]; [auto|done].
Qed.
End statements.

Create HintDb calm.
#[export] Hint Resolve respects_ret respects_fail respects_gets respects_lift respects_guard calm_update_run calm_update_queue
  calm_delete_queue calm_ScheduleReconcile calm_ClaimDue calm_NextRevision calm_audit calm_insert_environment
  calm_insert_run calm_deleteSecrets calm_deleteAllocationSecrets calm_nextRevision calm_insertEvent
  calm_lock_session calm_requireActiveNode calm_RevokeInteractive calm_RevokeActive calm_expireDue calmer_preorder : calm.
#[export] Hint Extern 1 (calm (insert_allocation _ _)) => apply calm_insert_allocation; reflexivity : calm.
Ltac calm_auto :=
  repeat first
    [ match goal with |- forall _, _ => intro end
    | solve [eauto 2 with calm nocore]
    | apply respects_guard
    | apply respects_bind
    | apply respects_wrap
    | apply respects_when
    | apply respects_on_error
    | apply respects_withTx
    | apply respects_withTx_admin
    | apply respects_for
    | match goal with |- calm (modify _) => apply calm_same; intros ?; unfold modify; repeat (case_match; simpl);
         first [apply untouched_refl | apply untouched_setters] end
    | match goal with |- calm (fun _ => _) => apply calm_same; intros ?; repeat (case_match; simpl);
         first [apply untouched_refl | apply untouched_setters] end
    | case_match ].

(** ** Every transaction *)
Section steps.
Context `{Fresh : Admissible} `{GoRuntime} `{SqlTime}.
Context (ToASCII : string -> result string) (NewSHA1 : string -> string).
Context (sha256_hex encryptNodeToken : string -> string) (decryptNodeToken : string -> result string).

(** *** Observations *)
Lemma terminate_settles runID id aid now db d db' u :
  (forall i, ended d i -> ended db i \/ i = aid) -> (forall i, open_grant d i -> open_grant db i) ->
  (forall i, open_tunnel d i -> open_tunnel db i) -> terminate_allocation runID aid now d = (db', Ok u) ->
  settles id db db'.
Proof.
  intros He Hg Ht Hx. unfold terminate_allocation in Hx. tx_inv.
  pose proof (RevokeActive_closes _ _ _ _ _ _ _ Hm0) as Nt. pose proof (RevokeInteractive_closes _ _ _ _ Hm1) as Ng.
  apply (respects_Ok (R := calmer)) in Hm as C1; [|apply calm_deleteSecrets]. apply (respects_Ok (R := calmer)) in Hm0 as C2; [|apply calm_RevokeActive].
  apply (respects_Ok (R := calmer)) in Hm1 as C3; [|apply calm_RevokeInteractive]. apply (respects_Ok (R := calmer)) in Hx as C4; [|apply calm_ScheduleReconcile].
  eapply settles_ends; [exact He|exact Hg|exact Ht|by repeat (etrans; [eassumption|])|by intros ?%C4|by intros ?%C4%C3].
Qed.
Lemma report_one_settles id nodeID now locked obs db db' locked' :
  report_one nodeID now locked obs db = (db', Ok locked') -> settles id db db'.
Proof.
  unfold report_one. destruct (locked !! observation_id obs) as [ra|]; [|by intros [= <- <-]].
  destruct obs as [o|]; [|by intros [= <- <-]]. destruct (ValidateObservationBinding _ _); [|done].
  destruct (AcceptsObservation _ _ _ _) eqn:Hacc; cbn [negb]; [|by intros [= <- <-]].
  apply AcceptsObservation_forward in Hacc as (_ & _ & Hobs & _). cbv zeta.
  destruct (runAllocationObservationMatches _ _ _ _ _ _); [by intros [= <- <-]|].
  intros Hx. tx_inv. unfold persist_observation in Hm. tx_inv. rewrite observed_status in Hm0 by done.
  apply (respects_Ok (R := calmer)) in Hm2 as C; [|apply calm_update_run].
  destruct (bool_decide_reflect (lo_State o = ALS_STOPPED)) as [_|Hns]; cbn [when_tx] in Hm0.
  - destruct (update_allocation_ends _ _ _ _ _ _ Hm1) as (He & Hg & Ht).
    eapply terminate_settles; [| | |exact Hm0]; intros i Hi%C; [|auto..]. destruct (He _ Hi) as [?|[? _]]; auto.
  - tx_inv. apply calmer_settles. etrans; [|exact C]. eapply (respects_Ok (R := calmer)); [|exact Hm1]. apply calm_update_allocation.
    intros b _. rewrite !ended_row_cleanup. simpl. by destruct Hobs as [E|[E|E]]; rewrite E in *.
Qed.
Lemma BatchReport_settles id nodeID l now db : settles id db (fst (BatchReportAllocationLifecycle nodeID l now db)).
Proof.
  apply settles_withTx; [apply plain_bind; [apply plain_gets|intros; apply plain_report_all]|].
  intros db' u Hx. tx_inv. revert db' u Hx. generalize (lockReportedAllocations db (allocationIDsFromRunObservations l)).
  induction l as [|obs l IH] in db |- *; simpl; intros locked db' u Hx; tx_inv; [done|].
  etrans; [by eapply report_one_settles|by eapply IH].
Qed.
Lemma Inventory_settles id snapshot now db : settles id db (fst (ReconcileNodeInventory snapshot now db)).
Proof.
  unfold ReconcileNodeInventory. case_match; [done|]. apply settles_bind; [done|]. intros e d.
  apply settles_for. intros. apply BatchReport_settles.
Qed.
Lemma Unavailable_settles id nodeID now db : settles id db (fst (ReconcileNodeUnavailable nodeID now db)).
Proof.
  unfold ReconcileNodeUnavailable. case_match; [done|]. apply settles_bind; [done|]. intros e d.
  apply settles_for. intros. apply BatchReport_settles.
Qed.

(** *** Transactions that end an Allocation *)
Lemma CancelRun_settles id runID now db : settles id db (fst (CancelRun runID now db)).
Proof.
  apply settles_withTx.
  { apply plain_bind; [apply plain_gets|]. intros row. destruct row as [[r allocationID]|]; plain_tac. }
  intros db' u Hx. cbv zeta in Hx. tx_inv.
  match type of Hx with context [match ?e with Some _ => _ | None => _ end] => destruct e as [[r aid]|]; [|done] end.
  destruct (not_terminal r); cbn [when_tx] in Hx; tx_inv; [|done].
  destruct (update_allocation_ends _ _ _ _ _ _ Hm0) as (He & Hg & Ht).
  apply (respects_Ok (R := calmer)) in Hm as C0; [|apply calm_update_run]. destruct C0 as [E0 G0 T0].
  pose proof (RevokeInteractive_closes _ _ _ _ Hm1) as Ng. pose proof (RevokeActive_closes _ _ _ _ _ _ _ Hm2) as Nt.
  apply (respects_Ok (R := calmer)) in Hm1 as C1; [|apply calm_RevokeInteractive]. apply (respects_Ok (R := calmer)) in Hm2 as C2; [|apply calm_RevokeActive].
  apply (respects_Ok (R := calmer)) in Hm3 as C3; [|apply calm_deleteSecrets]. apply (respects_Ok (R := calmer)) in Hx as C4; [|apply calm_ScheduleReconcile].
  eapply (settles_ends _ aid); [intros i Hi; destruct (He i Hi) as [?|[? _]]; auto|auto..| | |].
  - by repeat (etrans; [eassumption|]).
  - by intros ?%C4%C3%C2.
  - by intros ?%C4%C3.
Qed.
Lemma Fail_settles id req now eventID db : settles id db (fst (FailAllocationLifecycleRetry req now eventID db)).
Proof.
  unfold FailAllocationLifecycleRetry. cbv zeta. apply settles_bind; [done|]. intros _ d0. apply settles_withTx_admin.
  intros db' u Hx. unfold failRunLifecycleRetry, audit in Hx. tx_inv.
  repeat match goal with E : update_allocation _ _ _ _ = _ |- _ =>
    destruct (update_allocation_ends _ _ _ _ _ _ E) as (He & Hg & Ht); clear E end.
  repeat match goal with
  | E : RevokeInteractiveAccessGrants _ _ = _ |- _ =>
      let N := fresh "Ng" in let C := fresh "Cg" in
      pose proof (RevokeInteractive_closes _ _ _ _ E) as N; apply (respects_Ok (R := calmer)) in E as C; [clear E|apply calm_RevokeInteractive]
  | E : RevokeActiveForAllocationsTx _ _ _ _ _ = _ |- _ =>
      let N := fresh "Nt" in let C := fresh "Ct" in
      pose proof (RevokeActive_closes _ _ _ _ _ _ _ E) as N; apply (respects_Ok (R := calmer)) in E as C; [clear E|apply calm_RevokeActive]
  end.
  match goal with E : lockLifecycleRetry _ _ _ = _ |- _ => apply (respects_Ok (R := calmer)) in E as CL; [|unfold lockLifecycleRetry; calm_auto] end.
  match goal with E : insertAdminAuditEvent _ _ = _ |- _ => apply (respects_Ok (R := calmer)) in E as CA; [|apply calm_audit] end.
  match goal with E : update_run _ _ _ _ = _ |- _ => apply (respects_Ok (R := calmer)) in E as CR; [|apply calm_update_run] end.
  match goal with E : update_queue _ _ _ _ = _ |- _ => apply (respects_Ok (R := calmer)) in E as CQ; [|apply calm_update_queue] end.
  match goal with E : loadLifecycleRetry _ _ _ = _ |- _ => apply (respects_Ok (R := calmer)) in E as CO; [|unfold loadLifecycleRetry; calm_auto] end.
  eapply (settles_ends _ (lr_AllocationID x));
    [intros i Hi; destruct (He i Hi) as [?%CA%CL|[? _]]; auto|by intros i ?%Hg%CA%CL|by intros i ?%Ht%CA%CL| | |].
  - by repeat (etrans; [eassumption|]).
  - by intros ?%CO%CQ%Ct.
  - by intros ?%CO%CQ.
Qed.
(** The create failure ends its Allocation and closes nothing. *)
Lemma CreateFailed_settles id aid owner message now db :
  let db' := fst (MarkAllocationCreateFailed aid owner message now db) in
  settles id db db' \/ id = aid /\ ended db' id /\ ~ ended db id /\
    (forall i, open_grant db' i -> open_grant db i) /\ (forall i, open_tunnel db' i -> open_tunnel db i).
Proof.
  intros db'. unfold MarkAllocationCreateFailed in db'. revert db'. cbv zeta.
  match goal with |- context [withTx ?m db] => destruct (withTx_plain m db ltac:(plain_tac)) as [(db' & u & Hx & ->)|(e & ->)] end;
    [|by left]. simpl. tx_inv.
  match goal with E : update_allocation _ _ _ _ = _ |- _ => destruct (update_allocation_ends _ _ _ _ _ _ E) as (He & Hg & Ht) end.
  match goal with E : update_allocation _ _ _ _ = (?d, _), E' : ScheduleClaimedReconcile _ _ _ _ = (?d', _) |- _ => assert (C : calmer d d') end.
  { match goal with E : ScheduleClaimedReconcile _ _ _ _ = _ |- _ =>
      apply (respects_Ok (R := calmer)) in E as C1; [|unfold ScheduleClaimedReconcile; calm_auto] end.
    match goal with E : deleteAllocationRunSecretReferences _ _ = _ |- _ =>
      apply (respects_Ok (R := calmer)) in E as C2; [|apply calm_deleteAllocationSecrets] end.
    match goal with E : (match _ with Some _ => _ | None => _ end) _ = _ |- _ =>
      apply (respects_Ok (R := calmer)) in E as C3; [|case_match; calm_auto] end.
    by repeat (etrans; [eassumption|]). }
  destruct C as [Ce Cg Ct].
  match goal with E' : ScheduleClaimedReconcile _ _ _ _ = (?d', _) |- _ =>
    destruct (decide (ended d' id)) as [Hen|Hen]; [|left; by split] end.
  destruct (decide (ended db id)) as [Hen0|Hen0]; [left; split; auto|].
  destruct (He _ (Ce _ Hen)) as [?|[-> _]]; [done|right]. split_and!; auto.
Qed.
Lemma Release_settles id allocationID owner snapshot now db :
  settles id db (fst (CompleteAllocationRelease NewSHA1 allocationID owner snapshot now db)).
Proof.
  unfold CompleteAllocationRelease. apply settles_withTx.
  { apply plain_bind; [apply plain_gets|]. intros [[a r]|]; [|plain_tac].
    apply plain_bind; [apply plain_Require|intros _].
    repeat (apply plain_bind; [plain_tac|intros _]). cbv zeta.
    destruct snapshot; [apply plain_bind; [apply plain_publish|intros _]|destruct (_ && _ && _)]; plain_tac;
      apply plain_release_queue; plain_tac. }
  intros db' u Hx. cbv zeta in Hx. tx_inv.
  destruct (allocations db !! TrimSpace allocationID) as [a|] eqn:Ha; simpl in Hx; [|done].
  destruct (runs db !! a_RunID a) as [r|]; simpl in Hx; [|done]. tx_inv. apply calmer_settles.
  match goal with E : when_tx _ _ _ = (?d, _) |- _ => transitivity d; [|clear E] end.
  - match goal with E : when_tx ?b _ _ = _ |- _ => destruct b; cbn [when_tx] in E; tx_inv; [|done] end.
    match goal with E : update_allocation _ _ _ _ = _ |- _ => destruct (update_allocation_ends _ _ _ _ _ _ E) as (He & Hg & Ht) end.
    split; [|done..]. intros i Hi. destruct (He _ Hi) as [?|[-> _]]; [done|]. exists a. by rewrite ended_row_cleanup.
  - revert Hx. match goal with |- ?m ?d = _ -> _ => assert (C : calm m) end.
    { unfold publish_snapshot, release_queue. repeat case_match; calm_auto. }
    intros Hx. by apply (respects_Ok (R := calmer)) in Hx.
Qed.
Lemma IssueGrant_settles id allocationID purpose ttl now grantID tokenHash db : inv db ->
  settles id db (fst (IssueAllocationAccessGrant allocationID purpose ttl now grantID tokenHash db)).
Proof.
  intros Hinv. unfold IssueAllocationAccessGrant. cbv zeta. apply settles_withTx.
  { plain_tac. }
  intros db' u Hx. tx_inv. destruct (allocations db !! TrimSpace allocationID) as [a0|] eqn:Ha0; simpl in Hx; [|done].
  destruct (nodes db !! a_NodeID a0) as [n|]; simpl in Hx; [|done]. tx_inv.
  destruct (allocations db !! allocationID) as [a|] eqn:Ha; [|done]. tx_inv.
  assert (Et : TrimSpace allocationID = allocationID) by (by eapply (wf_trimmed _ (proj1 Hinv))).
  match goal with E : NextAccessGrantRevision _ ?d = (?d', _) |- _ =>
    assert (d = db) as -> by (by repeat (case_match; tx_inv)); assert (C : calmer db d') by
      (by apply (respects_Ok (R := calmer)) in E; [|apply calm_NextRevision]);
    assert (Ed : allocations d' = allocations db) by (eapply frame_Ok in E as (_ & -> & _); [done|apply frame_NextAccessGrantRevision]) end.
  assert (Hact : purpose = PURPOSE_INTERACTIVE -> a_State a = ALS_ACTIVE).
  { intros ->. tx_inv. by eapply bool_decide_eq_true. }
  match goal with E : modify _ ?d = _ |- _ => unfold modify in E; injection E as <- _ end.
  match goal with |- settles _ _ (set_grants ?d ?m) => destruct (proj1 (proj2 (access_fields d)) m) as (Ea & Eg & Etn) end.
  destruct C as [Ce Cg Ct]. split.
  - intros (b & Hb' & He) (gid & g & Hg & Ho). rewrite Ea, Ed in Hb'. rewrite Eg in Hg.
    destruct (decide (gid = grantID)) as [->|Hne].
    + rewrite lookup_insert_eq in Hg. injection Hg as <-. unfold open_interactive in Ho. simpl in Ho.
      rewrite andb_true_r, andb_true_iff, String.eqb_eq, bool_decide_eq_true in Ho. destruct Ho as [<- Hp].
      rewrite Et in Hb'. simplify_eq. rewrite ended_row_cleanup, Hact in He; done.
    + rewrite lookup_insert_ne in Hg by done. split; [by exists b|]. apply Cg. by exists gid, g.
  - intros (b & Hb' & He) (sid & t & Ht & Ho). rewrite Ea, Ed in Hb'. rewrite Etn in Ht. split; [by exists b|]. apply Ct. by exists sid, t.
Qed.

(** *** Tunnel transactions *)
Record steady (db db' : DB) : Prop := {
  sd_allocations : db'.(allocations) = db.(allocations);
  sd_grants : db'.(allocation_access_grants) = db.(allocation_access_grants);
  sd_sessions sid : db.(tunnel_sessions) !! sid = None -> db'.(tunnel_sessions) !! sid = None }.
#[local] Instance steady_preorder : PreOrder steady.
Proof. split; [by intros db; split|]. intros a b c [? ? ?] [? ? ?]. split; [congruence..|auto]. Qed.
Lemma steady_same db db' : untouched db db' -> steady db db'.
Proof. intros (? & ? & E). split; [done..|]. intros sid. by rewrite E. Qed.
Lemma steady_tunnels db x y z : (forall sid, db.(tunnel_sessions) !! sid = None -> x !! sid = None) ->
  steady db (set_tunnels db x y z).
Proof. intros Hx. destruct (proj2 (proj2 (access_fields db)) x y z) as (? & ? & E). split; [done..|]. intros sid. rewrite E. apply Hx. Qed.
Ltac steady_statement :=
  intros db; repeat (case_match; simpl); first [reflexivity | apply steady_same, untouched_setters].
#[local] Instance untouched_preorder : PreOrder untouched.
Proof. split; [done|]. intros a b c (?&?&?) (?&?&?). split_and!; congruence. Qed.
Lemma access_nextRevision : respects untouched nextRevision.
Proof. intros db. unfold nextRevision. case_match; [apply untouched_setters|done]. Qed.
Lemma access_insertEvent e : respects untouched (insertEventTx e).
Proof. intros db. unfold insertEventTx. repeat (case_match; simpl; try done). apply untouched_setters. Qed.
Lemma steady_nextRevision : respects steady nextRevision.
Proof. unfold nextRevision. steady_statement. Qed.
Lemma steady_insertEvent e : respects steady (insertEventTx e).
Proof. unfold insertEventTx. steady_statement. Qed.
Lemma steady_lock_session id g : respects steady (lock_session id g).
Proof. unfold lock_session. steady_statement. Qed.
Lemma steady_requireActiveNode n : respects steady (requireActiveNode n).
Proof. unfold requireActiveNode. steady_statement. Qed.
Lemma steady_expireDue now : respects steady (expireDue now).
Proof.
  intros db. unfold expireDue, close_tunnels. cbv zeta. destruct (_ =? _)%nat; [done|]. destruct (_ && _); [|done]. simpl.
  apply steady_tunnels. intros sid Hs. by rewrite lookup_fmap, Hs.
Qed.
Lemma steady_update_tunnel id g f : respects steady (update_tunnel id g f).
Proof.
  intros db. unfold update_tunnel. destruct (tunnel_sessions db !! id) as [t|] eqn:Ht; [|done].
  destruct (negb (g t)); [done|]. destruct (check_tunnel (f t)); [|done]. simpl. apply steady_tunnels.
  intros sid Hs. rewrite lookup_insert_ne; [done|]. intros ->. congruence.
Qed.
(** Sessions that only move keep what was closed closed. *)
Lemma steady_calmer db db' : steady db db' -> tunnel_le db db' -> calmer db db'.
Proof.
  intros [Ea Eg En] [_ Ls _]. split; intros id; unfold ended, open_grant, open_tunnel; rewrite ?Ea, ?Eg; try done.
  intros (sid & t' & Ht' & Ei & Ha). destruct (tunnel_sessions db !! sid) as [t|] eqn:Ht; [|by rewrite (En _ Ht) in Ht'].
  destruct (Ls _ _ Ht) as (t2 & Ht2 & [(Eb & _) _ _ _ Cl _]). simplify_eq. exists sid, t. split; [done|]. split; [congruence|].
  destruct (active_tunnel t) eqn:Hact; [done|]. destruct (Cl eq_refl) as (Es & _).
  unfold active_tunnel in *. rewrite Es in Ha. congruence.
Qed.
Ltac steady_auto :=
  repeat first
    [ match goal with |- forall _, _ => intro end
    | apply respects_ret | apply respects_fail | apply respects_gets | apply respects_lift | apply respects_guard
    | apply steady_nextRevision | apply steady_insertEvent | apply steady_lock_session | apply steady_requireActiveNode
    | apply steady_expireDue | apply steady_update_tunnel
    | apply respects_bind | apply respects_wrap | apply respects_on_error | apply respects_withTx_admin
    | case_match ].
(** A session is only created on an Allocation that has not ended. *)
Lemma insert_settles id aid a sid t db d d' db' u :
  db.(allocations) !! aid = Some a -> ended_row a = false -> untouched db d -> insert_tunnel sid t d = (d', Ok u) ->
  t.(t_AllocationID) = aid -> untouched d' db' -> settles id db db'.
Proof.
  intros Ha Hne (Ea & Eg & Es) Hx Hid (Ea' & Eg' & Es'). unfold insert_tunnel in Hx.
  repeat (case_match; [done|]). injection Hx as <- _.
  match type of Ea' with context [set_tunnels ?d ?x ?y ?z] => destruct (proj2 (proj2 (access_fields d)) x y z) as (Ea2 & Eg2 & Es2) end.
  split; unfold ended, open_grant, open_tunnel; rewrite ?Ea', ?Eg', ?Es', ?Ea2, ?Eg2, ?Es2, ?Ea, ?Eg, ?Es; [done|].
  intros (b & Hb & He) (s & t' & Ht & Ei & Hact). split; [by exists b|]. destruct (decide (s = sid)) as [->|Hs].
  - rewrite lookup_insert_eq in Ht. injection Ht as <-. simplify_eq. congruence.
  - rewrite lookup_insert_ne in Ht by done. by exists s, t'.
Qed.
Lemma Create_settles id relays params principal draws sid ct nt db :
  settles id db (fst (Create sha256_hex encryptNodeToken relays params principal draws sid ct nt db)).
Proof.
  unfold Create. cbv zeta. assert (Hgu : forall b e d, settles id d (fst (guard_tx b e d))) by (intros; apply calmer_settles, respects_guard).
  apply settles_bind; [apply Hgu|]. intros _ d0. apply settles_bind; [apply Hgu|]. intros _ d1. apply settles_withTx_admin.
  intros db' r Hx. unfold lookupAllocation in Hx. tx_inv.
  apply (respects_Ok (R := calmer)) in Hm as C; [|apply calm_expireDue]. clear Hm.
  destruct (allocations db0 !! TrimSpace (cp_AllocationID params)) as [a|] eqn:Ha; simpl in Hm0; [|done].
  destruct (runs db0 !! a_RunID a) as [rr|]; simpl in Hm0; [|done]. tx_inv.
  match goal with E : requireActiveNode _ _ = _ |- _ => apply requireActiveNode_Ok in E as [-> _] end. tx_inv.
  match goal with E : bool_decide (a_State a = ALS_ACTIVE) = true |- _ => apply bool_decide_eq_true in E as Hact end.
  match goal with E : _ db0 = (?d, Ok _) |- _ => assert (d = db0) as -> by (destruct (cp_RemotePort params); tx_inv; congruence); clear E end.
  destruct (selectRelay relays sid) as [[relay|e]|]; [|done|done]. tx_inv.
  match goal with E : on_error _ _ _ = _ |- _ => apply on_error_Ok in E end.
  etrans; [by apply calmer_settles|]. clear C.
  match goal with
  | E1 : nextRevision _ = _, E2 : insert_tunnel _ _ _ = _, E3 : insertEventTx _ _ = _ |- _ =>
      eapply insert_settles; [exact Ha|by rewrite ended_row_cleanup, Hact| |exact E2|done| ];
        [eapply (respects_Ok (R := untouched)); [apply access_nextRevision|exact E1]
        |eapply (respects_Ok (R := untouched)); [apply access_insertEvent|exact E3]]
  end.
Qed.
Lemma tunnel_step_settles id db db' : tunnel_inv db ->
  tunnel_step sha256_hex encryptNodeToken decryptNodeToken db db' -> settles id db db'.
Proof.
  intros Hi Hst. pose proof (tunnel_step_moves _ _ _ _ _ Hi Hst) as [_ Hle].
  destruct Hst; [apply Create_settles|..]; apply calmer_settles, steady_calmer; try done;
    match goal with |- steady _ (fst (?m _)) => assert (Hm : respects steady m); [|by apply Hm] end;
    unfold Renew, Revoke, ReportStatus, reportNodeStatus, updateStatus, ReportPeerEvent, getWithTokens,
      ValidatePeer, tunnel.List, ListEvents, ResolveRelayTarget, WatchNode_turn, returning, getWithTokens; steady_auto.
Qed.

(** *** Retention only deletes *)
Lemma thinner_calmer db db' : thinner db db' -> calmer db db'.
Proof.
  intros [Ha Hg Ht _ _]. split; intros id.
  - intros (a & ? & ?). exists a. auto.
  - intros (i & g & ? & ?). exists i, g. auto.
  - intros (i & t & ? & ? & ?). exists i, t. auto.
Qed.

(** *** Any step *)
#[local] Hint Resolve calm_RevokeInteractive : calm.
Notation a_step := (step ToASCII NewSHA1 sha256_hex encryptNodeToken decryptNodeToken).
Definition left_open (id : string) (db db' : DB) : Prop :=
  exists owner message now, db' = fst (MarkAllocationCreateFailed id owner message now db) /\ ~ ended db id /\ ended db' id.
Lemma store_step_settles id db db' : inv db -> tunnel_inv db ->
  store_step ToASCII NewSHA1 sha256_hex encryptNodeToken decryptNodeToken db db' ->
  settles id db db' \/ left_open id db db' /\
    (open_grant db' id -> open_grant db id) /\ (open_tunnel db' id -> open_tunnel db id).
Proof.
  intros Hi Ht Hs. assert (Hc : forall A (m : Tx A), calm m -> settles id db (fst (m db))) by (intros; by apply calmer_settles).
  destruct Hs;
    [ | left; apply BatchReport_settles | left; apply Inventory_settles | left; apply Unavailable_settles | | | |
    | left; apply CancelRun_settles | | | left; apply Release_settles | | | left; by apply IssueGrant_settles | |
    | left; apply Fail_settles | | left; by apply tunnel_step_settles ];
    try (left; apply Hc;
      unfold AdmitRun, AdmitCandidate, bind_run, LockQuotaPolicy, LockQuotaRows, activeNamespaceAllocationUsage,
        activeCandidateAllocationUsage, insertQuotaAdmissionRejectedEvent, insertRunSecretReferences,
        InsertCapabilityRequirements, RenewReconcileClaim, ScheduleClaimedReconcile, RequireReconcileClaim,
        LoadStartAllocation, CompleteAllocationStart, release_queue, CompleteAllocationReleaseAcknowledgement,
        MarkRootfsSnapshotFailed, BatchReportAllocationCapabilityConditions, ReplaceCapabilityConditions,
        ForceAllocationLifecycleRetry, ClearAllocationLifecycleRetry, lockLifecycleRetry, loadLifecycleRetry,
        deleteLifecycleRetry, requireNoActiveAllocationCleanupState, requireRunConvergedForClear, audit;
      calm_auto; fail).
  destruct (CreateFailed_settles id id0 owner message now db) as [?|(-> & He & Hne & Hg & Htn)]; [by left|right].
  split_and!; auto. by exists owner, message, now.
Qed.
Lemma step_settles id db db' : inv db -> tunnel_inv db -> a_step db db' ->
  (settles id db db' \/ left_open id db db' /\
     (open_grant db' id -> open_grant db id) /\ (open_tunnel db' id -> open_tunnel db id)) /\ inv db' /\ tunnel_inv db'.
Proof.
  intros Hi Ht Hst. split; [|split; [by eapply moves_inv, step_moves|]].
  - destruct Hst as [db' Hst|]; [by apply store_step_settles|]. left. apply calmer_settles, thinner_calmer, thinner_Cleanup.
  - destruct Hst as [db' Hst|]; [by eapply store_step_tun|]. eapply thinner_inv; [apply thinner_Cleanup|done].
Qed.

Lemma steps_settle id db0 db : inv db0 -> tunnel_inv db0 -> rtc a_step db0 db -> ended db id ->
  open_grant db id \/ open_tunnel db id -> (ended db0 id /\ (open_grant db0 id \/ open_tunnel db0 id)) \/
  exists d1 d2, rtc a_step db0 d1 /\ left_open id d1 d2 /\ (open_grant d1 id \/ open_tunnel d1 id) /\ rtc a_step d2 db.
Proof.
  intros Hi Ht Hst. induction Hst as [db|db d db' Hs Hst IH] ; [by left|]. intros He Ho.
  destruct (step_settles id _ _ Hi Ht Hs) as (Hstep & Hi' & Ht').
  destruct (IH Hi' Ht' He Ho) as [[Hed Hod]|(d1 & d2 & H1 & Hl & Hd1 & H2)].
  - destruct Hstep as [[Sg St]|(Hl & Sg & St)].
    + left. destruct Hod as [Hod|Hod]; [destruct (Sg Hed Hod)|destruct (St Hed Hod)]; auto.
    + right. exists db, d. split; [done|]. split; [done|]. split; [|done]. destruct Hod; auto.
  - right. exists d1, d2. split; [by eapply rtc_l|]. done.
Qed.
Lemma stale_row_open db now i : i ∈ stale_rows db now ->
  ended db i.(is_AllocationID) /\
  (open_tunnel db i.(is_AllocationID) \/
   exists g, db.(allocation_access_grants) !! i.(is_DependentID) = Some g /\ g.(g_AllocationID) = i.(is_AllocationID) /\
     g.(g_Revoked) = false /\ now < g.(g_ExpiresAt)).
Proof.
  unfold stale_rows. rewrite elem_of_app, elem_of_grant_rows, elem_of_tunnel_rows.
  intros [(gid & g & a & Hg & Ha & Hs & ->)|(sid & t & a & Ht & Ha & Hs & ->)]; simpl.
  - unfold stale_grant in Hs. rewrite !andb_true_iff, negb_true_iff, Z.ltb_lt in Hs. destruct Hs as [[[? ?] ?] _].
    split; [by exists a|]. right. by exists g.
  - unfold stale_tunnel in Hs. rewrite andb_true_iff in Hs. destruct Hs. split; [by exists a|]. left. by exists sid, t.
Qed.

(** C22: interactive access ends with its Allocation, save for one path.  Start from
    any store without Allocations and let any transactions run, in any order and
    with any outcome.  Every issue the consistency checker then reports, at any
    time and limit, is either a grant that is not interactive (one to read the
    outputs, which outlive the Allocation), or goes back to one transaction:
    [MarkAllocationCreateFailed] ended an Allocation on which access was open. *)
Theorem access_ends db0 db now limit i :
  db0.(allocations) = ∅ -> tunnel_inv db0 -> rtc a_step db0 db ->
  i ∈ (SnapshotWithLimit db now limit).(sn_Issues) ->
  (exists g, db.(allocation_access_grants) !! i.(is_DependentID) = Some g /\
     g.(g_AllocationID) = i.(is_AllocationID) /\ g.(g_Purpose) <> PURPOSE_INTERACTIVE) \/
  exists d1 d2, rtc a_step db0 d1 /\ left_open i.(is_AllocationID) d1 d2 /\
    (open_grant d1 i.(is_AllocationID) \/ open_tunnel d1 i.(is_AllocationID)) /\ rtc a_step d2 db.
Proof.
  intros Hnone Ht0 Hst Hin. rewrite report_issues in Hin.
  apply elem_of_take in Hin as (k & Hk & _). apply list_elem_of_lookup_2, stale_row_open in Hk as [He Hop].
  assert (Hback : open_grant db i.(is_AllocationID) \/ open_tunnel db i.(is_AllocationID) -> exists d1 d2, rtc a_step db0 d1 /\ left_open i.(is_AllocationID) d1 d2 /\
    (open_grant d1 i.(is_AllocationID) \/ open_tunnel d1 i.(is_AllocationID)) /\ rtc a_step d2 db)
    by (intros Ho; destruct (steps_settle _ _ _ (inv_no_allocations _ Hnone) Ht0 Hst He Ho) as [[(a & Ha & _) _]|Hd];
        [by rewrite Hnone, lookup_empty in Ha|exact Hd]).
  destruct Hop as [Hop|(g & Hg & Ea & Hr & _)]; [by right; apply Hback; right|].
  destruct (decide (g.(g_Purpose) = PURPOSE_INTERACTIVE)) as [Hp|Hp]; [right|by left; exists g].
  apply Hback. left. exists i.(is_DependentID), g. split; [done|]. unfold open_interactive.
  by rewrite Ea, String.eqb_refl, bool_decide_true, Hr.
Qed.

(** *** The path that leaves access open *)
Definition same_open (db db' : DB) : Prop :=
  db'.(allocation_access_grants) = db.(allocation_access_grants) /\ db'.(tunnel_sessions) = db.(tunnel_sessions).
#[local] Instance same_open_preorder : PreOrder same_open.
Proof. split; [done|]. intros a b c (?&?) (?&?). split; congruence. Qed.
Ltac open_statement := intros db; repeat (case_match; simpl); try done; by destruct db.
Lemma open_update_allocation id g f : respects same_open (update_allocation id g f).
Proof. unfold update_allocation. open_statement. Qed.
Lemma open_update_run id g f : respects same_open (update_run id g f).
Proof. unfold update_run. open_statement. Qed.
Lemma open_update_queue id g f : respects same_open (update_queue id g f).
Proof. unfold update_queue. open_statement. Qed.
Lemma open_deleteSecrets id : respects same_open (deleteAllocationRunSecretReferences id).
Proof. unfold deleteAllocationRunSecretReferences, modify. open_statement. Qed.
Lemma CreateFailed_open id owner message now : respects same_open (MarkAllocationCreateFailed id owner message now).
Proof.
  unfold MarkAllocationCreateFailed, RequireReconcileClaim, ScheduleClaimedReconcile. apply respects_withTx.
  repeat first
    [ match goal with |- forall _, _ => intro end
    | apply respects_ret | apply respects_fail | apply respects_gets | apply respects_lift | apply respects_guard
    | apply open_update_allocation | apply open_update_run | apply open_update_queue | apply open_deleteSecrets
    | apply respects_bind | apply respects_wrap | case_match ].
Qed.
Lemma CreateFailed_ends id owner message now db db' :
  TrimSpace id = id -> MarkAllocationCreateFailed id owner message now db = (db', Ok ()) -> ended db' id.
Proof.
  intros Et Hx. apply withTx_Ok in Hx. tx_inv.
  match goal with E : ScheduleClaimedReconcile _ _ _ _ = _ |- _ => apply ScheduleClaimed_true in E as (Hheld & q & ->) end.
  cbn [sr_AllocationID sr_Intent] in *. rewrite Et in *.
  apply claim_held_spec in Hheld as (_ & a & _ & Ha & _ & _ & _ & Hint).
  exists a. split; [|rewrite ended_row_cleanup; by destruct (a_State a)].
  match goal with |- context [set_queue ?d ?m] => by rewrite (proj1 (proj2 (proj2 (set_frames d)) m)) end.
Qed.

(** C36: a failed start can leave access open.  The node reports an Allocation
    ACTIVE while the reconciler still holds the claim of its start, access is
    granted, and the start fails: the Allocation is torn down, its grants and
    sessions stay, and a grant that has not expired makes the consistency checker
    report the store as inconsistent. *)
Theorem create_failure_leaves_access id owner message now db db' gid g limit :
  TrimSpace id = id -> MarkAllocationCreateFailed id owner message now db = (db', Ok ()) ->
  db.(allocation_access_grants) !! gid = Some g -> open_interactive id g = true -> sql_time now < g.(g_ExpiresAt) ->
  db'.(allocation_access_grants) = db.(allocation_access_grants) /\ db'.(tunnel_sessions) = db.(tunnel_sessions) /\
  (exists a, db'.(allocations) !! id = Some a /\ (a.(a_State) = ALS_RELEASING \/ a.(a_State) = ALS_RELEASED)) /\
  (SnapshotWithLimit db' now limit).(sn_Status) = StatusInconsistent.
Proof.
  intros Et Hx Hg Ho Hexp. destruct (CreateFailed_ends _ _ _ _ _ _ Et Hx) as (a & Ha & He).
  apply (respects_Ok (R := same_open)) in Hx as [Eg Es]; [|apply CreateFailed_open].
  split; [done|]. split; [done|]. split.
  { exists a. split; [done|]. rewrite ended_row_cleanup in He. destruct (a_State a); auto; done. }
  rewrite report_status, bool_decide_false; [done|]. intros Hs. unfold stale_rows in Hs. apply app_eq_nil in Hs as [Hs _].
  unfold open_interactive in Ho. rewrite !andb_true_iff, String.eqb_eq, bool_decide_eq_true, negb_true_iff in Ho.
  destruct Ho as [[Ei' Hp] Hr].
  assert (Hin : dependent_issue dependentResourceAccessGrant
    (mkDependent g.(g_CreatedAt) gid g.(g_AllocationID) a.(a_NodeID) (AllocationLifecycleState_String a.(a_State)) a.(a_RunID))
    ∈ map (dependent_issue dependentResourceAccessGrant) (grant_rows db' (sql_time now))).
  { apply elem_of_grant_rows. exists gid, g, a. rewrite Eg, Ei'. split_and!; try done.
    unfold stale_grant. by rewrite Hr, He, Hp, (proj2 (Z.ltb_lt _ _) Hexp). }
  rewrite Hs in Hin. by apply elem_of_nil in Hin.
Qed.
End steps.

(** ** The path, step by step *)
Definition ex_active : DB :=
  (@BatchReportAllocationLifecycle microseconds "n2"
     [Some (mkLifecycleObservation ex_alloc_id ALS_ACTIVE None "" (Some (timestamppb_New (2000 * Second))) WDC_UNSPECIFIED)]
     (2000 * Second) ex_admitted).1.
Definition ex_claimed : DB := (@ClaimDueReconcileItems microseconds ∅ "worker" 10 (1999 * Second) (60 * Second) ex_active).1.
Definition ex_granted : DB :=
  (@IssueAllocationAccessGrant microseconds ex_alloc_id PURPOSE_INTERACTIVE 0 (2001 * Second) "grant-1" "hash" ex_claimed).1.
Definition ex_failed := @MarkAllocationCreateFailed microseconds ex_alloc_id "worker" "start failed" (2002 * Second) ex_granted.
Definition ex_issues : list Issue := (@SnapshotWithLimit microseconds (fst ex_failed) (2003 * Second) 0).(sn_Issues).
Definition ex_issue : Issue := default (mkIssue "" "" "" "" "" "" "" "") (head ex_issues).
Lemma ex_issues_one : ex_issues = [ex_issue] /\ is_AllocationID ex_issue = ex_alloc_id /\ is_DependentID ex_issue = "grant-1" /\
  is_Code ex_issue = IssueActiveAccessGrantOnEndedAllocation.
Proof. split_and!; vm_compute; reflexivity. Qed.
Lemma ex_failed_steps : ex_all_steps any_id (ex_db no_quota) (fst ex_failed).
Proof.
  etransitivity; [exact ex_admit_step|].
  eapply rtc_l; [apply keep, (do_BatchReport _ _ _ _ _ _ "n2")|]. eapply rtc_l; [apply keep, (do_ClaimDue _ _ _ _ _ _ ∅ "worker" 10)|].
  eapply rtc_l; [apply keep, (do_IssueGrant _ _ _ _ _ _ ex_alloc_id PURPOSE_INTERACTIVE)|]. apply rtc_once, keep, do_CreateFailed.
Qed.
Lemma ex_grant_open : exists g, ex_granted.(allocation_access_grants) !! "grant-1" = Some g /\
  open_interactive ex_alloc_id g = true /\ 2002 * Second < g.(g_ExpiresAt) /\ g.(g_Purpose) = PURPOSE_INTERACTIVE /\
  (fst ex_failed).(allocation_access_grants) !! "grant-1" = Some g.
Proof.
  destruct (allocation_access_grants ex_granted !! "grant-1") as [g|] eqn:E; [|vm_compute in E; discriminate].
  exists g. split; [done|]. vm_compute in E. injection E as <-. split_and!; vm_compute; reflexivity.
Qed.
Lemma access_ends_witness :
  exists d1 d2, ex_all_steps any_id (ex_db no_quota) d1 /\ @left_open microseconds ex_alloc_id d1 d2 /\
    (open_grant d1 ex_alloc_id \/ open_tunnel d1 ex_alloc_id).
Proof.
  destruct ex_issues_one as (E1 & E2 & E3 & _). destruct ex_grant_open as (g & _ & _ & _ & Hp & Hg).
  assert (Hin : ex_issue ∈ ex_issues) by (rewrite E1; constructor).
  destruct (@access_ends any_id amd64 microseconds Ok id ex_hash id ex_decrypt (ex_db no_quota) (fst ex_failed) (2003 * Second) 0
    ex_issue eq_refl ltac:(apply tunnel_inv_check_ok; vm_compute; reflexivity) ex_failed_steps Hin)
    as [(g' & Hg' & _ & Hn)|(d1 & d2 & H1 & H2 & H3 & _)].
  - rewrite E3 in Hg'. destruct Hn. pose proof (eq_trans (eq_sym Hg') Hg) as E. injection E as ->. exact Hp.
  - rewrite E2 in H2, H3. exists d1, d2. split; [exact H1|]. split; [exact H2|exact H3].
Defined.
Lemma create_failure_leaves_access_witness :
  snd ex_failed = Ok () /\ (@SnapshotWithLimit microseconds (fst ex_failed) (2002 * Second) 200).(sn_Status) = StatusInconsistent.
Proof.
  assert (Hok : snd ex_failed = Ok ()) by (vm_compute; reflexivity). split; [exact Hok|].
  destruct ex_grant_open as (g & Hg & Ho & He & _).
  apply (@create_failure_leaves_access microseconds ex_alloc_id "worker" "start failed" (2002 * Second) ex_granted
    (fst ex_failed) "grant-1" g 200).
  - vm_compute. reflexivity.
  - rewrite <- Hok. apply surjective_pairing.
  - exact Hg.
  - exact Ho.
  - exact He.
Defined.
